(* ===== verification/_CoqProject ===== *)
-Q . S2P
Prelude.v
Cxx.v
Json.v
Effects.v
Amount.v
NotifyUrl.v
Rfc3339.v
ChannelFields.v
OnceCallback.v
Registry.v
Auth.v
PayErrors.v
Store.v
RefDb.v
Idempotency.v
Callback.v
Queued.v
Service.v
RefundService.v
PaymentService.v
PaymentCreate.v
QrPayment.v
PaymentReports.v
RefundCallback.v
RefDbFacts.v
Scenario.v
RefundGuard.v
Channels.v
KeyedGuard.v
RefundPool.v
RefundRun.v
RefundEnds.v
RefundCases.v
CreateGuard.v
CreateRun.v
QrGuard.v
WechatChannel.v
WechatTrust.v
WechatRefund.v
PaymentSync.v
RefundSync.v
WechatCreate.v
PaymentAck.v
PaymentSettle.v
RefundAck.v
RefundSettle.v
WechatNotify.v
AlipayChannel.v
AlipayNotify.v
AlipayCreate.v
PayHandlers.v
OrderListing.v
Gateway.v
ApiRoutes.v
Reconciliation.v
NotifyRoute.v
PayPlugin.v
Orm.v
PayOrder.v
PayPayment.v
PayRefund.v
PayLedger.v
PayCallback.v
PayIdempotency.v
OrmStatements.v
OrmJson.v
OrmRows.v
