(* ===== verification/Prelude.v ===== *)
(** * drogon-pay: a verification development.

    drogon-pay (src/libs/drogon-pay) is a payment plugin for the drogon web
    framework: it creates and queries WeChat Pay and Alipay payments and refunds,
    receives the channels' notifications, and reconciles what stayed open.  Its
    services are callback code over PostgreSQL (drogon's ORM) and Redis.  This
    library models the parts listed below as executable definitions translated
    from the sources and proves what makes them correct.

    ** The parts of the program and where they are modelled

    - [Cxx.v]: what the sources use of C++: 64-bit integers with their wrap-around,
      characters, string searches, [std::to_string], [std::stoll].
    - [Json.v]: jsoncpp as an interface ([JsonLib]); an accessor that throws
      answers [None].  [Tree] is an instance for the witnesses.
    - utils/PayUtils.cc: amounts and channel states in [Amount.v], notification
      URLs in [NotifyUrl.v], expiry timestamps in [Rfc3339.v], path segments and
      WeChat field limits in [ChannelFields.v].  [Amount.v] also holds the amount
      gates of PaymentService.cc ([reconcileAmountProblem],
      [orderStatusAfterRefundCoverage]) and of handlers/PayHandlers.cc
      ([validateAmount]).
    - utils/OnceCallback.h: [OnceCallback.v], a step relation of the threads that
      share one object; the function they race for returns or throws.
    - ChannelRegistry.cc: [Registry.v], registration, freeze, lookup.
    - include/drogon_pay/PayErrorCategory.h and channels/HttpClientPool.h: [PayErrors.v],
      the messages that all errors share and the cached HTTP clients.
    - handlers/AuthCheck.cc and handlers/PayAuthMetrics.cc: [Auth.v], the API key
      and scope check and its counters.
    - services/IdempotencyService.cc: [Idempotency.v].
    - services/CallbackService.cc: the shared helpers and [handlePaymentCallback]
      in [Callback.v] (Module [Payment]), [handleRefundCallback] in
      [RefundCallback.v] (Module [Refund]); one definition per lambda of the source.
    - handlers/CallbackHandlers.cc: [WechatCallbackController::notify], the endpoint
      in front of both, in [WechatNotify.v] and, behind its route, [NotifyRoute.v];
      [AlipayCallbackController::notify] in [AlipayNotify.v].
    - services/RefundService.cc: [RefundService.v] (Module [Refunds]): [createRefund]
      with its chain of checks, its transaction and the channel call,
      [syncRefundStatusFromWechat] and [queryRefund].
    - services/PaymentService.cc: [PaymentService.v] (Module [Payments]): the reading
      of channel answers, [bookRefusedAttempt], both order syncs, [queryOrder];
      [PaymentCreate.v]: [createPayment] and [proceedCreatePayment]; [QrPayment.v]:
      [createQRPayment]; [PaymentReports.v]: [reconcileSummary], whose two chains of
      callbacks interleave, and [queryOrderList].
    - services/ReconciliationService.cc: [Reconciliation.v]: the timer's options, the
      pages of the sweeps, what the answer to each row starts, the counts.
    - channels/WechatChannel.cc: [WechatChannel.v]: configuration, signing, requests,
      the reading of answers, the certificate cache and its refresh, notifications.
    - channels/AlipayChannel.cc: [AlipayChannel.v]: configuration, signing, requests,
      the reading of answers, the parameters and the signed text of a notification.
    - include/drogon_pay/PaymentChannel.h: [Channels.v], the interface as a class with
      the promise RefundService relies on; its instances are [WechatRefund.wechat] and
      [AlipayCreate.alipay].
    - handlers/PayHandlers.cc: [PayHandlers.v] (Module [PayController]): every handler
      of the API as a function of the request that answers, calls a service or throws.
    - PayPlugin.cc: [Gateway.v] has the exception barrier [guarded], the authorisation
      and the routes, with handlers/PayMetricsHandlers.cc; [ApiRoutes.v] and
      [NotifyRoute.v] put a handler, its service and the channel or the database behind
      the barrier; [PayPlugin.v] has the start from the configuration, the worker loop
      with its timers and tasks, and the shutdown.
    - src/models: the six classes are one program unrolled over the columns of their
      tables.  [Orm.v] has that program over a list of columns: members and their dirty
      flags, the INSERT and UPDATE texts and arguments, reading from rows and JSON,
      writing JSON, validation.  [PayOrder.v], [PayPayment.v], [PayRefund.v],
      [PayLedger.v], [PayCallback.v] and [PayIdempotency.v] have the columns of each
      class, all its methods by their names, and the relations ([getPayOrder]).
      [OrmRows.v] has the models as the services build and change them.

    ** Effects

    [Effects.v] has the programs: trees of interactions, one node per operation
    whose answer arrives in a callback, with [Done] when control returns to the
    event loop and [Escape] when an exception leaves a callback.  [Store.v] has the
    interactions of the services (clock, UUIDs, SQL statements typed by their
    result, transactions, Redis, the answer of the request) and the rows they work
    on.  A call made inside a [try] has its exception answer handled there; one made
    outside escapes.  [Queued.v] has the callbacks that submit several statements to
    one transaction before the first of them answers, and the queue that executes
    them in order.  [RefundCallback.fuel] bounds the statements of the refund
    settlement by 8; [RefundAck.refund_fuel_enough] shows that no execution runs
    more, so that the bound changes nothing.  [Service.v] adds the calls of the
    payment channels and the callback that takes the answer of a request; its
    programs host those of [IdempotencyService] through the class
    [Effects.Hosts].  [RefundService.depth] is 1: [proceedRefund] calls itself only
    with the payment number it found, and again only if that number is empty, which
    [RefundGuard.refund_request_answered] excludes by hypothesis.
    [RefundService.syncFuel] is 7, the statements of the sync in the order the
    source submits them: refund, payload, order lookup, ledger lookup, sum, ledger
    insert, order update.  The [shared_ptr] that the callbacks of an order sync
    share is a cell ([Service.celled]), interpreted by [with_cell];
    [PaymentService.fuel] is 6.  [RefundSync.refund_sync_fuel_enough] and
    [PaymentSync.sync_fuel_enough] show that both are enough.

    Three environments run the programs.  The first answers every operation with
    anything ([logs]); it only keeps [txn_rely], the documented behaviour of
    transactions: after a failed statement or a rollback no statement of the
    transaction succeeds.  The second, [RefDb.v], executes the statements on
    tables, with a list of injected failures; [RefDbFacts.v] holds its shared
    lemmas and [Scenario.v] the concrete deployments of the witnesses.  The third,
    [RefundPool.v], interleaves any number of refund requests on shared tables,
    operation by operation, with row locks and private uncommitted writes.

    ** What the theorems show

    - Notifications.  [PaymentAck.v] and [RefundAck.v], for every environment: a
      notification is acknowledged with SUCCESS only if it is genuine and its
      settlement is durable or known to have happened before; the statements that
      write money state are issued only for a genuine notification that agrees with
      the rows read in the same transaction; a payment notification is answered
      exactly once.  A refund notification is answered at least once and a SUCCESS
      is its only answer; its failure callbacks can answer twice, which
      [refund_failure_answers_twice] computes.  [PaymentSettle.v] and
      [RefundSettle.v], on the reference database: a first delivery ends in exactly
      the settled tables, whichever calls fail a delivery books everything or
      nothing, and a second delivery of a payment books nothing.
      [NotifyRoute.v] carries the first result through the endpoint and the exception
      barrier: the route answers at most once, and HTTP 200 only for such a
      notification.  [AlipayNotify.v]: what a notification of Alipay writes, and when it
      is acknowledged; its signed text does not depend on how the form is written.
    - Refund requests.  [RefundGuard.v], for every environment: a channel is asked at
      most once, for exactly the requested refund, after a committed transaction that
      locked the payment and found room for it; what is booked about its answer is
      what it said; the request is answered exactly once.  [RefundRun.v]: on the
      reference tables the chain of callbacks refines one decision ([verdict_of]).
      [RefundEnds.v] takes it from end to end: which payment a request without its
      number is about, what the channel's answer makes of the rows and of the caller's
      answer ([channel_fate], [tables_after]), and of its idempotency key
      ([keyed_ending]).
      [RefundPool.v]: concurrent requests never refund more than was paid.
      [RefundCases.v] computes deployments that show where other paths break this.
    - Payment requests.  [CreateGuard.v] and [QrGuard.v] (over the shared
      [KeyedGuard.v]), for every environment: a channel is asked at most once, after the
      commit that booked exactly the requested payment, and what is booked about its
      answer is what it said.  [CreateRun.v]: on the reference database a booked payment
      ends, in both rows and in the answer, as the channel answers.  [AlipayCreate.v]
      and [WechatCreate.v] compose the creation with the channels: which failures close
      an attempt.
    - Reports.  [PaymentReports.v]: however the two chains of [reconcileSummary]
      interleave, one answer is sent, made of what both were answered.
    - Routes and handlers.  [PayHandlers.v]: on an object no handler throws, and a
      service is called only with fields of their types; the listing's numbers are in
      range.  [OrderListing.v]: no part of a listing request becomes part of the SQL
      text.  [Gateway.v]: a route answers at most once, and reaches nothing unless the
      API key is allowed.  [ApiRoutes.v] composes the creations and the refund with the
      API key check and the handlers: from the HTTP request to the call of the channel.
    - Start and stop.  [PayPlugin.v]: the start is all or nothing for the outside, with
      every service wired to exactly the configured channels; after a shutdown nothing
      is left, and every channel was started once and stopped once.
    - Reconciliation.  [Reconciliation.v]: what a sweep writes about an answer is proved
      by the answer, and only overdue unpaid orders are closed; an order that a full
      page leaves out stays left out while the page's orders stay open.
    - Order and refund syncs.  [RefundSync.v] proves of refunds what [PaymentSync.v]
      proves of orders.  [PaymentSync.v], for every environment: what a sync writes is
      proved by the channel's answer (the amount, the settled refunds, the order in
      which payment, order and ledger move), its callback runs at most once, and its
      fuel is enough ([sync_fuel_enough]).
    - The WeChat channel.  [WechatTrust.v]: whatever was stored before, an accepted
      notification or answer is signed under a valid certificate that was checked;
      downloads keep their interval.  [WechatRefund.v] composes the channel with
      RefundService: the service's reading of an error text is exact, and REFUND_FAIL
      is booked only on a signed refusal or when nothing was sent; that is the instance
      for WeChat of what [Channels.v] proves over any channel that keeps the promise
      of the interface, which Alipay does not ([AlipayCreate.alipay_not_honest]).  [WechatCreate.v]
      does the same for PaymentService's create path, where answers that failed
      verification count as refusals.
    - Models.  [OrmStatements.v]: for any table, the text of an INSERT, its numbered
      placeholders and its arguments agree and write what the model holds; an UPDATE
      writes what was set and nothing else.  [OrmRows.v]: therefore each statement of
      [RefDb] that stands for a [Mapper] call writes what the model built at that call
      writes.  [OrmJson.v]: a model is read back from its JSON, its dates as their printed
      texts read ([reread]), and JSON that passes validation is read without an exception
      into a well-typed model.
    - Idempotency.  The contract of [checkDatabase] on every row, the life cycle of
      a reservation, and that interleaved statements take a key at most once between
      two releases.
    - Access.  [checkAuth] decides as the policy [decides], a relation on the members of
      the configuration and the texts of the request that uses none of its functions; the
      counters are the numbers of refusals modulo [2^64].
    - Parsers and validators.  Each accepts exactly an independently stated
      language, with its value: amounts ([amount_denotes]), timestamps
      ([ts_text], [ts_instant], over the leap-year rule [leap_year] and the days counted
      year by year and month by month, [day_number]), IPv4 and IPv6 hosts, path segments (a round trip),
      WeChat order fields.
    - Concurrency.  A callback shared by any number of threads runs at most once, also
      when it throws.

    ** Not modelled

    The database, Redis, OpenSSL, jsoncpp, the file system, the HTTP client and the
    event loops of drogon and trantor are parameters or environments.  Logging is left
    out.  jsoncpp's reader throws on documents nested beyond its stack limit; the model
    takes no such document.  [newTransactionAsync] answers null only where the source tests for it.  The
    floating-point amount of the channel interface's event is not modelled; of the
    interface's two methods that create a payment, only the one for QR codes is an
    operation of [Service.channel_op], since no service calls the other.
    Certificate downloads on a timer are the event [PayPlugin.Refreshed]; the download itself is
    [WechatChannel.downloadCertificates].  Of the model classes, drogon's rows, binders
    and [Mapper], [strptime] with [mktime], the printing of dates and the conversion to
    wide characters are parameters; [updateId] is empty in every class.  models/orm_compat.h
    replaces a standard class from C++20 on, and the build sets C++17. *)
From stdpp Require Export base tactics list numbers strings.
From Stdlib Require Export ZArith Lia String Ascii.

#[global] Open Scope string_scope.
#[global] Open Scope Z_scope.

(** stdpp blocks the reduction of string concatenation; the proofs below
    compute with it. *)
#[global] Arguments String.append !_ _ : simpl nomatch.

(** ** Automation *)

(** Split on the scrutinee of the first [if] or [match] found in the goal. *)
Ltac split_goal :=
  match goal with
  | |- context [if ?b then _ else _] => destruct b eqn:?
  | |- context [match ?x with _ => _ end] => destruct x eqn:?
  end.

(** The same on a hypothesis. *)
Ltac split_in H :=
  match type of H with
  | context [if ?b then _ else _] => destruct b eqn:?
  | context [match ?x with _ => _ end] => destruct x eqn:?
  end.

(** Turn boolean tests into propositions. *)
Create HintDb breflect discriminated.
Ltac breflect :=
  repeat progress rewrite ?andb_true_iff, ?andb_false_iff, ?orb_true_iff, ?orb_false_iff,
    ?negb_true_iff, ?negb_false_iff, ?Z.eqb_eq, ?Z.eqb_neq, ?Z.leb_le,
    ?Z.leb_gt, ?Z.ltb_lt, ?Z.ltb_ge, ?String.eqb_eq, ?String.eqb_neq,
    ?Nat.eqb_eq, ?Nat.eqb_neq, ?Nat.leb_le, ?Nat.leb_gt, ?Nat.ltb_lt,
    ?Nat.ltb_ge in *.

(** [lia] after unfolding the divisions and remainders of the goal. *)
Ltac zlia := Z.to_euclidean_division_equations; lia.

(** Case analysis on the integer comparisons of the goal, with their meaning. *)
Ltac zcases :=
  repeat match goal with
  | |- context [?a <=? ?b] => destruct (Z.leb_spec a b)
  | |- context [?a <? ?b] => destruct (Z.ltb_spec a b)
  | |- context [?a =? ?b] => destruct (Z.eqb_spec a b)
  end.

(** Finite checks: a boolean property tested on [0 .. n-1] holds there. *)
Lemma forall_below (P : Z -> bool) (n : nat) :
  forallb P (map Z.of_nat (seq 0 n)) = true ->
  forall z, 0 <= z < Z.of_nat n -> P z = true.
Proof.
  intros H z Hz. rewrite forallb_forall in H. apply H.
  apply in_map_iff. exists (Z.to_nat z). split; [lia |]. apply in_seq. lia.
Qed.
