(* ===== verification/Cxx.v ===== *)
(** * C++ standard-library pieces used by the sources: 64-bit integers,
    characters, [std::string] searches, [std::to_string] and [std::stoll]. *)
From S2P Require Import Prelude.

(** ** [int64_t] *)

Definition int64_max : Z := 2 ^ 63 - 1.
Definition int64_min : Z := - 2 ^ 63.
Definition in_int64 (z : Z) : Prop := int64_min <= z <= int64_max.

(** Two's-complement wrap-around to 64 bits. *)
Definition wrap64 (z : Z) : Z := (z + 2 ^ 63) mod 2 ^ 64 - 2 ^ 63.

Lemma wrap64_small z : in_int64 z -> wrap64 z = z.
Proof.
  unfold in_int64, wrap64, int64_min, int64_max. intros H.
  rewrite Z.mod_small; lia.
Qed.

(** ** Characters *)

Definition code (c : ascii) : Z := Z.of_N (N_of_ascii c).

Definition isdigit (c : ascii) : bool := (48 <=? code c) && (code c <=? 57).

Definition digit (c : ascii) : Z := code c - 48.

Definition digit_char (d : Z) : ascii := ascii_of_N (Z.to_N (48 + d)).

Lemma code_range c : 0 <= code c < 256.
Proof. unfold code. pose proof (N_ascii_bounded c). lia. Qed.

Lemma code_inj c c' : code c = code c' -> c = c'.
Proof.
  unfold code. intros H. apply N2Z.inj in H.
  rewrite <- (ascii_N_embedding c), <- (ascii_N_embedding c'). by rewrite H.
Qed.

Lemma code_of z : 0 <= z < 256 -> code (ascii_of_N (Z.to_N z)) = z.
Proof. intros H. unfold code. rewrite N_ascii_embedding; lia. Qed.

Lemma digit_digit_char d : 0 <= d <= 9 -> digit (digit_char d) = d.
Proof. intros H. unfold digit, digit_char. rewrite code_of; lia. Qed.

Lemma digit_char_digit c : isdigit c = true -> digit_char (digit c) = c.
Proof.
  unfold isdigit, digit_char, digit. intros H. breflect. apply code_inj.
  rewrite code_of; [lia | pose proof (code_range c); lia].
Qed.

Lemma isdigit_digit_char d : 0 <= d <= 9 -> isdigit (digit_char d) = true.
Proof.
  intros H. unfold isdigit, digit_char. rewrite code_of by lia. breflect. lia.
Qed.

Lemma digit_bounds c : isdigit c = true -> 0 <= digit c <= 9.
Proof. unfold isdigit, digit. intros H. breflect. lia. Qed.

#[export] Hint Resolve digit_bounds isdigit_digit_char : breflect.

(** ** [std::string] *)

Fixpoint all_char (P : ascii -> bool) (s : string) : bool :=
  match s with
  | EmptyString => true
  | String c s' => P c && all_char P s'
  end.

Abbreviation all_digits := (all_char isdigit).

Definition is_empty (s : string) : bool :=
  match s with EmptyString => true | _ => false end.

Definition mem_char (set : string) (c : ascii) : bool :=
  negb (all_char (fun d => negb (Ascii.eqb d c)) set).

(** [s.find_first_of(set)]: the text before the first character of [set], and
    the text from it on; [None] is [npos]. *)
Fixpoint split_at (P : ascii -> bool) (s : string) : option (string * string) :=
  match s with
  | EmptyString => None
  | String c s' =>
      if P c then Some (EmptyString, s)
      else match split_at P s' with
           | Some (a, b) => Some (String c a, b)
           | None => None
           end
  end.

Definition drop_one (s : string) : string :=
  match s with EmptyString => EmptyString | String _ s' => s' end.

(** [s.find(c)]: the text before the first [c] and the text after it. *)
Definition find_split (c : ascii) (s : string) : option (string * string) :=
  match split_at (Ascii.eqb c) s with
  | Some (a, b) => Some (a, drop_one b)
  | None => None
  end.

(** [s.rfind(c)]: the text after the last [c]. *)
Fixpoint after_last (c : ascii) (s : string) : option string :=
  match s with
  | EmptyString => None
  | String d s' =>
      match after_last c s' with
      | Some t => Some t
      | None => if Ascii.eqb c d then Some s' else None
      end
  end.

(** [s.find(needle) != npos]. *)
Fixpoint contains (needle s : string) : bool :=
  String.prefix needle s
  || match s with EmptyString => false | String _ s' => contains needle s' end.

Definition to_lower_char (c : ascii) : ascii :=
  if (65 <=? code c) && (code c <=? 90) then ascii_of_N (Z.to_N (code c + 32)) else c.

Fixpoint map_string (f : ascii -> ascii) (s : string) : string :=
  match s with
  | EmptyString => EmptyString
  | String c s' => String (f c) (map_string f s')
  end.

Definition to_lower : string -> string := map_string to_lower_char.

Definition slen (s : string) : Z := Z.of_nat (String.length s).

(** *** Lemmas on strings *)

Lemma sapp_nil_r s : s +:+ "" = s.
Proof. induction s as [|c s IH]; simpl; congruence. Qed.

Lemma sapp_assoc a b c : (a +:+ b) +:+ c = a +:+ (b +:+ c).
Proof. induction a as [|x a IH]; simpl; congruence. Qed.

Lemma slen_app a b : slen (a +:+ b) = slen a + slen b.
Proof. unfold slen. induction a as [|x a IH]; simpl String.length; cbn [append]; lia. Qed.

Lemma slen_nonneg s : 0 <= slen s.
Proof. unfold slen. lia. Qed.

Lemma slen_cons c s : slen (String c s) = 1 + slen s.
Proof. unfold slen. simpl String.length. lia. Qed.

Lemma slen_0 s : slen s = 0 -> s = "".
Proof. destruct s; [done |]. rewrite slen_cons. pose proof (slen_nonneg s). lia. Qed.

Lemma slen_1 s : slen s = 1 -> exists c, s = String c "".
Proof.
  destruct s as [|c s]; [done |]. rewrite slen_cons. intros H. exists c.
  f_equal. apply slen_0. lia.
Qed.

Lemma slen_2 s : slen s = 2 -> exists c d, s = String c (String d "").
Proof.
  destruct s as [|c s]; [done |]. rewrite slen_cons. intros H. exists c.
  destruct (slen_1 s) as [d ->]; [lia |]. by exists d.
Qed.

Lemma is_empty_true s : is_empty s = true <-> s = "".
Proof. by destruct s. Qed.

Lemma all_char_app P a b : all_char P (a +:+ b) = all_char P a && all_char P b.
Proof. induction a as [|c a IH]; simpl; [done |]. by rewrite IH, andb_assoc. Qed.

Lemma all_char_impl (P Q : ascii -> bool) s :
  (forall c, P c = true -> Q c = true) -> all_char P s = true -> all_char Q s = true.
Proof.
  intros HPQ. induction s as [|c s IH]; simpl; [done |].
  rewrite !andb_true_iff. naive_solver.
Qed.

Lemma split_at_app P a c b :
  all_char (fun x => negb (P x)) a = true -> P c = true ->
  split_at P (a +:+ String c b) = Some (a, String c b).
Proof.
  intros Ha Hc. induction a as [|x a IH]; simpl in *; [by rewrite Hc |].
  apply andb_true_iff in Ha as [Hx Ha]. apply negb_true_iff in Hx.
  by rewrite Hx, IH.
Qed.

Lemma split_at_none P s :
  split_at P s = None <-> all_char (fun x => negb (P x)) s = true.
Proof.
  induction s as [|c s IH]; simpl; [done |]. destruct (P c); simpl; [done |].
  rewrite <- IH. by destruct (split_at P s) as [[]|].
Qed.

Lemma split_at_some P s a b :
  split_at P s = Some (a, b) ->
  s = a +:+ b /\ all_char (fun x => negb (P x)) a = true /\
  exists c b', b = String c b' /\ P c = true.
Proof.
  revert a b. induction s as [|c s IH]; simpl; [done |]. intros a b.
  destruct (P c) eqn:Hc; [naive_solver |].
  destruct (split_at P s) as [[a' b']|]; [|done]. intros [= <- <-].
  destruct (IH a' b' eq_refl) as (-> & Ha & Hb). simpl. by rewrite Hc.
Qed.

Lemma find_split_app c a b :
  all_char (fun x => negb (Ascii.eqb c x)) a = true ->
  find_split c (a +:+ String c b) = Some (a, b).
Proof.
  intros Ha. unfold find_split. rewrite split_at_app; [done.. |].
  apply Ascii.eqb_refl.
Qed.

Lemma find_split_none c s :
  find_split c s = None <-> all_char (fun x => negb (Ascii.eqb c x)) s = true.
Proof.
  unfold find_split. rewrite <- split_at_none.
  by destruct (split_at _ s) as [[]|].
Qed.

Lemma find_split_some c s a b :
  find_split c s = Some (a, b) ->
  s = a +:+ String c b /\ all_char (fun x => negb (Ascii.eqb c x)) a = true.
Proof.
  unfold find_split. destruct (split_at _ s) as [[a' b']|] eqn:E; [|done].
  intros [= <- <-]. apply split_at_some in E as (-> & Ha & d & b'' & -> & Hd).
  apply Ascii.eqb_eq in Hd as ->. done.
Qed.

Lemma after_last_none c s :
  all_char (fun x => negb (Ascii.eqb c x)) s = true -> after_last c s = None.
Proof.
  induction s as [|d s IH]; simpl; [done |]. intros H.
  apply andb_true_iff in H as [Hd Hs]. apply negb_true_iff in Hd.
  by rewrite IH, Hd.
Qed.

Lemma after_last_app c a b :
  all_char (fun x => negb (Ascii.eqb c x)) b = true ->
  after_last c (a +:+ String c b) = Some b.
Proof.
  intros Hb. induction a as [|d a IH]; simpl; [|by rewrite IH].
  by rewrite after_last_none, Ascii.eqb_refl.
Qed.

(** A digit string holds no occurrence of a non-digit character. *)
Lemma digits_avoid c s :
  isdigit c = false -> all_digits s = true ->
  all_char (fun x => negb (Ascii.eqb c x)) s = true.
Proof.
  intros Hc. apply all_char_impl. intros d Hd.
  destruct (Ascii.eqb_spec c d) as [->|]; [congruence | done].
Qed.

#[export] Hint Resolve digits_avoid : breflect.

(** ** Decimal numerals *)

Fixpoint digits_value (acc : Z) (s : string) : Z :=
  match s with
  | EmptyString => acc
  | String c s' => digits_value (acc * 10 + digit c) s'
  end.

Lemma digits_value_app acc a b :
  digits_value acc (a +:+ b) = digits_value (digits_value acc a) b.
Proof. revert acc. induction a as [|c a IH]; intros acc; simpl; [done | apply IH]. Qed.

Lemma digits_value_mono s acc acc' :
  all_digits s = true -> 0 <= acc <= acc' ->
  0 <= acc <= digits_value acc s /\ digits_value acc s <= digits_value acc' s.
Proof.
  revert acc acc'. induction s as [|c s IH]; intros acc acc'; simpl; intros H Hacc; [lia |].
  apply andb_true_iff in H as [Hc Hs].
  pose proof (digit_bounds c Hc).
  destruct (IH (acc * 10 + digit c) (acc' * 10 + digit c) Hs); lia.
Qed.

Lemma digits_value_nonneg s : all_digits s = true -> 0 <= digits_value 0 s.
Proof. intros H. pose proof (digits_value_mono s 0 0 H). lia. Qed.

(** [std::to_string] of a non-negative integer; [fuel] bounds the digit count. *)
Fixpoint dec_aux (fuel : nat) (n : Z) (acc : string) : string :=
  match fuel with
  | O => acc
  | S f =>
      let acc' := String (digit_char (n mod 10)) acc in
      if n <? 10 then acc' else dec_aux f (n / 10) acc'
  end.

Definition dec_fuel (n : Z) : nat := S (Z.to_nat (Z.log2 n)).

Definition to_string (z : Z) : string :=
  if z <? 0 then String "-" (dec_aux (dec_fuel (- z)) (- z) "")
  else dec_aux (dec_fuel z) z "".

Lemma dec_fuel_step n : 10 <= n -> (dec_fuel (n / 10) < dec_fuel n)%nat.
Proof.
  intros H. unfold dec_fuel.
  assert (Z.log2 (n / 10) < Z.log2 n); [|pose proof (Z.log2_nonneg (n / 10)); lia].
  assert (Hd : 1 <= n / 10 <= n / 2) by zlia.
  assert (Z.log2 (n / 10) <= Z.log2 (n / 2)) by (apply Z.log2_le_mono; zlia).
  assert (Z.log2 (2 * (n / 2)) = Z.succ (Z.log2 (n / 2))) by (apply Z.log2_double; zlia).
  assert (Z.log2 (2 * (n / 2)) <= Z.log2 n) by (apply Z.log2_le_mono; zlia).
  lia.
Qed.

Lemma dec_aux_spec fuel n acc :
  0 <= n -> (dec_fuel n <= fuel)%nat ->
  exists ds, dec_aux fuel n acc = ds +:+ acc /\ all_digits ds = true /\
    digits_value 0 ds = n /\ 1 <= slen ds /\ (10 <= n -> 2 <= slen ds).
Proof.
  revert n acc. induction fuel as [|f IH]; intros n acc Hn Hf; [unfold dec_fuel in Hf; lia |].
  simpl dec_aux. assert (0 <= n mod 10 <= 9) by zlia.
  destruct (Z.ltb_spec n 10).
  - exists (String (digit_char (n mod 10)) ""). simpl.
    rewrite isdigit_digit_char, digit_digit_char by lia.
    rewrite Z.mod_small by lia. rewrite slen_cons. change (slen "") with 0.
    repeat split; lia.
  - destruct (IH (n / 10) (String (digit_char (n mod 10)) acc)) as (ds & -> & Hd & Hv & Hl & _);
      [zlia | pose proof (dec_fuel_step n); lia |].
    exists (ds +:+ String (digit_char (n mod 10)) "").
    rewrite sapp_assoc, all_char_app, digits_value_app, Hv, slen_app, slen_cons.
    simpl. rewrite isdigit_digit_char, digit_digit_char by lia.
    change (slen "") with 0. rewrite Hd.
    repeat split; zlia.
Qed.

Lemma to_string_spec n :
  0 <= n -> all_digits (to_string n) = true /\ digits_value 0 (to_string n) = n /\
            to_string n <> "".
Proof.
  intros H. unfold to_string. destruct (Z.ltb_spec n 0); [lia |].
  destruct (dec_aux_spec (dec_fuel n) n "" H (le_n _)) as (ds & -> & ? & ? & Hl & _).
  rewrite sapp_nil_r. repeat split; try done. by destruct ds.
Qed.

(** ** [std::stoll] (base 10): leading blanks, an optional sign, then as many
    digits as there are; [None] is the exception it throws when there is no
    digit or the value leaves [int64_t]. *)

Definition isspace (c : ascii) : bool :=
  (code c =? 32) || ((9 <=? code c) && (code c <=? 13)).

Fixpoint skip_spaces (s : string) : string :=
  match s with
  | String c s' => if isspace c then skip_spaces s' else s
  | EmptyString => EmptyString
  end.

Fixpoint take_digits (s : string) : string :=
  match s with
  | String c s' => if isdigit c then String c (take_digits s') else EmptyString
  | EmptyString => EmptyString
  end.

Definition stoll (s : string) : option Z :=
  let s1 := skip_spaces s in
  let '(sign, s2) :=
    match s1 with
    | String c s' =>
        if Ascii.eqb c "-" then (-1, s') else if Ascii.eqb c "+" then (1, s') else (1, s1)
    | EmptyString => (1, s1)
    end in
  let ds := take_digits s2 in
  if is_empty ds then None
  else
    let v := sign * digits_value 0 ds in
    if (int64_min <=? v) && (v <=? int64_max) then Some v else None.

Lemma take_digits_all s : all_digits s = true -> take_digits s = s.
Proof.
  induction s as [|c s IH]; simpl; [done |]. intros H.
  apply andb_true_iff in H as [-> Hs]. by rewrite IH.
Qed.

Lemma isdigit_not_space c : isdigit c = true -> isspace c = false.
Proof. unfold isdigit, isspace. intros H. breflect. lia. Qed.

Lemma stoll_in_int64 s v : stoll s = Some v -> in_int64 v.
Proof. unfold stoll, in_int64. intros H. repeat split_in H; try done; injection H as <-; breflect; lia. Qed.

Lemma stoll_digits s :
  all_digits s = true -> s <> "" ->
  stoll s = if digits_value 0 s <=? int64_max then Some (digits_value 0 s) else None.
Proof.
  intros Hs Hne. unfold stoll. destruct s as [|c s]; [done |].
  pose proof Hs as Hs'. simpl in Hs'. apply andb_true_iff in Hs' as [Hc _].
  cbn [skip_spaces]. rewrite (isdigit_not_space c Hc).
  destruct (Ascii.eqb_spec c "-") as [->|_]; [done |].
  destruct (Ascii.eqb_spec c "+") as [->|_]; [done |].
  rewrite take_digits_all by done. cbn [is_empty].
  pose proof (digits_value_nonneg _ Hs). rewrite Z.mul_1_l.
  destruct (Z.leb_spec int64_min (digits_value 0 (String c s)));
    [done | unfold int64_min in *; lia].
Qed.

(** [std::stoul] on 64 bits: as [stoll], but a minus sign negates modulo [2^64]. *)
Definition stoul (s : string) : option Z :=
  let s1 := skip_spaces s in
  let '(negative, s2) :=
    match s1 with
    | String c s' =>
        if Ascii.eqb c "-" then (true, s') else if Ascii.eqb c "+" then (false, s') else (false, s1)
    | EmptyString => (false, s1)
    end in
  let ds := take_digits s2 in
  if is_empty ds then None
  else
    let v := digits_value 0 ds in
    if v <? 2 ^ 64 then Some (if negative : bool then (- v) mod 2 ^ 64 else v) else None.

Lemma take_digits_digits s : all_digits (take_digits s) = true.
Proof. induction s as [|c s IH]; simpl; [done |]. destruct (isdigit c) eqn:E; simpl; [by rewrite E | done]. Qed.

Lemma stoul_range s v : stoul s = Some v -> 0 <= v < 2 ^ 64.
Proof.
  unfold stoul. intros H. destruct (match skip_spaces s with EmptyString => _ | String _ _ => _ end) as [negative s2].
  destruct (is_empty _); [done |]. destruct (Z.ltb_spec (digits_value 0 (take_digits s2)) (2 ^ 64)) as [Hv|]; [|done].
  injection H as <-. pose proof (digits_value_nonneg _ (take_digits_digits s2)).
  destruct negative; [apply Z.mod_pos_bound; lia | lia].
Qed.
