(* ===== verification/Json.v ===== *)
(** * The JSON library as an interface.

    jsoncpp is third-party code: the model takes its values and accessors as a
    parameter.  An accessor that can throw [Json::LogicError] returns an option;
    [None] is the exception. *)
From S2P Require Import Prelude Cxx.

(** What the sources use of jsoncpp. *)
Class JsonLib := {
  json : Type;
  (** [reader->parse], [None] when it reports an error; on a document nested deeper than
      its stack limit the reader throws instead, which is outside of the model *)
  jparse : string -> option json;
  (** the member lookup behind [isMember], [operator[]] and [get]: throws on a
      value that is neither null nor an object *)
  jfind : json -> string -> option (option json);
  asString : json -> option string;
  asInt64 : json -> option Z;
  asBool : json -> option bool;
  (** an integer that fits [int64_t] *)
  isInt64 : json -> bool;
  isString : json -> bool;
  isBool : json -> bool;
  isArray : json -> bool;
  isObject : json -> bool;
  isNull : json -> bool;
  (** iteration over an array *)
  elements : json -> list json;
  jnull : json;
  of_string : string -> json;
  of_int : Z -> json;
  of_bool : bool -> json;
  of_object : list (string * json) -> json;
  of_list : list json -> json;
  (** [j[key] = v]: throws on a value that is neither null nor an object *)
  jset : json -> string -> json -> option json;
  (** [Json::writeString] with an empty indentation *)
  toJsonString : json -> string;
  toStyledString : json -> string;
  (** [getMemberNames]: throws on a value that is neither null nor an object *)
  memberNames : json -> option (list string)
}.

(** Documented behaviour the theorems with concrete requests rely on. *)
Class JsonLaws (J : JsonLib) := {
  asString_of_string : forall s, asString (of_string s) = Some s;
  asString_of_object : forall kvs, asString (of_object kvs) = None;
  asInt64_of_int : forall z, asInt64 (of_int z) = Some z;
  asBool_of_bool : forall b, asBool (of_bool b) = Some b;
  isNull_jnull : isNull jnull = true;
  jfind_of_object : forall kvs k,
    jfind (of_object kvs) k = Some (snd <$> List.find (fun kv => String.eqb (fst kv) k) kvs);
  jfind_jset : forall j k v j', jset j k v = Some j' ->
    forall k', jfind j' k' = if String.eqb k k' then Some (Some v) else jfind j k'
}.

(** Documented behaviour of the accessors on values of the right type. *)
Class JsonTyped (J : JsonLib) := {
  object_members : forall j k, isObject j = true -> exists r, jfind j k = Some r;
  null_members : forall k, jfind jnull k = Some None;
  string_text : forall j, isString j = true -> exists s, asString j = Some s;
  int64_value : forall j, isInt64 j = true -> exists z, asInt64 j = Some z;
  jset_total : forall j k v, j = jnull \/ isObject j = true -> exists j', jset j k v = Some j' /\ isObject j' = true
}.

(** Documented behaviour of the type tests on values that were built. *)
Class JsonTests (J : JsonLib) := {
  isNull_of_string : forall s, isNull (of_string s) = false;
  isNull_of_int : forall z, isNull (of_int z) = false;
  isNull_of_bool : forall b, isNull (of_bool b) = false;
  bool_value : forall j, isBool j = true -> exists b, asBool j = Some b
}.

Section Accessors.
Context `{J : JsonLib}.

Definition isMember (j : json) (key : string) : option bool :=
  r ← jfind j key; Some (match r with Some _ => true | None => false end).

(** [j.get(key, fallback)] *)
Definition get (j : json) (key : string) (fallback : json) : option json :=
  r ← jfind j key; Some (default fallback r).

(** [j[key]] on a constant value *)
Definition index (j : json) (key : string) : option json := get j key jnull.

(** [j.get(key, "").asString()] *)
Definition get_string (j : json) (key : string) : option string :=
  v ← get j key (of_string ""); asString v.

(** [j.get(key, 0).asInt64()] *)
Definition get_int64 (j : json) (key : string) : option Z :=
  v ← get j key (of_int 0); asInt64 v.

(** [j.get(key, fallback).asBool()] *)
Definition get_bool (j : json) (key : string) (fallback : bool) : option bool :=
  v ← get j key (of_bool fallback); asBool v.
End Accessors.

(** A concrete instance, for the witnesses: integers, booleans, strings,
    arrays, objects. *)
Module Tree.
Inductive tree :=
| TNull
| TInt (z : Z)
| TBool (b : bool)
| TString (s : string)
| TArray (ts : list tree)
| TObject (kvs : list (string * tree)).

Definition find (t : tree) (k : string) : option (option tree) :=
  match t with
  | TNull => Some None
  | TObject kvs => Some (snd <$> List.find (fun kv => String.eqb (fst kv) k) kvs)
  | _ => None
  end.

Definition as_string (t : tree) : option string :=
  match t with
  | TString s => Some s
  | TInt z => Some (to_string z)
  | TBool b => Some (if b then "true" else "false")
  | TNull => Some ""
  | _ => None
  end.

Definition as_int (t : tree) : option Z :=
  match t with TInt z => Some z | TBool b => Some (if b then 1 else 0) | TNull => Some 0 | _ => None end.

Definition as_bool (t : tree) : option bool :=
  match t with TBool b => Some b | TInt z => Some (negb (z =? 0)) | TNull => Some false | _ => None end.

Fixpoint set_member (kvs : list (string * tree)) (k : string) (v : tree) : list (string * tree) :=
  match kvs with
  | [] => [(k, v)]
  | (k', v') :: rest => if String.eqb k' k then (k, v) :: rest else (k', v') :: set_member rest k v
  end.

Definition set (t : tree) (k : string) (v : tree) : option tree :=
  match t with
  | TNull => Some (TObject [(k, v)])
  | TObject kvs => Some (TObject (set_member kvs k v))
  | _ => None
  end.

(** The documents a scenario names, by their text. *)
Definition lib (docs : list (string * tree)) : JsonLib := {|
  json := tree;
  jparse := fun s => snd <$> List.find (fun d => String.eqb (fst d) s) docs;
  jfind := find;
  asString := as_string;
  asInt64 := as_int;
  asBool := as_bool;
  (* the integers of the scenarios fit *)
  isInt64 := fun t => match t with TInt _ => true | _ => false end;
  isString := fun t => match t with TString _ => true | _ => false end;
  isBool := fun t => match t with TBool _ => true | _ => false end;
  isArray := fun t => match t with TArray _ => true | _ => false end;
  isObject := fun t => match t with TObject _ => true | _ => false end;
  isNull := fun t => match t with TNull => true | _ => false end;
  elements := fun t => match t with TArray ts => ts | _ => [] end;
  jnull := TNull;
  of_string := TString;
  of_int := TInt;
  of_bool := TBool;
  of_object := TObject;
  of_list := TArray;
  jset := set;
  toJsonString := fun _ => "";
  toStyledString := fun t =>
    match t with
    | TNull => "null" | TInt _ => "0" | TBool _ => "t" | TString _ => String "034"%char "" | TArray _ => "[" | TObject _ => "{"
    end;
  memberNames := fun t => match t with TNull => Some [] | TObject kvs => Some (map fst kvs) | _ => None end
|}.

Lemma find_set_member kvs k v k' :
  snd <$> List.find (fun kv => String.eqb (fst kv) k') (set_member kvs k v) =
  if String.eqb k k' then Some v else snd <$> List.find (fun kv => String.eqb (fst kv) k') kvs.
Proof.
  induction kvs as [|[k0 v0] kvs IH]; simpl; [by destruct (String.eqb k k') |].
  destruct (String.eqb_spec k0 k) as [->|Hne]; simpl; [by destruct (String.eqb k k') |].
  destruct (String.eqb_spec k0 k') as [->|]; [|exact IH].
  destruct (String.eqb_spec k k') as [->|]; [done | done].
Qed.

#[global] Instance laws docs : JsonLaws (lib docs).
Proof.
  split; try done. intros j k v j' H k'. destruct j; try done; injection H as <-; simpl.
  - by destruct (String.eqb k k').
  - rewrite find_set_member. by destruct (String.eqb k k').
Qed.

#[global] Instance typed docs : JsonTyped (lib docs).
Proof.
  split.
  - intros j k H. destruct j; try done. by eexists.
  - done.
  - intros j H. destruct j; try done. by eexists.
  - intros j H. destruct j; try done. by eexists.
  - intros j k v [->|H]; [by eexists |]. destruct j; try done. by eexists.
Qed.

#[global] Instance tests docs : JsonTests (lib docs).
Proof. split; try done. intros j H. destruct j; try done. by eexists. Qed.
End Tree.
