(* ===== verification/Effects.v ===== *)
(** * Event-driven programs.

    The services are callback code: a handler issues an operation and its
    continuation runs when the answer arrives.  A handler is modelled as a tree
    of interactions, one node per operation, whose branches are the answers. *)
From S2P Require Import Prelude.

(** [Done]: control returns to the event loop with nothing pending.
    [Escape]: an exception leaves the callback uncaught. *)
Inductive prog (I : Type -> Type) : Type :=
| Done
| Escape
| Vis {R : Type} (e : I R) (k : R -> prog I).

Arguments Done {I}.
Arguments Escape {I}.
Arguments Vis {I R} e k.

Declare Scope prog_scope.
Delimit Scope prog_scope with prog.
Notation "'do' x <- e ; p" := (Vis e (fun x => p))
  (at level 10, x name, e at level 99, p at level 200) : prog_scope.
#[global] Open Scope prog_scope.

(** Continue with the value of an expression that may throw. *)
Definition try_ {I A} (o : option A) (k : A -> prog I) : prog I :=
  match o with Some a => k a | None => Escape end.
Notation "'attempt' x <- o ; p" := (try_ o (fun x => p))
  (at level 10, x name, o at level 99, p at level 200) : prog_scope.

Inductive outcome := Returned | Escaped | Running.

Section Semantics.
Context {I : Type -> Type} {St : Type}.

(** The environment: which answers an operation may get in a state, and the
    state it leaves. *)
Context (step : forall R, I R -> St -> R -> St -> Prop).

(** Executions, complete or cut at any point ([Running]). *)
Inductive runs : prog I -> St -> outcome -> St -> Prop :=
| runs_stop p s : runs p s Running s
| runs_done s : runs Done s Returned s
| runs_escape s : runs Escape s Escaped s
| runs_vis R (e : I R) k s r s' o s'' :
    step R e s r s' -> runs (k r) s' o s'' -> runs (Vis e k) s o s''.

(** The weakest precondition: [Inv] holds at every point, [Q] at the end. *)
Fixpoint wp (Inv : St -> Prop) (Q : outcome -> St -> Prop) (p : prog I) (s : St) : Prop :=
  Inv s /\
  match p with
  | Done => Q Returned s
  | Escape => Q Escaped s
  | Vis e k => forall r s', step _ e s r s' -> wp Inv Q (k r) s'
  end.

Lemma wp_inv Inv Q p s : wp Inv Q p s -> Inv s.
Proof. destruct p; simpl; tauto. Qed.

(** Every execution of a program meets its weakest precondition. *)
Lemma wp_sound Inv Q p s o s' :
  wp Inv Q p s -> runs p s o s' ->
  Inv s' /\ match o with Running => True | _ => Q o s' end.
Proof.
  intros H Hr. induction Hr as [p s|s|s|R e k s r s' o s'' Hs Hr IH].
  - split; [by eapply wp_inv | done].
  - by destruct H.
  - by destruct H.
  - apply IH. destruct H as [_ H]. by apply H.
Qed.

Lemma wp_vis Inv Q R (e : I R) k s :
  Inv s -> (forall r s', step _ e s r s' -> wp Inv Q (k r) s') -> wp Inv Q (Vis e k) s.
Proof. by split. Qed.

Lemma wp_mono (Inv Inv' : St -> Prop) (Q Q' : outcome -> St -> Prop) p s :
  (forall s, Inv s -> Inv' s) -> (forall o s, Q o s -> Q' o s) ->
  wp Inv Q p s -> wp Inv' Q' p s.
Proof.
  intros HI HQ. revert s. induction p as [| |R e k IH]; intros s [Hi H]; split; auto.
Qed.
(** What holds of every execution is a weakest precondition. *)
Lemma wp_complete (G : outcome -> St -> Prop) p s :
  (forall o s', runs p s o s' -> G o s') -> wp (G Running) G p s.
Proof.
  revert s. induction p as [| |R e k IH]; intros s H; simpl;
    (split; [apply H; constructor |]); [apply H; constructor.. |].
  intros r s' Hs. apply IH. intros o s'' Hr. apply H. by econstructor.
Qed.

(** Programs with the same weakest preconditions have the same executions. *)
Lemma runs_wp p q s :
  (forall Inv Q, wp Inv Q q s -> wp Inv Q p s) -> forall o s', runs p s o s' -> runs q s o s'.
Proof.
  intros H o s' Hr.
  assert (Hw : wp (runs q s Running) (runs q s) q s) by (by apply wp_complete).
  apply H in Hw. destruct (wp_sound _ _ _ _ _ _ Hw Hr) as [HI HQ]. by destruct o.
Qed.
End Semantics.

(** ** Histories

    The environment that keeps every answered operation, newest first; [Rely]
    limits the answers it may give. *)
Inductive event (I : Type -> Type) : Type := | Event {R : Type} (e : I R) (r : R).
Arguments Event {I R} e r.

Section Guaranteed.
Context {I : Type -> Type}.

(** [Guar h ev] for every operation [ev] performed after the history [h]. *)
Fixpoint guaranteed (Guar : list (event I) -> event I -> Prop) (h : list (event I)) : Prop :=
  match h with [] => True | ev :: h' => Guar h' ev /\ guaranteed Guar h' end.

Lemma guaranteed_at Guar h1 ev h2 : guaranteed Guar (h1 ++ ev :: h2)%list -> Guar h2 ev.
Proof. induction h1 as [|x h1 IH]; simpl; tauto. Qed.

(** [P] held at an earlier point of the history, or holds now. *)
Definition earlier (P : list (event I) -> Prop) (h : list (event I)) : Prop :=
  exists h1 h2, h = (h1 ++ h2)%list /\ P h2.

Lemma earlier_now (P : list (event I) -> Prop) h : P h -> earlier P h.
Proof. by exists [], h. Qed.

Lemma earlier_cons P ev h : earlier P h -> earlier P (ev :: h).
Proof. intros (h1 & h2 & -> & H). by exists (ev :: h1), h2. Qed.
End Guaranteed.

Section Histories.
Context {I : Type -> Type}.
Abbreviation history := (list (event I)).
Context (Rely : history -> event I -> Prop).

Definition logs (R : Type) (e : I R) (h : history) (r : R) (h' : history) : Prop :=
  Rely h (Event e r) /\ h' = Event e r :: h.

(** A program that, started after [h], performs only operations [Guar] allows
    and ends in a history [Fin] allows, whatever answers [Rely] admits. *)
Fixpoint safe (Guar : history -> event I -> Prop) (Fin : outcome -> history -> Prop)
    (p : prog I) (h : history) : Prop :=
  match p with
  | Done => Fin Returned h
  | Escape => Fin Escaped h
  | Vis e k =>
      forall r, Rely h (Event e r) -> Guar h (Event e r) /\ safe Guar Fin (k r) (Event e r :: h)
  end.

Lemma safe_wp Guar Fin p h :
  guaranteed Guar h -> safe Guar Fin p h -> wp logs (guaranteed Guar) Fin p h.
Proof.
  revert h. induction p as [| |R e k IH]; intros h Hg H; simpl in *; [done.. |].
  split; [done |]. intros r h' [Hr ->]. destruct (H r Hr) as [HG HS]. by apply IH.
Qed.

(** What a safe program does in every execution. *)
Lemma safe_sound Guar Fin p o h :
  safe Guar Fin p [] -> runs logs p [] o h ->
  guaranteed Guar h /\ match o with Running => True | _ => Fin o h end.
Proof. intros H. apply wp_sound. by apply safe_wp. Qed.

Lemma safe_vis Guar Fin R (e : I R) k h :
  (forall r, Rely h (Event e r) -> Guar h (Event e r)) ->
  (forall r, Rely h (Event e r) -> safe Guar Fin (k r) (Event e r :: h)) ->
  safe Guar Fin (Vis e k) h.
Proof. intros HG HS r Hr. split; auto. Qed.

(** A fact that histories keep strengthens what a program guarantees. *)
Lemma safe_mono (P : history -> Prop) (Guar Guar' : history -> event I -> Prop) Fin p h :
  (forall ev h, P h -> P (ev :: h)) ->
  (forall h ev, P h -> Guar h ev -> Guar' h ev) ->
  P h -> safe Guar Fin p h -> safe Guar' Fin p h.
Proof.
  intros HP HG. revert h. induction p as [| |R e k IH]; intros h Hh H; simpl in *; [done.. |].
  intros r Hr. destruct (H r Hr) as [Hg Hs]. split; [by apply HG | by apply IH; [apply HP |]].
Qed.

(** Two guarantees of a program hold together. *)
Lemma safe_strengthen (Guar Guar' Guar2 : history -> event I -> Prop) Fin Fin' p h :
  safe Guar Fin p h -> safe Guar' Fin' p h ->
  (forall h ev, Guar h ev -> Guar' h ev -> Guar2 h ev) -> safe Guar2 (fun _ _ => True) p h.
Proof.
  intros H H' HG. revert h H H'. induction p as [| |R e k IH]; intros h H H'; [done..|].
  intros r Hr. destruct (H r Hr), (H' r Hr). split; [by apply HG | by apply IH].
Qed.

End Histories.

(** ** Deterministic environments *)
Section Run.
Context {I : Type -> Type} {St : Type} (handle : forall R, I R -> St -> R * St).

Fixpoint run (p : prog I) (s : St) : outcome * St :=
  match p with
  | Done => (Returned, s)
  | Escape => (Escaped, s)
  | Vis e k => let '(r, s') := handle _ e s in run (k r) s'
  end.

Definition handled (R : Type) (e : I R) (s : St) (r : R) (s' : St) : Prop :=
  handle R e s = (r, s').

Lemma run_runs p s : runs handled p s (fst (run p s)) (snd (run p s)).
Proof.
  revert s. induction p as [| |R e k IH]; intros s; simpl; [constructor.. |].
  destruct (handle R e s) as [r s'] eqn:E. econstructor; [exact E | apply IH].
Qed.

Lemma run_ends p s : fst (run p s) <> Running.
Proof.
  revert s. induction p as [| |R e k IH]; intros s; simpl; [done.. |].
  destruct (handle R e s) as [r s']. apply IH.
Qed.

(** The weakest precondition against a deterministic environment. *)
Lemma wp_run (Inv : St -> Prop) (Q : outcome -> St -> Prop) p s :
  wp handled Inv Q p s -> Q (fst (run p s)) (snd (run p s)).
Proof.
  intros H. destruct (wp_sound _ _ _ _ _ _ _ H (run_runs p s)) as [_ HQ].
  pose proof (run_ends p s). by destruct (fst (run p s)).
Qed.
End Run.

(** ** Recorded runs

    A deterministic environment with the history of its answers: an execution
    of the history semantics whenever the answers are ones [Rely] admits. *)
Section Recorded.
Context {I : Type -> Type} {St : Type} (handle : forall R, I R -> St -> R * St).
Context (Rely : list (event I) -> event I -> Prop).

Definition recording (R : Type) (e : I R) (hs : list (event I) * St) : R * (list (event I) * St) :=
  let '(h, s) := hs in let '(r, s') := handle R e s in (r, (Event e r :: h, s')).

Lemma guaranteed_suffix h1 h2 : guaranteed Rely (h1 ++ h2)%list -> guaranteed Rely h2.
Proof. induction h1 as [|x h1 IH]; simpl; tauto. Qed.

Lemma recording_extends p h s : exists h1, fst (snd (run recording p (h, s))) = (h1 ++ h)%list.
Proof.
  revert h s. induction p as [| |R e k IH]; intros h s; simpl; [by exists [].. |].
  destruct (handle R e s) as [r s']. destruct (IH r (Event e r :: h) s') as [h1 ->].
  exists (h1 ++ [Event e r])%list. by rewrite <- app_assoc.
Qed.

Lemma recorded_runs p h s :
  guaranteed Rely (fst (snd (run recording p (h, s)))) ->
  runs (logs Rely) p h (fst (run recording p (h, s))) (fst (snd (run recording p (h, s)))).
Proof.
  revert h s. induction p as [| |R e k IH]; intros h s; simpl; intros Hg; [constructor.. |].
  destruct (handle R e s) as [r s']. econstructor; [|by apply IH].
  split; [|done]. destruct (recording_extends (k r) (Event e r :: h) s') as [h1 E].
  rewrite E in Hg. apply guaranteed_suffix in Hg. by destruct Hg.
Qed.
End Recorded.
