(* ===== verification/Amount.v ===== *)
(** * Amounts and status vocabularies (src/libs/drogon-pay/src/utils/PayUtils.cc,
    the amount gates of PaymentService.cc and the handler regex of PayHandlers.cc).

    A monetary amount travels as a decimal string in yuan and is compared as an
    integer number of fen.  [parseAmountToFen] is shown equivalent to the
    grammar [amount_denotes], overflow-free, and inverse to the printer the
    Alipay payload uses. *)
From S2P Require Import Prelude Cxx.

(** ** Definitions *)

(** The [fen] out-parameter is written only on success, so the result is an
    option; callers that ignore the flag read the initial value of [fen]. *)
Definition parseAmountToFen (amount : string) : option Z :=
  if is_empty amount then None
  else
    let '(yuanPart, centPart) :=
      match find_split "." amount with
      | None => (amount, "00")
      | Some (y, c) => (y, c)
      end in
    let yuanPart := if is_empty yuanPart then "0" else yuanPart in
    if negb (all_digits yuanPart) then None
    else if negb (all_digits centPart) then None
    else if 2 <? slen centPart then None
    else
      let centPart := if slen centPart =? 1 then centPart +:+ "0" else centPart in
      let centPart := if is_empty centPart then "00" else centPart in
      match stoll yuanPart, stoll centPart with
      | Some yuan, Some cents =>
          if Z.quot (int64_max - 99) 100 <? yuan then None
          else Some (wrap64 (wrap64 (yuan * 100) + cents))
      | _, _ => None
      end.

Definition fen_or_zero (amount : string) : Z := default 0 (parseAmountToFen amount).

Definition amountEqualsFen (amount : string) (expectedFen : Z) : bool :=
  match parseAmountToFen amount with
  | Some fen => fen =? expectedFen
  | None => false
  end.

Definition refundsCoverOrderAmount (settledRefundFen orderTotalFen : Z) : bool :=
  (0 <? orderTotalFen) && (orderTotalFen <=? settledRefundFen).

Definition resolveRefundedOrderStatus
    (mappedOrderStatus : string) (settledRefundFen orderTotalFen : Z) : string :=
  if String.eqb mappedOrderStatus "REFUNDED"
     && negb (refundsCoverOrderAmount settledRefundFen orderTotalFen)
  then "PAID" else mappedOrderStatus.

(** (order status, payment status) *)
Definition mapTradeState (tradeState : string) : string * string :=
  if String.eqb tradeState "SUCCESS" then ("PAID", "SUCCESS")
  else if String.eqb tradeState "USERPAYING" || String.eqb tradeState "NOTPAY"
  then ("PAYING", "PROCESSING")
  else if String.eqb tradeState "REFUND" then ("REFUNDED", "SUCCESS")
  else if String.eqb tradeState "CLOSED" || String.eqb tradeState "REVOKED"
  then ("CLOSED", "FAIL")
  else ("FAILED", "FAIL").

Definition mapRefundStatus (wechatStatus : string) : string :=
  if String.eqb wechatStatus "SUCCESS" then "REFUND_SUCCESS"
  else if String.eqb wechatStatus "CLOSED" then "REFUND_FAIL"
  else if String.eqb wechatStatus "ABNORMAL" then "REFUND_FAIL"
  else if String.eqb wechatStatus "PROCESSING" then "REFUNDING"
  else "".

(** The regular expression [^\d+(\.\d{1,2})?$]. *)
Definition validateAmount (amount : string) : bool :=
  negb (is_empty amount) &&
  match find_split "." amount with
  | None => all_digits amount
  | Some (y, c) =>
      negb (is_empty y) && all_digits y && all_digits c &&
      (1 <=? slen c) && (slen c <=? 2)
  end.

(** The empty string means the answer may book. *)
Definition reconcileAmountProblem (answerTotalFen : Z) (paymentAmount : string) : string :=
  match parseAmountToFen paymentAmount with
  | None => "payment amount '" +:+ paymentAmount +:+ "' is not a usable amount"
  | Some paymentTotalFen =>
      if answerTotalFen <=? 0 then
        "channel answer carried no amount while the payment asks for "
          +:+ to_string paymentTotalFen +:+ " fen"
      else if negb (answerTotalFen =? paymentTotalFen) then
        "amount mismatch: channel answer " +:+ to_string answerTotalFen
          +:+ " fen, payment row " +:+ to_string paymentTotalFen +:+ " fen"
      else ""
  end.

Definition orderStatusAfterRefundCoverage
    (mappedOrderStatus orderAmount : string) (settledRefundFen : Z) : string :=
  resolveRefundedOrderStatus mappedOrderStatus settledRefundFen (fen_or_zero orderAmount).

(** The [yuanStream] of proceedCreatePayment. *)
Definition yuanString (totalFen : Z) : string :=
  let yuan := Z.quot totalFen 100 in
  let cents := Z.rem totalFen 100 in
  to_string yuan +:+ "." +:+ (if cents <? 10 then "0" else "") +:+ to_string cents.

(** ** The grammar of amounts *)

(** Value of the digits after the point: none, one (tenths) or two. *)
Definition cents_value (c : string) : Z :=
  if slen c =? 1 then 10 * digits_value 0 c else digits_value 0 c.

(** [amount_denotes s fen]: [s] is written [Y], [Y.], [Y.d] or [Y.dd] with
    digits only ([Y] may be empty when a point follows) and denotes [fen]. *)
Inductive amount_denotes : string -> Z -> Prop :=
| denotes_integer y :
    y <> "" -> all_digits y = true ->
    amount_denotes y (100 * digits_value 0 y)
| denotes_point y c :
    all_digits y = true -> all_digits c = true -> slen c <= 2 ->
    amount_denotes (y +:+ String "." c) (100 * digits_value 0 y + cents_value c).

(** The largest whole number of yuan that scales to fen. *)
Definition max_yuan : Z := 92233720368547757.

(** ** Lemmas *)

Lemma max_yuan_quot : Z.quot (int64_max - 99) 100 = max_yuan.
Proof. reflexivity. Qed.

Lemma wrap_fen y c : 0 <= y <= max_yuan -> 0 <= c <= 99 -> wrap64 (wrap64 (y * 100) + c) = y * 100 + c.
Proof.
  intros Hy Hc. unfold max_yuan in Hy.
  rewrite !wrap64_small; unfold in_int64, int64_min, int64_max;
    try rewrite wrap64_small; unfold in_int64, int64_min, int64_max; lia.
Qed.

Lemma cents_value_bounds c : all_digits c = true -> slen c <= 2 -> 0 <= cents_value c <= 99.
Proof.
  intros Hd Hl. unfold cents_value. pose proof (slen_nonneg c).
  assert (slen c = 0 \/ slen c = 1 \/ slen c = 2) as [E|[E|E]] by lia.
  - rewrite (slen_0 _ E). simpl. lia.
  - destruct (slen_1 _ E) as [a ->]. rewrite E. simpl in *.
    apply andb_true_iff in Hd as [Ha _]. pose proof (digit_bounds a Ha). simpl. lia.
  - destruct (slen_2 _ E) as (a & b & ->). rewrite E. simpl in *.
    rewrite !andb_true_iff in Hd. destruct Hd as (Ha & Hb & _).
    pose proof (digit_bounds a Ha). pose proof (digit_bounds b Hb). simpl. lia.
Qed.

(** The padded cent part reads as [cents_value]. *)
Lemma cents_stoll c :
  all_digits c = true -> slen c <= 2 ->
  stoll (let c1 := if slen c =? 1 then c +:+ "0" else c in
         if is_empty c1 then "00" else c1) = Some (cents_value c).
Proof.
  intros Hd Hl. pose proof (cents_value_bounds c Hd Hl) as Hb.
  pose proof (slen_nonneg c). cbv zeta. unfold cents_value in *.
  assert (slen c = 0 \/ slen c = 1 \/ slen c = 2) as [E|[E|E]] by lia; rewrite E in *; simpl in *.
  - rewrite (slen_0 _ E). reflexivity.
  - destruct (slen_1 _ E) as [a ->]. simpl in *. rewrite stoll_digits; simpl; [|by rewrite Hd|done].
    change (digit "0") with 0. zcases; [f_equal; lia | unfold int64_max in *; lia].
  - destruct (slen_2 _ E) as (a & b & ->). simpl is_empty. rewrite stoll_digits; [|done|done].
    zcases; [done | unfold int64_max in *; simpl in *; lia].
Qed.

Lemma yuan_stoll y :
  all_digits y = true ->
  stoll (if is_empty y then "0" else y) =
    if digits_value 0 y <=? int64_max then Some (digits_value 0 y) else None.
Proof.
  intros Hy. destruct y as [|a y]; [done |]. simpl is_empty. by apply stoll_digits.
Qed.

(** The arithmetic tail of [parseAmountToFen] on well-shaped parts. *)
Lemma parse_tail y c :
  all_digits y = true -> all_digits c = true -> slen c <= 2 ->
  match stoll (if is_empty y then "0" else y),
        stoll (let c1 := if slen c =? 1 then c +:+ "0" else c in
               if is_empty c1 then "00" else c1) with
  | Some yuan, Some cents =>
      if Z.quot (int64_max - 99) 100 <? yuan then None
      else Some (wrap64 (wrap64 (yuan * 100) + cents))
  | _, _ => None
  end = if digits_value 0 y <=? max_yuan
        then Some (100 * digits_value 0 y + cents_value c) else None.
Proof.
  intros Hy Hc Hl. rewrite cents_stoll, yuan_stoll, max_yuan_quot by done.
  pose proof (digits_value_nonneg y Hy). pose proof (cents_value_bounds c Hc Hl).
  zcases; try done; try (unfold max_yuan, int64_max in *; lia).
  rewrite wrap_fen by lia. f_equal. lia.
Qed.

Lemma parseAmountToFen_point y c :
  all_digits y = true -> all_digits c = true -> slen c <= 2 ->
  parseAmountToFen (y +:+ String "." c) =
    if digits_value 0 y <=? max_yuan
    then Some (100 * digits_value 0 y + cents_value c) else None.
Proof.
  intros Hy Hc Hl. unfold parseAmountToFen.
  replace (is_empty (y +:+ String "." c)) with false by (by destruct y).
  rewrite find_split_app by (by apply digits_avoid).
  replace (all_digits (if is_empty y then "0" else y)) with true by (destruct y; done).
  rewrite Hc. simpl negb. cbv iota.
  destruct (Z.ltb_spec 2 (slen c)); [lia |]. by apply parse_tail.
Qed.

Lemma parseAmountToFen_integer y :
  y <> "" -> all_digits y = true ->
  parseAmountToFen y =
    if digits_value 0 y <=? max_yuan then Some (100 * digits_value 0 y) else None.
Proof.
  intros Hne Hy. unfold parseAmountToFen. destruct y as [|a y']; [done |].
  remember (String a y') as y eqn:Ey. replace (is_empty y) with false by (by subst).
  replace (find_split "." y) with (@None (string * string))
    by (symmetry; apply find_split_none; by apply digits_avoid).
  pose proof (parse_tail y "00" Hy eq_refl) as T. cbn [is_empty] in T.
  replace (is_empty y) with false in * by (by subst). rewrite Hy. simpl negb. cbv iota.
  change (slen "00") with 2 in *. simpl in T |- *. rewrite T by lia.
  change (cents_value "00") with 0. by rewrite Z.add_0_r.
Qed.

(** What a successful parse was given. *)
Lemma parseAmountToFen_shape s f :
  parseAmountToFen s = Some f ->
  (s <> "" /\ all_digits s = true) \/
  exists y c, s = y +:+ String "." c /\ all_digits y = true /\ all_digits c = true /\ slen c <= 2.
Proof.
  unfold parseAmountToFen. destruct (is_empty s) eqn:He; [done |].
  destruct (find_split "." s) as [[y c]|] eqn:Hf.
  - apply find_split_some in Hf as [-> _].
    destruct (all_digits (if is_empty y then "0" else y)) eqn:Hy; [|done].
    destruct (all_digits c) eqn:Hc; [|done]. simpl negb. cbv iota.
    destruct (Z.ltb_spec 2 (slen c)); [done |]. intros _. right. exists y, c.
    repeat split; try done. by destruct y.
  - rewrite He. destruct (all_digits s) eqn:Hd; [|done]. intros _. left. by destruct s.
Qed.

(** The two-digit cent part the printer emits. *)
Lemma cents_printed c :
  0 <= c < 100 ->
  let cs := (if c <? 10 then "0" else "") +:+ to_string c in
  all_digits cs = true /\ slen cs = 2 /\ cents_value cs = c.
Proof.
  intros H cs.
  pose (P := fun c => let cs := (if c <? 10 then "0" else "") +:+ to_string c in
                      all_digits cs && (slen cs =? 2) && (cents_value cs =? c)).
  assert (HP : P c = true) by (apply (forall_below P 100); [reflexivity | lia]).
  unfold P in HP. fold cs in HP. breflect. tauto.
Qed.

(** ** Theorems *)

(** C38. [parseAmountToFen] accepts exactly the decimal strings of the grammar
    that denote at most [100 * max_yuan + 99] fen, and returns the number of fen
    they denote: no digit is dropped and the scaling never overflows. *)
Theorem parseAmountToFen_spec s f :
  parseAmountToFen s = Some f <-> amount_denotes s f /\ f <= 100 * max_yuan + 99.
Proof.
  split.
  - intros H. destruct (parseAmountToFen_shape s f H) as [[Hne Hd]|(y & c & -> & Hy & Hc & Hl)].
    + rewrite parseAmountToFen_integer in H by done. revert H. zcases; [|done].
      intros [= <-]. split; [by constructor | lia].
    + pose proof (cents_value_bounds c Hc Hl).
      rewrite parseAmountToFen_point in H by done. revert H. zcases; [|done].
      intros [= <-]. split; [by constructor | lia].
  - intros [Hd Hle]. destruct Hd as [y Hne Hy|y c Hy Hc Hl].
    + rewrite parseAmountToFen_integer by done. zcases; [done | lia].
    + pose proof (cents_value_bounds c Hc Hl).
      rewrite parseAmountToFen_point by done. zcases; [done | lia].
Qed.

Lemma parseAmountToFen_range s f : parseAmountToFen s = Some f -> 0 <= f <= int64_max.
Proof.
  intros H. destruct (parseAmountToFen_shape s f H) as [[Hne Hd]|(y & c & -> & Hy & Hc & Hl)].
  - rewrite parseAmountToFen_integer in H by done. pose proof (digits_value_nonneg s Hd).
    revert H. unfold max_yuan, int64_max. zcases; [intros [= <-]; lia | done].
  - rewrite parseAmountToFen_point in H by done. pose proof (digits_value_nonneg y Hy).
    pose proof (cents_value_bounds c Hc Hl).
    revert H. unfold max_yuan, int64_max. zcases; [intros [= <-]; lia | done].
Qed.

(** What [yuanString] prints is an amount. *)
Lemma yuanString_parses f :
  0 <= f <= 100 * max_yuan + 99 -> parseAmountToFen (yuanString f) = Some f.
Proof.
  intros H. unfold yuanString. rewrite Z.quot_div_nonneg, Z.rem_mod_nonneg by lia.
  assert (Hq : 0 <= f / 100 <= max_yuan) by zlia.
  assert (Hr : 0 <= f mod 100 < 100) by zlia.
  destruct (cents_printed (f mod 100) Hr) as (Hd & Hl & Hv).
  destruct (to_string_spec (f / 100)) as (Hy & Hyv & _); [lia |].
  change ("." +:+ ?s) with (String "." s).
  rewrite parseAmountToFen_point by (done || lia). rewrite Hyv, Hv.
  zcases; [f_equal; zlia | lia].
Qed.

(** The decimal string [proceedCreatePayment] prints for the Alipay payload
    reads back as the number of fen it was printed from: the amount offered to
    the channel is the amount the order was booked with. *)
Lemma yuanString_roundtrip f :
  0 <= f <= 100 * max_yuan + 99 -> parseAmountToFen (yuanString f) = Some f.
Proof. apply yuanString_parses. Qed.

Lemma yuanString_roundtrip_witness : parseAmountToFen (yuanString 12305) = Some 12305.
Proof. apply yuanString_roundtrip. unfold max_yuan. lia. Defined.

(** Every amount the handlers' regular expression lets through is in the
    grammar, so it parses unless its whole part exceeds [max_yuan]. *)
Lemma validateAmount_parses s :
  validateAmount s = true ->
  exists f, amount_denotes s f /\
    parseAmountToFen s = if f <=? 100 * max_yuan + 99 then Some f else None.
Proof.
  unfold validateAmount. intros H. apply andb_true_iff in H as [Hne H].
  destruct (find_split "." s) as [[y c]|] eqn:Hf.
  - apply find_split_some in Hf as [-> _]. breflect. destruct H as ((((Hy & Hdy) & Hc) & Hl1) & Hl2).
    pose proof (cents_value_bounds c Hc Hl2).
    exists (100 * digits_value 0 y + cents_value c). split; [by constructor |].
    rewrite parseAmountToFen_point by done. zcases; done || lia.
  - exists (100 * digits_value 0 s). assert (s <> "") by (by destruct s).
    split; [by constructor |]. rewrite parseAmountToFen_integer by done. zcases; done || lia.
Qed.

Lemma validateAmount_parses_witness :
  exists f, amount_denotes "12.5" f /\
    parseAmountToFen "12.5" = if f <=? 100 * max_yuan + 99 then Some f else None.
Proof. apply validateAmount_parses. reflexivity. Defined.

(** The handler comment says "positive decimal": the expression admits zero. *)
Example validateAmount_admits_zero :
  validateAmount "0.00" = true /\ parseAmountToFen "0.00" = Some 0.
Proof. split; reflexivity. Qed.

(** The reconcile gate lets a channel answer settle a payment row exactly
    when it reports a positive amount equal to the one the row asked for. *)
Lemma reconcileAmountProblem_gate answer amount :
  reconcileAmountProblem answer amount = "" <-> 0 < answer /\ parseAmountToFen amount = Some answer.
Proof.
  unfold reconcileAmountProblem. destruct (parseAmountToFen amount) as [f|] eqn:Hp.
  - zcases; simpl; split; try (intros; done || lia).
    + intros _. split; [lia | congruence].
    + intros [_ [= <-]]. done.
  - split; [done |]. by intros [_ ?].
Qed.

Lemma refundsCover_true s t : refundsCoverOrderAmount s t = true <-> 0 < t <= s.
Proof. unfold refundsCoverOrderAmount. breflect. lia. Qed.

(** A status mapped from the channel is booked unchanged, except that a
    [REFUNDED] claim is downgraded to [PAID] unless the order's amount is a
    positive number of fen covered by the settled refunds. *)
Lemma orderStatusAfterRefundCoverage_spec m amount settled :
  orderStatusAfterRefundCoverage m amount settled =
    (if String.eqb m "REFUNDED" then
       match parseAmountToFen amount with
       | Some total => if (0 <? total) && (total <=? settled) then "REFUNDED" else "PAID"
       | None => "PAID"
       end
     else m).
Proof.
  unfold orderStatusAfterRefundCoverage, resolveRefundedOrderStatus, fen_or_zero,
    refundsCoverOrderAmount.
  destruct (String.eqb_spec m "REFUNDED") as [->|]; simpl; [|done].
  destruct (parseAmountToFen amount) as [t|]; simpl; [|done].
  by destruct ((0 <? t) && (t <=? settled)).
Qed.
