(* ===== verification/NotifyUrl.v ===== *)
(** * The notify_url check (src/libs/drogon-pay/src/utils/PayUtils.cc):
    host extraction, address literals and the private-range block list.

    A [size_t] position into the URL is represented by the text from it on. *)
From S2P Require Import Prelude Cxx.

(** ** Definitions *)

Fixpoint strip_prefix (needle s : string) : option string :=
  match needle, s with
  | EmptyString, _ => Some s
  | String c needle', String d s' => if Ascii.eqb c d then strip_prefix needle' s' else None
  | _, EmptyString => None
  end.

(** [url.find(needle)], as the text after the first occurrence. *)
Fixpoint after_find (needle s : string) : option string :=
  match strip_prefix needle s with
  | Some rest => Some rest
  | None => match s with EmptyString => None | String _ s' => after_find needle s' end
  end.

(** The text before the first character of [set], the whole text without one. *)
Definition until (set s : string) : string * string :=
  match split_at (mem_char set) s with Some ab => ab | None => (s, "") end.

Definition extractUrlHost (url : string) : string :=
  match after_find "://" url with
  | None => ""
  | Some rest =>
      if is_empty rest then ""
      else
        let '(authority, tail) := until "/?#" rest in
        let from :=
          match after_last "@" authority with
          | Some h => h +:+ tail
          | None => rest
          end in
        match from with
        | String "["%char inner =>
            match find_split "]" inner with
            | None => ""
            | Some (lit, _) => lit
            end
        | _ => fst (until "/:?#" from)
        end
  end.

(** One dotted segment: the checks of the loop body. *)
Definition ipv4Segment (seg : string) : option Z :=
  if is_empty seg || (3 <? slen seg) then None
  else if negb (all_digits seg) then None
  else
    let v := digits_value 0 seg in
    if 255 <? v then None
    else if (1 <? slen seg) && String.prefix "0" seg then None
    else Some v.

(** [more] is [3 - i]: the segments still to come after this one. *)
Fixpoint parseIpv4_from (more : nat) (s : string) : option (list Z) :=
  match more with
  | O => v ← ipv4Segment s; Some [v]
  | S more' =>
      match find_split "." s with
      | None => None
      | Some (seg, rest) =>
          v ← ipv4Segment seg; vs ← parseIpv4_from more' rest; Some (v :: vs)
      end
  end.

Definition parseIpv4 (host : string) : option (Z * Z * Z * Z) :=
  match parseIpv4_from 3 host with
  | Some [a; b; c; d] => Some (a, b, c, d)
  | _ => None
  end.

Definition isPrivateIpv4 (a b c d : Z) : bool :=
  (a =? 10)
  || ((a =? 172) && (Z.land b 0xF0 =? 16))
  || ((a =? 192) && (b =? 168))
  || (a =? 127)
  || ((a =? 169) && (b =? 254))
  || (a =? 0)
  || ((a =? 100) && (Z.land b 0xC0 =? 64)).

Definition hexNibble (c : ascii) : option Z :=
  if isdigit c then Some (code c - 48)
  else if (97 <=? code c) && (code c <=? 102) then Some (code c - 97 + 10)
  else if (65 <=? code c) && (code c <=? 70) then Some (code c - 65 + 10)
  else None.

(** At most [n] hexadecimal digits, most significant first. *)
Fixpoint leadingHex (n : nat) (value : Z) (s : string) : Z :=
  match n, s with
  | S n', String c s' =>
      match hexNibble c with
      | Some nibble => leadingHex n' (value * 16 + nibble) s'
      | None => value
      end
  | _, _ => value
  end.

Definition isGlobalUnicastIpv6 (host : string) : bool :=
  if String.prefix ":" host then false
  else Z.land (leadingHex 4 0 host) 0xE000 =? 0x2000.

Definition isHexDigit (c : ascii) : bool :=
  match hexNibble c with Some _ => true | None => false end.

(** The labels the loop visits. *)
Fixpoint split_on (c : ascii) (s : string) : list string :=
  match s with
  | EmptyString => [EmptyString]
  | String d s' =>
      if Ascii.eqb c d then EmptyString :: split_on c s'
      else match split_on c s' with
           | l :: ls => String d l :: ls
           | [] => [String d EmptyString]
           end
  end.

Definition numericLabel (label : string) : bool :=
  if is_empty label then false
  else if (2 <? slen label) && (String.prefix "0x" label || String.prefix "0X" label)
  then all_char isHexDigit (drop_one (drop_one label))
  else all_digits label.

Definition isNumericAddressShape (host : string) : bool :=
  forallb numericLabel (split_on "." host).

Definition isBlockedHost (host : string) : bool :=
  if is_empty host then true
  else
    let lower := to_lower host in
    if String.eqb lower "localhost" || String.eqb lower "localhost." then true
    else if mem_char host ":" then negb (isGlobalUnicastIpv6 host)
    else
      match parseIpv4 host with
      | Some (a, b, c, d) => isPrivateIpv4 a b c d
      | None => isNumericAddressShape lower
      end.

(** [None] accepts; [Some e] is a refusal with the error message [e]. *)
Definition validateNotifyUrl (url : string) : option string :=
  if is_empty url then None
  else if negb (String.prefix "http://" url) && negb (String.prefix "https://" url)
  then Some "invalid notify_url (must start with http:// or https://)"
  else if 512 <? slen url then Some "notify_url too long (max 512 characters)"
  else if isBlockedHost (extractUrlHost url)
  then Some "notify_url host must not be a private, loopback, or link-local address"
  else None.

(** ** The addresses as numbers *)

(** The value of a dotted quad as a 32-bit number. *)
Definition ipv4_address (a b c d : Z) : Z := ((a * 256 + b) * 256 + c) * 256 + d.

(** [addr] lies in the block [base/len]. *)
Definition in_block (addr base len : Z) : Prop :=
  addr / 2 ^ (32 - len) = base / 2 ^ (32 - len).

(** The private and reserved ranges the source names. *)
Definition reserved_address (addr : Z) : Prop :=
  in_block addr (ipv4_address 10 0 0 0) 8 \/
  in_block addr (ipv4_address 172 16 0 0) 12 \/
  in_block addr (ipv4_address 192 168 0 0) 16 \/
  in_block addr (ipv4_address 127 0 0 0) 8 \/
  in_block addr (ipv4_address 169 254 0 0) 16 \/
  in_block addr (ipv4_address 0 0 0 0) 8 \/
  in_block addr (ipv4_address 100 64 0 0) 10.

Definition octet (z : Z) : Prop := 0 <= z <= 255.

(** The canonical dotted quad. *)
Definition dotted (a b c d : Z) : string :=
  to_string a +:+ "." +:+ to_string b +:+ "." +:+ to_string c +:+ "." +:+ to_string d.

(** ** Lemmas: octets *)

Lemma land_F0 b : octet b -> (Z.land b 0xF0 =? 16) = (16 <=? b) && (b <=? 31).
Proof.
  intros H. apply Bool.eqb_true_iff.
  apply (forall_below (fun b => Bool.eqb (Z.land b 0xF0 =? 16) ((16 <=? b) && (b <=? 31))) 256);
    [reflexivity | unfold octet in H; lia].
Qed.

Lemma land_C0 b : octet b -> (Z.land b 0xC0 =? 64) = (64 <=? b) && (b <=? 127).
Proof.
  intros H. apply Bool.eqb_true_iff.
  apply (forall_below (fun b => Bool.eqb (Z.land b 0xC0 =? 64) ((64 <=? b) && (b <=? 127))) 256);
    [reflexivity | unfold octet in H; lia].
Qed.

(** A block of length 8, 16 or in between is a condition on the first octets. *)
Lemma block_8 a b c d x :
  octet a -> octet b -> octet c -> octet d ->
  in_block (ipv4_address a b c d) (ipv4_address x 0 0 0) 8 <-> a = x.
Proof. unfold octet, in_block, ipv4_address. change (2 ^ (32 - 8)) with 16777216. intros. zlia. Qed.

Lemma block_16 a b c d x y :
  octet a -> octet b -> octet c -> octet d -> octet y ->
  in_block (ipv4_address a b c d) (ipv4_address x y 0 0) 16 <-> a = x /\ b = y.
Proof. unfold octet, in_block, ipv4_address. change (2 ^ (32 - 16)) with 65536. intros. zlia. Qed.

Lemma block_12 a b c d :
  octet a -> octet b -> octet c -> octet d ->
  in_block (ipv4_address a b c d) (ipv4_address 172 16 0 0) 12 <-> a = 172 /\ 16 <= b <= 31.
Proof. unfold octet, in_block, ipv4_address. change (2 ^ (32 - 12)) with 1048576. intros. zlia. Qed.

Lemma block_10 a b c d :
  octet a -> octet b -> octet c -> octet d ->
  in_block (ipv4_address a b c d) (ipv4_address 100 64 0 0) 10 <-> a = 100 /\ 64 <= b <= 127.
Proof. unfold octet, in_block, ipv4_address. change (2 ^ (32 - 10)) with 4194304. intros. zlia. Qed.

Lemma isPrivateIpv4_reserved a b c d :
  octet a -> octet b -> octet c -> octet d ->
  isPrivateIpv4 a b c d = true <-> reserved_address (ipv4_address a b c d).
Proof.
  intros Ha Hb Hc Hd. unfold isPrivateIpv4, reserved_address.
  rewrite !block_8, !block_16, block_12, block_10 by (done || unfold octet; lia).
  rewrite land_F0, land_C0 by done. breflect. lia.
Qed.

(** A numeral of [n] is what [ipv4Segment] reads as [n], and nothing else is. *)
Lemma ipv4Segment_print v : octet v -> ipv4Segment (to_string v) = Some v.
Proof.
  intros H. pose (P := fun v => bool_decide (ipv4Segment (to_string v) = Some v)).
  assert (HP : P v = true) by (apply (forall_below P 256); [reflexivity | unfold octet in H; lia]).
  by apply bool_decide_eq_true in HP.
Qed.

Definition two_digits (z : Z) : string := String (digit_char (z / 10)) (String (digit_char (z mod 10)) "").
Definition three_digits (z : Z) : string :=
  String (digit_char (z / 100)) (String (digit_char (z / 10 mod 10)) (String (digit_char (z mod 10)) "")).

Lemma two_digits_of c d :
  isdigit c = true -> isdigit d = true ->
  String c (String d "") = two_digits (digit c * 10 + digit d).
Proof.
  intros Hc Hd. pose proof (digit_bounds c Hc). pose proof (digit_bounds d Hd). unfold two_digits.
  replace ((digit c * 10 + digit d) / 10) with (digit c) by zlia.
  replace ((digit c * 10 + digit d) mod 10) with (digit d) by zlia.
  by rewrite !digit_char_digit.
Qed.

Lemma three_digits_of b c d :
  isdigit b = true -> isdigit c = true -> isdigit d = true ->
  String b (String c (String d "")) = three_digits ((digit b * 10 + digit c) * 10 + digit d).
Proof.
  intros Hb Hc Hd. pose proof (digit_bounds b Hb). pose proof (digit_bounds c Hc).
  pose proof (digit_bounds d Hd). unfold three_digits.
  replace (((digit b * 10 + digit c) * 10 + digit d) / 100) with (digit b) by zlia.
  replace (((digit b * 10 + digit c) * 10 + digit d) / 10 mod 10) with (digit c) by zlia.
  replace (((digit b * 10 + digit c) * 10 + digit d) mod 10) with (digit d) by zlia.
  by rewrite !digit_char_digit.
Qed.

(** The check of one spelling [f z] of the number [z]. *)
Definition segment_ok (f : Z -> string) (z : Z) : bool :=
  match ipv4Segment (f z) with
  | Some v => (v <=? 255) && (0 <=? v) && String.eqb (f z) (to_string v)
  | None => true
  end.

Lemma segment_checked f n z v :
  forallb (segment_ok f) (map Z.of_nat (seq 0 n)) = true -> 0 <= z < Z.of_nat n ->
  ipv4Segment (f z) = Some v -> octet v /\ f z = to_string v.
Proof.
  intros H Hz Hs. pose proof (forall_below (segment_ok f) n H z Hz) as Hok.
  unfold segment_ok in Hok. rewrite Hs in Hok. breflect. unfold octet. naive_solver.
Qed.

Lemma ipv4Segment_inv s v : ipv4Segment s = Some v -> octet v /\ s = to_string v.
Proof.
  intros H. pose proof H as H'. unfold ipv4Segment in H'.
  destruct (is_empty s || (3 <? slen s)) eqn:He; [done |].
  destruct (all_digits s) eqn:Hd; [|done]. clear H'. apply orb_false_iff in He as [Hne Hl].
  destruct s as [|b [|c [|d [|e s]]]]; [done | | | |].
  - simpl in Hd. apply andb_true_iff in Hd as [Hb _]. pose proof (digit_bounds b Hb).
    rewrite <- (digit_char_digit b Hb) in H. rewrite <- (digit_char_digit b Hb) at 1.
    eapply (segment_checked (fun z => String (digit_char z) "") 10); [reflexivity | lia | done].
  - simpl in Hd. rewrite !andb_true_iff in Hd. destruct Hd as (Hb & Hc & _).
    pose proof (digit_bounds b Hb). pose proof (digit_bounds c Hc).
    rewrite two_digits_of in H |- * by done.
    eapply (segment_checked two_digits 100); [reflexivity | lia | done].
  - simpl in Hd. rewrite !andb_true_iff in Hd. destruct Hd as (Hb & Hc & Hd & _).
    pose proof (digit_bounds b Hb). pose proof (digit_bounds c Hc). pose proof (digit_bounds d Hd).
    rewrite three_digits_of in H |- * by done.
    eapply (segment_checked three_digits 1000); [reflexivity | lia | done].
  - exfalso. rewrite !slen_cons in Hl. breflect. pose proof (slen_nonneg s). lia.
Qed.

Lemma to_string_octet_digits v : octet v -> all_digits (to_string v) = true /\ to_string v <> "".
Proof. intros H. destruct (to_string_spec v) as (? & _ & ?); [unfold octet in H; lia | done]. Qed.

(** A numeral holds no separator. *)
Lemma numeral_avoids c v :
  isdigit c = false -> octet v ->
  all_char (fun x => negb (Ascii.eqb c x)) (to_string v) = true.
Proof. intros Hc Hv. apply digits_avoid; [done |]. by apply to_string_octet_digits. Qed.

Lemma parseIpv4_from_step v more s :
  octet v ->
  parseIpv4_from (S more) (to_string v +:+ String "." s) =
    (vs ← parseIpv4_from more s; Some (v :: vs)).
Proof.
  intros Hv. simpl. rewrite find_split_app by (by apply numeral_avoids).
  by rewrite ipv4Segment_print.
Qed.

Lemma parseIpv4_from_inv more s vs :
  parseIpv4_from (S more) s = Some vs ->
  exists v rest vs', octet v /\ s = to_string v +:+ String "." rest /\
    parseIpv4_from more rest = Some vs' /\ vs = v :: vs'.
Proof.
  simpl. destruct (find_split "." s) as [[seg rest]|] eqn:Hf; [|done].
  apply find_split_some in Hf as [-> _].
  destruct (ipv4Segment seg) as [v|] eqn:Hv; [|done]. simpl.
  destruct (parseIpv4_from more rest) as [vs'|] eqn:Hr; [|done]. simpl. intros [= <-].
  apply ipv4Segment_inv in Hv as [? ->]. by exists v, rest, vs'.
Qed.

Lemma parseIpv4_dotted a b c d :
  octet a -> octet b -> octet c -> octet d ->
  parseIpv4 (dotted a b c d) = Some (a, b, c, d).
Proof.
  intros Ha Hb Hc Hd. unfold parseIpv4, dotted. simpl (_ +:+ _).
  rewrite !parseIpv4_from_step by done. simpl. by rewrite ipv4Segment_print.
Qed.

Lemma parseIpv4_inv s a b c d :
  parseIpv4 s = Some (a, b, c, d) ->
  s = dotted a b c d /\ octet a /\ octet b /\ octet c /\ octet d.
Proof.
  unfold parseIpv4. destruct (parseIpv4_from 3 s) as [vs|] eqn:H; [|done].
  apply parseIpv4_from_inv in H as (v1 & r1 & vs1 & O1 & -> & H & ->).
  apply parseIpv4_from_inv in H as (v2 & r2 & vs2 & O2 & -> & H & ->).
  apply parseIpv4_from_inv in H as (v3 & r3 & vs3 & O3 & -> & H & ->).
  simpl in H. destruct (ipv4Segment r3) as [v4|] eqn:E; [|done]. simpl in H.
  injection H as <-. intros [= <- <- <- <-]. apply ipv4Segment_inv in E as [O4 ->]. done.
Qed.

(** ** Lemmas: the host of a URL *)

(** No character of [set] occurs in [s]. *)
Definition avoids (set s : string) : bool := all_char (fun c => negb (mem_char set c)) s.

Lemma mem_char_sub set set' c :
  all_char (mem_char set) set' = true -> mem_char set' c = true -> mem_char set c = true.
Proof.
  intros H Hc. unfold mem_char in Hc. apply negb_true_iff in Hc.
  induction set' as [|d s IH]; simpl in *; [done |].
  apply andb_true_iff in H as [Hd Hs]. destruct (Ascii.eqb_spec d c) as [->|]; [done |]. by apply IH.
Qed.

Lemma avoids_sub set set' s :
  all_char (mem_char set) set' = true -> avoids set s = true -> avoids set' s = true.
Proof.
  intros H. apply all_char_impl. intros c Hc. apply negb_true_iff in Hc. apply negb_true_iff.
  destruct (mem_char set' c) eqn:E; [|done]. by rewrite (mem_char_sub set set') in Hc.
Qed.

(** [rest] is empty or starts with a character of [set]. *)
Definition stops (set rest : string) : bool :=
  match rest with EmptyString => true | String c _ => mem_char set c end.

Lemma until_app set a rest :
  avoids set a = true -> stops set rest = true -> until set (a +:+ rest) = (a, rest).
Proof.
  intros Ha Hr. unfold until. destruct rest as [|c rest].
  - rewrite sapp_nil_r. by rewrite (proj2 (split_at_none _ a)).
  - by rewrite split_at_app.
Qed.

Lemma avoids_app set a b : avoids set (a +:+ b) = avoids set a && avoids set b.
Proof. apply all_char_app. Qed.

Lemma avoids_one c s :
  avoids (String c "") s = all_char (fun x => negb (Ascii.eqb c x)) s.
Proof.
  induction s as [|d s IH]; [done |]. unfold avoids in *. simpl. rewrite IH. f_equal.
  unfold mem_char. simpl. by destruct (Ascii.eqb c d).
Qed.

(** The parts of an http(s) authority, as a client reads them: optional
    userinfo before an ['@'] (it may hold ['@'] itself), the host, an optional
    port part, then the path, query or fragment. *)
Record url_parts := UrlParts {
  up_scheme : string;
  up_userinfo : string;   (* empty, or text ending in ['@'] *)
  up_host : string;
  up_port : string;       (* empty, or [':'] and text *)
  up_rest : string        (* empty, or starting with ['/'], ['?'] or ['#'] *)
}.

Definition url_text (u : url_parts) : string :=
  up_scheme u +:+ up_userinfo u +:+ up_host u +:+ up_port u +:+ up_rest u.

Definition url_wf (u : url_parts) : bool :=
  (String.eqb (up_scheme u) "http://" || String.eqb (up_scheme u) "https://")
  && avoids "/?#" (up_userinfo u)
  && (is_empty (up_userinfo u) ||
      match after_last "@" (up_userinfo u) with Some "" => true | _ => false end)
  && avoids "/:?#@[" (up_host u) && negb (is_empty (up_host u))
  && stops ":" (up_port u) && avoids "/?#@" (up_port u)
  && stops "/?#" (up_rest u).

Lemma after_last_some c s t :
  after_last c s = Some t -> exists a, s = a +:+ String c t /\
    all_char (fun x => negb (Ascii.eqb c x)) t = true.
Proof.
  revert t. induction s as [|d s IH]; intros t; simpl; [done |].
  destruct (after_last c s) as [t'|] eqn:E.
  - intros [= <-]. destruct (IH t' eq_refl) as (a & -> & Ht). by exists (String d a).
  - destruct (Ascii.eqb_spec c d) as [->|]; [|done]. intros [= <-]. exists "". split; [done |].
    clear IH. induction s as [|x s IH]; [done |]. simpl in *.
    destruct (after_last d s); [done |]. destruct (Ascii.eqb d x); [done |]. by apply IH.
Qed.

Lemma mem_char_head c s : mem_char (String c s) c = true.
Proof. unfold mem_char. simpl. by rewrite Ascii.eqb_refl. Qed.

(** What remains of the URL once the userinfo is dropped. *)
Lemma userinfo_dropped ui auth rest :
  avoids "/?#" ui = true ->
  is_empty ui || match after_last "@" ui with Some "" => true | _ => false end = true ->
  avoids "/?#@" auth = true -> stops "/?#" rest = true ->
  (let '(authority, tail) := until "/?#" (ui +:+ auth +:+ rest) in
   match after_last "@" authority with
   | Some h => h +:+ tail
   | None => ui +:+ auth +:+ rest
   end) = auth +:+ rest.
Proof.
  intros Hu Hat Ha Hr. rewrite <- sapp_assoc.
  assert (Ha' : avoids "@" auth = true) by (by apply (avoids_sub "/?#@")).
  rewrite avoids_one in Ha'.
  rewrite until_app; [| rewrite avoids_app, Hu; by apply (avoids_sub "/?#@") | done].
  destruct ui as [|c ui]; [by rewrite after_last_none |].
  simpl is_empty in Hat. rewrite orb_false_l in Hat.
  destruct (after_last "@" (String c ui)) as [[|]|] eqn:E; [|done|done].
  apply after_last_some in E as (a & -> & _). rewrite sapp_assoc. simpl (String _ _ +:+ auth).
  by rewrite after_last_app.
Qed.

Lemma extract_scheme scheme rest :
  String.eqb scheme "http://" || String.eqb scheme "https://" = true ->
  after_find "://" (scheme +:+ rest) = Some rest.
Proof. intros H. apply orb_true_iff in H. by destruct H as [H|H]; apply String.eqb_eq in H as ->. Qed.

Lemma stops_app set a b : stops set a = true -> stops set b = true -> stops set (a +:+ b) = true.
Proof. by destruct a. Qed.

Lemma stops_sub set set' s :
  all_char (mem_char set) set' = true -> stops set' s = true -> stops set s = true.
Proof. intros H. destruct s; [done |]. by apply mem_char_sub. Qed.

Lemma avoids_head set c s : avoids set (String c s) = true -> mem_char set c = false.
Proof. unfold avoids. simpl. intros H. apply andb_true_iff in H as [H _]. by apply negb_true_iff. Qed.

Lemma extractUrlHost_parts u : url_wf u = true -> extractUrlHost (url_text u) = up_host u.
Proof.
  destruct u as [scheme ui host port rest]. unfold url_wf, url_text. simpl.
  rewrite !andb_true_iff, negb_true_iff. intros (((((((Hs & Hu) & Hat) & Hh) & Hne) & Hp) & Hpa) & Hr).
  unfold extractUrlHost. rewrite extract_scheme by done.
  assert (Ha : avoids "/?#@" (host +:+ port) = true).
  { rewrite avoids_app, Hpa. by rewrite (avoids_sub "/:?#@[" "/?#@"). }
  pose proof (userinfo_dropped ui (host +:+ port) rest Hu Hat Ha Hr) as E.
  destruct host as [|c host]; [done |].
  replace (is_empty _) with false by (by destruct ui).
  rewrite <- (sapp_assoc (String c host) port rest). destruct (until _ _) as [authority tail].
  rewrite E. rewrite sapp_assoc. simpl (String c host +:+ _).
  assert (Hc : c <> "["%char).
  { intros ->. apply avoids_head in Hh. done. }
  replace (fst (until "/:?#" _)) with (String c host); [by destruct c as [[] [] [] [] [] [] [] []] |].
  change (String c (host +:+ port +:+ rest)) with (String c host +:+ (port +:+ rest)).
  rewrite until_app; [done | by apply (avoids_sub "/:?#@[") |].
  apply stops_app; [by apply (stops_sub _ ":") | by apply (stops_sub _ "/?#")].
Qed.

(** A bracketed literal, with whatever follows the closing bracket. *)
Lemma extractUrlHost_bracket scheme ui lit rest :
  String.eqb scheme "http://" || String.eqb scheme "https://" = true ->
  avoids "/?#" ui = true ->
  is_empty ui || match after_last "@" ui with Some "" => true | _ => false end = true ->
  avoids "/?#@]" lit = true -> stops "/?#" rest = true ->
  extractUrlHost (scheme +:+ ui +:+ "[" +:+ lit +:+ "]" +:+ rest) = lit.
Proof.
  intros Hs Hu Hat Hl Hr. unfold extractUrlHost. rewrite extract_scheme by done.
  assert (Ha : avoids "/?#@" ("[" +:+ lit +:+ "]") = true).
  { rewrite !avoids_app. rewrite (avoids_sub "/?#@]" "/?#@" lit) by done. done. }
  pose proof (userinfo_dropped ui _ rest Hu Hat Ha Hr) as E.
  rewrite !sapp_assoc in E.
  replace (is_empty _) with false by (by destruct ui).
  destruct (until _ _) as [authority tail]. rewrite E.
  change ("[" +:+ lit +:+ "]" +:+ rest) with (String "[" (lit +:+ String "]" rest)).
  cbv beta iota. rewrite find_split_app; [done |].
  rewrite <- avoids_one. by apply (avoids_sub "/?#@]").
Qed.

Lemma scheme_prefix scheme rest :
  String.eqb scheme "http://" || String.eqb scheme "https://" = true ->
  negb (String.prefix "http://" (scheme +:+ rest)) &&
  negb (String.prefix "https://" (scheme +:+ rest)) = false.
Proof.
  intros H. apply orb_true_iff in H. destruct H as [H|H]; apply String.eqb_eq in H as ->; by destruct rest.
Qed.

Lemma wf_scheme u :
  url_wf u = true ->
  negb (String.prefix "http://" (url_text u)) && negb (String.prefix "https://" (url_text u)) = false.
Proof. unfold url_wf. rewrite !andb_true_iff. intros H. apply scheme_prefix. tauto. Qed.

Lemma hexNibble_bounds c n : hexNibble c = Some n -> 0 <= n <= 15.
Proof.
  unfold hexNibble, isdigit. intros H. repeat split_in H; try done; injection H as <-; breflect; lia.
Qed.

Lemma leadingHex_bounds n v s :
  0 <= v -> 0 <= leadingHex n v s < (v + 1) * 16 ^ Z.of_nat n.
Proof.
  revert v s. induction n as [|n IH]; intros v s Hv; [simpl; lia |].
  replace (Z.of_nat (S n)) with (1 + Z.of_nat n) by lia. rewrite Z.pow_add_r by lia.
  change (16 ^ 1) with 16. assert (0 < 16 ^ Z.of_nat n) by lia.
  destruct s as [|c s]; cbn [leadingHex]; [nia |].
  destruct (hexNibble c) as [d|] eqn:E; [|nia]. apply hexNibble_bounds in E.
  specialize (IH (v * 16 + d) s). nia.
Qed.

Lemma unicast_mask v : 0 <= v < 65536 -> (Z.land v 0xE000 =? 0x2000) = (0x2000 <=? v) && (v <=? 0x3FFF).
Proof.
  intros H. replace (Z.land v 0xE000) with (Z.shiftl (Z.shiftr v 13) 13).
  - rewrite Z.shiftl_mul_pow2, Z.shiftr_div_pow2 by lia. change (2 ^ 13) with 8192.
    apply eq_iff_eq_true. breflect. zlia.
  - apply Z.bits_inj'. intros i Hi. rewrite Z.shiftl_spec, Z.land_spec by lia.
    destruct (Z.ltb_spec i 13).
    + rewrite Z.testbit_neg_r by lia.
      replace (Z.testbit 0xE000 i) with false; [by rewrite andb_false_r |].
      symmetry. apply negb_true_iff.
      apply (forall_below (fun i => negb (Z.testbit 0xE000 i)) 13); [reflexivity | lia].
    + rewrite Z.shiftr_spec by lia. replace (i - 13 + 13) with i by lia.
      destruct (Z.ltb_spec i 16).
      * assert (i = 13 \/ i = 14 \/ i = 15) as [->|[->| ->]] by lia;
          change (Z.testbit 57344 _) with true; by rewrite andb_true_r.
      * rewrite (Z.bits_above_log2 v i); [done | lia |].
        assert (Z.log2 v <= Z.log2 65535) by (apply Z.log2_le_mono; lia).
        change (Z.log2 65535) with 15 in *. lia.
Qed.

Lemma isGlobalUnicastIpv6_spec lit :
  isGlobalUnicastIpv6 lit = true <->
  String.prefix ":" lit = false /\ 0x2000 <= leadingHex 4 0 lit <= 0x3FFF.
Proof.
  unfold isGlobalUnicastIpv6. destruct (String.prefix ":" lit); [split; [done | by intros []] |].
  pose proof (leadingHex_bounds 4 0 lit) as B. change ((0 + 1) * 16 ^ Z.of_nat 4) with 65536 in B.
  rewrite unicast_mask by lia. breflect. naive_solver.
Qed.

(** A host holding a colon is judged as an IPv6 literal. *)
Lemma isBlockedHost_ipv6 lit :
  mem_char lit ":" = true -> isBlockedHost lit = negb (isGlobalUnicastIpv6 lit).
Proof.
  intros H. unfold isBlockedHost. rewrite H. destruct (is_empty lit) eqn:He.
  { apply is_empty_true in He as ->. done. }
  assert (Hlow : mem_char (to_lower lit) ":" = true).
  { clear He. unfold mem_char in *. apply negb_true_iff. apply negb_true_iff in H.
    induction lit as [|c s IH]; [done |]. unfold to_lower in *. cbn [all_char map_string] in *.
    apply andb_false_iff in H as [H|H]; apply andb_false_iff; [left | right; by apply IH].
    apply negb_false_iff in H. apply Ascii.eqb_eq in H as ->. done. }
  destruct (String.eqb_spec (to_lower lit) "localhost") as [E|_]; [by rewrite E in Hlow |].
  destruct (String.eqb_spec (to_lower lit) "localhost.") as [E|_]; [by rewrite E in Hlow |]. done.
Qed.

(** ** Theorems *)

(** A host spelled with dots and digits only is no IPv6 literal and no name. *)
Lemma isBlockedHost_dotted a b c d :
  octet a -> octet b -> octet c -> octet d ->
  isBlockedHost (dotted a b c d) = true <-> reserved_address (ipv4_address a b c d).
Proof.
  intros Ha Hb Hc Hd. rewrite <- isPrivateIpv4_reserved by done.
  assert (Hchars : all_char (fun c => isdigit c || Ascii.eqb "." c) (dotted a b c d) = true).
  { assert (Hn : forall v, octet v -> all_char (fun c => isdigit c || Ascii.eqb "." c) (to_string v) = true).
    { intros v Hv. apply (all_char_impl isdigit); [intros x ->; done |].
      by apply to_string_octet_digits. }
    unfold dotted. by rewrite !all_char_app, !Hn. }
  assert (Hcolon : mem_char (dotted a b c d) ":" = false).
  { unfold mem_char. apply negb_false_iff. eapply all_char_impl; [|exact Hchars].
    intros x. destruct (Ascii.eqb_spec x ":") as [->|]; done. }
  unfold isBlockedHost.
  replace (is_empty (dotted a b c d)) with false.
  2: { unfold dotted. destruct (to_string_octet_digits a Ha) as [_ Hne]. by destruct (to_string a). }
  rewrite Hcolon, parseIpv4_dotted by done.
  assert (Hlow : to_lower (dotted a b c d) = dotted a b c d).
  { clear -Hchars. induction (dotted a b c d) as [|x s IH]; [done |].
    cbn [all_char] in Hchars. apply andb_true_iff in Hchars as [Hx Hs].
    unfold to_lower in *. cbn [map_string]. rewrite IH by done. f_equal. unfold to_lower_char.
    destruct (Ascii.eqb_spec "." x) as [<-|]; [done |]. rewrite orb_false_r in Hx.
    unfold isdigit in Hx. destruct ((65 <=? code x) && (code x <=? 90)) eqn:E; [|done].
    breflect. lia. }
  rewrite Hlow.
  assert (Hloc : forall w, all_char (fun c => isdigit c || Ascii.eqb "." c) w = false ->
                 String.eqb (dotted a b c d) w = false).
  { intros w Hw. apply String.eqb_neq. intros <-. congruence. }
  by rewrite !Hloc.
Qed.

(** For every http(s) URL whose host is a canonical IPv4 literal, whatever
    its userinfo, port, path, query and fragment, [validateNotifyUrl] accepts it
    exactly when the URL is short enough and the address lies in none of the
    private or reserved blocks: the check and the client agree on the host. *)
Lemma validateNotifyUrl_ipv4 u a b c d :
  url_wf u = true -> up_host u = dotted a b c d ->
  octet a -> octet b -> octet c -> octet d ->
  validateNotifyUrl (url_text u) = None <->
  slen (url_text u) <= 512 /\ ~ reserved_address (ipv4_address a b c d).
Proof.
  intros Hwf Hh Ha Hb Hc Hd. pose proof (isBlockedHost_dotted a b c d Ha Hb Hc Hd) as HB.
  unfold validateNotifyUrl. rewrite extractUrlHost_parts, Hh by done.
  rewrite (wf_scheme u Hwf). destruct (is_empty (url_text u)) eqn:He.
  { apply is_empty_true in He. pose proof (wf_scheme u Hwf) as E. by rewrite He in E. }
  destruct (Z.ltb_spec 512 (slen (url_text u))); [split; [done | lia] |].
  destruct (isBlockedHost _) eqn:E; split; try done; [naive_solver |].
  intros _. split; [done |]. intros Hr%HB. congruence.
Qed.

Lemma validateNotifyUrl_ipv4_witness :
  validateNotifyUrl "https://u@8.8.8.8@203.0.113.9:8443/cb?x=@10.0.0.1" = None <->
  slen "https://u@8.8.8.8@203.0.113.9:8443/cb?x=@10.0.0.1" <= 512 /\
  ~ reserved_address (ipv4_address 203 0 113 9).
Proof.
  apply (validateNotifyUrl_ipv4
           (UrlParts "https://" "u@8.8.8.8@" "203.0.113.9" ":8443" "/cb?x=@10.0.0.1"));
    reflexivity || (unfold octet; lia).
Defined.

(** For a bracketed IPv6 literal the check accepts exactly the addresses
    whose text starts with a 16-bit group in [2000::/3] (the global unicast
    class), whatever the userinfo and the path. *)
Lemma validateNotifyUrl_ipv6 scheme ui lit rest :
  String.eqb scheme "http://" || String.eqb scheme "https://" = true ->
  avoids "/?#" ui = true ->
  is_empty ui || match after_last "@" ui with Some "" => true | _ => false end = true ->
  avoids "/?#@]" lit = true -> mem_char lit ":" = true -> stops "/?#" rest = true ->
  let url := scheme +:+ ui +:+ "[" +:+ lit +:+ "]" +:+ rest in
  validateNotifyUrl url = None <->
  slen url <= 512 /\ String.prefix ":" lit = false /\ 0x2000 <= leadingHex 4 0 lit <= 0x3FFF.
Proof.
  intros Hs Hu Hat Hl Hcolon Hr url. unfold validateNotifyUrl.
  assert (Hx : extractUrlHost url = lit) by (by apply extractUrlHost_bracket).
  rewrite Hx.
  assert (Hpre : negb (String.prefix "http://" url) && negb (String.prefix "https://" url) = false)
    by (apply scheme_prefix; done).
  rewrite Hpre. destruct (is_empty url) eqn:He.
  { apply is_empty_true in He. by rewrite He in Hpre. }
  rewrite (isBlockedHost_ipv6 lit Hcolon).
  destruct (Z.ltb_spec 512 (slen url)); [split; [done | lia] |].
  destruct (isGlobalUnicastIpv6 lit) eqn:E.
  - split; [|done]. intros _. split; [done |]. by apply isGlobalUnicastIpv6_spec.
  - split; [done |]. intros (_ & H1 & H2).
    assert (isGlobalUnicastIpv6 lit = true) by (by apply isGlobalUnicastIpv6_spec). congruence.
Qed.

Lemma validateNotifyUrl_ipv6_witness :
  validateNotifyUrl "http://a@[2001:db8::1]/cb" = None <->
  slen "http://a@[2001:db8::1]/cb" <= 512 /\ String.prefix ":" "2001:db8::1" = false /\
  0x2000 <= leadingHex 4 0 "2001:db8::1" <= 0x3FFF.
Proof. by apply (validateNotifyUrl_ipv6 "http://" "a@" "2001:db8::1" "/cb"). Defined.

(** Spellings of the loopback address the block list does not cover: a
    trailing dot, and a 6to4 rendering. *)
Example loopback_spellings_pass :
  validateNotifyUrl "http://127.0.0.1./cb" = None /\
  validateNotifyUrl "http://[2002:7f00:1::]/cb" = None /\
  map isBlockedHost ["127.1"; "2130706433"; "0x7f.1"; "010.1.1.1"; "LOCALHOST"; "::ffff:127.0.0.1"]
    = [true; true; true; true; true; true].
Proof. repeat split; reflexivity. Qed.
