(* ===== verification/Rfc3339.v ===== *)
(** * Timestamps (src/libs/drogon-pay/src/utils/PayUtils.cc): [parseRfc3339],
    the calendar arithmetic under it, and [validateTimeExpire].

    The fixed 19-character header is read by position as in the source; past
    it, a position is represented by the text from it on. *)
From S2P Require Import Prelude Cxx.

(** ** Definitions *)

Definition u32 (z : Z) : Z := z mod 2 ^ 32.

(** The loop of [readFixedDigits] once the length was checked. *)
Fixpoint read_digits (s : string) (at_ count : nat) (accumulated : Z) : option Z :=
  match count with
  | O => Some accumulated
  | S count' =>
      match String.get at_ s with
      | Some c => if isdigit c then read_digits s (S at_) count' (accumulated * 10 + digit c) else None
      | None => None
      end
  end.

Definition readFixedDigits (s : string) (at_ count : nat) : option Z :=
  if (String.length s <? at_ + count)%nat then None else read_digits s at_ count 0.

Definition isLeapYear (year : Z) : bool :=
  ((Z.rem year 4 =? 0) && negb (Z.rem year 100 =? 0)) || (Z.rem year 400 =? 0).

Definition kDaysInMonth : list Z := [31; 28; 31; 30; 31; 30; 31; 31; 30; 31; 30; 31].

Definition daysInMonth (year month : Z) : Z :=
  if (month =? 2) && isLeapYear year then 29
  else nth (Z.to_nat (month - 1)) kDaysInMonth 0.

Definition daysFromCivil (year month day : Z) : Z :=
  let year := year - (if month <=? 2 then 1 else 0) in
  let era := Z.quot (if 0 <=? year then year else year - 399) 400 in
  let yearOfEra := u32 (year - era * 400) in
  let shiftedMonth := u32 (month + (if 2 <? month then -3 else 9)) in
  let dayOfYear := u32 (u32 (153 * shiftedMonth + 2) / 5 + u32 day - 1) in
  let dayOfEra := u32 (yearOfEra * 365 + yearOfEra / 4 - yearOfEra / 100 + dayOfYear) in
  era * 146097 + dayOfEra - 719468.

Definition is_char (s : string) (at_ : nat) (c : ascii) : bool :=
  match String.get at_ s with Some d => Ascii.eqb d c | None => false end.

Definition kFormatError : string :=
  "expected RFC 3339 (yyyy-MM-DDTHH:mm:ss with a Z or ±HH:MM timezone)".

(** The text from position [n] on. *)
Fixpoint suffix (n : nat) (s : string) : string :=
  match n, s with
  | S n', String _ s' => suffix n' s'
  | _, _ => s
  end.

(** The first condition: the six numbers of the header. *)
Definition readHeader (value : string) : option (Z * Z * Z * Z * Z * Z) :=
  if (String.length value <? 20)%nat then None
  else
    year ← readFixedDigits value 0 4;
    if negb (is_char value 4 "-") then None else
    month ← readFixedDigits value 5 2;
    if negb (is_char value 7 "-") then None else
    day ← readFixedDigits value 8 2;
    if negb (is_char value 10 "T") then None else
    hour ← readFixedDigits value 11 2;
    if negb (is_char value 13 ":") then None else
    minute ← readFixedDigits value 14 2;
    if negb (is_char value 16 ":") then None else
    second ← readFixedDigits value 17 2;
    Some (year, month, day, hour, minute, second).

(** Consume [.digits]; [None] is a point without digits. *)
Definition skipFraction (s : string) : option string :=
  match s with
  | String "."%char t =>
      let t' := suffix (String.length (take_digits t)) t in
      if (String.length t' =? String.length t)%nat then None else Some t'
  | _ => Some s
  end.

(** The offset in seconds and the text after it. *)
Definition readOffset (s : string) : string + (Z * string) :=
  match s with
  | EmptyString => inl "the timestamp must carry a timezone (Z or ±HH:MM)"
  | String c t =>
      if Ascii.eqb c "Z" then inr (0, t)
      else if Ascii.eqb c "+" || Ascii.eqb c "-" then
        let sign := if Ascii.eqb c "+" then 1 else -1 in
        match readFixedDigits t 0 2 with
        | None => inl kFormatError
        | Some offsetHour =>
            if negb (is_char t 2 ":") then inl kFormatError
            else
              match readFixedDigits t 3 2 with
              | None => inl kFormatError
              | Some offsetMinute =>
                  if (23 <? offsetHour) || (59 <? offsetMinute)
                  then inl "the timezone offset is out of range"
                  else inr (sign * (offsetHour * 3600 + offsetMinute * 60), suffix 5 t)
              end
        end
      else inl kFormatError
  end.

(** [inr] is the number of seconds since the epoch, [inl] the error message. *)
Definition parseRfc3339 (value : string) : string + Z :=
  match readHeader value with
  | None => inl kFormatError
  | Some (year, month, day, hour, minute, second) =>
      if (month <? 1) || (12 <? month) || (day <? 1) || (daysInMonth year month <? day)
         || (23 <? hour) || (59 <? minute) || (59 <? second)
      then inl "the timestamp names a moment that does not exist"
      else
        match skipFraction (suffix 19 value) with
        | None => inl kFormatError
        | Some zone =>
            match readOffset zone with
            | inl e => inl e
            | inr (offsetSeconds, trailing) =>
                if negb (is_empty trailing) then inl kFormatError
                else inr (daysFromCivil year month day * 86400
                            + hour * 3600 + minute * 60 + second - offsetSeconds)
            end
        end
  end.

(** [nowSeconds] is the clock the source reads after parsing; [None] accepts. *)
Definition validateTimeExpire (timeExpire channel : string) (nowSeconds : Z) : option string :=
  match parseRfc3339 timeExpire with
  | inl parseError => Some ("time_expire " +:+ parseError)
  | inr expirySeconds =>
      if expirySeconds <=? nowSeconds then Some "time_expire is already in the past"
      else if String.eqb channel "wechat" && (nowSeconds + 7 * 86400 <? expirySeconds)
      then Some "time_expire must be within 7 days for WeChat Pay"
      else None
  end.

(** ** The Gregorian calendar, counted day by day *)

(** Every fourth year, but of the centuries only every fourth. *)
Definition leap_year (y : Z) : bool := if y mod 100 =? 0 then y mod 400 =? 0 else y mod 4 =? 0.

Definition month_days (y m : Z) : Z :=
  match m with
  | 2 => if leap_year y then 29 else 28
  | 4 | 6 | 9 | 11 => 30
  | _ => 31
  end.

Definition year_days (y : Z) : Z := if leap_year y then 366 else 365.

(** The days of the first [n] years from the year 0, and of the first [n] months of a year. *)
Fixpoint days_of_years (n : nat) : Z :=
  match n with O => 0 | S n' => days_of_years n' + year_days (Z.of_nat n') end.

Fixpoint days_of_months (y : Z) (n : nat) : Z :=
  match n with O => 0 | S n' => days_of_months y n' + month_days y (Z.of_nat n) end.

(** The days from 1970-01-01 to a date. *)
Definition day_number (y m d : Z) : Z :=
  days_of_years (Z.to_nat y) + days_of_months y (Z.to_nat (m - 1)) + (d - 1) - days_of_years 1970.

Definition valid_date (y m d : Z) : Prop :=
  0 <= y <= 9999 /\ 1 <= m <= 12 /\ 1 <= d <= month_days y m.

(** ** Lemmas: the calendar *)

Definition day_of_year (m d : Z) : Z := (153 * (m + (if 2 <? m then -3 else 9)) + 2) / 5 + d - 1.

Lemma day_of_year_bounds m d : 1 <= m <= 12 -> 1 <= d <= 31 -> 0 <= day_of_year m d <= 400.
Proof. intros. unfold day_of_year. zcases; zlia. Qed.

Lemma era_floor y : Z.quot (if 0 <=? y then y else y - 399) 400 = y / 400.
Proof. zcases; zlia. Qed.

Lemma daysFromCivil_closed y m d :
  0 <= y <= 10000 -> 1 <= m <= 12 -> 1 <= d <= 31 ->
  daysFromCivil y m d =
    let y' := y - (if m <=? 2 then 1 else 0) in
    365 * y' + y' / 4 - y' / 100 + y' / 400 + day_of_year m d - 719468.
Proof.
  intros Hy Hm Hd. unfold daysFromCivil. cbv zeta. rewrite era_floor.
  set (y' := y - _). assert (-1 <= y' <= 10000) by (unfold y'; zcases; lia).
  assert (Hr : 0 <= y' - y' / 400 * 400 < 400) by zlia.
  pose proof (day_of_year_bounds m d Hm Hd) as Hdoy. unfold day_of_year in *.
  set (mp := m + _) in *. assert (0 <= mp <= 11) by (unfold mp; zcases; lia).
  unfold u32. change (2 ^ 32) with 4294967296.
  rewrite (Z.mod_small (y' - _)), (Z.mod_small mp) by lia.
  rewrite (Z.mod_small (153 * mp + 2)), (Z.mod_small d) by lia.
  rewrite (Z.mod_small ((153 * mp + 2) / 5 + d - 1)) by lia.
  generalize dependent ((153 * mp + 2) / 5 + d - 1). intros doy Hdoy.
  rewrite Z.mod_small; zlia.
Qed.

Lemma isLeapYear_mod y :
  0 <= y -> isLeapYear y = ((y mod 4 =? 0) && negb (y mod 100 =? 0)) || (y mod 400 =? 0).
Proof. intros H. unfold isLeapYear. rewrite !Z.rem_mod_nonneg by lia. done. Qed.

Lemma month_cases m (P : Z -> Prop) :
  1 <= m <= 12 ->
  P 1 -> P 2 -> P 3 -> P 4 -> P 5 -> P 6 -> P 7 -> P 8 -> P 9 -> P 10 -> P 11 -> P 12 -> P m.
Proof.
  intros H. intros.
  assert (m = 1 \/ m = 2 \/ m = 3 \/ m = 4 \/ m = 5 \/ m = 6 \/ m = 7 \/ m = 8 \/ m = 9 \/
          m = 10 \/ m = 11 \/ m = 12) as Hm by lia.
  repeat destruct Hm as [->|Hm]; try done. by subst.
Qed.

Lemma daysInMonth_bounds y m : 1 <= m <= 12 -> 28 <= daysInMonth y m <= 31.
Proof.
  intros H. unfold daysInMonth. pattern m. apply month_cases; try lia; simpl; try lia.
  destruct (isLeapYear y); lia.
Qed.

(** A year of the closed form has 365 days, or 366 when it is a leap year. *)
Lemma leap_count y :
  0 <= y ->
  (y / 4 - y / 100 + y / 400) - ((y - 1) / 4 - (y - 1) / 100 + (y - 1) / 400) =
    if isLeapYear y then 1 else 0.
Proof. intros H. rewrite isLeapYear_mod by done. zcases; simpl; zlia. Qed.

Lemma isLeapYear_spec y : 0 <= y -> isLeapYear y = leap_year y.
Proof. intros H. rewrite isLeapYear_mod by done. unfold leap_year. zcases; simpl; try done; zlia. Qed.

Lemma daysInMonth_spec y m : 0 <= y -> 1 <= m <= 12 -> daysInMonth y m = month_days y m.
Proof.
  intros Hy Hm. unfold daysInMonth. rewrite isLeapYear_spec by done. pattern m. apply month_cases; try lia; done.
Qed.

(** The closed form of the days of the years before a year. *)
Lemma days_of_years_closed y :
  0 <= y -> days_of_years (Z.to_nat y) = 365 * y + ((y - 1) / 4 - (y - 1) / 100 + (y - 1) / 400) + 1.
Proof.
  intros Hy. pattern y. apply natlike_ind; [done | | done]. clear y Hy. intros y Hy IH.
  rewrite Z2Nat.inj_succ by done. simpl. rewrite IH, Z2Nat.id by done. unfold year_days.
  pose proof (leap_count y Hy) as HL. rewrite isLeapYear_spec in HL by done.
  replace (Z.succ y - 1) with y by lia. destruct (leap_year y); lia.
Qed.

Lemma daysFromCivil_spec y m d : valid_date y m d -> daysFromCivil y m d = day_number y m d.
Proof.
  unfold valid_date. intros (Hy & Hm & Hd). rewrite <- daysInMonth_spec in Hd by lia.
  pose proof (daysInMonth_bounds y m Hm). rewrite daysFromCivil_closed by lia. cbv zeta. unfold day_number.
  rewrite days_of_years_closed by lia.
  replace (days_of_years 1970) with 719528 by (by vm_compute).
  pose proof (leap_count y ltac:(lia)) as HL. rewrite isLeapYear_spec in HL by lia. unfold day_of_year.
  clear Hd H. pattern m. apply month_cases; [exact Hm|..]; simpl;
    unfold month_days; simpl; destruct (leap_year y); zlia.
Qed.

(** ** Lemmas: reading by position *)

Definition d2 (z : Z) : string := String (digit_char (z / 10)) (String (digit_char (z mod 10)) "").
Definition d4 (z : Z) : string := d2 (z / 100) +:+ d2 (z mod 100).

Lemma suffix_add n m s : suffix (n + m) s = suffix m (suffix n s).
Proof. revert s. induction n as [|n IH]; intros s; simpl; [done |]. destruct s; [by destruct m | done]. Qed.

Lemma suffix_app a s : suffix (String.length a) (a +:+ s) = s.
Proof. induction a as [|c a IH]; [by destruct s | done]. Qed.

Lemma get_suffix n s c : String.get n s = Some c <-> exists r, suffix n s = String c r.
Proof.
  revert s. induction n as [|n IH]; intros s; destruct s as [|d s]; simpl;
    try (split; [done | by intros [? ?]]); [naive_solver | apply IH].
Qed.

Lemma suffix_S n s c r : suffix n s = String c r -> suffix (S n) s = r.
Proof. intros H. replace (S n) with (n + 1)%nat by lia. by rewrite suffix_add, H; destruct r. Qed.

Lemma suffix_length n s c r :
  suffix n s = String c r -> String.length s = (n + String.length (suffix n s))%nat.
Proof.
  revert s. induction n as [|n IH]; intros s; simpl; [done |].
  destruct s as [|d s]; [done |]. intros H. simpl. by rewrite (IH _ H).
Qed.

Lemma is_char_suffix s n c : is_char s n c = true <-> exists r, suffix n s = String c r.
Proof.
  unfold is_char. rewrite <- get_suffix. destruct (String.get n s) as [d|]; [|done].
  rewrite Ascii.eqb_eq. naive_solver.
Qed.

Lemma d2_chars z : 0 <= z <= 99 ->
  isdigit (digit_char (z / 10)) = true /\ isdigit (digit_char (z mod 10)) = true /\
  (digit (digit_char (z / 10))) * 10 + digit (digit_char (z mod 10)) = z.
Proof. intros H. rewrite !isdigit_digit_char, !digit_digit_char by zlia. repeat split. zlia. Qed.

Lemma d2_of c d : isdigit c = true -> isdigit d = true ->
  String c (String d "") = d2 (digit c * 10 + digit d).
Proof.
  intros Hc Hd. pose proof (digit_bounds c Hc). pose proof (digit_bounds d Hd). unfold d2.
  replace ((digit c * 10 + digit d) / 10) with (digit c) by zlia.
  replace ((digit c * 10 + digit d) mod 10) with (digit d) by zlia.
  by rewrite !digit_char_digit.
Qed.

(** One digit step of the reading loop. *)
Lemma read_digits_S s n k acc v :
  read_digits s n (S k) acc = Some v <->
  exists c r, suffix n s = String c r /\ isdigit c = true /\
              read_digits s (S n) k (acc * 10 + digit c) = Some v.
Proof.
  cbn [read_digits]. destruct (String.get n s) as [c|] eqn:E.
  - pose proof E as E'. apply get_suffix in E' as [r Hr]. destruct (isdigit c) eqn:Hc.
    + split; [intros H; by exists c, r | intros (c' & r' & Hr' & _ & H)].
      rewrite Hr in Hr'. by injection Hr' as <- <-.
    + split; [done | intros (c' & r' & Hr' & Hc' & H)].
      rewrite Hr in Hr'. injection Hr' as <- <-. congruence.
  - split; [done |]. intros (c & r & Hr & _).
    assert (String.get n s = Some c) by (apply get_suffix; by exists r). congruence.
Qed.

Lemma readFixedDigits_2 s n v :
  readFixedDigits s n 2 = Some v <-> 0 <= v <= 99 /\ exists r, suffix n s = d2 v +:+ r.
Proof.
  unfold readFixedDigits. split.
  - destruct (_ <? _)%nat; [done |]. rewrite read_digits_S. intros (c & r & Hr & Hc & H).
    apply read_digits_S in H as (d & r' & Hr' & Hd & [= <-]).
    apply suffix_S in Hr as Hr2. rewrite Hr' in Hr2. subst r.
    pose proof (digit_bounds c Hc). pose proof (digit_bounds d Hd). split; [lia |].
    exists r'. rewrite Hr. change (0 * 10 + digit c) with (digit c). rewrite <- d2_of by done. done.
  - intros [Hv [r Hr]]. destruct (d2_chars v Hv) as (Hc & Hd & Hval).
    rewrite (suffix_length n s _ _ Hr), Hr. simpl String.length.
    destruct (Nat.ltb_spec (n + S (S (String.length r))) (n + 2)); [lia |].
    apply read_digits_S. eexists _, _. split; [exact Hr |]. split; [done |].
    apply suffix_S in Hr. apply read_digits_S. eexists _, _. split; [exact Hr |]. split; [done |].
    simpl read_digits. f_equal. rewrite <- Hval at 3. change (0 * 10) with 0. lia.
Qed.

Lemma readFixedDigits_4 s n v :
  readFixedDigits s n 4 = Some v <-> 0 <= v <= 9999 /\ exists r, suffix n s = d4 v +:+ r.
Proof.
  unfold readFixedDigits. split.
  - destruct (_ <? _)%nat; [done |].
    rewrite read_digits_S. intros (c1 & r1 & Hr1 & Hc1 & H).
    apply read_digits_S in H as (c2 & r2 & Hr2 & Hc2 & H).
    apply read_digits_S in H as (c3 & r3 & Hr3 & Hc3 & H).
    apply read_digits_S in H as (c4 & r4 & Hr4 & Hc4 & [= <-]).
    apply suffix_S in Hr1 as E1. apply suffix_S in Hr2 as E2. apply suffix_S in Hr3 as E3.
    pose proof (digit_bounds c1 Hc1). pose proof (digit_bounds c2 Hc2).
    pose proof (digit_bounds c3 Hc3). pose proof (digit_bounds c4 Hc4).
    split; [lia |]. exists r4. rewrite Hr1, <- E1, Hr2, <- E2, Hr3, <- E3, Hr4. unfold d4.
    match goal with |- context [d2 (?v / 100)] => set (w := v) end.
    replace (w / 100) with (digit c1 * 10 + digit c2) by (unfold w; zlia).
    replace (w mod 100) with (digit c3 * 10 + digit c4) by (unfold w; zlia).
    rewrite <- !d2_of by done. done.
  - intros [Hv [r Hr]].
    destruct (d2_chars (v / 100)) as (H1 & H2 & V1); [zlia |].
    destruct (d2_chars (v mod 100)) as (H3 & H4 & V2); [zlia |].
    rewrite (suffix_length n s _ _ Hr), Hr. simpl String.length.
    destruct (Nat.ltb_spec (n + S (S (S (S (String.length r))))) (n + 4)); [lia |].
    apply read_digits_S. eexists _, _. split; [exact Hr |]. split; [done |].
    apply suffix_S in Hr. apply read_digits_S. eexists _, _. split; [exact Hr |]. split; [done |].
    apply suffix_S in Hr. apply read_digits_S. eexists _, _. split; [exact Hr |]. split; [done |].
    apply suffix_S in Hr. apply read_digits_S. eexists _, _. split; [exact Hr |]. split; [done |].
    cbn [read_digits]. f_equal. zlia.
Qed.

(** The 19 characters of the header. *)
Definition header_text (y mo d h mi s : Z) : string :=
  d4 y +:+ "-" +:+ d2 mo +:+ "-" +:+ d2 d +:+ "T" +:+ d2 h +:+ ":" +:+ d2 mi +:+ ":" +:+ d2 s.

Lemma suffix_2 n s z r : suffix n s = d2 z +:+ r -> suffix (2 + n) s = r.
Proof. intros H. simpl in H. apply suffix_S in H. by apply suffix_S in H. Qed.

Lemma suffix_4 n s z r : suffix n s = d4 z +:+ r -> suffix (4 + n) s = r.
Proof. intros H. apply suffix_2 in H. by apply suffix_2 in H. Qed.

Lemma bind_some {A B} (f : A -> option B) (o : option A) b :
  (x ← o; f x) = Some b <-> exists a, o = Some a /\ f a = Some b.
Proof. apply bind_Some. Qed.

Lemma test_some {A} (b : bool) (o : option A) r :
  (if negb b then None else o) = Some r <-> b = true /\ o = Some r.
Proof. destruct b; simpl; naive_solver. Qed.

Lemma readHeader_spec value y mo d h mi s :
  readHeader value = Some (y, mo, d, h, mi, s) <->
  (0 <= y <= 9999 /\ 0 <= mo <= 99 /\ 0 <= d <= 99 /\ 0 <= h <= 99 /\ 0 <= mi <= 99 /\ 0 <= s <= 99)
  /\ suffix 19 value <> "" /\ value = header_text y mo d h mi s +:+ suffix 19 value.
Proof.
  unfold readHeader. split.
  - destruct (Nat.ltb_spec (String.length value) 20) as [|Hlen]; [done |]. intros H.
    apply bind_some in H as (? & (Hy & r0 & H0)%readFixedDigits_4 & H).
    apply test_some in H as [(r1 & H1)%is_char_suffix H].
    apply bind_some in H as (? & (Hmo & r2 & H2)%readFixedDigits_2 & H).
    apply test_some in H as [(r3 & H3)%is_char_suffix H].
    apply bind_some in H as (? & (Hd & r4 & H4)%readFixedDigits_2 & H).
    apply test_some in H as [(r5 & H5)%is_char_suffix H].
    apply bind_some in H as (? & (Hh & r6 & H6)%readFixedDigits_2 & H).
    apply test_some in H as [(r7 & H7)%is_char_suffix H].
    apply bind_some in H as (? & (Hmi & r8 & H8)%readFixedDigits_2 & H).
    apply test_some in H as [(r9 & H9)%is_char_suffix H].
    apply bind_some in H as (? & (Hs & r10 & H10)%readFixedDigits_2 & [= <- <- <- <- <- <-]).
    split; [done |].
    assert (Htail : suffix 19 value = r10) by (by apply suffix_2 in H10).
    split.
    + intros E. rewrite E in Htail. subst r10. apply suffix_length in H10 as L. rewrite H10 in L.
      simpl in L. lia.
    + rewrite Htail. apply suffix_4 in H0 as E0. change (suffix 0 value) with value in H0.
      apply suffix_S in H1 as E1. apply suffix_2 in H2 as E2.
      apply suffix_S in H3 as E3. apply suffix_2 in H4 as E4. apply suffix_S in H5 as E5.
      apply suffix_2 in H6 as E6. apply suffix_S in H7 as E7. apply suffix_2 in H8 as E8.
      apply suffix_S in H9 as E9.
      rewrite H0, <- E0. simpl Nat.add. rewrite H1, <- E1, H2, <- E2. simpl Nat.add.
      rewrite H3, <- E3, H4, <- E4. simpl Nat.add. rewrite H5, <- E5, H6, <- E6. simpl Nat.add.
      rewrite H7, <- E7, H8, <- E8. simpl Nat.add. by rewrite H9, <- E9, H10.
  - intros (Hr & Hne & E). revert Hne E. generalize (suffix 19 value). intros tail Hne ->.
    destruct (Nat.ltb_spec (String.length (header_text y mo d h mi s +:+ tail)) 20) as [Hl|_].
    { simpl in Hl. destruct tail; [done | simpl in Hl; lia]. }
    repeat first
      [ apply bind_some; eexists; split;
        [first [apply readFixedDigits_4 | apply readFixedDigits_2]; split; [|eexists; reflexivity]; lia|]
      | apply test_some; split; [apply is_char_suffix; eexists; reflexivity |] ].
    done.
Qed.

(** ** The timestamp grammar *)

Inductive zone := Zulu | Offset (east : bool) (h m : Z).

Record timestamp := Timestamp {
  ts_year : Z; ts_month : Z; ts_day : Z;
  ts_hour : Z; ts_minute : Z; ts_second : Z;
  ts_fraction : option string;   (* the digits after the point *)
  ts_zone : zone
}.

Definition ts_valid (t : timestamp) : Prop :=
  valid_date (ts_year t) (ts_month t) (ts_day t) /\
  0 <= ts_hour t <= 23 /\ 0 <= ts_minute t <= 59 /\ 0 <= ts_second t <= 59 /\
  match ts_fraction t with Some ds => all_digits ds = true /\ ds <> "" | None => True end /\
  match ts_zone t with Zulu => True | Offset _ h m => 0 <= h <= 23 /\ 0 <= m <= 59 end.

Definition zone_text (z : zone) : string :=
  match z with
  | Zulu => "Z"
  | Offset east h m => (if east then "+" else "-") +:+ d2 h +:+ ":" +:+ d2 m
  end.

Definition zone_seconds (z : zone) : Z :=
  match z with
  | Zulu => 0
  | Offset east h m => (if east then 1 else -1) * (h * 3600 + m * 60)
  end.

Definition fraction_text (f : option string) : string :=
  match f with Some ds => "." +:+ ds | None => "" end.

Definition ts_text (t : timestamp) : string :=
  header_text (ts_year t) (ts_month t) (ts_day t) (ts_hour t) (ts_minute t) (ts_second t)
    +:+ fraction_text (ts_fraction t) +:+ zone_text (ts_zone t).

(** The instant, in seconds since 1970-01-01T00:00:00Z. *)
Definition ts_instant (t : timestamp) : Z :=
  day_number (ts_year t) (ts_month t) (ts_day t) * 86400
    + ts_hour t * 3600 + ts_minute t * 60 + ts_second t - zone_seconds (ts_zone t).

(** ** Lemmas: fraction and zone *)

Lemma take_digits_app ds z :
  all_digits ds = true -> match z with String c _ => isdigit c = false | _ => True end ->
  take_digits (ds +:+ z) = ds.
Proof.
  induction ds as [|c ds IH]; simpl; intros Hd Hz.
  - destruct z as [|c z]; [done | by simpl; rewrite Hz].
  - apply andb_true_iff in Hd as [-> Hd]. by rewrite IH.
Qed.

Lemma take_digits_split s : all_digits (take_digits s) = true /\
  exists z, s = take_digits s +:+ z /\ match z with String c _ => isdigit c = false | _ => True end.
Proof.
  induction s as [|c s (Hd & z & E & Hz)]; simpl; [split; [done | by exists ""] |].
  destruct (isdigit c) eqn:Hc; simpl.
  - rewrite Hc. split; [done |]. exists z. by rewrite <- E.
  - split; [done |]. by exists (String c s).
Qed.

Lemma skipFraction_spec s z :
  match z with String c _ => isdigit c = false /\ c <> "."%char | _ => True end ->
  skipFraction s = Some z <->
  exists f, s = fraction_text f +:+ z /\
    match f with Some ds => all_digits ds = true /\ ds <> "" | None => True end.
Proof.
  intros Hz. split.
  - destruct s as [|c s]; [intros [= <-]; by exists None |].
    destruct (Ascii.eqb_spec c ".") as [->|Hc].
    + cbn [skipFraction]. destruct (take_digits_split s) as (Hd & z' & E & _).
      remember (take_digits s) as ds eqn:Eds. clear Eds. subst s. rewrite suffix_app.
      destruct (Nat.eqb_spec (String.length z') (String.length (ds +:+ z'))) as [|Hl]; [done |].
      intros [= <-]. exists (Some ds). split; [done |]. split; [done |]. by intros ->.
    + intros H. assert (E : Some (String c s) = Some z) by (by destruct c as [[] [] [] [] [] [] [] []]).
      injection E as <-. by exists None.
  - intros ([ds|] & -> & Hf); cbn [fraction_text].
    + destruct Hf as [Hd Hne]. change (("." +:+ ds) +:+ z) with (String "." (ds +:+ z)).
      cbn [skipFraction]. rewrite take_digits_app by (done || by destruct z as [|c z]; [|destruct Hz]).
      rewrite suffix_app. destruct (Nat.eqb_spec (String.length z) (String.length (ds +:+ z))) as [E|];
        [|done]. exfalso. pose proof (slen_app ds z). unfold slen in *. destruct ds; [done |]. simpl in *. lia.
    + simpl. destruct z as [|c z]; [done |]. destruct Hz as [_ Hc].
      by destruct c as [[] [] [] [] [] [] [] []].
Qed.

Lemma readOffset_spec s off :
  readOffset s = inr (off, "") <->
  exists z, s = zone_text z /\ off = zone_seconds z /\
    match z with Zulu => True | Offset _ h m => 0 <= h <= 23 /\ 0 <= m <= 59 end.
Proof.
  split.
  - destruct s as [|c t]; [done |]. cbn [readOffset].
    destruct (Ascii.eqb_spec c "Z") as [->|]; [intros [= <- ->]; by exists Zulu |].
    destruct (Ascii.eqb c "+" || Ascii.eqb c "-") eqn:Hc; [|done].
    destruct (readFixedDigits t 0 2) as [h|] eqn:Hh; [|done].
    apply readFixedDigits_2 in Hh as (Hh & r & Er).
    destruct (is_char t 2 ":") eqn:Hcol; [|done]. apply is_char_suffix in Hcol as [r2 E2].
    destruct (readFixedDigits t 3 2) as [m|] eqn:Hm; [|done].
    apply readFixedDigits_2 in Hm as (Hm & r3 & E3). simpl negb. cbv iota.
    destruct ((23 <? h) || (59 <? m)) eqn:Hb; [done |]. breflect.
    intros [= <- Hend]. exists (Offset (Ascii.eqb c "+") h m). cbn [zone_text zone_seconds].
    split; [|split; [|lia]].
    + pose proof (suffix_2 _ _ _ _ E3 : suffix 5 t = r3) as E5.
      change (suffix 5 t = "") in Hend. rewrite Hend in E5. subst r3.
      pose proof (suffix_2 _ _ _ _ Er : suffix 2 t = r) as Er'. rewrite E2 in Er'. subst r.
      apply suffix_S in E2. rewrite E3 in E2. subst r2.
      change (suffix 0 t) with t in Er. rewrite Er. rewrite sapp_nil_r.
      destruct Hc as [Hc|Hc]; apply Ascii.eqb_eq in Hc as ->; done.
    + by destruct (Ascii.eqb c "+").
  - intros ([|east h m] & -> & -> & Hz); [done |]. destruct Hz as [Hh Hm].
    assert (E1 : readFixedDigits (d2 h +:+ ":" +:+ d2 m) 0 2 = Some h)
      by (apply readFixedDigits_2; split; [lia | by eexists]).
    assert (E2 : readFixedDigits (d2 h +:+ ":" +:+ d2 m) 3 2 = Some m)
      by (apply readFixedDigits_2; split; [lia | exists ""; by rewrite sapp_nil_r]).
    assert (E3 : is_char (d2 h +:+ ":" +:+ d2 m) 2 ":" = true) by done.
    assert (E4 : suffix 5 (d2 h +:+ ":" +:+ d2 m) = "") by done.
    change (zone_text (Offset east h m))
      with ((if east then "+" else "-") +:+ (d2 h +:+ ":" +:+ d2 m)).
    revert E1 E2 E3 E4. generalize (d2 h +:+ ":" +:+ d2 m). intros t E1 E2 E3 E4.
    destruct east; unfold readOffset; simpl (String.append _ t); cbv iota;
      rewrite E1, E3, E2, E4; zcases; done || lia.
Qed.

Lemma zone_text_head z :
  match zone_text z with String c _ => isdigit c = false /\ c <> "."%char | _ => True end.
Proof. by destruct z as [|[]]. Qed.

Lemma zone_text_nonempty z : zone_text z <> "".
Proof. by destruct z as [|[]]. Qed.

Lemma fraction_zone_nonempty f z : fraction_text f +:+ zone_text z <> "".
Proof. destruct f; [done |]. by destruct z as [|[]]. Qed.

Lemma readHeader_text y mo d h mi s rest :
  0 <= y <= 9999 -> 0 <= mo <= 99 -> 0 <= d <= 99 -> 0 <= h <= 99 -> 0 <= mi <= 99 ->
  0 <= s <= 99 -> rest <> "" ->
  readHeader (header_text y mo d h mi s +:+ rest) = Some (y, mo, d, h, mi, s).
Proof. intros. by apply readHeader_spec. Qed.

Lemma parseRfc3339_sound s i :
  parseRfc3339 s = inr i -> exists t, ts_valid t /\ s = ts_text t /\ i = ts_instant t.
Proof.
  unfold parseRfc3339. destruct (readHeader s) as [[[[[[y mo] d] h] mi] se]|] eqn:Hr; [|done].
  apply readHeader_spec in Hr as (B & _ & Es).
  destruct (_ || (59 <? se)) eqn:Hv; [done |].
  destruct (skipFraction (suffix 19 s)) as [z|] eqn:Hf; [|done].
  destruct (readOffset z) as [|[off trailing]] eqn:Ho; [done |].
  destruct (is_empty trailing) eqn:Ht; [|done]. apply is_empty_true in Ht as ->.
  apply readOffset_spec in Ho as (zn & -> & -> & Hz). intros [= <-].
  apply skipFraction_spec in Hf as (f & Ef & Hf); [|apply zone_text_head].
  exists (Timestamp y mo d h mi se f zn). unfold ts_valid, ts_text, ts_instant.
  cbn [ts_year ts_month ts_day ts_hour ts_minute ts_second ts_fraction ts_zone].
  breflect. assert (Hd : valid_date y mo d) by (unfold valid_date; rewrite <- daysInMonth_spec by lia; lia).
  rewrite <- Ef, <- daysFromCivil_spec by done. unfold valid_date in Hd. repeat split; lia || done || tauto.
Qed.

Lemma parseRfc3339_complete t : ts_valid t -> parseRfc3339 (ts_text t) = inr (ts_instant t).
Proof.
  destruct t as [y mo d h mi se f zn]. unfold ts_valid, ts_text, ts_instant.
  cbn [ts_year ts_month ts_day ts_hour ts_minute ts_second ts_fraction ts_zone].
  intros (Hv & Hh & Hmi & Hs & Hf & Hz). rewrite <- daysFromCivil_spec by done. destruct Hv as (Hy & Hmo & Hd).
  rewrite <- daysInMonth_spec in Hd by lia. unfold parseRfc3339.
  pose proof (daysInMonth_bounds y mo Hmo).
  rewrite readHeader_text by (lia || apply fraction_zone_nonempty).
  replace (_ || (59 <? se)) with false by (symmetry; breflect; lia).
  change (suffix 19 (header_text y mo d h mi se +:+ ?r)) with r.
  replace (skipFraction _) with (Some (zone_text zn)).
  2: { symmetry. apply skipFraction_spec; [apply zone_text_head | by exists f]. }
  replace (readOffset _) with (@inr string _ (zone_seconds zn, "")); [done |].
  symmetry. apply readOffset_spec. by exists zn.
Qed.

(** ** Theorems *)

(** C39. [parseRfc3339] accepts exactly the texts of the timestamp grammar that
    name an existing moment (four-digit year, a date of the Gregorian calendar,
    a time without leap second, optional fraction, [Z] or an offset up to
    23:59), and answers the instant they denote: the seconds since
    1970-01-01T00:00:00Z, its days counted year by year and month by month on a
    calendar with a leap day every fourth year except in three of four centuries. *)
Theorem parseRfc3339_spec s i :
  parseRfc3339 s = inr i <-> exists t, ts_valid t /\ s = ts_text t /\ i = ts_instant t.
Proof.
  split; [apply parseRfc3339_sound |].
  intros (t & Ht & -> & ->). by apply parseRfc3339_complete.
Qed.

(** [validateTimeExpire] accepts exactly the well-formed timestamps that lie
    after the clock and, for WeChat, at most seven days after it. *)
Lemma validateTimeExpire_spec s channel now :
  validateTimeExpire s channel now = None <->
  exists t, ts_valid t /\ s = ts_text t /\ now < ts_instant t /\
    (channel = "wechat" -> ts_instant t <= now + 7 * 86400).
Proof.
  unfold validateTimeExpire. split.
  - destruct (parseRfc3339 s) as [|i] eqn:Hp; [done |].
    apply parseRfc3339_sound in Hp as (t & Ht & -> & ->). intros H.
    destruct (Z.leb_spec (ts_instant t) now); [done |].
    destruct (String.eqb_spec channel "wechat"); simpl in H;
      destruct (Z.ltb_spec (now + 7 * 86400) (ts_instant t)); try done;
      exists t; do 3 (split; [done || lia |]); intros ?; lia || congruence.
  - intros (t & Ht & -> & Hnow & Hw). rewrite parseRfc3339_complete by done.
    destruct (Z.leb_spec (ts_instant t) now); [lia |].
    destruct (String.eqb_spec channel "wechat") as [E|]; simpl; [|done]. specialize (Hw E).
    destruct (Z.ltb_spec (now + 7 * 86400) (ts_instant t)); [lia | done].
Qed.
