(* ===== verification/ChannelFields.v ===== *)
(** * Fields sent to the channels (src/libs/drogon-pay/src/utils/PayUtils.cc):
    percent-encoding of URL path segments and the WeChat order-field gate. *)
From S2P Require Import Prelude Cxx.

(** ** Definitions *)

Definition kHex : string := "0123456789ABCDEF".

Definition hex_at (i : Z) : ascii := default "0"%char (String.get (Z.to_nat i) kHex).

Definition unreserved (c : ascii) : bool :=
  ((65 <=? code c) && (code c <=? 90)) || ((97 <=? code c) && (code c <=? 122))
  || ((48 <=? code c) && (code c <=? 57)) || mem_char "-_.~" c.

Fixpoint urlEncodePathSegment (raw : string) : string :=
  match raw with
  | EmptyString => EmptyString
  | String c raw' =>
      if unreserved c then String c (urlEncodePathSegment raw')
      else
        String "%" (String (hex_at (Z.land (Z.shiftr (code c) 4) 0xF))
          (String (hex_at (Z.land (code c) 0xF)) (urlEncodePathSegment raw')))
  end.

(** Bytes that are not continuation bytes. *)
Fixpoint utf8CodePointLength (s : string) : Z :=
  match s with
  | EmptyString => 0
  | String c s' =>
      (if Z.land (code c) 0xC0 =? 0x80 then 0 else 1) + utf8CodePointLength s'
  end.

Definition wechatOrderChar (c : ascii) : bool :=
  isdigit c || ((97 <=? code c) && (code c <=? 122)) || ((65 <=? code c) && (code c <=? 90))
  || mem_char "_-|*" c.

(** [None] accepts; [Some e] refuses with the message [e]. *)
Definition validateWechatOrderFields (outTradeNo description attach : string) : option string :=
  if (slen outTradeNo <? 6) || (32 <? slen outTradeNo)
  then Some "order_no must be 6-32 characters for WeChat Pay"
  else if negb (all_char wechatOrderChar outTradeNo)
  then Some "order_no may only contain digits, letters, and _ - | * for WeChat Pay"
  else if is_empty description then Some "description is required for WeChat Pay"
  else if 127 <? utf8CodePointLength description
  then Some "description exceeds 127 characters"
  else if negb (is_empty attach) && (128 <? utf8CodePointLength attach)
  then Some "attach exceeds 128 characters"
  else None.

(** ** Percent-decoding, as the server does it *)

Definition hex_value (c : ascii) : option Z :=
  if isdigit c then Some (code c - 48)
  else if (65 <=? code c) && (code c <=? 70) then Some (code c - 55)
  else if (97 <=? code c) && (code c <=? 102) then Some (code c - 87)
  else None.

Fixpoint percentDecode (s : string) : option string :=
  match s with
  | EmptyString => Some EmptyString
  | String c s' =>
      if Ascii.eqb c "%" then
        match s' with
        | String h (String l s'') =>
            match hex_value h, hex_value l with
            | Some hv, Some lv =>
                t ← percentDecode s''; Some (String (ascii_of_N (Z.to_N (hv * 16 + lv))) t)
            | _, _ => None
            end
        | _ => None
        end
      else t ← percentDecode s'; Some (String c t)
  end.

(** UTF-8, as the reference encoding of a Unicode scalar value. *)
Definition byte (z : Z) : string := String (ascii_of_N (Z.to_N z)) "".

Definition utf8_encode (u : Z) : string :=
  if u <? 0x80 then byte u
  else if u <? 0x800 then byte (0xC0 + u / 64) +:+ byte (0x80 + u mod 64)
  else if u <? 0x10000
  then byte (0xE0 + u / 4096) +:+ byte (0x80 + u / 64 mod 64) +:+ byte (0x80 + u mod 64)
  else byte (0xF0 + u / 262144) +:+ byte (0x80 + u / 4096 mod 64)
         +:+ byte (0x80 + u / 64 mod 64) +:+ byte (0x80 + u mod 64).

Fixpoint utf8_text (us : list Z) : string :=
  match us with [] => "" | u :: us' => utf8_encode u +:+ utf8_text us' end.

(** ** Lemmas *)

(** The characters an encoded segment is made of. *)
Definition segment_char (c : ascii) : bool := unreserved c || Ascii.eqb c "%".

Lemma percentDecode_step c s :
  percentDecode (urlEncodePathSegment (String c s)) =
    (t ← percentDecode (urlEncodePathSegment s); Some (String c t)).
Proof. destruct c as [[] [] [] [] [] [] [] []]; reflexivity. Qed.

Lemma encode_chars_step c s :
  all_char segment_char (urlEncodePathSegment (String c s)) =
  all_char segment_char (urlEncodePathSegment s).
Proof. destruct c as [[] [] [] [] [] [] [] []]; reflexivity. Qed.

Lemma percentDecode_encode s : percentDecode (urlEncodePathSegment s) = Some s.
Proof. induction s as [|c s IH]; [done |]. by rewrite percentDecode_step, IH. Qed.

Lemma land_C0_high z : 0 <= z < 256 -> (Z.land z 0xC0 =? 0x80) = (128 <=? z) && (z <? 192).
Proof.
  intros H. apply Bool.eqb_true_iff.
  apply (forall_below (fun z => Bool.eqb (Z.land z 0xC0 =? 0x80) ((128 <=? z) && (z <? 192))) 256);
    [reflexivity | lia].
Qed.

Lemma utf8_length_byte z s :
  0 <= z < 256 ->
  utf8CodePointLength (byte z +:+ s) =
    (if (128 <=? z) && (z <? 192) then 0 else 1) + utf8CodePointLength s.
Proof. intros H. simpl. by rewrite code_of, land_C0_high. Qed.

Lemma utf8_length_encode u s :
  0 <= u <= 0x10FFFF -> utf8CodePointLength (utf8_encode u +:+ s) = 1 + utf8CodePointLength s.
Proof.
  intros H. unfold utf8_encode.
  destruct (Z.ltb_spec u 128); [|destruct (Z.ltb_spec u 2048); [|destruct (Z.ltb_spec u 65536)]];
    rewrite ?sapp_assoc; rewrite !utf8_length_byte by zlia; zcases; simpl; zlia.
Qed.

Lemma utf8_length_text us :
  Forall (fun u => 0 <= u <= 0x10FFFF) us ->
  utf8CodePointLength (utf8_text us) = Z.of_nat (List.length us).
Proof.
  induction 1 as [|u us Hu _ IH]; [done |]. simpl utf8_text. rewrite utf8_length_encode, IH by done.
  simpl List.length. lia.
Qed.

(** ** Theorems *)

(** The encoded segment decodes to the original bytes and holds only
    unreserved characters and percent signs: no order number can add a path
    segment, a query or a fragment to the URL the channel client builds. *)
Lemma urlEncodePathSegment_roundtrip s :
  percentDecode (urlEncodePathSegment s) = Some s /\
  all_char segment_char (urlEncodePathSegment s) = true.
Proof.
  split; [apply percentDecode_encode |].
  induction s as [|c s IH]; [done |]. by rewrite encode_chars_step.
Qed.

(** [validateWechatOrderFields] accepts exactly the fields the channel
    documents: 6 to 32 allowed order-number characters, a description of 1 to
    127 characters and an attachment of at most 128, counted as Unicode
    characters whatever their length in bytes. *)
Lemma validateWechatOrderFields_spec no ds at_ :
  Forall (fun u => 0 <= u <= 0x10FFFF) ds -> Forall (fun u => 0 <= u <= 0x10FFFF) at_ ->
  validateWechatOrderFields no (utf8_text ds) (utf8_text at_) = None <->
  6 <= slen no <= 32 /\ all_char wechatOrderChar no = true /\
  1 <= Z.of_nat (List.length ds) <= 127 /\ Z.of_nat (List.length at_) <= 128.
Proof.
  intros Hd Ha. unfold validateWechatOrderFields.
  rewrite (utf8_length_text ds), (utf8_length_text at_) by done.
  assert (Hde : is_empty (utf8_text ds) = (Z.of_nat (List.length ds) =? 0)).
  { rewrite <- (utf8_length_text ds) by done. destruct ds as [|d ds]; [done |].
    inversion_clear Hd. simpl. rewrite utf8_length_encode by done.
    rewrite utf8_length_text by done.
    replace (is_empty _) with false; [zcases; lia |].
    unfold utf8_encode. by destruct (d <? 128), (d <? 2048), (d <? 65536). }
  assert (Hae : is_empty (utf8_text at_) = true -> Z.of_nat (List.length at_) = 0).
  { intros E. apply is_empty_true in E. rewrite <- (utf8_length_text at_) by done. by rewrite E. }
  rewrite Hde. destruct (is_empty (utf8_text at_)) eqn:E; [specialize (Hae eq_refl) |]; simpl;
    zcases; simpl; try (split; [done | lia]);
    destruct (all_char wechatOrderChar no); simpl; try (split; [done | intuition congruence || lia]);
    zcases; simpl; split; intros; done || lia.
Qed.

Lemma validateWechatOrderFields_spec_witness :
  validateWechatOrderFields "ORD-0001" (utf8_text [0x8BA2; 0x5355]) (utf8_text []) = None <->
  6 <= slen "ORD-0001" <= 32 /\ all_char wechatOrderChar "ORD-0001" = true /\
  1 <= Z.of_nat (List.length [0x8BA2; 0x5355]) <= 127 /\ Z.of_nat (List.length (@nil Z)) <= 128.
Proof. apply (validateWechatOrderFields_spec "ORD-0001" [0x8BA2; 0x5355] []); repeat constructor; lia. Defined.
