(* ===== verification/OnceCallback.v ===== *)
(** * [OnceCallback] (src/libs/drogon-pay/src/utils/OnceCallback.h) under
    arbitrary interleavings.

    Any number of threads call the shared object; a step is what one thread does
    between two points where another may run: acquire the mutex, leave the
    critical section, run the callback, which returns or throws. *)
From S2P Require Import Prelude.

(** ** Definitions *)

(** [state_->callback], by name of the function it holds, and the holder of
    [state_->mutex]. *)
Record cell := Cell { callback : option nat; holder : option nat }.

(** Where a thread is in [call]. *)
Inductive pc :=
| Start                     (* before the lock *)
| Critical                  (* holding the lock *)
| Moved (f : nat)           (* lock released, [callback] moved out *)
| Returned (b : bool)       (* [call] returned [b] *)
| Threw.                    (* the callback threw, and the exception left [call] *)

Record state := State {
  shared : option cell;     (* [state_]; [None] for a default-constructed object *)
  threads : list pc;
  invoked : list nat        (* the functions run, newest first *)
}.

(** [makeOnceCallback(f)] shared by [n] callers; [None] is an empty [std::function]. *)
Definition start (f : option nat) (n : nat) : state :=
  State (Some (Cell f None)) (repeat Start n) [].

Definition valid (s : state) : bool :=
  match shared s with
  | Some c => match callback c with Some _ => true | None => false end
  | None => false
  end.

(** One step of thread [t] inside [call]. *)
Inductive call_step : state -> nat -> state -> Prop :=
| call_no_state ts inv t :
    ts !! t = Some Start ->
    call_step (State None ts inv) t (State None (<[t := Returned false]> ts) inv)
| call_lock cb ts inv t :
    ts !! t = Some Start ->
    call_step (State (Some (Cell cb None)) ts inv) t
              (State (Some (Cell cb (Some t))) (<[t := Critical]> ts) inv)
| call_empty ts inv t :
    ts !! t = Some Critical ->
    call_step (State (Some (Cell None (Some t))) ts inv) t
              (State (Some (Cell None None)) (<[t := Returned false]> ts) inv)
| call_move f ts inv t :
    ts !! t = Some Critical ->
    call_step (State (Some (Cell (Some f) (Some t))) ts inv) t
              (State (Some (Cell None None)) (<[t := Moved f]> ts) inv)
| call_run c f ts inv t :
    ts !! t = Some (Moved f) ->
    call_step (State c ts inv) t (State c (<[t := Returned true]> ts) (f :: inv))
| call_throw c f ts inv t :
    ts !! t = Some (Moved f) ->
    call_step (State c ts inv) t (State c (<[t := Threw]> ts) (f :: inv)).

Inductive reachable (s0 : state) : state -> Prop :=
| reach_start : reachable s0 s0
| reach_step s t s' : reachable s0 s -> call_step s t s' -> reachable s0 s'.

(** ** Lemmas *)

Definition is_moved (p : pc) : bool := match p with Moved _ => true | _ => false end.
Definition is_true (p : pc) : bool := match p with Returned true => true | _ => false end.
Definition is_critical (p : pc) : bool := match p with Critical => true | _ => false end.
Definition is_threw (p : pc) : bool := match p with Threw => true | _ => false end.
Definition finished (p : pc) : bool := match p with Returned _ | Threw => true | _ => false end.

Definition b2n (b : bool) : nat := if b then 1%nat else 0%nat.

Fixpoint tally (P : pc -> bool) (ts : list pc) : nat :=
  match ts with [] => 0%nat | p :: ts' => (b2n (P p) + tally P ts')%nat end.

Lemma tally_insert P ts t p q :
  ts !! t = Some p -> (tally P (<[t := q]> ts) + b2n (P p) = tally P ts + b2n (P q))%nat.
Proof.
  revert t. induction ts as [|x ts IH]; intros [|t] H; simpl in *; try done.
  - injection H as ->. lia.
  - specialize (IH t H). lia.
Qed.

Lemma tally_repeat P p n : P p = false -> tally P (repeat p n) = 0%nat.
Proof. intros H. induction n as [|n IH]; simpl; [done |]. by rewrite H, IH. Qed.

Definition b2o (f : option nat) : nat := match f with Some _ => 1%nat | None => 0%nat end.

(** The callback, if there is one, is in exactly one place: still stored, moved out, or run. *)
Definition accounted (f : option nat) (s : state) : Prop :=
  exists c, shared s = Some c /\
    (b2n (valid s) + tally is_moved (threads s) + List.length (invoked s) = b2o f)%nat /\
    (tally is_true (threads s) + tally is_threw (threads s) = List.length (invoked s))%nat /\
    (forall g, callback c = Some g -> f = Some g) /\
    (forall t g, threads s !! t = Some (Moved g) -> f = Some g) /\
    Forall (fun g => f = Some g) (invoked s) /\
    (forall t, holder c = Some t <-> threads s !! t = Some Critical) /\
    ((tally finished (threads s) > 0)%nat -> valid s = false).

Lemma accounted_start f n : accounted f (start f n).
Proof.
  assert (Hl : forall t p, repeat Start n !! t = Some p -> p = Start).
  { induction n as [|n IH]; intros t p; [done |]. destruct t; simpl; [congruence | apply IH]. }
  eexists. split; [done |]. unfold valid. simpl. rewrite !tally_repeat by done.
  repeat split; try done; try lia; try congruence.
  - by destruct f.
  - intros t g H. apply Hl in H. done.
  - intros H. apply Hl in H. done.
Qed.

(** Looking up a thread after one moved. *)
Lemma moved_lookup (ts : list pc) (t u : nat) q r :
  <[t := q]> ts !! u = Some r -> (u = t /\ r = q) \/ (u <> t /\ ts !! u = Some r).
Proof. rewrite list_lookup_insert_Some. intros [(-> & -> & _)|[? ?]]; auto. Qed.

Lemma lookup_moved (ts : list pc) (t : nat) p q :
  ts !! t = Some p -> <[t := q]> ts !! t = Some q.
Proof. intros H. apply list_lookup_insert_eq. by eapply lookup_lt_Some. Qed.

Ltac tallies Ht q :=
  pose proof (tally_insert is_moved _ _ _ q Ht); pose proof (tally_insert is_true _ _ _ q Ht);
  pose proof (tally_insert is_threw _ _ _ q Ht); pose proof (tally_insert finished _ _ _ q Ht); simpl in *.

Ltac lookups :=
  repeat match goal with
  | H : <[_ := _]> _ !! _ = Some _ |- _ => apply moved_lookup in H as [[-> ?]|[? H]]
  end; simplify_eq; eauto.

Lemma accounted_step f s t s' : accounted f s -> call_step s t s' -> accounted f s'.
Proof.
  intros (c & Hs & Hone & Htrue & Hcb & Hmoved & Hinv & Hhold & Hfin) Hstep.
  assert (Hran : forall c' g ts inv t p, threads s = ts -> shared s = c' -> invoked s = inv ->
    ts !! t = Some (Moved g) -> is_true p || is_threw p = true -> accounted f (State c' (<[t := p]> ts) (g :: inv))).
  { intros c' g ts inv u p <- <- <- Ht Hp. destruct s as [sh ts inv']. simpl in *. subst sh.
    tallies Ht p. exists c. split; [done |]. unfold valid in *. simpl in *.
    assert (Hb : (b2n (is_true p) + b2n (is_threw p) = 1 /\ b2n (is_moved p) = 0 /\ b2n (finished p) = 1)%nat /\ p <> Critical
      /\ forall h, p <> Moved h) by (destruct p as [| | |[]|]; done).
    destruct Hb as ((Hb1 & Hb2 & Hb3) & Hb4 & Hb5). repeat split; try done; try lia.
    + intros v h H'. lookups.
    + constructor; [eauto | done].
    + intros H'. apply Hhold in H'. rewrite list_lookup_insert_ne; [done | congruence].
    + intros H'. lookups. by apply Hhold.
    + intros _. destruct (callback c); simpl in *; [|done]. destruct f; simpl in *; lia. }
  destruct Hstep as [ts inv t Ht|cb ts inv t Ht|ts inv t Ht|g ts inv t Ht|c' g ts inv t Ht|c' g ts inv t Ht];
    [| | | |by eapply Hran..]; clear Hran; unfold valid in *; simpl in *; try done; try injection Hs as <-; simpl in *.
  - tallies Ht Critical. eexists. split; [done |]. unfold valid. simpl. repeat split; try done; try lia.
    + intros u g H'. lookups.
    + intros [= <-]. by eapply lookup_moved.
    + intros H'. lookups. apply Hhold in H'. done.
    + intros Hf. apply Hfin. lia.
  - tallies Ht (Returned false). eexists. split; [done |]. unfold valid. simpl. repeat split; try done; try lia.
    + intros u g H'. lookups.
    + intros H'. lookups. apply Hhold in H'. congruence.
  - tallies Ht (Moved g). eexists. split; [done |]. unfold valid. simpl. repeat split; try done; try lia.
    + intros u h H'. lookups.
    + intros H'. lookups. apply Hhold in H'. congruence.
Qed.

Lemma accounted_reachable f n s : reachable (start f n) s -> accounted f s.
Proof.
  intros H. induction H as [|s t s' _ IH Hs]; [apply accounted_start | by eapply accounted_step].
Qed.

Lemma tally_all P ts : Forall (fun p => P p = true) ts -> tally P ts = List.length ts.
Proof. induction 1 as [|p ts Hp _ IH]; simpl; [done |]. rewrite Hp, IH. simpl. lia. Qed.

Lemma tally_none P ts : Forall (fun p => P p = false) ts -> tally P ts = 0%nat.
Proof. induction 1 as [|p ts Hp _ IH]; simpl; [done |]. by rewrite Hp, IH. Qed.

Lemma step_threads s t s' : call_step s t s' -> List.length (threads s') = List.length (threads s).
Proof. destruct 1; simpl; by rewrite length_insert. Qed.

Lemma reachable_threads s0 s : reachable s0 s -> List.length (threads s) = List.length (threads s0).
Proof. induction 1 as [|s t s' _ IH Hs]; [done |]. by rewrite (step_threads _ _ _ Hs). Qed.

(** ** Theorems *)

(** C40. However the calls of any number of threads interleave, and whether the
    wrapped function returns or throws: it is never run twice and no other function is
    run; a call returns [true] or lets an exception out exactly when it ran the function
    (so a function that throws is used up as well, and then no call returns [true]); and
    once every one of at least one call has ended, the function was run exactly once, or
    not at all when the object was made of an empty function, and [valid] is false. *)
Theorem once_callback_runs_once f n s :
  reachable (start f n) s ->
  (List.length (invoked s) <= 1)%nat /\ Forall (fun g => f = Some g) (invoked s) /\
  (tally is_true (threads s) + tally is_threw (threads s) = List.length (invoked s))%nat /\
  ((0 < n)%nat -> Forall (fun p => finished p = true) (threads s) ->
   invoked s = match f with Some g => [g] | None => [] end /\ valid s = false).
Proof.
  intros H. pose proof (reachable_threads _ _ H) as Hlen. simpl in Hlen. rewrite repeat_length in Hlen.
  destruct (accounted_reachable f n s H) as (c & _ & Hone & Htrue & _ & _ & Hinv & _ & Hfin).
  assert (b2o f <= 1)%nat by (destruct f; simpl; lia).
  split; [lia |]. split; [done |]. split; [done |]. intros Hn Hall.
  assert (Hv : valid s = false) by (apply Hfin; rewrite tally_all by done; lia).
  split; [|done]. rewrite Hv, tally_none in Hone.
  - destruct f as [g|], (invoked s) as [|h [|]]; simpl in *; try lia; [|done].
    inversion_clear Hinv as [|? ? Hg _]. by injection Hg as ->.
  - eapply Forall_impl; [exact Hall |]. by intros [].
Qed.

(** Two racing callers of a function that throws: the second takes the lock after the
    first moved the function out, and returns before it runs. *)
Lemma once_callback_runs_once_witness :
  let s := State (Some (Cell None None)) [Threw; Returned false] [5%nat] in
  (List.length (invoked s) <= 1)%nat /\ Forall (fun g => Some 5%nat = Some g) (invoked s) /\
  (tally is_true (threads s) + tally is_threw (threads s) = List.length (invoked s))%nat /\
  ((0 < 2)%nat -> Forall (fun p => finished p = true) (threads s) ->
   invoked s = [5%nat] /\ valid s = false).
Proof.
  apply (once_callback_runs_once (Some 5%nat) 2).
  eapply (reach_step _ _ 0%nat); [|exact (call_throw _ 5 [Moved 5; Returned false] [] 0%nat eq_refl)].
  eapply (reach_step _ _ 1%nat); [|exact (call_empty [Moved 5; Critical] [] 1%nat eq_refl)].
  eapply (reach_step _ _ 1%nat); [|exact (call_lock None [Moved 5; Start] [] 1%nat eq_refl)].
  eapply (reach_step _ _ 0%nat); [|exact (call_move 5 [Critical; Start] [] 0%nat eq_refl)].
  eapply (reach_step _ _ 0%nat); [|exact (call_lock (Some 5%nat) [Start; Start] [] 0%nat eq_refl)].
  apply reach_start.
Defined.

(** A thread that is not finished can always step, unless another one holds the
    lock; the holder can: no call waits forever. *)
Theorem once_callback_progress f n s :
  reachable (start f n) s ->
  Forall (fun p => finished p = true) (threads s) \/ exists t s', call_step s t s'.
Proof.
  intros H. destruct (accounted_reachable f n s H) as (c & Hs & _ & _ & _ & _ & _ & Hhold & _).
  destruct s as [sh ts inv]. simpl in *. subst sh. destruct c as [cb [h|]]; simpl in *.
  - right. pose proof (proj1 (Hhold h) eq_refl) as Hh. destruct cb as [g|];
      eexists h, _; by constructor.
  - destruct (decide (Forall (fun p => finished p = true) ts)) as [|Hex]; [by left | right].
    apply not_Forall_Exists in Hex; [|intros p; apply _].
    apply Exists_exists in Hex as (p & Hin & Hp).
    apply list_elem_of_lookup in Hin as [t Ht]. destruct p; try done.
    + eexists t, _. by constructor.
    + apply Hhold in Ht. done.
    + eexists t, _. by apply call_run.
    + by destruct Hp.
    + by destruct Hp.
Qed.
