(* ===== verification/Registry.v ===== *)
(** * The channel registry (src/libs/drogon-pay/src/ChannelRegistry.cc and
    include/drogon_pay/ChannelRegistry.h).

    The [std::map] is a list of bindings in increasing key order, as its
    iteration yields them. *)
From S2P Require Import Prelude.

Section Registry.
(** A non-null [PaymentChannelPtr]; a null one is [None]. *)
Context {C : Type}.

(** ** Definitions *)

Record registry := Reg { channels_ : list (string * C); frozen_ : bool }.

Definition empty : registry := Reg [] false.

(** [channels_[name] = c] *)
Fixpoint map_assign (name : string) (c : C) (m : list (string * C)) : list (string * C) :=
  match m with
  | [] => [(name, c)]
  | (k, d) :: m' =>
      match String.compare name k with
      | Lt => (name, c) :: m
      | Eq => (name, c) :: m'
      | Gt => (k, d) :: map_assign name c m'
      end
  end.

Fixpoint map_find (name : string) (m : list (string * C)) : option C :=
  match m with
  | [] => None
  | (k, d) :: m' =>
      match String.compare name k with
      | Lt => None
      | Eq => Some d
      | Gt => map_find name m'
      end
  end.

Definition add (name : string) (channel : option C) (r : registry) : registry :=
  if frozen_ r then r
  else
    match channel with
    | None => r
    | Some c => Reg (map_assign name c (channels_ r)) (frozen_ r)
    end.

Definition freeze (r : registry) : registry := Reg (channels_ r) true.

Definition find (name : string) (r : registry) : option C := map_find name (channels_ r).

Definition names (r : registry) : list string := map fst (channels_ r).

Definition size (r : registry) : nat := List.length (channels_ r).

(** The channels whose [onStart] ([onStop]) runs, in order. *)
Definition startAll (r : registry) : list C := map snd (channels_ r).
Definition stopAll (r : registry) : list C := map snd (channels_ r).

(** ** The life cycle, as a sequence of calls *)

Inductive call := Add (name : string) (channel : option C) | Freeze.

Definition perform (c : call) (r : registry) : registry :=
  match c with Add name channel => add name channel r | Freeze => freeze r end.

Definition after (cs : list call) : registry := fold_left (fun r c => perform c r) cs empty.

(** What the documentation promises: the last non-null channel registered
    under the name before the registry was frozen. *)
Fixpoint promised (cs : list call) (name : string) (found : option C) : option C :=
  match cs with
  | [] => found
  | Freeze :: _ => found
  | Add n (Some c) :: cs' => promised cs' name (if String.eqb n name then Some c else found)
  | Add _ None :: cs' => promised cs' name found
  end.

(** ** Lemmas *)

Definition before (a b : string) : Prop := String.compare a b = Lt.

Fixpoint sorted (m : list (string * C)) : Prop :=
  match m with
  | [] => True
  | (k, _) :: m' => Forall (fun kd => before k (fst kd)) m' /\ sorted m'
  end.

Lemma compare_refl a : String.compare a a = Eq.
Proof. pose proof (String.compare_antisym a a) as H. by destruct (String.compare a a). Qed.

Lemma compare_gt a b : String.compare a b = Gt <-> before b a.
Proof. unfold before. rewrite String.compare_antisym. by destruct (String.compare b a). Qed.

Lemma before_trans a b c : before a b -> before b c -> before a c.
Proof.
  unfold before. revert b c. induction a as [|x a IH]; intros [|y b] [|z c]; simpl; try done.
  unfold Ascii.compare. intros Hab Hbc.
  destruct (N.compare_spec (N_of_ascii x) (N_of_ascii y)) as [E1|E1|E1];
    destruct (N.compare_spec (N_of_ascii y) (N_of_ascii z)) as [E2|E2|E2]; try done;
    destruct (N.compare_spec (N_of_ascii x) (N_of_ascii z)) as [E3|E3|E3]; try done; try lia.
  by apply (IH b).
Qed.

Lemma assign_head name c k m :
  before k name -> Forall (fun kd => before k (fst kd)) m ->
  Forall (fun kd => before k (fst kd)) (map_assign name c m).
Proof.
  intros Hk. induction m as [|[k' d] m IH]; simpl; intros H; [by constructor |].
  inversion_clear H. destruct (String.compare name k'); constructor; auto.
Qed.

Lemma assign_sorted name c m : sorted m -> sorted (map_assign name c m).
Proof.
  induction m as [|[k d] m IH]; simpl; [by repeat constructor |]. intros [Hk Hm].
  destruct (String.compare name k) eqn:E; simpl.
  - by rewrite (String.compare_eq_iff _ _ E).
  - split; [|done]. constructor; [done |]. eapply Forall_impl; [exact Hk |].
    intros kd. by apply before_trans.
  - split; [|by apply IH]. apply assign_head; [by apply compare_gt | done].
Qed.

(** A map whose keys all come after [name] does not bind it. *)
Lemma find_after name m : Forall (fun kd => before name (fst kd)) m -> map_find name m = None.
Proof.
  intros H. destruct m as [|[k d] m]; simpl; [done |]. inversion_clear H. unfold before in *.
  simpl in *. by destruct (String.compare name k).
Qed.

Lemma find_assign name c m n :
  sorted m -> map_find n (map_assign name c m) = if String.eqb name n then Some c else map_find n m.
Proof.
  induction m as [|[k d] m IH]; simpl; intros Hs.
  - destruct (String.eqb_spec name n) as [->|Hne]; [by rewrite compare_refl |].
    destruct (String.compare n name) eqn:E; try done.
    by apply String.compare_eq_iff in E.
  - destruct Hs as [Hk Hm]. destruct (String.compare name k) eqn:E; simpl.
    + apply String.compare_eq_iff in E as ->.
      destruct (String.eqb_spec k n) as [->|Hne]; [by rewrite compare_refl |].
      destruct (String.compare n k) eqn:E2; try done. by apply String.compare_eq_iff in E2.
    + destruct (String.eqb_spec name n) as [->|Hne]; [by rewrite compare_refl |].
      destruct (String.compare n name) eqn:E2; simpl.
      * by apply String.compare_eq_iff in E2.
      * replace (String.compare n k) with Lt; [done |]. symmetry. by apply (before_trans _ name).
      * done.
    + rewrite IH by done. destruct (String.eqb_spec name n) as [->|Hne]; [by rewrite E |]. done.
Qed.

Lemma find_sorted m name c : sorted m -> map_find name m = Some c <-> In (name, c) m.
Proof.
  induction m as [|[k d] m IH]; simpl; [done |]. intros [Hk Hm].
  rewrite Forall_forall in Hk. destruct (String.compare name k) eqn:E.
  - apply String.compare_eq_iff in E as ->. split; [intros [= ->]; auto |].
    intros [[= ->]|Hin]; [done |]. apply list_elem_of_In in Hin. apply Hk in Hin.
    unfold before in Hin. simpl in Hin. by rewrite compare_refl in Hin.
  - split; [done |]. intros [[= -> ->]|Hin]; [by rewrite compare_refl in E |].
    apply list_elem_of_In in Hin. apply Hk in Hin. simpl in Hin.
    pose proof (before_trans name k name E Hin) as H. unfold before in H. by rewrite compare_refl in H.
  - rewrite IH by done. split; [auto |]. intros [[= -> ->]|Hin]; [by rewrite compare_refl in E | done].
Qed.

Lemma perform_sorted c r : sorted (channels_ r) -> sorted (channels_ (perform c r)).
Proof.
  intros H. destruct c as [name [ch|]|]; simpl; [|by unfold add; destruct (frozen_ r)|done].
  unfold add. destruct (frozen_ r); [done |]. simpl. by apply assign_sorted.
Qed.

Lemma frozen_stays cs r : frozen_ r = true -> fold_left (fun r c => perform c r) cs r = r.
Proof.
  revert r. induction cs as [|c cs IH]; intros r Hf; simpl; [done |].
  destruct r as [m f]. simpl in Hf. subst f.
  destruct c as [name ch|]; simpl; unfold add, freeze; simpl; by rewrite IH.
Qed.

Lemma fold_promised cs r name :
  sorted (channels_ r) -> frozen_ r = false ->
  find name (fold_left (fun r c => perform c r) cs r) = promised cs name (find name r) /\
  sorted (channels_ (fold_left (fun r c => perform c r) cs r)).
Proof.
  revert r. induction cs as [|c cs IH]; intros r Hs Hf; simpl; [done |].
  destruct c as [n [ch|]|]; simpl.
  - unfold add. rewrite Hf. destruct (IH (Reg (map_assign n ch (channels_ r)) false)) as [H1 H2];
      [by apply assign_sorted | done |]. rewrite H1. split; [|done].
    unfold find. simpl. by rewrite find_assign.
  - unfold add. rewrite Hf. by apply IH.
  - rewrite frozen_stays by done. done.
Qed.

(** ** Theorems *)

(** After any sequence of registrations and freezes, [find] answers for
    every name what the documentation promises: the last non-null channel
    registered under it before the first freeze; the names are listed in
    strictly increasing order, and exactly the registered channels are started
    and stopped, each once, in that order. *)
Lemma registry_lifecycle cs :
  (forall name, find name (after cs) = promised cs name None) /\
  sorted (channels_ (after cs)) /\
  (forall name c, find name (after cs) = Some c <-> In (name, c) (combine (names (after cs)) (startAll (after cs)))) /\
  stopAll (after cs) = startAll (after cs).
Proof.
  assert (H : forall name, find name (after cs) = promised cs name None /\ sorted (channels_ (after cs)))
    by (intros; by apply fold_promised).
  destruct (H "") as [_ Hs].
  split; [intros name; apply H |]. split; [done |]. split; [|done].
  intros name c. unfold find, names, startAll. rewrite find_sorted by done.
  by replace (combine _ _) with (channels_ (after cs))
    by (clear; induction (channels_ (after cs)) as [|[k d] m IH]; simpl; congruence).
Qed.
End Registry.
