(* ===== verification/Auth.v ===== *)
(** * Request authorization (src/libs/drogon-pay/src/handlers/AuthCheck.cc) and
    its counters (PayAuthMetrics.cc).

    [None] is an exception out of a JSON accessor.  OpenSSL's [CRYPTO_memcmp]
    is a parameter. *)
From S2P Require Import Prelude Cxx Json.

(** ** Definitions *)

Definition is_blank (c : ascii) : bool := mem_char " 	" c.

Fixpoint trim_left (s : string) : string :=
  match s with
  | String c s' => if is_blank c then trim_left s' else s
  | EmptyString => EmptyString
  end.

Fixpoint trim_right (s : string) : string :=
  match s with
  | String c s' => if is_blank c && all_char is_blank s' then EmptyString else String c (trim_right s')
  | EmptyString => EmptyString
  end.

(** From the first to the last character that is not blank. *)
Definition trim (value : string) : string := trim_right (trim_left value).

(** The tokens [std::getline] yields (a trailing empty one does not matter: it
    trims to nothing). *)
Fixpoint tokens (acc s : string) : list string :=
  match s with
  | EmptyString => [acc]
  | String c s' => if Ascii.eqb c "," then acc :: tokens "" s' else tokens (acc +:+ String c "") s'
  end.

Definition splitKeys (value : string) : list string :=
  List.filter (fun k => negb (is_empty k)) (map trim (tokens "" value)).

(** What the check reads of a request. *)
Record request := Request {
  rq_options : bool;          (* method is OPTIONS *)
  rq_api_key : string;        (* header X-Api-Key, empty when absent *)
  rq_authorization : string;  (* header Authorization *)
  rq_path : string
}.

(** The text after the prefix, when [s] starts with it. *)
Fixpoint after_prefix (prefix s : string) : option string :=
  match prefix, s with
  | EmptyString, _ => Some s
  | String c p, String d s' => if Ascii.eqb c d then after_prefix p s' else None
  | String _ _, EmptyString => None
  end.

Definition extractApiKey (req : request) : string :=
  if negb (is_empty (rq_api_key req)) then rq_api_key req
  else
    match after_prefix "Bearer " (rq_authorization req) with
    | Some token => if is_empty token then rq_authorization req else token
    | None => rq_authorization req
    end.

Definition resolveScope (req : request) (basePath : string) : string :=
  match after_prefix basePath (rq_path req) with
  | None => ""
  | Some rel =>
      if String.prefix "/refund/query" rel then "refund_query"
      else if String.prefix "/refund" rel then "refund"
      else if String.prefix "/query" rel then "order_query"
      else if String.prefix "/reconcile" rel then "reconcile"
      else ""
  end.

(** The counter a refusal increments. *)
Inductive counter := NotConfigured | MissingKey | InvalidKey | ScopeDenied.

(** [nullptr], or the response with its status and body. *)
Inductive verdict := Allowed | Denied (status : Z) (body : string) (counted : counter).

#[global] Instance counter_eq : EqDecision counter.
Proof. solve_decision. Defined.
#[global] Instance verdict_eq : EqDecision verdict.
Proof. solve_decision. Defined.

Section Check.
Context `{J : JsonLib} (memcmp : string -> string -> bool).

Definition constantTimeEquals (a b : string) : bool :=
  if negb (slen a =? slen b) then false else memcmp a b.

(** Every key is compared, whatever the earlier ones answered. *)
Definition containsKeyConstantTime (keys : list string) (key : string) : bool :=
  fold_left (fun found allowed => if constantTimeEquals allowed key then true else found) keys false.

Fixpoint stringItems (items : list json) : option (list string) :=
  match items with
  | [] => Some []
  | item :: items' =>
      key ← asString item;
      keys ← stringItems items';
      Some (if is_empty key then keys else key :: keys)
  end.

(** [customConfig["pay"]["api_keys"]] *)
Definition configKeys (config : json) : option (list string) :=
  hasPay ← isMember config "pay";
  if negb hasPay then Some []
  else
    pay ← index config "pay";
    hasKeys ← isMember pay "api_keys";
    if negb hasKeys then Some []
    else
      keys ← index pay "api_keys";
      if isArray keys then stringItems (elements keys) else Some [].

Definition allowedKeys (config : json) (payApiKey payApiKeys : option string) : option (list string) :=
  fromConfig ← configKeys config;
  let single :=
    match payApiKey with
    | Some s => let key := trim s in if is_empty key then [] else [key]
    | None => []
    end in
  let extra := match payApiKeys with Some s => splitKeys s | None => [] end in
  Some (fromConfig ++ single ++ extra)%list.

(** The loop over a scope list, which stops at the first match. *)
Fixpoint listsScope (items : list json) (scope : string) : option bool :=
  match items with
  | [] => Some false
  | item :: items' =>
      s ← asString item; if String.eqb s scope then Some true else listsScope items' scope
  end.

Definition scopeListed (scopes : json) (scope : string) : option bool :=
  if isArray scopes then listsScope (elements scopes) scope else Some false.

(** The scope part: [true] lets the request pass. *)
Definition scopeAllowed (config : json) (key scope : string) : option bool :=
  if is_empty scope then Some true
  else
    hasPay ← isMember config "pay";
    if negb hasPay then Some true
    else
      pay ← index config "pay";
      hasScopes ← isMember pay "api_key_scopes";
      if negb hasScopes then Some true
      else
        scopeConfig ← index pay "api_key_scopes";
        if negb (isObject scopeConfig) then Some true
        else
          hasKey ← isMember scopeConfig key;
          if hasKey : bool then
            scopes ← index scopeConfig key; scopeListed scopes scope
          else
            hasDefaults ← isMember pay "api_key_default_scopes";
            if negb hasDefaults then Some true
            else
              defaults ← index pay "api_key_default_scopes"; scopeListed defaults scope.

Definition checkAuth (config : json) (payApiKey payApiKeys : option string)
    (req : request) (basePath : string) : option verdict :=
  if rq_options req then Some Allowed
  else
    keys ← allowedKeys config payApiKey payApiKeys;
    match keys with
    | [] => Some (Denied 503 "api key not configured" NotConfigured)
    | _ =>
        let key := extractApiKey req in
        if is_empty key then Some (Denied 401 "missing api key" MissingKey)
        else if negb (containsKeyConstantTime keys key)
        then Some (Denied 401 "invalid api key" InvalidKey)
        else
          ok ← scopeAllowed config key (resolveScope req basePath);
          Some (if ok : bool then Allowed
                else Denied 403 "api key scope not allowed" ScopeDenied)
    end.

End Check.

(** ** The policy, stated without the code's functions *)

Section Policy.
Context `{J : JsonLib}.

Definition has (j : json) (k : string) (v : json) : Prop := jfind j k = Some (Some v).
Definition lacks (j : json) (k : string) : Prop := jfind j k = Some None.

(** The configuration's member [pay.k], if it is there. *)
Inductive pay_member (config : json) (k : string) : option json -> Prop :=
| no_pay : lacks config "pay" -> pay_member config k None
| pay_lacks pay : has config "pay" pay -> lacks pay k -> pay_member config k None
| pay_has pay v : has config "pay" pay -> has pay k v -> pay_member config k (Some v).

Definition blank (c : ascii) : Prop := c = " "%char \/ c = ascii_of_N 9.

Fixpoint every (P : ascii -> Prop) (s : string) : Prop :=
  match s with EmptyString => True | String c s' => P c /\ every P s' end.

(** [t] is what is left of [s] without the blanks around it, and something is left. *)
Definition trimmed (s t : string) : Prop :=
  (exists pre post, s = pre +:+ t +:+ post /\ every blank pre /\ every blank post) /\
  (exists c r, t = String c r /\ ~ blank c) /\ (exists r d, t = r +:+ String d "" /\ ~ blank d).

(** [p] is one of the parts that, joined by commas, are [s]. *)
Definition part (s p : string) : Prop :=
  exists ps, s = String.concat "," ps /\ Forall (every (fun c => c <> ","%char)) ps /\ In p ps.

(** A key the server accepts. *)
Inductive configured (config : json) (payApiKey payApiKeys : option string) (key : string) : Prop :=
| configured_listed keys item :
    pay_member config "api_keys" (Some keys) -> isArray keys = true -> In item (elements keys) ->
    asString item = Some key -> key <> "" -> configured config payApiKey payApiKeys key
| configured_single s :
    payApiKey = Some s -> trimmed s key -> configured config payApiKey payApiKeys key
| configured_extra s p :
    payApiKeys = Some s -> part s p -> trimmed p key -> configured config payApiKey payApiKeys key.

(** Reading the configured keys throws nothing. *)
Definition keys_readable (config : json) : Prop :=
  exists m, pay_member config "api_keys" m /\
    forall keys, m = Some keys -> isArray keys = true ->
      Forall (fun item => exists s, asString item = Some s) (elements keys).

(** The key a request carries; [""] for none. *)
Inductive presents (req : request) : string -> Prop :=
| presents_header key : rq_api_key req = key -> key <> "" -> presents req key
| presents_bearer key :
    rq_api_key req = "" -> rq_authorization req = "Bearer " +:+ key -> key <> "" -> presents req key
| presents_raw key :
    rq_api_key req = "" -> rq_authorization req = key ->
    (forall token, token <> "" -> key <> "Bearer " +:+ token) -> presents req key.

Definition starts_with (p s : string) : Prop := exists r, s = p +:+ r.

(** The scope of a path; [""] for a path that needs none. *)
Inductive route_scope (basePath path : string) : string -> Prop :=
| scope_refund_query : starts_with (basePath +:+ "/refund/query") path -> route_scope basePath path "refund_query"
| scope_refund :
    starts_with (basePath +:+ "/refund") path -> ~ starts_with (basePath +:+ "/refund/query") path ->
    route_scope basePath path "refund"
| scope_query : starts_with (basePath +:+ "/query") path -> route_scope basePath path "order_query"
| scope_reconcile : starts_with (basePath +:+ "/reconcile") path -> route_scope basePath path "reconcile"
| scope_none :
    (forall p, In p ["/refund"; "/query"; "/reconcile"] -> ~ starts_with (basePath +:+ p) path) ->
    route_scope basePath path "".

(** Whether a list of scopes names [scope]; what follows the first match is not read. *)
Inductive lists (scopes : json) (scope : string) : bool -> Prop :=
| lists_not : isArray scopes = false -> lists scopes scope false
| lists_found pre item post :
    isArray scopes = true -> elements scopes = (pre ++ item :: post)%list ->
    Forall (fun i => exists s, asString i = Some s /\ s <> scope) pre -> asString item = Some scope ->
    lists scopes scope true
| lists_missing :
    isArray scopes = true -> Forall (fun i => exists s, asString i = Some s /\ s <> scope) (elements scopes) ->
    lists scopes scope false.

(** Whether the scope lists let [key] use [scope]: the key's own list decides when
    there is one, else the default list; without lists every key may. *)
Inductive scope_verdict (config : json) (key scope : string) : bool -> Prop :=
| scope_free : scope = "" -> scope_verdict config key scope true
| scope_no_lists : pay_member config "api_key_scopes" None -> scope_verdict config key scope true
| scope_odd_lists v :
    pay_member config "api_key_scopes" (Some v) -> isObject v = false -> scope_verdict config key scope true
| scope_own v own ok :
    scope <> "" -> pay_member config "api_key_scopes" (Some v) -> isObject v = true -> has v key own ->
    lists own scope ok -> scope_verdict config key scope ok
| scope_no_default v :
    pay_member config "api_key_scopes" (Some v) -> isObject v = true -> lacks v key ->
    pay_member config "api_key_default_scopes" None -> scope_verdict config key scope true
| scope_default v defaults ok :
    scope <> "" -> pay_member config "api_key_scopes" (Some v) -> isObject v = true -> lacks v key ->
    pay_member config "api_key_default_scopes" (Some defaults) -> lists defaults scope ok ->
    scope_verdict config key scope ok.

Inductive decides (config : json) (payApiKey payApiKeys : option string)
    (req : request) (basePath : string) : verdict -> Prop :=
| decides_preflight : rq_options req = true -> decides config payApiKey payApiKeys req basePath Allowed
| decides_unconfigured :
    rq_options req = false -> keys_readable config ->
    (forall key, ~ configured config payApiKey payApiKeys key) ->
    decides config payApiKey payApiKeys req basePath (Denied 503 "api key not configured" NotConfigured)
| decides_missing some :
    rq_options req = false -> keys_readable config -> configured config payApiKey payApiKeys some ->
    presents req "" ->
    decides config payApiKey payApiKeys req basePath (Denied 401 "missing api key" MissingKey)
| decides_invalid some key :
    rq_options req = false -> keys_readable config -> configured config payApiKey payApiKeys some ->
    presents req key -> key <> "" -> ~ configured config payApiKey payApiKeys key ->
    decides config payApiKey payApiKeys req basePath (Denied 401 "invalid api key" InvalidKey)
| decides_scope key scope ok :
    rq_options req = false -> keys_readable config ->
    presents req key -> key <> "" -> configured config payApiKey payApiKeys key ->
    route_scope basePath (rq_path req) scope -> scope_verdict config key scope ok ->
    decides config payApiKey payApiKeys req basePath
      (if ok : bool then Allowed else Denied 403 "api key scope not allowed" ScopeDenied).
End Policy.

(** ** Counters *)

Record metrics := Metrics { missingKey_ : Z; invalidKey_ : Z; scopeDenied_ : Z; notConfigured_ : Z }.

Definition u64_incr (z : Z) : Z := (z + 1) mod 2 ^ 64.

Definition incMissingKey m := Metrics (u64_incr (missingKey_ m)) (invalidKey_ m) (scopeDenied_ m) (notConfigured_ m).
Definition incInvalidKey m := Metrics (missingKey_ m) (u64_incr (invalidKey_ m)) (scopeDenied_ m) (notConfigured_ m).
Definition incScopeDenied m := Metrics (missingKey_ m) (invalidKey_ m) (u64_incr (scopeDenied_ m)) (notConfigured_ m).
Definition incNotConfigured m := Metrics (missingKey_ m) (invalidKey_ m) (scopeDenied_ m) (u64_incr (notConfigured_ m)).

Definition count_verdict (v : verdict) (m : metrics) : metrics :=
  match v with
  | Allowed => m
  | Denied _ _ NotConfigured => incNotConfigured m
  | Denied _ _ MissingKey => incMissingKey m
  | Denied _ _ InvalidKey => incInvalidKey m
  | Denied _ _ ScopeDenied => incScopeDenied m
  end.

Definition newline : string := String (ascii_of_N 10) "".

Definition emit (name help : string) (val : Z) : string :=
  "# HELP " +:+ name +:+ " " +:+ help +:+ newline +:+
  "# TYPE " +:+ name +:+ " counter" +:+ newline +:+
  name +:+ " " +:+ to_string val +:+ newline.

Definition toPrometheus (m : metrics) : string :=
  emit "pay_auth_missing_key_total" "Missing API key count" (missingKey_ m) +:+
  emit "pay_auth_invalid_key_total" "Invalid API key count" (invalidKey_ m) +:+
  emit "pay_auth_scope_denied_total" "Scope denied count" (scopeDenied_ m) +:+
  emit "pay_auth_not_configured_total" "Not configured count" (notConfigured_ m).

(** ** Lemmas *)

Section Proofs.
Context `{J : JsonLib} (memcmp : string -> string -> bool).
(** [CRYPTO_memcmp] answers 0 exactly on equal contents. *)
Context (memcmp_eq : forall a b, slen a = slen b -> memcmp a b = String.eqb a b).

Lemma constantTimeEquals_eq a b : constantTimeEquals memcmp a b = String.eqb a b.
Proof.
  unfold constantTimeEquals. destruct (Z.eqb_spec (slen a) (slen b)) as [E|E]; simpl; [by apply memcmp_eq |].
  symmetry. apply String.eqb_neq. congruence.
Qed.

Lemma containsKey_fold keys key found :
  fold_left (fun found allowed => if constantTimeEquals memcmp allowed key then true else found) keys found
  = true <-> found = true \/ In key keys.
Proof.
  revert found. induction keys as [|k keys IH]; intros found; simpl; [tauto |].
  rewrite IH, constantTimeEquals_eq. destruct (String.eqb_spec k key) as [->|Hne]; [tauto |].
  split; [tauto |]. intros [H|[H|H]]; auto; done.
Qed.

Lemma containsKey_in keys key : containsKeyConstantTime memcmp keys key = true <-> In key keys.
Proof. unfold containsKeyConstantTime. rewrite containsKey_fold. intuition done. Qed.

Lemma containsKey_not keys key : containsKeyConstantTime memcmp keys key = false <-> ~ In key keys.
Proof.
  rewrite <- containsKey_in. by destruct (containsKeyConstantTime memcmp keys key).
Qed.
End Proofs.

(** *** Texts *)

Lemma every_all (P : ascii -> Prop) (Q : ascii -> bool) s :
  (forall c, P c <-> Q c = true) -> every P s <-> all_char Q s = true.
Proof.
  intros H. induction s as [|c s IH]; simpl; [done |]. by rewrite andb_true_iff, H, IH.
Qed.

Lemma blank_is c : blank c <-> is_blank c = true.
Proof.
  unfold blank, is_blank, mem_char. cbn [all_char]. rewrite negb_true_iff, !andb_false_iff, !negb_false_iff, !Ascii.eqb_eq.
  split; [intros [->| ->]; auto | intros [<-|[<-|]]; auto; done].
Qed.

Lemma blanks_all s : every blank s <-> all_char is_blank s = true.
Proof. apply every_all, blank_is. Qed.

Lemma trim_left_blanks pre s : all_char is_blank pre = true -> trim_left (pre +:+ s) = trim_left s.
Proof. induction pre as [|c pre IH]; simpl; [done |]. intros [-> H]%andb_true_iff. by apply IH. Qed.

Lemma trim_right_edge s d post :
  is_blank d = false -> all_char is_blank post = true ->
  trim_right (s +:+ String d post) = s +:+ String d "".
Proof.
  intros Hd Hp. induction s as [|c s IH]; simpl.
  - rewrite Hd. simpl. f_equal. destruct post as [|c post]; [done |]. simpl in *.
    by rewrite Hp.
  - rewrite all_char_app. simpl. rewrite Hd, !andb_false_r, IH. done.
Qed.

Lemma trim_left_split s :
  exists pre, s = pre +:+ trim_left s /\ all_char is_blank pre = true /\
    (trim_left s = "" \/ exists c r, trim_left s = String c r /\ is_blank c = false).
Proof.
  induction s as [|c s (pre & E & Hpre & Hs)]; simpl; [exists ""; auto |].
  destruct (is_blank c) eqn:Hc.
  - exists (String c pre). simpl. rewrite Hc, <- E. auto.
  - exists "". split; [done |]. split; [done |]. right. by exists c, s.
Qed.

Lemma trim_right_split s :
  exists post, s = trim_right s +:+ post /\ all_char is_blank post = true /\
    (trim_right s = "" \/ exists r d, trim_right s = r +:+ String d "" /\ is_blank d = false).
Proof.
  induction s as [|c s (post & E & Hpost & Hs)]; simpl; [exists ""; auto |].
  destruct (is_blank c && all_char is_blank s) eqn:Hc.
  - exists (String c s). auto.
  - exists post. simpl. rewrite <- E. split; [done |]. split; [done |]. right.
    destruct Hs as [Hs|(r & d & Hs & Hd)]; [|exists (String c r), d; by rewrite Hs].
    rewrite Hs in *. simpl in E. subst post. rewrite Hpost, andb_true_r in Hc. by exists "", c.
Qed.

Lemma trimmed_spec s t : trimmed s t <-> t = trim s /\ t <> "".
Proof.
  unfold trimmed, trim. split.
  - intros ((pre & post & -> & Hpre & Hpost) & (c & r & -> & Hc) & (r' & d & E & Hd)). split; [|done].
    apply blanks_all in Hpre, Hpost. rewrite blank_is, not_true_iff_false in Hc, Hd.
    rewrite trim_left_blanks by done. simpl. rewrite Hc.
    change (String c (r +:+ post)) with (String c r +:+ post). rewrite E, sapp_assoc. symmetry. by apply trim_right_edge.
  - intros [-> Hne]. destruct (trim_left_split s) as (pre & E & Hpre & Hl).
    destruct (trim_right_split (trim_left s)) as (post & E' & Hpost & Hr).
    destruct Hl as [Hl|(c & r & Hl & Hc)]; [by rewrite Hl in Hne |].
    destruct Hr as [Hr|(r' & d & Hr & Hd)]; [done |]. split; [|split].
    + exists pre, post. rewrite <- E', <- E, !blanks_all. auto.
    + rewrite Hl. simpl. rewrite Hc. simpl. eexists _, _. rewrite blank_is, Hc. done.
    + exists r', d. by rewrite blank_is, Hd.
Qed.

Lemma tokens_last acc s : every (fun c => c <> ","%char) s -> tokens acc s = [acc +:+ s].
Proof.
  revert acc. induction s as [|c s IH]; intros acc; simpl; [by rewrite sapp_nil_r |].
  intros [Hc Hs]. destruct (Ascii.eqb_spec c ","); [done |]. rewrite IH by done. by rewrite sapp_assoc.
Qed.

Lemma tokens_comma acc a s :
  every (fun c => c <> ","%char) a -> tokens acc (a +:+ String "," s) = (acc +:+ a) :: tokens "" s.
Proof.
  revert acc. induction a as [|c a IH]; intros acc; simpl; [by rewrite sapp_nil_r |].
  intros [Hc Hs]. destruct (Ascii.eqb_spec c ","); [done |]. rewrite IH by done. by rewrite sapp_assoc.
Qed.

Lemma tokens_concat ps :
  ps <> [] -> Forall (every (fun c => c <> ","%char)) ps -> tokens "" (String.concat "," ps) = ps.
Proof.
  intros Hne H. induction H as [|p ps Hp Hps IH]; [done |]. destruct ps as [|q ps].
  - by apply tokens_last.
  - change (String.concat "," (p :: q :: ps)) with (p +:+ String "," (String.concat "," (q :: ps))).
    rewrite tokens_comma by done. by rewrite IH.
Qed.

Lemma concat_tokens acc s :
  String.concat "," (tokens acc s) = acc +:+ s /\ tokens acc s <> [] /\
  (every (fun c => c <> ","%char) acc -> Forall (every (fun c => c <> ","%char)) (tokens acc s)).
Proof.
  revert acc. induction s as [|c s IH]; intros acc; simpl.
  - rewrite sapp_nil_r. auto.
  - destruct (Ascii.eqb_spec c ",") as [->|Hc].
    + destruct (IH "") as (E & Hne & Hf). split; [|split; [done |]].
      2: { intros Ha. constructor; [done | by apply Hf]. }
      simpl. destruct (tokens "" s) as [|q ps]; [done |]. by rewrite E.
    + destruct (IH (acc +:+ String c "")) as (E & Hne & Hf). split; [by rewrite E, sapp_assoc |].
      split; [done |]. intros Ha. apply Hf. clear -Ha Hc. induction acc as [|a acc IH]; simpl in *; [done |].
      destruct Ha. auto.
Qed.

Lemma part_spec s p : part s p <-> In p (tokens "" s).
Proof.
  unfold part. split.
  - intros (ps & -> & Hf & Hin). rewrite tokens_concat; [done | by intros -> | done].
  - intros Hin. destruct (concat_tokens "" s) as (E & _ & Hf). exists (tokens "" s).
    split; [by rewrite E |]. split; [by apply Hf | done].
Qed.

Lemma splitKeys_in s key : In key (splitKeys s) <-> exists p, part s p /\ trimmed p key.
Proof.
  unfold splitKeys. rewrite filter_In, in_map_iff, negb_true_iff, <- not_true_iff_false, is_empty_true.
  split.
  - intros ((p & <- & Hp) & Hne). exists p. rewrite part_spec, trimmed_spec. auto.
  - intros (p & Hp & Ht). rewrite part_spec in Hp. apply trimmed_spec in Ht as [-> Hne]. eauto.
Qed.

Lemma after_prefix_spec p s r : after_prefix p s = Some r <-> s = p +:+ r.
Proof.
  revert s. induction p as [|c p IH]; intros s; simpl; [split; congruence |].
  destruct s as [|d s]; [done |]. destruct (Ascii.eqb_spec c d) as [->|Hne].
  - rewrite IH. split; congruence.
  - split; congruence.
Qed.

Lemma prefix_starts p s : String.prefix p s = true <-> starts_with p s.
Proof.
  unfold starts_with. revert s. induction p as [|c p IH]; intros s; simpl; [split; [eauto | by destruct s] |].
  destruct s as [|d s]; [split; [done | by intros [? ?]] |]. simpl. destruct (Ascii.ascii_dec c d) as [->|Hne].
  - rewrite IH. split; intros [r Hr]; exists r; congruence.
  - split; [done |]. intros [r Hr]. congruence.
Qed.

(** *** What a request carries and needs *)

Lemma presents_spec req key : presents req key <-> extractApiKey req = key.
Proof.
  unfold extractApiKey. split.
  - intros [k E Hne|k E Ha Hne|k E Ha Hno].
    + rewrite E. by destruct k.
    + rewrite E, Ha. simpl negb. cbv iota. rewrite (proj2 (after_prefix_spec _ _ _) eq_refl). by destruct k.
    + rewrite E, Ha. simpl negb. cbv iota. destruct (after_prefix "Bearer " k) as [t|] eqn:Hp; [|done].
      apply after_prefix_spec in Hp. destruct t as [|c t]; [done |]. by apply Hno in Hp.
  - destruct (is_empty (rq_api_key req)) eqn:E; cbn [negb]; cbv iota; intros <-.
    + apply is_empty_true in E. destruct (after_prefix "Bearer " (rq_authorization req)) as [t|] eqn:Hp.
      * apply after_prefix_spec in Hp. destruct t as [|c t]; [|by apply (presents_bearer req (String c t))].
        apply presents_raw; [done | done |]. intros [|d t] Hne E'; [done |]. rewrite Hp in E'. done.
      * apply presents_raw; [done | done |]. intros t _ E'. apply after_prefix_spec in E'. congruence.
    + apply presents_header; [done |]. by destruct (rq_api_key req).
Qed.

Lemma starts_after basePath path p :
  starts_with (basePath +:+ p) path <->
  exists rel, after_prefix basePath path = Some rel /\ String.prefix p rel = true.
Proof.
  unfold starts_with. split.
  - intros [r ->]. rewrite sapp_assoc. eexists. rewrite after_prefix_spec, prefix_starts. split; [done |]. by exists r.
  - intros (rel & Hr & Hp). apply after_prefix_spec in Hr. apply prefix_starts in Hp as [r ->].
    exists r. by rewrite sapp_assoc.
Qed.

Lemma route_scope_spec req basePath scope :
  route_scope basePath (rq_path req) scope <-> resolveScope req basePath = scope.
Proof.
  unfold resolveScope. split.
  - intros H. destruct (after_prefix basePath (rq_path req)) as [rel|] eqn:Hb.
    + assert (Hs : forall p, starts_with (basePath +:+ p) (rq_path req) <-> String.prefix p rel = true).
      { intros p. rewrite starts_after, Hb. split; [intros (? & [= <-] & ?); done | eauto]. }
      destruct H as [H|H Hn|H|H|H].
      * apply Hs in H. by rewrite H.
      * rewrite Hs, not_true_iff_false in Hn. apply Hs in H. by rewrite Hn, H.
      * apply Hs in H. pose proof (proj1 (prefix_starts _ _) H) as [r ->]. rewrite H. reflexivity.
      * apply Hs in H. pose proof (proj1 (prefix_starts _ _) H) as [r ->]. rewrite H. reflexivity.
      * assert (Hno : forall p, In p ["/refund"; "/query"; "/reconcile"] -> String.prefix p rel = false).
        { intros p Hp. rewrite <- not_true_iff_false, <- Hs. auto. }
        pose proof (Hno "/refund" ltac:(left; done)) as H2. rewrite H2, (Hno "/query"), (Hno "/reconcile") by (simpl; auto).
        destruct (String.prefix "/refund/query" rel) eqn:Hq; [|done]. apply prefix_starts in Hq as [r ->]. done.
    + destruct H as [H|H _|H|H|H]; try done; apply starts_after in H as (rel & Hr & _); congruence.
  - intros <-. destruct (after_prefix basePath (rq_path req)) as [rel|] eqn:Hb.
    + assert (Hs : forall p b, String.prefix p rel = b -> if b then starts_with (basePath +:+ p) (rq_path req)
        else ~ starts_with (basePath +:+ p) (rq_path req)).
      { intros p [] Hp; rewrite starts_after, Hb; [eauto |]. intros (? & [= <-] & ?). congruence. }
      destruct (String.prefix "/refund/query" rel) eqn:H1; [by apply scope_refund_query, (Hs _ _ H1) |].
      destruct (String.prefix "/refund" rel) eqn:H2; [by apply scope_refund; [apply (Hs _ _ H2) | apply (Hs _ _ H1)] |].
      destruct (String.prefix "/query" rel) eqn:H3; [by apply scope_query, (Hs _ _ H3) |].
      destruct (String.prefix "/reconcile" rel) eqn:H4; [by apply scope_reconcile, (Hs _ _ H4) |].
      apply scope_none. intros p [<-|[<-|[<-|[]]]]; [apply (Hs _ _ H2) | apply (Hs _ _ H3) | apply (Hs _ _ H4)].
    + apply scope_none. intros p _ H. apply starts_after in H as (rel & Hr & _). congruence.
Qed.

(** *** The configuration *)

Section Members.
Context `{J : JsonLib}.

(** The code reads a member of [pay] as these tests. *)
Definition read_pay {A} (config : json) (k : string) (none : option A) (f : json -> option A) : option A :=
  hasPay ← isMember config "pay";
  if negb hasPay then none
  else
    pay ← index config "pay";
    hasIt ← isMember pay k;
    if negb hasIt then none else v ← index pay k; f v.

Lemma pay_member_unique config k m m' : pay_member config k m -> pay_member config k m' -> m = m'.
Proof. unfold has, lacks. intros [] []; unfold has, lacks in *; congruence. Qed.

Lemma read_pay_spec {A} config k (none : option A) f r :
  read_pay config k none f = Some r <->
  exists m, pay_member config k m /\ match m with None => none | Some v => f v end = Some r.
Proof.
  unfold read_pay, isMember, index, get. split.
  - destruct (jfind config "pay") as [[pay|]|] eqn:Hp; simpl;
      [|intros H; exists None; split; [by apply no_pay | done]|done].
    destruct (jfind pay k) as [[v|]|] eqn:Hk; simpl; [..|done]; rewrite ?Hk; simpl; intros H.
    + exists (Some v). split; [by eapply pay_has | done].
    + exists None. split; [by eapply pay_lacks | done].
  - intros (m & [Hp|pay Hp Hk|pay v Hp Hk] & H); rewrite Hp; simpl; [done | |];
      rewrite Hp; simpl; rewrite Hk; simpl; rewrite ?Hk; done.
Qed.

Lemma stringItems_spec items keys :
  stringItems items = Some keys ->
  Forall (fun item => exists s, asString item = Some s) items /\
  forall key, In key keys <-> key <> "" /\ exists item, In item items /\ asString item = Some key.
Proof.
  revert keys. induction items as [|item items IH]; intros keys; simpl.
  - intros [= <-]. split; [done |]. intros key. split; [done | by intros (_ & ? & [] & _)].
  - destruct (asString item) as [s|] eqn:Hs; [|done]. simpl.
    destruct (stringItems items) as [ks|]; [|done]. simpl. intros [= <-].
    destruct (IH ks eq_refl) as [Hall Hin]. split; [constructor; eauto |]. intros key.
    assert (Hstep : In key (if is_empty s then ks else s :: ks) <-> (key = s /\ s <> "") \/ In key ks).
    { destruct (is_empty s) eqn:E; simpl; [apply is_empty_true in E; subst; tauto |].
      assert (s <> "") by (by intros ->). intuition congruence. }
    rewrite Hstep, Hin. split.
    + intros [[-> Hne]|(Hne & i & Hi & Ht)]; eauto 6.
    + intros (Hne & i & [->|Hi] & Ht); [left; split; congruence | right; eauto].
Qed.

Lemma stringItems_reads items :
  Forall (fun item => exists s, asString item = Some s) items -> exists keys, stringItems items = Some keys.
Proof.
  induction 1 as [|item items [s Hs] _ [keys IH]]; simpl; [by eexists |]. rewrite Hs, IH. by eexists.
Qed.

Lemma configKeys_read config :
  configKeys config = read_pay config "api_keys" (Some [])
    (fun keys => if isArray keys then stringItems (elements keys) else Some []).
Proof. done. Qed.

Lemma allowedKeys_spec config payApiKey payApiKeys :
  (keys_readable config -> exists keys, allowedKeys config payApiKey payApiKeys = Some keys) /\
  forall keys, allowedKeys config payApiKey payApiKeys = Some keys ->
    keys_readable config /\ forall key, In key keys <-> configured config payApiKey payApiKeys key.
Proof.
  unfold allowedKeys. rewrite configKeys_read. split.
  - intros (m & Hm & Hr).
    assert (exists ks, read_pay config "api_keys" (Some [])
      (fun keys => if isArray keys then stringItems (elements keys) else Some []) = Some ks) as [ks ->]; [|by eexists].
    destruct m as [v|]; [|eexists; apply read_pay_spec; by exists None].
    destruct (isArray v) eqn:Ha; [|eexists; apply read_pay_spec; exists (Some v); by rewrite Ha].
    destruct (stringItems_reads _ (Hr v eq_refl Ha)) as [ks Hks]. exists ks. apply read_pay_spec.
    exists (Some v). by rewrite Ha.
  - intros keys. destruct (read_pay _ _ _ _) as [ks|] eqn:Hk; [|done]. simpl. intros [= <-].
    apply read_pay_spec in Hk as (m & Hm & Hks).
    assert (Hlist : keys_readable config /\ forall key, In key ks <->
      exists v item, m = Some v /\ isArray v = true /\ In item (elements v) /\ asString item = Some key /\ key <> "").
    { destruct m as [v|]; [destruct (isArray v) eqn:Ha|].
      - destruct (stringItems_spec _ _ Hks) as [Hall Hin]. split.
        + exists (Some v). split; [done |]. by intros ? [= <-] _.
        + intros key. rewrite Hin. split; [intros (? & item & ? & ?); by exists v, item |].
          intros (? & item & [= <-] & _ & ? & ? & ?). eauto.
      - injection Hks as <-. split; [exists (Some v); split; [done |]; intros ? [= <-] ?; congruence |].
        intros key. split; [done |]. intros (? & item & [= <-] & ? & _). congruence.
      - injection Hks as <-. split; [exists None; done |]. intros key. split; [done | by intros (? & ? & ? & _)]. }
    destruct Hlist as [Hread Hlist]. split; [done |]. intros key. rewrite !in_app_iff, Hlist. split.
    + intros [(v & item & -> & Ha & Hin & Ht & Hne)|[Hs|He]].
      * by eapply configured_listed.
      * destruct payApiKey as [s|]; [|done]. destruct (is_empty (trim s)) eqn:E; [done |].
        destruct Hs as [<-|[]]. eapply configured_single; [done |]. apply trimmed_spec.
        split; [done |]. intros E'. by rewrite E' in E.
      * destruct payApiKeys as [s|]; [|done]. apply splitKeys_in in He as (p & Hp & Ht).
        by eapply configured_extra.
    + intros [v item Hm' Ha Hin Ht Hne|s -> Ht|s p -> Hp Ht].
      * left. exists v, item. split; [by eapply pay_member_unique |]. auto.
      * right. left. apply trimmed_spec in Ht as [-> Hne]. destruct (is_empty (trim s)) eqn:E; [|by left].
        by apply is_empty_true in E.
      * right. right. apply splitKeys_in. eauto.
Qed.

Lemma lists_spec v scope ok : lists v scope ok <-> scopeListed v scope = Some ok.
Proof.
  assert (Hitems : forall items b, listsScope items scope = Some b <->
    (b = true /\ exists pre item post, items = (pre ++ item :: post)%list /\
       Forall (fun i => exists s, asString i = Some s /\ s <> scope) pre /\ asString item = Some scope) \/
    (b = false /\ Forall (fun i => exists s, asString i = Some s /\ s <> scope) items)).
  { induction items as [|i items IH]; intros b; simpl.
    - split; [intros [= <-]; by right |]. intros [(_ & [|] & ? & ? & ? & _)|[-> _]]; done.
    - split.
      + destruct (asString i) as [s|] eqn:Hs; [|done]. simpl. destruct (String.eqb_spec s scope) as [->|Hne].
        * intros [= <-]. left. split; [done |]. by exists [], i, items.
        * intros [(-> & pre & item & post & -> & Hpre & Hi)|[-> Hall]]%IH.
          -- left. split; [done |]. exists (i :: pre), item, post. split; [done |]. split; [constructor; eauto | done].
          -- right. split; [done |]. constructor; eauto.
      + intros [(-> & [|p pre] & item & post & [= -> ->] & Hpre & Hi)|[-> Hall]].
        * rewrite Hi. simpl. by rewrite String.eqb_refl.
        * inversion_clear Hpre as [|? ? (s & Hs & Hne) Hpre']. rewrite Hs. simpl.
          apply String.eqb_neq in Hne as ->. apply IH. left. split; [done |]. by exists pre, item, post.
        * inversion_clear Hall as [|? ? (s & Hs & Hne) Hall']. rewrite Hs. simpl.
          apply String.eqb_neq in Hne as ->. apply IH. by right. }
  unfold scopeListed. split.
  - intros [Ha|pre item post Ha He Hpre Hi|Ha Hall]; rewrite Ha; [done | |]; apply Hitems; [left|right]; split; try done.
    rewrite He. by exists pre, item, post.
  - destruct (isArray v) eqn:Ha; [|intros [= <-]; by apply lists_not].
    intros [(-> & pre & item & post & He & Hpre & Hi)|[-> Hall]]%Hitems;
      [by eapply lists_found | by apply lists_missing].
Qed.

(** The scope part of the code, by the members it reads. *)
Definition scope_read (config : json) (key scope : string) : option bool :=
  read_pay config "api_key_scopes" (Some true) (fun v =>
    if negb (isObject v) then Some true
    else
      hasKey ← isMember v key;
      if hasKey : bool then own ← index v key; scopeListed own scope
      else read_pay config "api_key_default_scopes" (Some true) (fun d => scopeListed d scope)).

Lemma scopeAllowed_read config key scope :
  scope <> "" -> scopeAllowed config key scope = scope_read config key scope.
Proof.
  intros Hne. unfold scopeAllowed, scope_read, read_pay, isMember, index, get. destruct scope as [|c scope]; [done |]. simpl.
  destruct (jfind config "pay") as [[pay|]|]; simpl; try done.
Qed.

Lemma scope_verdict_spec config key scope ok :
  scope_verdict config key scope ok <-> scopeAllowed config key scope = Some ok.
Proof.
  destruct (decide (scope = "")) as [->|Hne].
  - simpl. split; [|intros [= <-]; by apply scope_free]. by intros [].
  - rewrite scopeAllowed_read by done. unfold scope_read. rewrite read_pay_spec. split.
    + intros [E|Hm|v Hm Ho|v own ok' _ Hm Ho Hown Hl|v Hm Ho Hno Hd|v d ok' _ Hm Ho Hno Hd Hl]; [done |..];
        eexists; (split; [exact Hm |]); simpl; rewrite ?Ho; try done; unfold isMember, index, get; simpl.
      * rewrite Hown. simpl. rewrite Hown. by apply lists_spec.
      * rewrite Hno. simpl. apply read_pay_spec. by exists None.
      * rewrite Hno. simpl. apply read_pay_spec. exists (Some d). split; [done |]. by apply lists_spec.
    + intros ([v|] & Hm & H); [|injection H as <-; by apply scope_no_lists].
      destruct (isObject v) eqn:Ho; simpl in H; [|injection H as <-; by eapply scope_odd_lists].
      unfold isMember, index, get in H. destruct (jfind v key) as [[own|]|] eqn:Hk; simpl in H; [..|done].
      * apply lists_spec in H. by eapply scope_own.
      * apply read_pay_spec in H as ([d|] & Hd & H); [|injection H as <-; by eapply scope_no_default].
        apply lists_spec in H. by eapply scope_default.
Qed.
End Members.

(** ** Theorems *)



Definition is_counted (c : counter) (v : verdict) : bool :=
  match v, c with
  | Denied _ _ NotConfigured, NotConfigured | Denied _ _ MissingKey, MissingKey
  | Denied _ _ InvalidKey, InvalidKey | Denied _ _ ScopeDenied, ScopeDenied => true
  | _, _ => false
  end.

(** The verdicts of a server's life, counted. *)
Definition counted (vs : list verdict) : metrics :=
  fold_right count_verdict (Metrics 0 0 0 0) vs.

Definition refusals (c : counter) (vs : list verdict) : Z :=
  Z.of_nat (List.length (List.filter (is_counted c) vs)).

Lemma u64_tally n : u64_incr (n mod 2 ^ 64) = (1 + n) mod 2 ^ 64.
Proof. unfold u64_incr. rewrite Z.add_mod_idemp_l by lia. f_equal. lia. Qed.

(** The exported counters are the numbers of refusals of each kind, modulo
    the 64-bit wrap of the atomic counters. *)
Lemma counters_count_refusals vs :
  counted vs =
  Metrics (refusals MissingKey vs mod 2 ^ 64) (refusals InvalidKey vs mod 2 ^ 64)
    (refusals ScopeDenied vs mod 2 ^ 64) (refusals NotConfigured vs mod 2 ^ 64).
Proof.
  induction vs as [|v vs IH]; [done |]. unfold counted in *. simpl. rewrite IH.
  unfold refusals in *. destruct v as [|st b []]; simpl; try done;
    unfold incMissingKey, incInvalidKey, incScopeDenied, incNotConfigured;
    cbn [missingKey_ invalidKey_ scopeDenied_ notConfigured_];
    rewrite u64_tally; f_equal; f_equal; lia.
Qed.
