(* ===== verification/PayErrors.v ===== *)
(** * The error category (include/drogon_pay/PayErrorCategory.h) and the cached HTTP
    clients (src/channels/HttpClientPool.h). *)
From stdpp Require Import gmap.
From S2P Require Import Prelude Cxx.
#[local] Open Scope Z_scope.

(** ** The error category *)

(** [messages_]; every operation holds [mutex_], so threads interleave whole calls. *)
Abbreviation category := (gmap Z string).

Definition message (ev : Z) (messages : category) : string :=
  match messages !! ev with
  | Some text => text
  | None => "pay error " +:+ to_string ev
  end.

Definition setMessage (code : Z) (msg : string) (messages : category) : category := <[code := msg]> messages.

(** An error code holds its number only; its category is the one instance. *)
Definition makePayError (code : Z) (text : string) (messages : category) : Z * category :=
  (code, setMessage code text messages).

(** The errors made so far, in the order of the lock. *)
Definition after_errors (made : list (Z * string)) : category :=
  fold_left (fun messages e => snd (makePayError (fst e) (snd e) messages)) made ∅.

(** The text of the last error with the number. *)
Definition last_text (ev : Z) (made : list (Z * string)) : option string :=
  snd <$> last (List.filter (fun e => Z.eqb (fst e) ev) made).

(** What [message] answers for an error is the text of the last error that any thread
    made with its number. *)
Lemma message_is_last ev made :
  message ev (after_errors made) = default ("pay error " +:+ to_string ev) (last_text ev made).
Proof.
  unfold after_errors, last_text. induction made as [|[code text] made IH] using rev_ind; [done|].
  rewrite fold_left_app, List.filter_app. simpl. unfold message, setMessage in *.
  destruct (Z.eqb_spec code ev) as [->|Hne]; simpl.
  - by rewrite lookup_insert_eq, last_snoc.
  - by rewrite lookup_insert_ne, app_nil_r.
Qed.

(** The first of two errors with one number is reported with the text of the second. *)
Example errors_share_a_text :
  let '(e1, messages) := makePayError 1400 "Invalid amount format" ∅ in
  let '(e2, messages) := makePayError 1400 "database error" messages in
  message e1 messages = "database error".
Proof. by vm_compute. Qed.

(** ** HTTP clients *)

Section Pool.
Context {Loop : Type} (mainLoop : Loop).

(** A client: the count of clients before it, its host and loop. *)
Record pooled_client := PooledClient { pc_number : nat; pc_host : string; pc_loop : Loop }.

(** The maps of all threads together, and how many clients were created. *)
Record client_pool := ClientPool { cp_cache : gmap (Z * string) pooled_client; cp_created : nat }.

(** [own]: the event loop of the calling thread, if it has one. *)
Definition cachedHttpClient (thread : Z) (own : option Loop) (hostString : string) (p : client_pool) :
    pooled_client * client_pool :=
  match cp_cache p !! (thread, hostString) with
  | Some client => (client, p)
  | None =>
      let client := PooledClient (cp_created p) hostString (default mainLoop own) in
      (client, ClientPool (<[(thread, hostString) := client]> (cp_cache p)) (S (cp_created p)))
  end.

(** Every cached client is one of the created ones, of its host, and of one thread. *)
Definition pool_ok (p : client_pool) : Prop :=
  (forall thread host c, cp_cache p !! (thread, host) = Some c -> pc_host c = host /\ (pc_number c < cp_created p)%nat) /\
  (forall k1 k2 c1 c2, cp_cache p !! k1 = Some c1 -> cp_cache p !! k2 = Some c2 -> pc_number c1 = pc_number c2 -> k1 = k2) /\
  cp_created p = size (cp_cache p).

Lemma pool_start : pool_ok (ClientPool ∅ 0).
Proof. split; [|split]; intros; by rewrite ?map_size_empty; rewrite ?lookup_empty in *. Qed.

(** A request keeps the pool in order; it is given a client of its host, the one the
    next request of the thread to the host is given, too; and one is created only for a
    thread and a host that had none. *)
Lemma cachedHttpClient_ok thread own host p :
  pool_ok p ->
  let '(client, p') := cachedHttpClient thread own host p in
  pool_ok p' /\ pc_host client = host /\
  (forall own', cachedHttpClient thread own' host p' = (client, p')) /\
  cp_created p' = (if decide (is_Some (cp_cache p !! (thread, host))) then cp_created p else S (cp_created p)).
Proof.
  intros (Hh & Hi & Hs). unfold cachedHttpClient. destruct (cp_cache p !! (thread, host)) as [c|] eqn:E.
  - split; [done|]. split; [by apply (Hh thread)|]. rewrite E. by case_decide; [|exfalso; eauto].
  - cbv beta zeta iota. split; [|split; [done|]].
    + split; [|split]; simpl.
      * intros t h c. rewrite lookup_insert_Some. intros [[[= <- <-] <-]|[_ H]]; [simpl; split; [done|lia]|].
        apply Hh in H as [H1 H2]. split; [done|lia].
      * assert (Hold : forall k c, cp_cache p !! k = Some c -> pc_number c <> cp_created p)
          by (intros [t h] c H; apply Hh in H as [_ H]; lia).
        intros k1 k2 c1 c2. rewrite !lookup_insert_Some.
        intros [[<- <-]|[_ H1]] [[<- <-]|[_ H2]] En; [done|by destruct (Hold _ _ H2)|by destruct (Hold _ _ H1)|by eapply Hi].
      * rewrite map_size_insert, E. by f_equal.
    + split; [intros own'; simpl; by rewrite lookup_insert_eq|]. destruct (decide _) as [Hd|Hd]; [by destruct Hd|done].
Qed.
End Pool.
