(* ===== verification/Store.v ===== *)
(** * The database and the operations of the services.

    The rows of the tables the services touch (src/sql/001_init_pay_tables.sql
    and the later migrations; only the columns the services read or write), the
    statements they issue, and the interactions a handler performs. *)
From S2P Require Import Prelude Cxx Effects.

(** ** Rows *)

Record idemp_row := IdempRow {
  i_key : string;
  i_hash : string;
  i_snapshot : option string;
  i_owner : option string;
  i_expire : option Z            (* microseconds *)
}.

Record payment_row := PaymentRow {
  p_no : string;
  p_order : string;
  p_status : string;
  p_amount : string;
  p_response : option string;
  p_trade_no : option string;    (* channel_trade_no *)
  p_created : Z;
  p_request : option string      (* request_payload *)
}.

Record order_row := OrderRow {
  o_id : Z;
  o_no : string;
  o_user : Z;
  o_amount : string;
  o_currency : string;
  o_status : string;
  o_channel : string;
  o_title : string;
  o_created : Z;
  o_expire : option Z            (* expire_at, microseconds *)
}.

Record refund_row := RefundRow {
  r_id : Z;
  r_no : string;
  r_order : string;
  r_payment : string;
  r_status : string;
  r_amount : string;
  r_channel_no : option string;
  r_response : option string;
  r_updated : Z                  (* updated_at *)
}.

Record callback_row := CallbackRow {
  c_payment : string;
  c_body : string;
  c_signature : string;
  c_serial : string;
  c_verified : bool;
  c_processed : bool;
  c_received : Z
}.

Record ledger_row := LedgerRow {
  l_user : Z;
  l_order : string;
  l_payment : string;
  l_type : string;
  l_amount : string;
  l_created : Z
}.

(** ** Statements, by the type of their result

    A [Mapper] call is named by what it selects or writes; [stmt] constructors
    with a comment carry the text of a raw SQL statement. *)
Inductive stmt : Type -> Type :=
(* Mapper<PayIdempotency>::findOne(key) *)
| FindIdempotency (key : string) : stmt idemp_row
(* findBy(key && (expire_at is null || expire_at > now)) *)
| FindLiveIdempotency (key : string) (now : Z) : stmt (list idemp_row)
(* INSERT INTO pay_idempotency (key, hash, NULL, owner_token, expire_at)
   ON CONFLICT DO NOTHING RETURNING idempotency_key: the returned rows *)
| ReserveCallback (key hash owner : string) (expire : Z) : stmt (list string)
(* INSERT INTO pay_idempotency (key, hash, NULL, expire_at)
   ON CONFLICT DO NOTHING: the affected rows *)
| ReserveRequest (key hash : string) (expire : Z) : stmt Z
(* deleteBy(key && response_snapshot is null) *)
| DropUnfinalized (key : string) : stmt Z
(* UPDATE pay_idempotency SET response_snapshot = $1
   WHERE idempotency_key = $2 AND owner_token = $3 RETURNING idempotency_key *)
| Finalize (snapshot key owner : string) : stmt (list string)
(* updateBy({response_snapshot}, key && request_hash) *)
| UpdateSnapshot (key hash snapshot : string) : stmt Z
(* deleteBy(key && request_hash && response_snapshot is null) *)
| DeleteReservation (key hash : string) : stmt Z
(* DELETE FROM pay_idempotency WHERE expire_at IS NOT NULL AND expire_at < NOW() *)
| DeleteExpired : stmt Z
(* orderBy(created_at, DESC).limit(1)[.forUpdate()].findBy(openAttemptsOfOrder) *)
| NewestOpenAttempt (lock : bool) (order : string) : stmt (list payment_row)
(* PayPayment::getPayOrder: exactly one row, else UnexpectedRows *)
| GetPayOrder (order : string) : stmt order_row
(* SELECT COALESCE(SUM(CAST(amount AS NUMERIC)), 0) AS sum_amount
   FROM pay_refund WHERE order_no = $1 AND status = $2: the sums as text *)
| SumRefunds (order status : string) : stmt (list string)
(* Mapper<PayCallback>::insert *)
| InsertCallback (row : callback_row) : stmt unit
(* UPDATE pay_payment SET status = $1, channel_trade_no = $2, response_payload = $3
   WHERE payment_no = $4 AND status IN ('INIT', 'PROCESSING') RETURNING 1 *)
| SettlePayment (status trade_no payload no : string) : stmt (list unit)
(* Mapper<PayOrder>::update of a row whose status was set: the affected rows *)
| UpdateOrderStatus (id : Z) (status : string) : stmt Z
(* Mapper<PayRefund>::findOne(refund_no) *)
| FindRefund (no : string) : stmt refund_row
(* Mapper<PayOrder>::findOne(order_no) *)
| FindOrder (no : string) : stmt order_row
(* UPDATE pay_refund SET status = $1, channel_refund_no = $2 WHERE refund_no = $3
   AND status IN ('REFUND_INIT', 'REFUNDING') RETURNING 1 *)
| SettleRefund (status channel_no no : string) : stmt (list unit)
(* updateBy({response_payload}, refund_no) *)
| UpdateRefundPayload (no payload : string) : stmt Z
(* updateBy({status}, order_no && status = PAID) *)
| RefundOrder (order : string) (status : string) : stmt Z
(* orderBy(created_at, DESC).limit(1).findBy(order_no && status IN statuses) *)
| NewestAttempt (order : string) (statuses : list string) : stmt (list payment_row)
(* Mapper<PayOrder>::insert; an unset created_at is the server's *)
| InsertOrder (no : string) (user : Z) (amount currency status channel title : string)
    (created expire : option Z) : stmt unit
(* Mapper<PayPayment>::insert *)
| InsertPayment (no order status amount request : string) (created : Z) : stmt unit
(* updateBy({status, response_payload}, payment_no && status IN (INIT, PROCESSING)) *)
| AdvancePayment (no status payload : string) : stmt Z
(* updateBy({status}, order_no && status IN (CREATED, PAYING)) *)
| AdvanceOrder (order status : string) : stmt Z
(* findBy(order_no) of pay_order *)
| FindOrders (no : string) : stmt (list order_row)
(* findBy(order_no && status IN statuses) of pay_payment *)
| FindAttempts (order : string) (statuses : list string) : stmt (list payment_row)
(* Mapper<PayPayment>::findOne(payment_no) *)
| FindAttempt (no : string) : stmt payment_row
(* Mapper<PayPayment>::update of a row whose status and response_payload were set *)
| UpdatePayment (no status payload : string) : stmt Z
(* Mapper<PayPayment>::findOne(payment_no && order_no) *)
| FindPayment (no order : string) : stmt payment_row
(* forUpdate().findBy(order_no && payment_no) *)
| LockPayment (order no : string) : stmt (list payment_row)
(* orderBy(updated_at, DESC).limit(1).findBy(order_no && payment_no && amount
   && status = REFUND_SUCCESS) *)
| FindSettledRefund (order payment amount : string) : stmt (list refund_row)
(* count(order_no && payment_no && amount && status IN (REFUND_INIT, REFUNDING)) *)
| CountOpenRefunds (order payment amount : string) : stmt Z
(* SELECT COALESCE(SUM(CAST(amount AS NUMERIC)), 0) AS sum_amount FROM pay_refund
   WHERE order_no = $1 AND status IN ('REFUND_INIT', 'REFUNDING', 'REFUND_SUCCESS'):
   the sums as text *)
| SumLiveRefunds (order : string) : stmt (list string)
(* Mapper<PayRefund>::insert *)
| InsertRefund (no order payment status amount : string) : stmt unit
(* updateBy({status, response_payload}, refund_no && status IN (REFUND_INIT, REFUNDING)) *)
| FailRefund (no status payload : string) : stmt Z
(* updateBy({status, channel_refund_no, response_payload}, refund_no
   && status IN (REFUND_INIT, REFUNDING)) *)
| AdvanceRefund (no status channel_no payload : string) : stmt Z
(* Mapper<PayRefund>::update of a row whose status and channel_refund_no were set *)
| UpdateRefund (id : Z) (status channel_no : string) : stmt Z
(* limit(1).findBy(order_no && entry_type && payment_no), where an empty
   [payment] stands for NULL *)
| FindLedger (order type payment : string) : stmt (list ledger_row)
(* Mapper<PayLedger>::insert *)
| InsertLedger (row : ledger_row) : stmt unit
(* COMMIT *)
| Commit : stmt unit.

(** The exceptions of drogon's ORM: [UnexpectedRows] is the one the sources
    tell apart. *)
Inductive db_exception := UnexpectedRows (what : string) | DbFailure (what : string).

Definition what (e : db_exception) : string :=
  match e with UnexpectedRows w => w | DbFailure w => w end.

(** What an asynchronous database call may lead to: its result callback, its
    error callback, or an exception out of the call itself ([None]: not a
    [std::exception]). *)
Inductive answer (R : Type) :=
| Ok (r : R)
| Exc (e : db_exception)
| Threw (w : option string).
Arguments Ok {R} r.
Arguments Exc {R} e.
Arguments Threw {R} w.

Inductive client := Main | Txn.

Inductive redis_answer := RedisNil | RedisValue | RedisError.

(** The error code of a reply: [std::error_code()], a system error or a
    [makePayError]. *)
Inductive error_code := NoError | SystemError (code : Z) | PayError (code : Z) (message : string).

(** The answer of a notification: [{"code": .., "message": ..}]. *)
Record reply := MkReply { rp_code : string; rp_message : string; rp_error : error_code }.

(** ** Interactions *)
Inductive io : Type -> Type :=
| Now : io Z                                  (* microseconds since the epoch *)
| Uuid : io string
| Sql {R : Type} (c : client) (q : stmt R) : io (answer R)
| Begin : io unit                             (* newTransactionAsync *)
| BeginOrNull : io bool                       (* the same, [false]: a null transaction *)
(* a Mapper is constructed: what its constructor throws, if it does *)
| Construct : io (option (option string))
(* a statement queued on the transaction is executed *)
| Step {R : Type} (q : stmt R) : io (db_exception + R)
| Rollback : io unit
| RedisSetNx (key : string) : io redis_answer
| RedisSetEx (key : string) (ttl : Z) (value : string) : io redis_answer
| Respond (r : reply) : io unit.

Abbreviation program := (prog io).
Abbreviation trace := (list (event io)).

(** ** Histories of interactions *)

(** The number of answers sent. *)
Fixpoint replies (h : trace) : nat :=
  match h with
  | [] => 0
  | Event e _ :: h' => match e with Respond _ => S (replies h') | _ => replies h' end
  end.

(** Whether the transaction can still execute statements: it was begun, and
    since then neither rolled back nor aborted by a failed statement (the row
    count check of [getPayOrder] and [findOne] fails after its statement succeeded). *)
Fixpoint txn_usable (h : trace) : bool :=
  match h with
  | [] => false
  | Event e r :: h' =>
      match e in io R return R -> bool with
      | Begin => fun _ => true
      | BeginOrNull => fun ok => ok
      | Rollback => fun _ => false
      | @Sql _ Txn q => fun a =>
          match a with
          | Ok _ => txn_usable h'
          | Exc (UnexpectedRows _) =>
              match q with GetPayOrder _ | FindOrder _ => txn_usable h' | _ => false end
          | Exc (DbFailure _) => false
          | Threw _ => txn_usable h'
          end
      | Step _ => fun a => match a with inr _ => txn_usable h' | inl _ => false end
      | _ => fun _ => txn_usable h'
      end r
  end.

(** Documented behaviour of transactions: once a statement failed or the
    transaction was rolled back, no statement on it succeeds. *)
Definition txn_rely (h : trace) (ev : event io) : Prop :=
  match ev with
  | Event e r =>
      match e in io R return R -> Prop with
      | @Sql _ Txn _ => fun a => match a with Ok _ => txn_usable h = true | _ => True end
      | Step _ => fun a => match a with inr _ => txn_usable h = true | inl _ => True end
      | _ => fun _ => True
      end r
  end.

(** Every environment. *)
Definition any_env (h : trace) (ev : event io) : Prop := True.

(** A handler answers once when it returns, and never when it throws. *)
Definition answers_once (o : outcome) (h : trace) : Prop :=
  match o with Returned => replies h = 1%nat | Escaped => replies h = 0%nat | Running => True end.

(** ** Families of interactions that include these

    The operations of a service that talks to more than the database are a
    larger family; code written for any family that hosts these runs in it. *)
Class Hosts (I : Type -> Type) := host : forall {R}, io R -> I R.
#[global] Instance io_hosts : Hosts io := fun _ e => e.
