(* ===== verification/RefDb.v ===== *)
(** * A reference environment: tables, one transaction, injected faults.

    The statements of [Store] executed on lists of rows, as their SQL says, for
    one handler at a time.  A transaction is the list of its own writes, which
    its statements see on top of the committed tables and COMMIT applies; a
    failed statement aborts it.  Each database call first consumes one bit of
    [w_faults]: [true] makes it fail. *)
From S2P Require Import Prelude Cxx Amount Effects Store.

Record db := Db {
  d_idemps : list idemp_row;
  d_payments : list payment_row;
  d_orders : list order_row;
  d_refunds : list refund_row;
  d_callbacks : list callback_row;
  d_ledgers : list ledger_row
}.

Definition with_idemps f d := Db (f (d_idemps d)) (d_payments d) (d_orders d) (d_refunds d) (d_callbacks d) (d_ledgers d).
Definition with_payments f d := Db (d_idemps d) (f (d_payments d)) (d_orders d) (d_refunds d) (d_callbacks d) (d_ledgers d).
Definition with_orders f d := Db (d_idemps d) (d_payments d) (f (d_orders d)) (d_refunds d) (d_callbacks d) (d_ledgers d).
Definition with_refunds f d := Db (d_idemps d) (d_payments d) (d_orders d) (f (d_refunds d)) (d_callbacks d) (d_ledgers d).
Definition with_callbacks f d := Db (d_idemps d) (d_payments d) (d_orders d) (d_refunds d) (f (d_callbacks d)) (d_ledgers d).
Definition with_ledgers f d := Db (d_idemps d) (d_payments d) (d_orders d) (d_refunds d) (d_callbacks d) (f (d_ledgers d)).

(** ** Row conditions *)

Definition key_is (k : string) (r : idemp_row) : bool := String.eqb (i_key r) k.
Definition hash_is (h : string) (r : idemp_row) : bool := String.eqb (i_hash r) h.
Definition unfinalized (r : idemp_row) : bool :=
  match i_snapshot r with None => true | Some _ => false end.
Definition owned_by (o : string) (r : idemp_row) : bool :=
  match i_owner r with Some o' => String.eqb o' o | None => false end.
Definition live (now : Z) (r : idemp_row) : bool :=
  match i_expire r with None => true | Some t => now <? t end.
Definition expired (now : Z) (r : idemp_row) : bool :=
  match i_expire r with None => false | Some t => t <? now end.

Definition set_snapshot (s : string) (r : idemp_row) : idemp_row :=
  IdempRow (i_key r) (i_hash r) (Some s) (i_owner r) (i_expire r).

Definition is_open (r : payment_row) : bool :=
  String.eqb (p_status r) "INIT" || String.eqb (p_status r) "PROCESSING".

(** The criteria of [openAttemptsOfOrder]. *)
Definition matchable (order : string) (r : payment_row) : bool :=
  String.eqb (p_order r) order &&
  (is_open r || String.eqb (p_status r) "SUCCESS" || String.eqb (p_status r) "REFUNDED").

(** The first of the newest rows. *)
Fixpoint newest (rs : list payment_row) : option payment_row :=
  match rs with
  | [] => None
  | r :: rs' =>
      match newest rs' with
      | Some r' => if p_created r <? p_created r' then Some r' else Some r
      | None => Some r
      end
  end.

Definition settle_row (status trade_no payload : string) (r : payment_row) : payment_row :=
  PaymentRow (p_no r) (p_order r) status (p_amount r) (Some payload) (Some trade_no) (p_created r)
    (p_request r).

Definition close_payment_row (status payload : string) (r : payment_row) : payment_row :=
  PaymentRow (p_no r) (p_order r) status (p_amount r) (Some payload) (p_trade_no r) (p_created r)
    (p_request r).

Definition set_order_status (status : string) (r : order_row) : order_row :=
  OrderRow (o_id r) (o_no r) (o_user r) (o_amount r) (o_currency r) status (o_channel r) (o_title r)
    (o_created r) (o_expire r).

(** The refund rows a notification may still settle. *)
Definition refund_settleable (no : string) (r : refund_row) : bool :=
  String.eqb (r_no r) no && (String.eqb (r_status r) "REFUND_INIT" || String.eqb (r_status r) "REFUNDING").

Definition settle_refund_row (now : Z) (status channel_no : string) (r : refund_row) : refund_row :=
  RefundRow (r_id r) (r_no r) (r_order r) (r_payment r) status (r_amount r) (Some channel_no) (r_response r) now.

Definition set_refund_payload (now : Z) (payload : string) (r : refund_row) : refund_row :=
  RefundRow (r_id r) (r_no r) (r_order r) (r_payment r) (r_status r) (r_amount r) (r_channel_no r) (Some payload) now.

(** A refund no outcome is known of, and one that still counts against its order. *)
Definition refund_open (r : refund_row) : bool :=
  String.eqb (r_status r) "REFUND_INIT" || String.eqb (r_status r) "REFUNDING".
Definition refund_live (r : refund_row) : bool :=
  refund_open r || String.eqb (r_status r) "REFUND_SUCCESS".
Definition refund_of (order payment amount : string) (r : refund_row) : bool :=
  String.eqb (r_order r) order && String.eqb (r_payment r) payment && String.eqb (r_amount r) amount.

Definition fail_refund_row (now : Z) (status payload : string) (r : refund_row) : refund_row :=
  RefundRow (r_id r) (r_no r) (r_order r) (r_payment r) status (r_amount r) (r_channel_no r) (Some payload) now.
Definition advance_refund_row (now : Z) (status channel_no payload : string) (r : refund_row) : refund_row :=
  RefundRow (r_id r) (r_no r) (r_order r) (r_payment r) status (r_amount r) (Some channel_no) (Some payload) now.

Definition one_of (s : string) (ss : list string) : bool := existsb (String.eqb s) ss.

(** The first of the rows updated last. *)
Fixpoint latest (rs : list refund_row) : option refund_row :=
  match rs with
  | [] => None
  | r :: rs' =>
      match latest rs' with
      | Some r' => if r_updated r <? r_updated r' then Some r' else Some r
      | None => Some r
      end
  end.

(** The next value of the table's sequence. *)
Definition fresh_id (rs : list refund_row) : Z := 1 + fold_right Z.max 0 (map r_id rs).

Definition update_where {A} (c : A -> bool) (f : A -> A) (rs : list A) : list A :=
  map (fun r => if c r then f r else r) rs.

Definition select {A} (c : A -> bool) (rs : list A) : list A := List.filter c rs.
Definition delete_where {A} (c : A -> bool) (rs : list A) : list A := List.filter (fun r => negb (c r)) rs.
Definition count {A} (c : A -> bool) (rs : list A) : Z := Z.of_nat (List.length (select c rs)).

(** A query that must find exactly one row. *)
Definition exactly_one {A} (rs : list A) : answer A :=
  match rs with
  | [] => Exc (UnexpectedRows "0 rows found")
  | [r] => Ok r
  | _ => Exc (UnexpectedRows "Found more than one row")
  end.

Definition is_income (payment : string) (r : ledger_row) : bool :=
  String.eqb (l_type r) "PAYMENT" && String.eqb (l_payment r) payment.

Definition settleable (no : string) (r : payment_row) : bool :=
  String.eqb (p_no r) no && is_open r.

Definition order_named (no : string) (r : order_row) : bool := String.eqb (o_no r) no.

(** An order that no notification settled yet. *)
Definition order_open (no : string) (r : order_row) : bool :=
  String.eqb (o_no r) no && (String.eqb (o_status r) "CREATED" || String.eqb (o_status r) "PAYING").

Section Environment.
(** The text PostgreSQL prints for a NUMERIC sum, and the server's clock. *)
Context (sum_text : list string -> string) (server_now : Z).

(** The result of a statement and its effect on the tables it runs on. *)
Definition exec {R} (q : stmt R) (d : db) : answer R * (db -> db) :=
  match q in stmt R return answer R * (db -> db) with
  | FindIdempotency k => (exactly_one (select (key_is k) (d_idemps d)), fun d => d)
  | FindLiveIdempotency k now =>
      (Ok (select (fun r => key_is k r && live now r) (d_idemps d)), fun d => d)
  | ReserveCallback k h o e =>
      if existsb (key_is k) (d_idemps d) then (Ok [], fun d => d)
      else (Ok [k], with_idemps (fun rs => rs ++ [IdempRow k h None (Some o) (Some e)])%list)
  | ReserveRequest k h e =>
      if existsb (key_is k) (d_idemps d) then (Ok 0, fun d => d)
      else (Ok 1, with_idemps (fun rs => rs ++ [IdempRow k h None None (Some e)])%list)
  | DropUnfinalized k =>
      let c r := key_is k r && unfinalized r in
      (Ok (count c (d_idemps d)), with_idemps (delete_where c))
  | Finalize s k o =>
      let c r := key_is k r && owned_by o r in
      (Ok (map i_key (select c (d_idemps d))), with_idemps (update_where c (set_snapshot s)))
  | UpdateSnapshot k h s =>
      let c r := key_is k r && hash_is h r in
      (Ok (count c (d_idemps d)), with_idemps (update_where c (set_snapshot s)))
  | DeleteReservation k h =>
      let c r := key_is k r && hash_is h r && unfinalized r in
      (Ok (count c (d_idemps d)), with_idemps (delete_where c))
  | DeleteExpired =>
      (Ok (count (expired server_now) (d_idemps d)), with_idemps (delete_where (expired server_now)))
  | NewestOpenAttempt _ order =>
      (Ok (match newest (select (matchable order) (d_payments d)) with
           | Some r => [r] | None => [] end), fun d => d)
  | GetPayOrder no =>
      (exactly_one (select (fun r => String.eqb (o_no r) no) (d_orders d)), fun d => d)
  | SumRefunds order status =>
      (Ok [sum_text (map r_amount (select (fun r =>
             String.eqb (r_order r) order && String.eqb (r_status r) status) (d_refunds d)))],
       fun d => d)
  | InsertCallback row => (Ok tt, with_callbacks (fun rs => rs ++ [row])%list)
  | SettlePayment status trade_no payload no =>
      (Ok (map (fun _ => tt) (select (settleable no) (d_payments d))),
       with_payments (update_where (settleable no) (settle_row status trade_no payload)))
  | UpdateOrderStatus id status =>
      let c r := o_id r =? id in
      (Ok (count c (d_orders d)), with_orders (update_where c (set_order_status status)))
  | FindRefund no => (exactly_one (select (fun r => String.eqb (r_no r) no) (d_refunds d)), fun d => d)
  | FindOrder no => (exactly_one (select (fun r => String.eqb (o_no r) no) (d_orders d)), fun d => d)
  | SettleRefund status channel_no no =>
      (Ok (map (fun _ => tt) (select (refund_settleable no) (d_refunds d))),
       with_refunds (update_where (refund_settleable no) (settle_refund_row server_now status channel_no)))
  | UpdateRefundPayload no payload =>
      let c r := String.eqb (r_no r) no in
      (Ok (count c (d_refunds d)), with_refunds (update_where c (set_refund_payload server_now payload)))
  | RefundOrder no status =>
      let c r := String.eqb (o_no r) no && String.eqb (o_status r) "PAID" in
      (Ok (count c (d_orders d)), with_orders (update_where c (set_order_status status)))
  | NewestAttempt order statuses =>
      (Ok (match newest (select (fun r => String.eqb (p_order r) order && one_of (p_status r) statuses)
                           (d_payments d)) with Some r => [r] | None => [] end), fun d => d)
  | InsertOrder no user amount currency status channel title created expire =>
      (* order_no is unique *)
      if existsb (order_named no) (d_orders d) then (Exc (DbFailure "duplicate key"), fun d => d)
      else (Ok tt, with_orders (fun rs => rs ++ [OrderRow (1 + fold_right Z.max 0 (map o_id rs)) no user amount
              currency status channel title (default server_now created) expire])%list)
  | InsertPayment no order status amount request created =>
      (* payment_no is unique *)
      if existsb (fun r => String.eqb (p_no r) no) (d_payments d) then (Exc (DbFailure "duplicate key"), fun d => d)
      else (Ok tt, with_payments (fun rs =>
              rs ++ [PaymentRow no order status amount None None created (Some request)])%list)
  | AdvancePayment no status payload =>
      (Ok (count (settleable no) (d_payments d)),
       with_payments (update_where (settleable no) (close_payment_row status payload)))
  | AdvanceOrder order status =>
      (Ok (count (order_open order) (d_orders d)),
       with_orders (update_where (order_open order) (set_order_status status)))
  | FindOrders no => (Ok (select (order_named no) (d_orders d)), fun d => d)
  | FindAttempts order statuses =>
      (Ok (select (fun r => String.eqb (p_order r) order && one_of (p_status r) statuses) (d_payments d)), fun d => d)
  | FindAttempt no => (exactly_one (select (fun r => String.eqb (p_no r) no) (d_payments d)), fun d => d)
  | UpdatePayment no status payload =>
      let c r := String.eqb (p_no r) no in
      (Ok (count c (d_payments d)), with_payments (update_where c (close_payment_row status payload)))
  | FindPayment no order =>
      (exactly_one (select (fun r => String.eqb (p_no r) no && String.eqb (p_order r) order) (d_payments d)),
       fun d => d)
  | LockPayment order no =>
      (Ok (select (fun r => String.eqb (p_order r) order && String.eqb (p_no r) no) (d_payments d)), fun d => d)
  | FindSettledRefund order payment amount =>
      (Ok (match latest (select (fun r => refund_of order payment amount r && String.eqb (r_status r) "REFUND_SUCCESS")
                           (d_refunds d)) with Some r => [r] | None => [] end), fun d => d)
  | CountOpenRefunds order payment amount =>
      (Ok (count (fun r => refund_of order payment amount r && refund_open r) (d_refunds d)), fun d => d)
  | SumLiveRefunds order =>
      (Ok [sum_text (map r_amount (select (fun r => String.eqb (r_order r) order && refund_live r) (d_refunds d)))],
       fun d => d)
  | InsertRefund no order payment status amount =>
      (* refund_no is unique *)
      if existsb (fun r => String.eqb (r_no r) no) (d_refunds d) then (Exc (DbFailure "duplicate key"), fun d => d)
      else (Ok tt, with_refunds (fun rs =>
              rs ++ [RefundRow (fresh_id rs) no order payment status amount None None server_now])%list)
  | FailRefund no status payload =>
      (Ok (count (refund_settleable no) (d_refunds d)),
       with_refunds (update_where (refund_settleable no) (fail_refund_row server_now status payload)))
  | AdvanceRefund no status channel_no payload =>
      (Ok (count (refund_settleable no) (d_refunds d)),
       with_refunds (update_where (refund_settleable no) (advance_refund_row server_now status channel_no payload)))
  | UpdateRefund id status channel_no =>
      let c r := r_id r =? id in
      (Ok (count c (d_refunds d)), with_refunds (update_where c (settle_refund_row server_now status channel_no)))
  | FindLedger order type payment =>
      (Ok (firstn 1 (select (fun r => String.eqb (l_order r) order && String.eqb (l_type r) type
                                       && String.eqb (l_payment r) payment) (d_ledgers d))), fun d => d)
  | InsertLedger row =>
      (* the unique index of sql/006_ledger_payment_income_unique.sql *)
      if String.eqb (l_type row) "PAYMENT" && existsb (is_income (l_payment row)) (d_ledgers d)
      then (Exc (DbFailure "duplicate key"), fun d => d)
      else (Ok tt, with_ledgers (fun rs => rs ++ [row])%list)
  | Commit => (Ok tt, fun d => d)
  end.

(** [TxOpen w]: the writes so far, oldest first. *)
Inductive txn := TxNone | TxOpen (writes : list (db -> db)) | TxAborted.

Record world := World {
  w_main : db;
  w_txn : txn;
  w_replies : list reply;          (* newest first *)
  w_now : Z;
  w_uuid : string;
  w_nonces : list string;
  w_faults : list bool
}.

Definition apply_writes (ws : list (db -> db)) (d : db) : db := fold_left (fun d f => f d) ws d.

Definition set_main d w := World d (w_txn w) (w_replies w) (w_now w) (w_uuid w) (w_nonces w) (w_faults w).
Definition set_txn t w := World (w_main w) t (w_replies w) (w_now w) (w_uuid w) (w_nonces w) (w_faults w).
Definition set_faults fs w := World (w_main w) (w_txn w) (w_replies w) (w_now w) (w_uuid w) (w_nonces w) fs.

(** COMMIT makes the writes of an open transaction durable. *)
Definition commit (w : world) : world :=
  match w_txn w with
  | TxOpen ws => set_txn TxNone (set_main (apply_writes ws (w_main w)) w)
  | _ => w
  end.

Definition is_commit {R} (q : stmt R) : bool := match q with Commit => true | _ => false end.

Definition sql_main {R} (q : stmt R) (w : world) : answer R * world :=
  let '(a, f) := exec q (w_main w) in
  match a with Ok _ => (a, set_main (f (w_main w)) w) | _ => (a, w) end.

Definition sql_txn {R} (q : stmt R) (w : world) : answer R * world :=
  match w_txn w with
  | TxOpen ws =>
      let '(a, f) := exec q (apply_writes ws (w_main w)) in
      match a with
      | Ok _ => (a, if is_commit q then commit w else set_txn (TxOpen (ws ++ [f])%list) w)
      | Exc (UnexpectedRows _) => (a, w)
      | _ => (a, set_txn TxAborted w)
      end
  | _ => (Exc (DbFailure "the transaction has been rolled back"), w)
  end.

Definition sql {R} (c : client) (q : stmt R) (w : world) : answer R * world :=
  match w_faults w with
  | true :: fs =>
      let w := set_faults fs w in
      (Exc (DbFailure "connection lost"),
       match c with Main => w | Txn => set_txn TxAborted w end)
  | false :: fs => match c with Main => sql_main q (set_faults fs w) | Txn => sql_txn q (set_faults fs w) end
  | [] => match c with Main => sql_main q w | Txn => sql_txn q w end
  end.

Definition handle (R : Type) (e : io R) (w : world) : R * world :=
  match e in io R return R * world with
  | Now => (w_now w, w)
  | Uuid => (w_uuid w, w)
  | Sql c q => sql c q w
  | Begin => (tt, set_txn (TxOpen []) w)
  | BeginOrNull =>
      match w_faults w with
      | true :: fs => (false, set_txn TxNone (set_faults fs w))
      | false :: fs => (true, set_txn (TxOpen []) (set_faults fs w))
      | [] => (true, set_txn (TxOpen []) w)
      end
  | Construct => (None, w)
  | Step q =>
      let '(a, w') := sql Txn q w in
      (match a with
       | Ok r => inr r
       | Exc e => inl e
       | Threw u => inl (DbFailure (default "" u))
       end, w')
  | Rollback => (tt, set_txn TxAborted w)
  | RedisSetNx k =>
      if existsb (String.eqb k) (w_nonces w) then (RedisNil, w)
      else (RedisValue,
            World (w_main w) (w_txn w) (w_replies w) (w_now w) (w_uuid w) (k :: w_nonces w) (w_faults w))
  | RedisSetEx _ _ _ => (RedisValue, w)
  | Respond r =>
      (tt, World (w_main w) (w_txn w) (r :: w_replies w) (w_now w) (w_uuid w) (w_nonces w) (w_faults w))
  end.

(** The transaction object is destroyed with its last reference: what was
    neither committed nor rolled back is committed then. *)
Definition release (w : world) : world := commit w.

(** Run a handler to its end. *)
Definition serve (p : program) (w : world) : world := release (snd (run handle p w)).
End Environment.
