(* ===== verification/Idempotency.v ===== *)
(** * Request idempotency (src/libs/drogon-pay/src/services/IdempotencyService.cc).

    The callbacks of the service are wrapped in [OnceCallback]; every path below
    calls its callback once, so the wrapper is not repeated here.  Logging is
    not modelled. *)
From S2P Require Import Prelude Cxx Json Effects Store RefDb.

(** ** Definitions *)

Inductive check_status := Started | Replay | InProgress | Conflict | Error.

Section Service.
Context `{J : JsonLib}.
(** [redisClient_] is set; [ttlSeconds_] *)
Context (redis : bool) (ttlSeconds : Z).

Record check_result := CheckResult {
  status : check_status;
  message : string;
  cachedResult : json
}.

(** The family of interactions of the caller *)
Context {I : Type -> Type} {HI : Hosts I}.

Definition result (s : check_status) (m : string) : check_result := CheckResult s m jnull.

(** What a reservation with the same hash says. *)
Definition readSnapshot (row : idemp_row) (callback : check_result -> prog I) : prog I :=
  match i_snapshot row with
  | None => callback (result InProgress "idempotency request is already in progress")
  | Some snapshotStr =>
      match jparse snapshotStr with
      | None => callback (result InProgress "idempotency response is not ready")
      | Some snapshot =>
          attempt response <- index snapshot "response";
          if isNull response
          then callback (result InProgress "idempotency response is not ready")
          else callback (CheckResult Replay "" response)
      end
  end.

(** The rows of the live-reservation query. *)
Definition onExisting (requestHash : string) (rows : list idemp_row)
    (callback : check_result -> prog I) : prog I :=
  match rows with
  | row :: _ =>
      if String.eqb (i_hash row) requestHash then readSnapshot row callback
      else callback (result Conflict "idempotency key conflict")
  | [] => callback (result Error "idempotency key disappeared after conflict")
  end.

Definition expiry (now : Z) : Z := wrap64 (now + wrap64 (ttlSeconds * 1000000)).

Definition checkDatabase (idempotencyKey requestHash : string)
    (callback : check_result -> prog I) : prog I :=
  if is_empty idempotencyKey then callback (result Started "")
  else
    do now <- host Now;
    do a <- host (Sql Main (ReserveRequest idempotencyKey requestHash (expiry now)));
    match a with
    | Ok affected =>
        if 0 <? affected then callback (result Started "")
        else
          do now2 <- host Now;
          do b <- host (Sql Main (FindLiveIdempotency idempotencyKey now2));
          match b with
          | Ok rows => onExisting requestHash rows callback
          | Exc e => callback (result Error (what e))
          | Threw (Some w) => callback (result Error w)
          | Threw None => callback (result Error "mapper construction failed")
          end
    | Exc e => callback (result Error (what e))
    | Threw _ => Escape
    end.

Definition checkAndSetStatus (idempotencyKey requestHash : string)
    (callback : check_result -> prog I) : prog I :=
  checkDatabase idempotencyKey requestHash callback.

(** The older interface: whether to go on, and the replayed response. *)
Definition checkAndSet (idempotencyKey requestHash : string)
    (callback : bool -> json -> prog I) : prog I :=
  checkAndSetStatus idempotencyKey requestHash (fun r =>
  match status r with
  | Started => callback true jnull
  | Replay => callback true (cachedResult r)
  | InProgress | Conflict | Error => callback false jnull
  end).

(** The cached document. *)
Definition cacheDocument (requestHash : string) (response : json) : json :=
  of_object [("request_hash", of_string requestHash); ("response", response)].

(** [transaction] is whether the caller passed its transaction. *)
Definition updateResult (idempotencyKey requestHash : string) (response : json)
    (transaction : bool) (callback : bool -> prog I) : prog I :=
  let cacheStr := toJsonString (cacheDocument requestHash response) in
  do a <- host (Sql (if transaction then Txn else Main)
                  (UpdateSnapshot idempotencyKey requestHash cacheStr));
  match a with
  | Ok rows =>
      if rows =? 0 then callback false
      else if redis then
        do _ <- host (RedisSetEx ("idempotency:" +:+ idempotencyKey) ttlSeconds cacheStr);
        callback true
      else callback true
  | Exc _ => callback false
  | Threw _ => callback false
  end.

Definition clearReservation (idempotencyKey requestHash : string)
    (callback : bool -> prog I) : prog I :=
  if is_empty idempotencyKey then callback false
  else
    do a <- host (Sql Main (DeleteReservation idempotencyKey requestHash));
    match a with
    | Ok _ => callback true
    | Exc _ => callback false
    | Threw _ => callback false
    end.

Definition purgeExpired (callback : bool -> prog I) : prog I :=
  do a <- host (Sql Main DeleteExpired);
  match a with
  | Ok _ => callback true
  | Exc _ => callback false
  | Threw _ => Escape
  end.

(** ** The contract: what a check answers on given reservations *)

Definition row_of (key : string) (rows : list idemp_row) : option idemp_row :=
  List.find (key_is key) rows.

(** At most one reservation per key: the primary key of the table. *)
Definition keys_unique (rows : list idemp_row) : Prop := NoDup (map i_key rows).

(** The answer on a reservation found at time [now]; [None] when reading the
    snapshot throws. *)
Definition contract (requestHash : string) (now : Z) (row : idemp_row) : option check_result :=
  if negb (live now row) then Some (result Error "idempotency key disappeared after conflict")
  else if negb (hash_is requestHash row) then Some (result Conflict "idempotency key conflict")
  else
    match i_snapshot row with
    | None => Some (result InProgress "idempotency request is already in progress")
    | Some s =>
        match jparse s with
        | None => Some (result InProgress "idempotency response is not ready")
        | Some doc =>
            response ← index doc "response";
            Some (if isNull response
                  then result InProgress "idempotency response is not ready"
                  else CheckResult Replay "" response)
        end
    end.
End Service.

(** ** Lemmas *)

Lemma select_unique k rows :
  keys_unique rows ->
  select (key_is k) rows = match row_of k rows with Some r => [r] | None => [] end.
Proof.
  unfold keys_unique, select, row_of. induction rows as [|r rows IH]; simpl; [done |].
  intros Hu. inversion_clear Hu as [|? ? Hnotin Hu']. destruct (key_is k r) eqn:E; [|by apply IH].
  f_equal. apply String.eqb_eq in E. destruct (List.filter (key_is k) rows) as [|x xs] eqn:Ex; [done |].
  exfalso. apply Hnotin. assert (Hin : In x (List.filter (key_is k) rows)) by (rewrite Ex; by left).
  apply filter_In in Hin as [Hin Hk]. apply String.eqb_eq in Hk. apply list_elem_of_In.
  rewrite E, <- Hk. by apply in_map.
Qed.

Lemma row_of_none k rows : row_of k rows = None <-> existsb (key_is k) rows = false.
Proof.
  unfold row_of. induction rows as [|r rows IH]; simpl; [done |]. destruct (key_is k r); [done | exact IH].
Qed.

Lemma select_live k now rows :
  keys_unique rows ->
  select (fun r => key_is k r && live now r) rows =
    match row_of k rows with Some r => if live now r then [r] else [] | None => [] end.
Proof.
  intros Hu. pose proof (select_unique k rows Hu) as H. revert H. unfold select, row_of.
  generalize (List.find (key_is k) rows). intros o H.
  assert (E : List.filter (fun r => key_is k r && live now r) rows =
              List.filter (live now) (List.filter (key_is k) rows)).
  { clear. induction rows as [|r rows IH]; simpl; [done |]. destruct (key_is k r); simpl; [|done].
    by destruct (live now r); rewrite IH. }
  rewrite E, H. destruct o as [r|]; simpl; [|done]. by destruct (live now r).
Qed.

(** Looking up and updating a fresh reservation. *)
Lemma row_of_app k rows r :
  row_of k (rows ++ [r])%list = match row_of k rows with Some x => Some x | None => if key_is k r then Some r else None end.
Proof. unfold row_of. induction rows as [|x rows IH]; simpl; [done |]. by destruct (key_is k x). Qed.

Lemma keys_unique_app rows r :
  keys_unique rows -> row_of (i_key r) rows = None -> keys_unique (rows ++ [r])%list.
Proof.
  unfold keys_unique. intros Hu Hn. rewrite map_app. apply NoDup_app. split; [done |].
  split; [|by apply NoDup_singleton].
  intros k Hin H. apply list_elem_of_singleton in H as ->. apply row_of_none in Hn.
  apply list_elem_of_In, in_map_iff in Hin as (x & Hk & Hin).
  assert (existsb (key_is (i_key r)) rows = true); [|congruence].
  apply existsb_exists. exists x. split; [done |]. by apply String.eqb_eq.
Qed.

Lemma keys_update k f rows :
  (forall r, i_key (f r) = i_key r) -> map i_key (update_where k f rows) = map i_key rows.
Proof. intros Hf. unfold update_where. rewrite map_map. apply map_ext. intros r. by destruct (k r). Qed.

(** The reference environment inside a larger one: the family of the caller hosts
    the interactions, and its state holds a [world]. *)
Section Hosted.
Context `{J : JsonLib} (redis : bool) (ttlSeconds : Z).
Context (sum_text : list string -> string) (server_now : Z).
Context {I : Type -> Type} {HI : Hosts I} {S : Type}.
Context (h : forall R, I R -> S -> R * S) (get : S -> world) (put : world -> S -> S).
Context (hosted : forall R (e : io R) s, h R (host e) s =
  let '(r, w) := handle sum_text server_now R e (get s) in (r, put w s)).
Context (put_get : forall s, put (get s) s = s).
Abbreviation run := (run h).

Definition reservation (key hash : string) (now : Z) : idemp_row :=
  IdempRow key hash None None (Some (expiry ttlSeconds now)).

Definition reserve (key hash : string) (w : world) : world :=
  set_main (with_idemps (fun rs => rs ++ [reservation key hash (w_now w)])%list (w_main w)) w.

Lemma run_clock k s : run (Vis (host Now) k) s = run (k (w_now (get s))) s.
Proof. simpl. rewrite hosted. simpl. by rewrite put_get. Qed.

(** A statement of the main connection that does not fail. *)
Lemma run_statement R (q : stmt R) k s r f :
  w_faults (get s) = [] -> exec sum_text server_now q (w_main (get s)) = (Ok r, f) ->
  run (Vis (host (Sql Main q)) k) s = run (k (Ok r)) (put (set_main (f (w_main (get s))) (get s)) s).
Proof. intros Hf He. simpl. rewrite hosted. simpl. unfold sql. rewrite Hf. unfold sql_main. by rewrite He. Qed.

Lemma set_main_same w : set_main (w_main w) w = w.
Proof. by destruct w. Qed.

Lemma run_check_in key hash callback s :
  w_faults (get s) = [] -> keys_unique (d_idemps (w_main (get s))) -> key <> "" ->
  run (checkDatabase ttlSeconds key hash callback) s =
    match row_of key (d_idemps (w_main (get s))) with
    | None => run (callback (result Started "")) (put (reserve key hash (get s)) s)
    | Some row =>
        match contract hash (w_now (get s)) row with
        | Some r => run (callback r) s
        | None => (Escaped, s)
        end
    end.
Proof.
  intros Hf Hu Hk. unfold checkDatabase.
  destruct (is_empty key) eqn:He; [by apply is_empty_true in He |]. rewrite run_clock.
  destruct (row_of key (d_idemps (w_main (get s)))) as [row|] eqn:Er.
  - destruct (existsb (key_is key) (d_idemps (w_main (get s)))) eqn:Ex; [|by apply row_of_none in Ex; congruence].
    rewrite (run_statement _ _ _ s 0 (fun d => d) Hf) by (simpl; by rewrite Ex).
    rewrite set_main_same, put_get. change (0 <? 0) with false. cbv beta iota. rewrite run_clock.
    rewrite (run_statement _ (FindLiveIdempotency key (w_now (get s))) _ s _ (fun d => d) Hf eq_refl), set_main_same, put_get.
    rewrite select_live, Er by done.
    unfold contract. destruct (live (w_now (get s)) row); [|done]. cbn [negb]. unfold onExisting, hash_is.
    destruct (String.eqb (i_hash row) hash); [|done]. cbn [negb]. unfold readSnapshot.
    destruct (i_snapshot row) as [t|]; [|done]. destruct (jparse t) as [doc|]; [|done].
    destruct (index doc "response") as [resp|]; [|done]. simpl. by destruct (isNull resp).
  - apply row_of_none in Er.
    by rewrite (run_statement _ _ _ s 1 (with_idemps (fun rs => rs ++ [reservation key hash (w_now (get s))])%list) Hf)
      by (simpl; by rewrite Er).
Qed.

(** The conditional update of the snapshot; the copy in Redis changes nothing here. *)
Lemma run_update_in key hash response callback s :
  w_faults (get s) = [] ->
  let doc := toJsonString (cacheDocument hash response) in
  let c r := key_is key r && hash_is hash r in
  run (updateResult redis ttlSeconds key hash response false callback) s =
    run (callback (existsb c (d_idemps (w_main (get s)))))
        (put (set_main (with_idemps (update_where c (set_snapshot doc)) (w_main (get s))) (get s)) s).
Proof.
  intros Hf doc c. unfold updateResult. fold doc.
  rewrite (run_statement _ (UpdateSnapshot key hash doc) _ s _ _ Hf eq_refl). fold c. cbv beta iota.
  assert (Hc : (count c (d_idemps (w_main (get s))) =? 0) = negb (existsb c (d_idemps (w_main (get s))))).
  { unfold count, select. clear. induction (d_idemps (w_main (get s))) as [|r rows IH]; simpl; [done |].
    destruct (c r); simpl; [|exact IH]. done. }
  rewrite Hc. destruct (existsb c (d_idemps (w_main (get s)))); simpl negb; cbv iota; [|done].
  destruct redis; [|done]. set (s' := put _ s). simpl. rewrite hosted. simpl. by rewrite put_get.
Qed.

Lemma run_clear_in key hash callback s :
  w_faults (get s) = [] -> key <> "" ->
  run (clearReservation key hash callback) s =
    run (callback true)
      (put (set_main (with_idemps (delete_where (fun r => key_is key r && hash_is hash r && unfinalized r))
              (w_main (get s))) (get s)) s).
Proof.
  intros Hf Hk. unfold clearReservation.
  destruct (is_empty key) eqn:He; [by apply is_empty_true in He |].
  by rewrite (run_statement _ (DeleteReservation key hash) _ s _ _ Hf eq_refl).
Qed.
End Hosted.

Section OnRefDb.
Context `{J : JsonLib} (ttlSeconds : Z).
Context (sum_text : list string -> string) (server_now : Z).
Abbreviation run := (run (handle sum_text server_now)).
Abbreviation reservation := (reservation ttlSeconds).
Abbreviation reserve := (reserve ttlSeconds).

Lemma handle_hosted R (e : io R) w :
  handle sum_text server_now R (host e) w = let '(r, w') := handle sum_text server_now R e w in (r, w').
Proof. unfold host, io_hosts. by destruct (handle _ _ _ _ _). Qed.

(** The clock moves on. *)
Definition at_time (t : Z) (w : world) : world :=
  World (w_main w) (w_txn w) (w_replies w) t (w_uuid w) (w_nonces w) (w_faults w).

Lemma run_check key hash callback w :
  w_faults w = [] -> keys_unique (d_idemps (w_main w)) -> key <> "" ->
  run (checkDatabase ttlSeconds key hash callback) w =
    match row_of key (d_idemps (w_main w)) with
    | None => run (callback (result Started "")) (reserve key hash w)
    | Some row =>
        match contract hash (w_now w) row with
        | Some r => run (callback r) w
        | None => (Escaped, w)
        end
    end.
Proof. exact (run_check_in ttlSeconds sum_text server_now _ (fun w => w) (fun w _ => w) handle_hosted (fun _ => eq_refl) key hash callback w). Qed.

Lemma run_update key hash response callback w :
  w_faults w = [] ->
  let doc := toJsonString (cacheDocument hash response) in
  let c r := key_is key r && hash_is hash r in
  run (updateResult false ttlSeconds key hash response false callback) w =
    run (callback (existsb c (d_idemps (w_main w))))
        (set_main (with_idemps (update_where c (set_snapshot doc)) (w_main w)) w).
Proof.
  intros Hf. exact (run_update_in false ttlSeconds sum_text server_now _ (fun w => w) (fun w _ => w) handle_hosted
    (fun _ => eq_refl) key hash response callback w Hf).
Qed.

Lemma run_clear key hash callback w :
  w_faults w = [] -> key <> "" ->
  run (clearReservation key hash callback) w =
    run (callback true)
      (set_main (with_idemps (delete_where (fun r => key_is key r && hash_is hash r && unfinalized r))
                   (w_main w)) w).
Proof. exact (run_clear_in sum_text server_now _ (fun w => w) (fun w _ => w) handle_hosted key hash callback w). Qed.

(** The table after the answer was stored. *)
Definition store_answer (key hash : string) (response : json) (w : world) : world :=
  set_main (with_idemps (update_where (fun r => key_is key r && hash_is hash r)
              (set_snapshot (toJsonString (cacheDocument hash response)))) (w_main w)) w.

Lemma row_of_update k (c : idemp_row -> bool) f rows :
  (forall r, i_key (f r) = i_key r) ->
  row_of k (update_where c f rows) = (fun r => if c r then f r else r) <$> row_of k rows.
Proof.
  intros Hf. unfold row_of, update_where. induction rows as [|r rows IH]; simpl; [done |].
  assert (E : key_is k (if c r then f r else r) = key_is k r).
  { unfold key_is. destruct (c r); [by rewrite Hf | done]. }
  rewrite E. by destruct (key_is k r).
Qed.

(** A live row that holds a stored response: replay, or conflict of hashes. *)
Lemma contract_stored {L : JsonLaws J} hash response h t row :
  jparse (toJsonString (cacheDocument hash response)) = Some (cacheDocument hash response) ->
  isNull response = false -> live t row = true ->
  contract h t (set_snapshot (toJsonString (cacheDocument hash response)) row) =
  if hash_is h row then Some (CheckResult Replay "" response)
  else Some (result Conflict "idempotency key conflict").
Proof.
  intros Hjson Hresp Hlive. unfold contract. change (live t (set_snapshot _ row)) with (live t row).
  change (hash_is h (set_snapshot _ row)) with (hash_is h row). rewrite Hlive. cbn [negb].
  destruct (hash_is h row); [|done]. cbn [negb]. simpl i_snapshot. cbv iota.
  rewrite Hjson. unfold index, get, cacheDocument. rewrite jfind_of_object. simpl. by rewrite Hresp.
Qed.

(** Clearing a reservation keeps the row of a stored response. *)
Lemma row_of_cleared key hash doc row rows :
  row_of key rows = Some (set_snapshot doc row) ->
  row_of key (delete_where (fun r => key_is key r && hash_is hash r && unfinalized r) rows) = row_of key rows.
Proof.
  unfold row_of, delete_where. induction rows as [|r rows IH]; simpl; [done |].
  destruct (key_is key r) eqn:E.
  - intros [= ->]. unfold unfinalized. simpl. rewrite andb_false_r. simpl. by rewrite E.
  - intros H. simpl. rewrite E. by apply IH.
Qed.

(** Clearing a running reservation removes its row and no other. *)
Lemma delete_reserved key hash now rows :
  row_of key rows = None ->
  delete_where (fun r => key_is key r && hash_is hash r && unfinalized r)
    (rows ++ [reservation key hash now]) = rows.
Proof.
  unfold row_of, delete_where. induction rows as [|r rows IH]; simpl.
  - intros _. unfold key_is, hash_is. simpl. by rewrite !String.eqb_refl.
  - destruct (key_is key r); [done |]. intros H. simpl. by rewrite IH.
Qed.
End OnRefDb.

(** ** Theorems *)

Section Claims.
Context `{J : JsonLib} (ttlSeconds : Z).
Context (sum_text : list string -> string) (server_now : Z).
Abbreviation run := (run (handle sum_text server_now)).

(** On tables with unique keys a check takes the reservation exactly when
    the key is free, and otherwise leaves the tables alone and answers as the
    contract says: replay of the stored response for the same request hash,
    in progress while there is none, conflict for another hash, error for an
    expired reservation that was not purged. *)
Lemma checkDatabase_contract key hash callback w :
  w_faults w = [] -> keys_unique (d_idemps (w_main w)) -> key <> "" ->
  run (checkDatabase ttlSeconds key hash callback) w =
    match row_of key (d_idemps (w_main w)) with
    | None => run (callback (result Started "")) (reserve ttlSeconds key hash w)
    | Some row =>
        match contract hash (w_now w) row with
        | Some r => run (callback r) w
        | None => (Escaped, w)
        end
    end.
Proof. apply run_check. Qed.

(** C36. The life of a reservation.  The first check of a free key starts the
    request; until its response is stored the same request is told it is in
    progress; storing succeeds; from then on, until it expires, the same
    request is answered with exactly the stored response, another request
    under the key is refused, and clearing the reservation removes nothing.  Cleared
    before its response was stored, the reservation is gone, the table is as before
    the request, and at any later time the next check of the key, by the same or by
    another request, starts that request. *)
Theorem reservation_lifecycle {L : JsonLaws J} key hash hash' response w t :
  jparse (toJsonString (cacheDocument hash response)) = Some (cacheDocument hash response) ->
  w_faults w = [] -> keys_unique (d_idemps (w_main w)) -> key <> "" ->
  row_of key (d_idemps (w_main w)) = None -> isNull response = false ->
  t < expiry ttlSeconds (w_now w) -> hash' <> hash ->
  let w1 := reserve ttlSeconds key hash w in
  let w2 := store_answer key hash response w1 in
  (forall cb, run (checkDatabase ttlSeconds key hash cb) w = run (cb (result Started "")) w1) /\
  (forall cb, run (checkDatabase ttlSeconds key hash cb) (at_time t w1) =
     run (cb (result InProgress "idempotency request is already in progress")) (at_time t w1)) /\
  (forall cb, run (updateResult false ttlSeconds key hash response false cb) w1 = run (cb true) w2) /\
  (forall cb, run (checkDatabase ttlSeconds key hash cb) (at_time t w2) =
     run (cb (CheckResult Replay "" response)) (at_time t w2)) /\
  (forall cb, run (checkDatabase ttlSeconds key hash' cb) (at_time t w2) =
     run (cb (result Conflict "idempotency key conflict")) (at_time t w2)) /\
  (forall cb, exists w3, run (clearReservation key hash cb) w2 = run (cb true) w3 /\
     row_of key (d_idemps (w_main w3)) = row_of key (d_idemps (w_main w2))) /\
  (exists w3, d_idemps (w_main w3) = d_idemps (w_main w) /\
     (forall cb, run (clearReservation key hash cb) w1 = run (cb true) w3) /\
     forall h t' cb, run (checkDatabase ttlSeconds key h cb) (at_time t' w3) =
       run (cb (result Started "")) (reserve ttlSeconds key h (at_time t' w3))).
Proof.
  intros Hjson Hf Hu Hk Hn Hresp Ht Hh w1 w2.
  set (r1 := reservation ttlSeconds key hash (w_now w)).
  assert (Hrow1 : row_of key (d_idemps (w_main w1)) = Some r1).
  { simpl. rewrite row_of_app, Hn. unfold key_is. simpl. by rewrite String.eqb_refl. }
  assert (Hu1 : keys_unique (d_idemps (w_main w1))) by (apply keys_unique_app; done).
  set (doc := toJsonString (cacheDocument hash response)).
  assert (Hrow2 : row_of key (d_idemps (w_main w2)) = Some (set_snapshot doc r1)).
  { unfold w2, store_answer. cbn [w_main set_main with_idemps d_idemps].
    rewrite row_of_update, Hrow1 by done. simpl. unfold key_is, hash_is. simpl.
    by rewrite !String.eqb_refl. }
  assert (Hu2 : keys_unique (d_idemps (w_main w2))).
  { unfold keys_unique, w2, store_answer. cbn [w_main set_main with_idemps d_idemps].
    by rewrite keys_update. }
  assert (Hlive : live t r1 = true) by (apply Z.ltb_lt; exact Ht).
  assert (Hhash : hash_is hash r1 = true) by apply String.eqb_refl.
  assert (Hhash' : hash_is hash' r1 = false) by (apply String.eqb_neq; simpl; congruence).
  split; [intros cb; by rewrite run_check, Hn |].
  split.
  { intros cb. rewrite run_check by done. simpl. rewrite row_of_app, Hn. fold r1.
    change (key_is key r1) with (String.eqb key key). rewrite String.eqb_refl.
    unfold contract. by rewrite Hlive, Hhash. }
  split.
  { intros cb. rewrite run_update by done.
    replace (existsb _ _) with true; [done |]. symmetry. apply existsb_exists. exists r1.
    split; [apply in_or_app; right; by left |]. unfold key_is. simpl. by rewrite String.eqb_refl, Hhash. }
  assert (Hc : forall h, contract h t (set_snapshot doc r1) =
            if hash_is h r1 then Some (CheckResult Replay "" response)
            else Some (result Conflict "idempotency key conflict"))
    by (intros; by apply contract_stored).
  split; [intros cb; rewrite run_check by done; simpl in Hrow2 |- *; by rewrite Hrow2, Hc, Hhash |].
  split; [intros cb; rewrite run_check by done; simpl in Hrow2 |- *; by rewrite Hrow2, Hc, Hhash' |].
  split; [intros cb; eexists; split; [by rewrite run_clear |]; by eapply row_of_cleared |].
  assert (Hback : delete_where (fun r => key_is key r && hash_is hash r && unfinalized r) (d_idemps (w_main w1)) =
            d_idemps (w_main w)) by (by apply delete_reserved).
  eexists. split; [|split; [intros cb; by rewrite run_clear |]]; [exact Hback |].
  intros h t' cb. cbn [set_main with_idemps w_main d_idemps at_time] in *.
  rewrite run_check; cbn [set_main with_idemps w_main d_idemps at_time w_faults] in *; rewrite ?Hback; [by rewrite Hn | done..].
Qed.

(** A statement that may remove a reservation. *)
Definition releases {R} (q : stmt R) : bool :=
  match q with DropUnfinalized _ | DeleteReservation _ _ | DeleteExpired => true | _ => false end.

(** The statement took the reservation of [key]. *)
Definition takes {R} (key : string) (q : stmt R) (a : answer R) : bool :=
  match q in stmt R return answer R -> bool with
  | ReserveRequest k _ _ => fun a => String.eqb k key && match a with Ok n => 0 <? n | _ => false end
  | ReserveCallback k _ _ _ => fun a => String.eqb k key && match a with Ok (_ :: _) => true | _ => false end
  | _ => fun _ => false
  end a.

(** An interleaving of the statements of any number of clients, and how many
    of them took the reservation of [key]. *)
Definition any_stmt : Type := {R : Type & stmt R}.

Fixpoint times_taken (key : string) (qs : list any_stmt) (d : db) : nat :=
  match qs with
  | [] => 0
  | existT R q :: qs' =>
      let '(a, f) := exec sum_text server_now q d in
      ((if takes key q a then 1 else 0) + times_taken key qs' (f d))%nat
  end.

Lemma exists_update key (c : idemp_row -> bool) f rows :
  (forall r, i_key (f r) = i_key r) ->
  existsb (key_is key) (update_where c f rows) = existsb (key_is key) rows.
Proof.
  intros Hf. unfold update_where. induction rows as [|r rows IH]; simpl; [done |]. rewrite IH.
  f_equal. unfold key_is. destruct (c r); [by rewrite Hf | done].
Qed.

(** Once reserved, a key stays reserved and is not taken again. *)
Lemma reserved_step key R (q : stmt R) d :
  releases q = false -> existsb (key_is key) (d_idemps d) = true ->
  takes key q (fst (exec sum_text server_now q d)) = false /\
  existsb (key_is key) (d_idemps (snd (exec sum_text server_now q d) d)) = true.
Proof.
  intros Hq He. destruct q; simpl in *; try done; try (split; [done |]; by rewrite exists_update).
  - destruct (existsb (key_is key0) (d_idemps d)) eqn:E; simpl; [by rewrite andb_false_r |].
    rewrite existsb_app, He. split; [|done].
    destruct (String.eqb_spec key0 key) as [->|]; [congruence | done].
  - destruct (existsb (key_is key0) (d_idemps d)) eqn:E; simpl; [by rewrite andb_false_r |].
    rewrite existsb_app, He. split; [|done].
    destruct (String.eqb_spec key0 key) as [->|]; [congruence | done].
  - by split_goal.
  - by split_goal.
  - by split_goal.
  - by split_goal.
Qed.

Lemma takes_reserves key R (q : stmt R) d :
  takes key q (fst (exec sum_text server_now q d)) = true ->
  existsb (key_is key) (d_idemps (snd (exec sum_text server_now q d) d)) = true.
Proof.
  destruct q; simpl; try done; intros H; destruct (existsb (key_is key0) (d_idemps d)) eqn:E; simpl in *;
    try (by rewrite andb_false_r in H); apply andb_true_iff in H as [Hk _];
    apply String.eqb_eq in Hk as ->; rewrite existsb_app; unfold key_is at 2; simpl;
    by rewrite String.eqb_refl, orb_true_r.
Qed.

Lemma reserved_taken key qs d :
  Forall (fun q : any_stmt => releases (projT2 q) = false) qs ->
  existsb (key_is key) (d_idemps d) = true -> times_taken key qs d = 0%nat.
Proof.
  revert d. induction qs as [|[R q] qs IH]; intros d Hq He; simpl; [done |].
  inversion_clear Hq as [|? ? H1 H2]. destruct (reserved_step key R q d H1 He) as [Ht He'].
  destruct (exec sum_text server_now q d) as [a f]. simpl in *. rewrite Ht. by rewrite IH.
Qed.

(** However the statements of concurrent requests and notifications
    interleave, a key is reserved at most once until some statement releases
    reservations: of all the requests under one key one is started. *)
Lemma at_most_one_started key qs d :
  Forall (fun q : any_stmt => releases (projT2 q) = false) qs ->
  (times_taken key qs d <= 1)%nat.
Proof.
  revert d. induction qs as [|[R q] qs IH]; intros d Hq; simpl; [lia |].
  inversion_clear Hq as [|? ? H1 H2]. pose proof (takes_reserves key R q d) as Hr.
  destruct (exec sum_text server_now q d) as [a f]. simpl in *. destruct (takes key q a).
  - rewrite reserved_taken; [lia | done | by apply Hr].
  - simpl. by apply IH.
Qed.
End Claims.

(** ** Witnesses *)

Definition answer_doc : Tree.tree :=
  Tree.TObject [("request_hash", Tree.TString "h1"); ("response", Tree.TString "paid")].

Definition idle (rows : list idemp_row) : world :=
  World (Db rows [] [] [] [] []) TxNone [] 1000000 "" [] [].

Lemma checkDatabase_contract_witness :
  run (handle (fun _ => "0") 0)
    (checkDatabase (J := Tree.lib [("s", answer_doc)]) 60 "k" "h1" (fun _ => Done))
    (idle [IdempRow "k" "h1" (Some "s") None None]) =
  (Returned, idle [IdempRow "k" "h1" (Some "s") None None]).
Proof.
  rewrite (checkDatabase_contract (J := Tree.lib [("s", answer_doc)]));
    [reflexivity | reflexivity | | discriminate].
  apply NoDup_singleton.
Defined.

Lemma reservation_lifecycle_witness :
  let J := Tree.lib [("", answer_doc)] in
  let w1 := reserve 60 "k" "h1" (idle []) in
  let w2 := store_answer (J := J) "k" "h1" (Tree.TString "paid") w1 in
  let run := run (handle (fun _ => "0") 0) in
  (forall cb, run (checkDatabase (J := J) 60 "k" "h1" cb) (idle []) = run (cb (result Started "")) w1) /\
  (forall cb, run (checkDatabase (J := J) 60 "k" "h1" cb) (at_time 2000000 w1) =
     run (cb (result InProgress "idempotency request is already in progress")) (at_time 2000000 w1)) /\
  (forall cb, run (updateResult (J := J) false 60 "k" "h1" (Tree.TString "paid") false cb) w1 = run (cb true) w2) /\
  (forall cb, run (checkDatabase (J := J) 60 "k" "h1" cb) (at_time 2000000 w2) =
     run (cb (CheckResult Replay "" (Tree.TString "paid"))) (at_time 2000000 w2)) /\
  (forall cb, run (checkDatabase (J := J) 60 "k" "h2" cb) (at_time 2000000 w2) =
     run (cb (result Conflict "idempotency key conflict")) (at_time 2000000 w2)) /\
  (forall cb, exists w3, run (clearReservation "k" "h1" cb) w2 = run (cb true) w3 /\
     row_of "k" (d_idemps (w_main w3)) = row_of "k" (d_idemps (w_main w2))) /\
  (exists w3, d_idemps (w_main w3) = d_idemps (w_main (idle [])) /\
     (forall cb, run (clearReservation "k" "h1" cb) w1 = run (cb true) w3) /\
     forall h t' cb, run (checkDatabase (J := J) 60 "k" h cb) (at_time t' w3) =
       run (cb (result Started "")) (reserve 60 "k" h (at_time t' w3))).
Proof.
  apply (reservation_lifecycle (J := Tree.lib [("", answer_doc)])); try reflexivity; try discriminate.
  - apply _.
  - apply NoDup_nil_2.
Defined.

Lemma at_most_one_started_witness :
  (times_taken (fun _ => "0") 0 "k"
     [existT _ (ReserveRequest "k" "h1" 5); existT _ (ReserveRequest "k" "h2" 6);
      existT _ (FindLiveIdempotency "k" 1)] (Db [] [] [] [] [] []) <= 1)%nat.
Proof. apply at_most_one_started. repeat constructor. Defined.
