(* ===== verification/Callback.v ===== *)
(** * WeChat notifications: the shared pieces and [handlePaymentCallback]
    (src/libs/drogon-pay/src/services/CallbackService.cc).

    One definition per lambda of the source, each taking the captured values it
    uses.  A call made inside a [try] has its [Threw] answer handled by the
    [catch]; a call made inside a result callback has none, so its exception
    escapes. *)
From S2P Require Import Prelude Cxx Json Effects Store Amount.

(** ** Replies *)

Definition fail_reply (message : string) (e : error_code) : reply := MkReply "FAIL" message e.
Definition success_reply : reply := MkReply "SUCCESS" "OK" NoError.

(** Call [cbPtr], and nothing after it. *)
Definition finish (r : reply) : program := do _ <- Respond r; Done.

Definition reportMapperFailure : program :=
  finish (fail_reply "internal error" (PayError 1400 "db mapper unavailable")).

Definition respondDbError : program :=
  finish (fail_reply "internal error" (PayError 1400 "db transaction unavailable")).

(** The [respond] lambda: a non-empty message makes a FAIL, an empty one passes
    the result on without an error code. *)
Definition respond (result : reply) (errorMsg : string) : program :=
  if is_empty errorMsg then finish (MkReply (rp_code result) (rp_message result) NoError)
  else finish (fail_reply errorMsg (SystemError 1400)).

Definition reject (message : string) : program :=
  respond (fail_reply message NoError) message.

(** ** Shared helpers *)

Definition dropUnfinalizedReservation (key : string) (respond : program) : program :=
  do a <- Sql Main (DropUnfinalized key);
  match a with
  | Ok _ => respond
  | Exc _ => respond
  | Threw _ => respond
  end.

Fixpoint remove_dashes (s : string) : string :=
  match s with
  | EmptyString => EmptyString
  | String c s' => if Ascii.eqb c "-" then remove_dashes s' else String c (remove_dashes s')
  end.

Definition newReservationToken (k : string -> program) : program :=
  do uuid <- Uuid; k (remove_dashes uuid).

(** [onThrow] is what the caller does with an exception out of the call. *)
Definition finalizeReservation (c : client) (key owner snapshot : string)
    (onFinalized onLost : program) (onError : db_exception -> program)
    (onThrow : option string -> program) : program :=
  do a <- Sql c (Finalize snapshot key owner);
  match a with
  | Ok [] => onLost
  | Ok _ => onFinalized
  | Exc e => onError e
  | Threw w => onThrow w
  end.

Definition insertLedgerEntry (c : option client) (userId : Z)
    (orderNo paymentNo entryType amount : string) (onSuccess : program) : program :=
  match c with
  | None => onSuccess
  | Some c =>
      do createdAt <- Now;
      do a <- Sql c (InsertLedger (LedgerRow userId orderNo paymentNo entryType amount createdAt));
      match a with
      | Ok _ => onSuccess
      | Exc _ => onSuccess
      | Threw _ => onSuccess
      end
  end.

(** [std::llabs] on 64 bits. *)
Definition llabs (z : Z) : Z := wrap64 (Z.abs z).

Definition kMaxSkewSeconds : Z := 300.

(** [None] is fresh, [Some e] the error message; [nowSec] is the clock. *)
Definition timestampFresh (timestamp : string) (nowSec : Z) : option string :=
  match stoll timestamp with
  | None => Some "invalid timestamp"
  | Some cbTime =>
      if kMaxSkewSeconds <? llabs (wrap64 (nowSec - cbTime))
      then Some "timestamp out of acceptable window" else None
  end.

Definition isTimestampFresh (timestamp : string) (k : option string -> program) : program :=
  do now <- Now; k (timestampFresh timestamp (Z.quot now 1000000)).

(** [redis] tells whether [redisClient_] is set. *)
Definition checkNonce (redis : bool) (nonce : string) (proceed : bool -> program) : program :=
  if negb redis then proceed true
  else if is_empty nonce then proceed true
  else
    do r <- RedisSetNx ("cb:nonce:" +:+ nonce);
    match r with
    | RedisNil => proceed false
    | RedisValue => proceed true
    | RedisError => proceed true
    end.

(** What the service uses of the WeChat client (its implementation calls
    OpenSSL). *)
Record wechat_client := WechatClient {
  wc_verify : string -> string -> string -> string -> string -> bool;
    (* verifyCallback timestamp nonce body signature serialNo *)
  wc_decrypt : string -> string -> string -> string + string;
    (* decryptResource ciphertext nonce associatedData: error or plaintext *)
  wc_appid : string;
  wc_mchid : string
}.

Definition verifySignature (wechat : option wechat_client)
    (body signature timestamp nonce serialNo : string) : bool :=
  match wechat with
  | None => false
  | Some wc => wc_verify wc timestamp nonce body signature serialNo
  end.

(** ** The envelope of a notification, which both handlers open *)

Section Envelope.
Context `{J : JsonLib}.

(** The JSON envelope up to the decrypted resource, for the
    event type prefix and the kind of associated data a handler requires; [k] gets the parsed notification and the plaintext. *)
Definition openEnvelope (wc : wechat_client) (eventPrefix eventError kind kindError body : string)
    (k : json -> string -> program) : program :=
  match jparse body with
  | None => reject "invalid json"
  | Some notifyJson =>
      attempt eventType <- get_string notifyJson "event_type";
      if is_empty eventType then reject "missing event_type"
      else if negb (String.prefix eventPrefix eventType) then reject eventError
      else
        attempt hasResource <- isMember notifyJson "resource";
        if negb hasResource
        then finish (fail_reply "missing resource" (SystemError 1400))
        else
          attempt resource <- index notifyJson "resource";
          attempt resourceType <- get_string notifyJson "resource_type";
          if is_empty resourceType || negb (String.eqb resourceType "encrypt-resource")
          then reject "unsupported resource_type"
          else
            attempt algorithm <- get_string resource "algorithm";
            if is_empty algorithm || negb (String.eqb algorithm "AEAD_AES_256_GCM")
            then reject "unsupported resource algorithm"
            else
              attempt ciphertext <- get_string resource "ciphertext";
              attempt nonceStr <- get_string resource "nonce";
              attempt associatedData <- get_string resource "associated_data";
              if is_empty ciphertext || is_empty nonceStr then reject "invalid resource"
              else if negb (String.eqb associatedData kind) then reject kindError
              else
                match wc_decrypt wc ciphertext nonceStr associatedData with
                | inl decryptError => reject decryptError
                | inr plaintext => k notifyJson plaintext
                end
  end.

(** The ways out of the envelope: a FAIL answer (its message is not empty,
    unless decryption reports an empty one), an exception, or the decrypted
    resource. *)
Lemma openEnvelope_cases wc prefix prefixError kind kindError body k (P : program -> Prop) :
  prefixError <> "" -> kindError <> "" ->
  (forall m, m <> "" \/ (exists c i a, wc_decrypt wc c i a = inl m) -> P (reject m)) ->
  P (finish (fail_reply "missing resource" (SystemError 1400))) -> P Escape ->
  (forall notifyJson plaintext,
     (exists cipher nonceStr, wc_decrypt wc cipher nonceStr kind = inr plaintext) ->
     P (k notifyJson plaintext)) ->
  P (openEnvelope wc prefix prefixError kind kindError body k).
Proof.
  intros Hprefix Hkind Hreject Hfail Hescape Hk. unfold openEnvelope. destruct (jparse body) as [nj|]; [|apply Hreject; auto].
  destruct (get_string nj _) as [eventType|]; [|apply Hescape]. cbn [try_].
  destruct (is_empty eventType); [apply Hreject; auto |]. destruct (negb (String.prefix _ _)); [apply Hreject; auto |].
  destruct (isMember nj _) as [has|]; [|apply Hescape]. cbn [try_]. destruct (negb has); [apply Hfail |].
  destruct (index nj _) as [resource|]; [|apply Hescape]. cbn [try_].
  destruct (get_string nj _) as [resourceType|]; [|apply Hescape]. cbn [try_]. destruct (_ || _); [apply Hreject; auto |].
  destruct (get_string resource "algorithm") as [alg|]; [|apply Hescape]. cbn [try_]. destruct (_ || _); [apply Hreject; auto |].
  destruct (get_string resource "ciphertext") as [cipher|]; [|apply Hescape].
  destruct (get_string resource "nonce") as [nonceStr|]; [|apply Hescape].
  destruct (get_string resource "associated_data") as [associated|]; [|apply Hescape]. cbn [try_].
  destruct (_ || _); [apply Hreject; auto |].
  destruct (String.eqb_spec associated kind) as [->|]; [|apply Hreject; auto]. cbn [negb].
  destruct (wc_decrypt _ _ _ _) eqn:E; [apply Hreject; eauto 6 |]. apply Hk. eauto.
Qed.
End Envelope.

(** The values the database lambdas capture. *)
Record notice `{J : JsonLib} := Notice {
  n_key : string;            (* idempotencyKey *)
  n_order : string;          (* orderNo *)
  n_txn : string;            (* transactionId *)
  n_state : string;          (* tradeState *)
  n_plaintext : string;
  n_body : string;
  n_signature : string;
  n_serial : string;
  n_plain : json             (* plainJson *)
}.
Arguments Notice {J}.

Module Payment.
Section Handler.
Context `{J : JsonLib} (md5 : string -> string).
(** [wechatClient_] and whether [redisClient_] is set *)
Context (wechat : option wechat_client) (redis : bool).

Definition openPaymentEnvelope (wc : wechat_client) : string -> (json -> string -> program) -> program :=
  openEnvelope wc "TRANSACTION." "invalid transaction event_type"
    "transaction" "invalid transaction associated_data".

Definition tradeStateValid (tradeState : string) : bool :=
  String.eqb tradeState "SUCCESS" || String.eqb tradeState "USERPAYING"
  || String.eqb tradeState "NOTPAY" || String.eqb tradeState "CLOSED"
  || String.eqb tradeState "REVOKED" || String.eqb tradeState "REFUND".

(** The decrypted notification; [k] gets what the database part captures. *)
Definition readNotice (wc : wechat_client) (body signature serialNo : string)
    (notifyJson : json) (plaintext : string) (k : notice -> program) : program :=
  match jparse plaintext with
  | None => reject "invalid resource json"
  | Some plainJson =>
      attempt appId <- get_string plainJson "appid";
      attempt mchId <- get_string plainJson "mchid";
      if negb (is_empty appId) && negb (String.eqb appId (wc_appid wc))
      then reject "appid mismatch"
      else if negb (is_empty mchId) && negb (String.eqb mchId (wc_mchid wc))
      then reject "mchid mismatch"
      else
        attempt orderNo <- get_string plainJson "out_trade_no";
        attempt transactionId <- get_string plainJson "transaction_id";
        attempt tradeState <- get_string plainJson "trade_state";
        if is_empty orderNo || is_empty tradeState
        then reject "missing out_trade_no/trade_state"
        else if negb (tradeStateValid tradeState) then reject "invalid trade_state"
        else if String.eqb tradeState "SUCCESS" && is_empty transactionId
        then reject "missing transaction_id"
        else
          attempt id <- get_string notifyJson "id";
          let key := if is_empty id then orderNo +:+ ":" +:+ tradeState else id in
          k (Notice key orderNo transactionId tradeState plaintext body signature serialNo
               plainJson)
  end.

(** *** The duplicate path: a finalized reservation was found *)

Definition callbackRow (n : notice) (paymentNo : string) (receivedAt : Z) : callback_row :=
  CallbackRow paymentNo (n_body n) (n_signature n) (n_serial n) true true receivedAt.

Definition recordDuplicate (n : notice) : program :=
  do a <- Sql Main (NewestOpenAttempt false (n_order n));
  match a with
  | Ok [] => respondDbError
  | Ok (payment :: _) =>
      do receivedAt <- Now;
      do b <- Sql Main (InsertCallback (callbackRow n (p_no payment) receivedAt));
      match b with
      | Ok _ => finish success_reply
      | Exc _ => respondDbError
      | Threw _ => reportMapperFailure
      end
  | Exc _ => respondDbError
  | Threw _ => reportMapperFailure
  end.

(** *** The settlement transaction, from its end to its beginning *)

(** COMMIT inside the ledger branch: the reservation was finalized before. *)
Definition commitFinalized : program :=
  do a <- Sql Txn Commit;
  match a with
  | Ok _ => finish success_reply
  | Exc _ => do _ <- Rollback; finish (fail_reply "internal error" (PayError 1400 "db commit error"))
  | Threw _ => Escape
  end.

(** The [onSuccess] of the ledger entry: finalize inside the transaction. *)
Definition finalizeAndCommit (n : notice) (owner : string) : program :=
  finalizeReservation Txn (n_key n) owner (n_plaintext n)
    commitFinalized
    (do _ <- Rollback;
     finish (fail_reply "internal error" (PayError 1400 "idempotency reservation lost")))
    (fun _ =>
     do _ <- Rollback;
     finish (fail_reply "internal error" (PayError 1400 "db idempotency error")))
    (fun _ => do _ <- Rollback; reportMapperFailure).

(** The settlement is durable: every way of finalizing acknowledges it. *)
Definition finalizeAfterCommit (n : notice) (owner : string) : program :=
  finalizeReservation Main (n_key n) owner (n_plaintext n)
    (finish success_reply) (finish success_reply)
    (fun _ => finish success_reply) (fun _ => finish success_reply).

(** COMMIT for a status that books no income, finalized afterwards. *)
Definition commitThenFinalize (n : notice) (owner : string) : program :=
  do a <- Sql Txn Commit;
  match a with
  | Ok _ => finalizeAfterCommit n owner
  | Exc _ =>
      finish (fail_reply "Failed to commit transaction"
                (PayError 1400 "db transaction unavailable"))
  | Threw _ => Escape
  end.

(** The result callback of the order update. *)
Definition onOrderUpdated (n : notice) (owner orderStatus : string)
    (payment : payment_row) (order : order_row) : program :=
  if String.eqb orderStatus "PAID" || String.eqb orderStatus "REFUNDED"
  then insertLedgerEntry (Some Txn) (o_user order) (n_order n) (p_no payment) "PAYMENT"
         (o_amount order) (finalizeAndCommit n owner)
  else commitThenFinalize n owner.

(** The CAS matched no row: roll back, keep the audit row, acknowledge. *)
Definition onAlreadyAdvanced (n : notice) (payment : payment_row) : program :=
  do _ <- Rollback;
  do receivedAt <- Now;
  do a <- Sql Main (InsertCallback (callbackRow n (p_no payment) receivedAt));
  match a with
  | Ok _ => finish success_reply
  | Exc _ => finish success_reply
  | Threw _ => finish success_reply
  end.

(** The error callback of the order update. *)
Definition orderUpdateFailed (e : db_exception) : program :=
  finish (fail_reply ("db error: " +:+ what e) (PayError 1400 "db transaction unavailable")).

(** The result callback of the settlement CAS. *)
Definition onSettled (n : notice) (owner orderStatus : string)
    (payment : payment_row) (order : order_row) (r : list unit) : program :=
  match r with
  | [] => onAlreadyAdvanced n payment
  | _ =>
      do a <- Sql Txn (UpdateOrderStatus (o_id order) orderStatus);
      match a with
      | Ok _ => onOrderUpdated n owner orderStatus payment order
      | Exc e => orderUpdateFailed e
      | Threw _ => do _ <- Rollback; reportMapperFailure
      end
  end.

(** The audit row, then the CAS. *)
Definition recordAndSettle (n : notice) (owner orderStatus paymentStatus : string)
    (payment : payment_row) (order : order_row) : program :=
  do receivedAt <- Now;
  do a <- Sql Txn (InsertCallback (callbackRow n (p_no payment) receivedAt));
  match a with
  | Ok _ =>
      do b <- Sql Txn (SettlePayment paymentStatus (n_txn n) (n_plaintext n) (p_no payment));
      match b with
      | Ok r => onSettled n owner orderStatus payment order r
      | Exc _ => respondDbError
      | Threw _ => Escape
      end
  | Exc _ => respondDbError
  | Threw _ => do _ <- Rollback; reportMapperFailure
  end.

Definition refuse (message error : string) : program :=
  do _ <- Rollback; finish (fail_reply message (PayError 400 error)).

(** The checks of the notified amount and transaction against the locked rows;
    [k] runs when all of them pass. *)
Definition checkNotice (n : notice) (payment : payment_row) (order : order_row)
    (k : program) : program :=
  attempt amountJson <- index (n_plain n) "amount";
  attempt notifyCurrency <- get_string amountJson "currency";
  attempt notifyTotalFen <- get_int64 amountJson "total";
  match parseAmountToFen (p_amount payment) with
  | None => refuse "invalid amount in callback" "invalid amount in callback"
  | Some orderTotalFen =>
      if notifyTotalFen <=? 0
      then refuse "invalid amount in callback" "invalid amount in callback"
      else if negb (is_empty notifyCurrency)
              && negb (String.eqb notifyCurrency (o_currency order))
      then refuse "currency mismatch" "invalid amount in callback"
      else if negb (notifyTotalFen =? orderTotalFen)
      then refuse "amount mismatch" "invalid amount in callback"
      else
        attempt payerTotalFen <- get_int64 amountJson "payer_total";
        attempt hasPayer <- isMember amountJson "payer_total";
        if hasPayer && (notifyTotalFen <? payerTotalFen)
        then refuse "invalid payer_total in callback" "invalid amount in callback"
        else
          let bookedTxn := default "" (p_trade_no payment) in
          if negb (is_empty bookedTxn) && negb (is_empty (n_txn n))
             && negb (String.eqb bookedTxn (n_txn n))
          then refuse "transaction_id mismatch" "transaction_id mismatch"
          else k
  end.

(** The result of the settled-refund sum. *)
Definition resolveBySum (orderStatus : string) (order : order_row)
    (sumResult : list string) : string :=
  let settledRefundFen :=
    match sumResult with [] => 0 | sumText :: _ => fen_or_zero sumText end in
  resolveRefundedOrderStatus orderStatus settledRefundFen (fen_or_zero (o_amount order)).

(** [resolvedOrderStatus] is shared with the statements queued after the sum,
    which the transaction runs after it. *)
Definition resolveOrderStatus (n : notice) (order : order_row) (orderStatus : string)
    (k : string -> program) : program :=
  if String.eqb orderStatus "REFUNDED" then
    do a <- Sql Txn (SumRefunds (n_order n) "REFUND_SUCCESS");
    match a with
    | Ok sumResult => k (resolveBySum orderStatus order sumResult)
    | Exc _ => k orderStatus
    | Threw _ => Escape
    end
  else k orderStatus.

(** The result callback of [getPayOrder]. *)
Definition onOrder (n : notice) (owner : string) (payment : payment_row)
    (order : order_row) : program :=
  checkNotice n payment order
    (let '(orderStatus, paymentStatus) := mapTradeState (n_state n) in
     resolveOrderStatus n order orderStatus (fun resolved =>
     recordAndSettle n owner resolved paymentStatus payment order)).

(** The result callback of the locking read. *)
Definition onLocked (n : notice) (owner : string) (rows : list payment_row) : program :=
  match rows with
  | [] =>
      do _ <- Rollback; finish (fail_reply "payment not found" (SystemError 1404))
  | payment :: _ =>
      if String.eqb (p_status payment) "SUCCESS" || String.eqb (p_status payment) "REFUNDED"
      then do _ <- Rollback; finish success_reply
      else
        do a <- Sql Txn (GetPayOrder (p_order payment));
        match a with
        | Ok order => onOrder n owner payment order
        | Exc _ => respondDbError
        | Threw _ => Escape
        end
  end.

Definition settleInTransaction (n : notice) (owner : string) : program :=
  do _ <- Begin;
  do a <- Sql Txn (NewestOpenAttempt true (n_order n));
  match a with
  | Ok rows => onLocked n owner rows
  | Exc _ => respondDbError
  | Threw _ => do _ <- Rollback; reportMapperFailure
  end.

(** *** The reservation *)

Definition sevenDays : Z := 7 * 24 * 60 * 60 * 1000000.

Definition reserveAndSettle (n : notice) : program :=
  do now <- Now;
  newReservationToken (fun owner =>
  do a <- Sql Main (ReserveCallback (n_key n) (md5 (n_body n)) owner (now + sevenDays));
  match a with
  | Ok [] =>
      finish (fail_reply "callback still in progress" (PayError 1400 "callback still in progress"))
  | Ok _ => settleInTransaction n owner
  | Exc _ =>
      finish (fail_reply "internal error" (PayError 1400 "idempotency insert failed"))
  | Threw _ => reportMapperFailure
  end).

Definition proceedWithDb (n : notice) : program :=
  do a <- Sql Main (FindIdempotency (n_key n));
  match a with
  | Ok existing =>
      match i_snapshot existing with
      | None =>
          dropUnfinalizedReservation (n_key n)
            (finish (fail_reply "callback still in progress"
                       (PayError 1400 "callback still in progress")))
      | Some _ => recordDuplicate n
      end
  | Exc (UnexpectedRows _) => reserveAndSettle n
  | Exc (DbFailure _) =>
      finish (fail_reply "internal error" (PayError 1400 "idempotency lookup failed"))
  | Threw _ => reportMapperFailure
  end.

Definition handlePaymentCallback (body signature timestamp nonce serialNo : string) : program :=
  match wechat with
  | None => finish (fail_reply "wechat client not ready" (SystemError 1400))
  | Some wc =>
      if negb (verifySignature wechat body signature timestamp nonce serialNo)
      then finish (fail_reply "signature verification failed" (SystemError 1400))
      else
        isTimestampFresh timestamp (fun tsError =>
        match tsError with
        | Some e => reject e
        | None =>
            openPaymentEnvelope wc body (fun notifyJson plaintext =>
            readNotice wc body signature serialNo notifyJson plaintext (fun n =>
            checkNonce redis nonce (fun firstSight =>
            if negb firstSight then reject "replay detected" else proceedWithDb n)))
        end)
  end.
End Handler.
End Payment.
