(* ===== verification/Queued.v ===== *)
(** * Callbacks that queue statements on a transaction.

    drogon's [Transaction] executes the statements submitted to it one at a
    time, in the order of submission: [execSqlAsync] returns at once and the
    result callback runs when the statement's turn came.  A callback that submits
    several statements therefore runs to its end before the first of them
    answers, and what their callbacks submit is executed after what is already
    waiting.  [act] is the text of a callback; [drain] executes callbacks and
    their statements. *)
From S2P Require Import Prelude Effects Store.

(** ** Definitions *)

Inductive act (I : Type -> Type) : Type :=
| Return                                     (* the callback returns *)
| Throw                                      (* an exception leaves it *)
| Perform {R : Type} (e : I R) (k : R -> act I)
| Enqueue {R : Type} (q : stmt R) (onAnswer : db_exception + R -> act I) (next : act I).
Arguments Return {I}.
Arguments Throw {I}.
Arguments Perform {I R} e k.
Arguments Enqueue {I R} q onAnswer next.

Inductive task (I : Type -> Type) : Type :=
| Task {R : Type} (q : stmt R) (onAnswer : db_exception + R -> act I).
Arguments Task {I R} q onAnswer.

Section Queue.
Context {I : Type -> Type} {HI : Hosts I}.
Abbreviation act := (act I).
Abbreviation task := (task I).

(** A database call that may throw instead of submitting its statement; [next]
    is the text after the call. *)
Definition issue {R} (q : stmt R) (onAnswer : db_exception + R -> act) (onThrow next : act) : act :=
  Perform (host Construct) (fun thrown =>
    match thrown with
    | None => Enqueue q onAnswer next
    | Some _ => onThrow
    end).

(** Run a callback, then the waiting statements in order, at most [fuel] of
    them. *)
Fixpoint drain (fuel : nat) : act -> list task -> prog I :=
  fix go (a : act) (queue : list task) : prog I :=
    match a with
    | Return =>
        match queue, fuel with
        | [], _ => Done
        | Task q k :: rest, S fuel' => do r <- host (Step q); drain fuel' (k r) rest
        | _ :: _, O => Escape
        end
    | Throw => Escape
    | Perform e k => do r <- e; go (k r) queue
    | Enqueue q k next => go next (queue ++ [Task q k])%list
    end.

Lemma drain_perform fuel R (e : I R) k queue :
  drain fuel (Perform e k) queue = Vis e (fun r => drain fuel (k r) queue).
Proof. by destruct fuel. Qed.

Lemma drain_enqueue fuel R (q : stmt R) k next queue :
  drain fuel (Enqueue q k next) queue = drain fuel next (queue ++ [Task q k])%list.
Proof. by destruct fuel. Qed.

Lemma drain_throw fuel queue : drain fuel Throw queue = Escape.
Proof. by destruct fuel. Qed.

Lemma drain_idle fuel : drain fuel Return [] = Done.
Proof. by destruct fuel. Qed.

Lemma drain_next fuel R (q : stmt R) k rest :
  drain (S fuel) Return (Task q k :: rest) = Vis (host (Step q)) (fun r => drain fuel (k r) rest).
Proof. done. Qed.

(** ** Fuel *)

(** Whatever the statements answer, at most [fuel] of them are executed. *)
Fixpoint bounded (fuel : nat) : act -> list task -> Prop :=
  fix go (a : act) (queue : list task) : Prop :=
    match a with
    | Return =>
        match queue, fuel with
        | [], _ => True
        | Task q k :: rest, S fuel' => forall r, bounded fuel' (k r) rest
        | _ :: _, O => False
        end
    | Throw => True
    | Perform e k => forall r, go (k r) queue
    | Enqueue q k next => go next (queue ++ [Task q k])%list
    end.

Lemma bounded_throw fuel queue : bounded fuel Throw queue.
Proof. by destruct fuel. Qed.

Lemma bounded_idle fuel : bounded fuel Return [].
Proof. by destruct fuel. Qed.

Lemma bounded_perform fuel R (e : I R) k queue :
  (forall r, bounded fuel (k r) queue) -> bounded fuel (Perform e k) queue.
Proof. by destruct fuel. Qed.

Lemma bounded_enqueue fuel R (q : stmt R) k next queue :
  bounded fuel next (queue ++ [Task q k])%list -> bounded fuel (Enqueue q k next) queue.
Proof. by destruct fuel. Qed.

Lemma bounded_next fuel R (q : stmt R) k rest :
  (forall r, bounded fuel (k r) rest) -> bounded (S fuel) Return (Task q k :: rest).
Proof. done. Qed.

Lemma bounded_more fuel more a queue : bounded fuel a queue -> bounded (fuel + more) a queue.
Proof.
  revert a queue. induction fuel as [|fuel IH]; intros a;
    induction a as [| |R e k IHa|R q k _ a IHa]; intros queue Hb.
  - destruct queue as [|[]]; [by destruct more | done].
  - by destruct more.
  - apply bounded_perform. intros r. apply IHa, Hb.
  - apply bounded_enqueue. apply IHa, Hb.
  - destruct queue as [|[R q k] rest]; [done |]. intros r. apply IH, Hb.
  - done.
  - apply bounded_perform. intros r. apply IHa, Hb.
  - apply bounded_enqueue. apply IHa, Hb.
Qed.

Lemma drain_wp {St} (step : forall R, I R -> St -> R -> St -> Prop) Inv Q fuel more a queue s :
  bounded fuel a queue ->
  wp step Inv Q (drain fuel a queue) s <-> wp step Inv Q (drain (fuel + more) a queue) s.
Proof.
  assert (Hvis : forall R (e : I R) k k' s, (forall r s', wp step Inv Q (k r) s' <-> wp step Inv Q (k' r) s') ->
    wp step Inv Q (Vis e k) s <-> wp step Inv Q (Vis e k') s).
  { clear. intros R e k k' s H. simpl. split; intros [Hi Hk]; (split; [done |]); intros r s' Hs;
      by apply H, Hk. }
  revert a queue s. induction fuel as [|fuel IH]; intros a;
    induction a as [| |R e k IHa|R q k _ a IHa]; intros queue s Hb.
  - destruct queue as [|[]]; [by destruct more | done].
  - by destruct more.
  - destruct more as [|more]; (eapply Hvis; intros r s'; apply (IHa r queue s'), Hb).
  - destruct more; by apply (IHa (queue ++ [Task q k])%list).
  - destruct queue as [|[R q k] rest]; [done |]. eapply Hvis. intros r s'. apply IH, Hb.
  - done.
  - eapply Hvis. intros r s'. apply (IHa r queue s'), Hb.
  - by apply (IHa (queue ++ [Task q k])%list).
Qed.

(** More fuel changes no execution. *)
Lemma drain_fuel {St} (step : forall R, I R -> St -> R -> St -> Prop) fuel more a queue s o s' :
  bounded fuel a queue ->
  runs step (drain fuel a queue) s o s' <-> runs step (drain (fuel + more) a queue) s o s'.
Proof. intros Hb. split; apply runs_wp; intros Inv Q; by apply drain_wp. Qed.

End Queue.

(** ** Refusing callbacks

    [harmless]: with every statement failing, the callback acknowledges nothing;
    [loud]: it then answers. *)

Fixpoint harmless (a : act io) : Prop :=
  match a with
  | Return | Throw => True
  | Perform e k =>
      match e with
      | Respond r => rp_code r <> "SUCCESS"
      | Now | Construct | Rollback => True
      | _ => False
      end /\ forall r, harmless (k r)
  | Enqueue q k next => (forall e, harmless (k (inl e))) /\ harmless next
  end.

(** Every way through the callback answers. *)
Fixpoint loud (a : act io) : Prop :=
  match a with
  | Return => False
  | Throw => True
  | @Perform _ R e k => match e with Respond _ => True | _ => forall r : R, loud (k r) end
  | Enqueue q k next => loud next \/ forall e, loud (k (inl e))
  end.

Definition harmless_task (t : task io) : Prop := match t with Task q k => forall e, harmless (k (inl e)) end.
Definition loud_task (t : task io) : Prop := match t with Task q k => forall e, loud (k (inl e)) end.

(** What [harmless] and [loud] say of a callback, piece by piece. *)
Ltac tame :=
  repeat (simpl; match goal with
  | |- True => exact I
  | |- _ /\ _ => split
  | |- False \/ _ => right
  | |- forall _, _ => intros ?
  | |- context [match ?x with None => _ | Some _ => _ end] => destruct x
  | |- Forall _ [] => constructor
  | |- Forall _ (_ :: _) => constructor
  | |- _ <> _ => discriminate
  end).
