(* ===== verification/Service.v ===== *)
(** * Services that talk to payment channels and answer with JSON.

    [svc] adds to the interactions of [Store] the calls of the PaymentChannel
    interface (include/drogon_pay/PaymentChannel.h) and the callback that takes the
    answer of a request.  The channels themselves are parameters of the programs:
    [Call] may be answered by anything. *)
From S2P Require Import Prelude Cxx Json Effects Store RefDb.

(** ** Interactions *)

(** The operations of the PaymentChannel interface. *)
Inductive channel_op `{J : JsonLib} : Type :=
| ChRefund (payload : json)
| ChQueryRefund (refundNo : string)
| ChQueryPayment (orderNo : string)
| ChCreateQr (payload : json)
| ChCloseOrder (orderNo : string).

(** What calling one leads to: its callback with a result and an error text, or
    an exception. *)
Inductive channel_answer `{J : JsonLib} : Type :=
| Answered (result : json) (error : string)
| ChannelThrew.

Inductive svc `{J : JsonLib} : Type -> Type :=
| Io {R : Type} (e : io R) : svc R
| Call (channel : string) (op : channel_op) : svc channel_answer
(* a statement sent on the main connection; its outcome is only logged *)
| Post {R : Type} (q : stmt R) : svc unit
(* the flag of a OnceCallback: whether this call is the first *)
| Claim : svc bool
(* the callback of the request: (result, error), 0 for std::error_code() *)
| Answer (result : json) (error : Z) : svc unit
(* a random number from 0 to [bound] *)
| Draw (bound : Z) : svc Z.

#[global] Instance svc_hosts `{J : JsonLib} : Hosts svc := fun R e => Io e.

(** ** A cell shared by callbacks

    The [shared_ptr<int64_t>] that the callbacks of one transaction share: a family
    with a cell, and its interpretation. *)
Inductive celled (I : Type -> Type) : Type -> Type :=
| Lift {R : Type} (e : I R) : celled I R
| Save (z : Z) : celled I unit
| Load : celled I Z.
Arguments Lift {I R} e.
Arguments Save {I} z.
Arguments Load {I}.

#[global] Instance celled_hosts {I} `{HI : Hosts I} : Hosts (celled I) := fun R e => Lift (host e).

Fixpoint with_cell {I} (z : Z) (p : prog (celled I)) : prog I :=
  match p with
  | Done => Done
  | Escape => Escape
  | Vis e k =>
      match e in celled _ R return (R -> prog (celled I)) -> prog I with
      | Lift e => fun k => Vis e (fun r => with_cell z (k r))
      | Save z' => fun k => with_cell z' (k tt)
      | Load => fun k => with_cell z (k z)
      end k
  end.

(** ** Histories *)

Section Histories.
Context `{J : JsonLib}.

(** The answers sent, newest first. *)
Fixpoint answers_of (h : list (event svc)) : list (json * Z) :=
  match h with
  | [] => []
  | Event e _ :: h' =>
      match e with Answer r c => (r, c) :: answers_of h' | _ => answers_of h' end
  end.

(** The calls made to the channels, newest first. *)
Fixpoint calls_of (h : list (event svc)) : list (string * channel_op) :=
  match h with
  | [] => []
  | Event e _ :: h' =>
      match e with Call c op => (c, op) :: calls_of h' | _ => calls_of h' end
  end.

(** The callback of a [OnceCallback] was taken before. *)
Fixpoint claimed (h : list (event svc)) : bool :=
  match h with
  | [] => false
  | Event e _ :: h' => match e with Claim => true | _ => claimed h' end
  end.

(** What a statement of the main connection, or of the transaction, answered. *)
Definition main_view {A} (v : forall R, stmt R -> answer R -> option A) (ev : event svc) : option A :=
  match ev with
  | Event e r =>
      match e in svc R return R -> option A with
      | Io e' =>
          match e' in io R return R -> option A with
          | Sql Main q => fun a => v _ q a
          | _ => fun _ => None
          end
      | _ => fun _ => None
      end r
  end.

Definition txn_view {A} (v : forall R, stmt R -> answer R -> option A) (ev : event svc) : option A :=
  match ev with
  | Event e r =>
      match e in svc R return R -> option A with
      | Io e' =>
          match e' in io R return R -> option A with
          | Sql Txn q => fun a => v _ q a
          | _ => fun _ => None
          end
      | _ => fun _ => None
      end r
  end.

(** What a [OnceCallback] promises ([OnceCallback.v]): the first call is the one
    that runs. *)
Definition once_rely (h : list (event svc)) (ev : event svc) : Prop :=
  match ev with
  | Event e r =>
      match e in svc R return R -> Prop with
      | Claim => fun first => first = negb (claimed h)
      | _ => fun _ => True
      end r
  end.

(** An answer was sent exactly once when control returns to the event loop, and
    not at all when an exception leaves a callback. *)
Definition answered_once (o : outcome) (h : list (event svc)) : Prop :=
  match o with
  | Effects.Returned => List.length (answers_of h) = 1%nat
  | Escaped => answers_of h = []
  | Running => True
  end.
End Histories.

(** ** The reference environment, with scripted channels *)

Section Environment.
Context `{J : JsonLib} (sum_text : list string -> string) (server_now : Z).

Record deployment := Deployment {
  dp_world : world;
  dp_script : list channel_answer;          (* the next answers of the channels *)
  dp_calls : list (string * channel_op);    (* newest first *)
  dp_answers : list (json * Z);             (* newest first *)
  dp_claimed : bool
}.

Definition with_world (w : world) (s : deployment) : deployment :=
  Deployment w (dp_script s) (dp_calls s) (dp_answers s) (dp_claimed s).

Definition next_answer (script : list channel_answer) : channel_answer * list channel_answer :=
  match script with [] => (ChannelThrew, []) | a :: rest => (a, rest) end.

Definition handle_svc (R : Type) (e : svc R) (s : deployment) : R * deployment :=
  match e in svc R return R * deployment with
  | Io e => let '(r, w) := handle sum_text server_now _ e (dp_world s) in (r, with_world w s)
  | Call c op =>
      let '(a, rest) := next_answer (dp_script s) in
      (a, Deployment (dp_world s) rest ((c, op) :: dp_calls s) (dp_answers s) (dp_claimed s))
  | Post q =>
      let '(_, w) := sql sum_text server_now Main q (dp_world s) in (tt, with_world w s)
  | Claim =>
      (negb (dp_claimed s),
       Deployment (dp_world s) (dp_script s) (dp_calls s) (dp_answers s) true)
  | Draw _ => (0, s)
  | Answer r c =>
      (tt, Deployment (dp_world s) (dp_script s) (dp_calls s) ((r, c) :: dp_answers s) (dp_claimed s))
  end.

(** Run a request to its end; its transaction object is destroyed then. *)
Definition serve_svc (p : prog svc) (s : deployment) : deployment :=
  let s' := snd (run handle_svc p s) in with_world (release (dp_world s')) s'.
End Environment.
