(* ===== verification/RefundService.v ===== *)
(** * Refund requests (src/libs/drogon-pay/src/services/RefundService.cc).

    One definition per method or lambda of the source, each taking the captured
    values it uses; [callback] is the [RefundCallback] the method was given.  A
    database call made inside a [try] has its [Threw] answer handled by the
    [catch]; one made inside a result callback without a [try] escapes. *)
From S2P Require Import Prelude Cxx Json Effects Store Amount NotifyUrl Rfc3339 RefDb Idempotency Service Queued.

(** ** Helpers *)

(** Whether a WeChat error text proves that the refund did not happen. *)
Definition refundCertainlyDidNotHappen (error : string) : bool :=
  let httpRefusal := String.prefix "HTTP 4" error && negb (contains "no error envelope" error) in
  if httpRefusal then true
  else
    let wentThroughHttp :=
      String.prefix "HTTP " error || String.prefix "http request" error
      || String.eqb error "invalid json response"
      || String.prefix "response signature verification failed" error in
    negb wentThroughHttp.

(** [gmtime_r]: the civil date of a day counted from 1970-01-01. *)
Definition gmtime_date (day : Z) : Z * Z * Z :=
  let z := day + 719468 in
  let era := z / 146097 in
  let doe := z mod 146097 in
  let yoe := (doe - doe / 1460 + doe / 36524 - doe / 146096) / 365 in
  let doy := doe - (365 * yoe + yoe / 4 - yoe / 100) in
  let mp := (5 * doy + 2) / 153 in
  let m := if mp <? 10 then mp + 3 else mp - 9 in
  (yoe + era * 400 + (if m <=? 2 then 1 else 0), m, doy - (153 * mp + 2) / 5 + 1).

(** [strftime "%Y-%m-%dT%H:%M:%SZ"] of the UTC time, [when] in microseconds. *)
Definition toRfc3339Utc (when : Z) : string :=
  let seconds := Z.quot when 1000000 in
  let '(y, m, d) := gmtime_date (seconds / 86400) in
  let t := seconds mod 86400 in
  to_string y +:+ "-" +:+ d2 m +:+ "-" +:+ d2 d +:+ "T" +:+ d2 (t / 3600) +:+ ":"
    +:+ d2 (t / 60 mod 60) +:+ ":" +:+ d2 (t mod 60) +:+ "Z".

(** [CreateRefundRequest] (services/RefundService.h) *)
Record refund_request := RefundRequest {
  rq_orderNo : string;
  rq_paymentNo : string;
  rq_refundNo : string;
  rq_amount : string;
  rq_reason : string;
  rq_notifyUrl : string;
  rq_fundsAccount : string
}.

Definition with_paymentNo (no : string) (r : refund_request) : refund_request :=
  RefundRequest (rq_orderNo r) no (rq_refundNo r) (rq_amount r) (rq_reason r) (rq_notifyUrl r)
    (rq_fundsAccount r).

Module Refunds.
Section Service.
Context `{J : JsonLib} (sha256 : string -> string).
(** [channels_]: the names that have a channel; whether the idempotency service
    has a Redis client, and its TTL. *)
Context (channels : list string) (redis : bool) (ttlSeconds : Z).

Abbreviation RefundCallback := (json -> Z -> prog svc).

Definition findChannel (name : string) : bool := existsb (String.eqb name) channels.

(** [{"code": code, "message": message}] *)
Definition error_json (code : Z) (message : string) : json :=
  of_object [("code", of_int code); ("message", of_string message)].

Definition refuse (callback : RefundCallback) (code : Z) (message : string) : prog svc :=
  callback (error_json code message) code.

Definition reportMapperFailure (callback : RefundCallback) (w : option string) : prog svc :=
  refuse callback 1500 ("Database error: " +:+ default "unknown exception" w).

(** The [failDb] callbacks without a transaction. *)
Definition failDb (callback : RefundCallback) (e : db_exception) : prog svc :=
  refuse callback 1500 ("Database error: " +:+ what e).

(** ** Settling the answer of the channel *)

Definition updateRefundWithError (refundNo : string) (errJson : json) (next : prog svc) : prog svc :=
  do _ <- Post (FailRefund refundNo "REFUND_FAIL" (toJsonString errJson)); next.

(** What the lambdas of [updateRefundWithSuccess] capture. *)
Record settlement := Settlement {
  st_no : string;            (* refundNo *)
  st_status : string;        (* refundStatus *)
  st_id : string;            (* refundId *)
  st_result : json;          (* result *)
  st_order : string;
  st_payment : string;
  st_amount : string;
  st_total : Z               (* orderTotalFen *)
}.

(** The [respond] lambda, for [refundStatus]. *)
Definition respond (s : settlement) (callback : RefundCallback) : prog svc :=
  callback
    (of_object [("code", of_int 0); ("message", of_string "Refund created successfully");
       ("data", of_object [("refund_no", of_string (st_no s)); ("order_no", of_string (st_order s));
          ("payment_no", of_string (st_payment s)); ("refund_amount", of_string (st_amount s));
          ("status", of_string (st_status s)); ("channel_refund_no", of_string (st_id s));
          ("wechat_response", st_result s)])]) 0.

Definition writeRefundedOrder (s : settlement) (callback : RefundCallback) : prog svc :=
  do a <- Io (Sql Main (RefundOrder (st_order s) "REFUNDED"));
  match a with
  | Ok _ => respond s callback
  | Exc e => failDb callback e
  | Threw w => reportMapperFailure callback w
  end.

(** [settledRefundFen] of a sum; [None]: it is not an amount. *)
Definition refund_sum_fen (sums : list string) : option Z :=
  match sums with [] => Some 0 | sumText :: _ => parseAmountToFen sumText end.

Definition settleOrder (s : settlement) (callback : RefundCallback) : prog svc :=
  if negb (String.eqb (st_status s) "REFUND_SUCCESS") then respond s callback
  else
    do a <- Io (Sql Main (SumRefunds (st_order s) "REFUND_SUCCESS"));
    match a with
    | Ok sums =>
        match refund_sum_fen sums with
        | None => reportMapperFailure callback (Some "Invalid settled refund sum")
        | Some settledRefundFen =>
            if negb (refundsCoverOrderAmount settledRefundFen (st_total s)) then respond s callback
            else writeRefundedOrder s callback
        end
    | Exc e => failDb callback e
    | Threw w => reportMapperFailure callback w
    end.

Definition updateRefundWithSuccess (s : settlement) (callback : RefundCallback) : prog svc :=
  do a <- Io (Sql Main (AdvanceRefund (st_no s) (st_status s) (st_id s) (toJsonString (st_result s))));
  match a with
  | Ok _ => settleOrder s callback
  | Exc e => failDb callback e
  | Threw w => reportMapperFailure callback w
  end.

(** ** Calling the channel *)

(** The values a refund request carries through the methods. *)
Record refund_job := RefundJob {
  j_request : refund_request;
  j_refundNo : string;
  j_paymentNo : string;
  j_refundFen : Z;
  j_totalFen : Z;
  j_currency : string
}.

Definition j_orderNo (j : refund_job) : string := rq_orderNo (j_request j).
Definition j_amount (j : refund_job) : string := rq_amount (j_request j).
Definition j_reason (j : refund_job) : string := rq_reason (j_request j).

(** [{"code", "message", "data": {..}}] of a refund that has a row; [key] is
    the member that carries the amount. *)
Definition outcome_json (j : refund_job) (code : Z) (message key status : string)
    (more : list (string * json)) : json :=
  of_object [("code", of_int code); ("message", of_string message);
    ("data", of_object ([("refund_no", of_string (j_refundNo j)); ("order_no", of_string (j_orderNo j));
       ("payment_no", of_string (j_paymentNo j)); (key, of_string (j_amount j));
       ("status", of_string status)] ++ more)%list)].

Definition settlement_of (j : refund_job) (status id : string) (result : json) : settlement :=
  Settlement (j_refundNo j) status id result (j_orderNo j) (j_paymentNo j) (j_amount j) (j_totalFen j).

Definition alipayPayload (j : refund_job) : json :=
  of_object ([("out_trade_no", of_string (j_orderNo j)); ("refund_amount", of_string (j_amount j))]
    ++ (if is_empty (j_reason j) then [] else [("refund_reason", of_string (j_reason j))]))%list.

Definition onAlipayAnswer (j : refund_job) (callback : RefundCallback) (result : json) (error : string) :
    prog svc :=
  if negb (is_empty error) then
    let errorMessage := "Alipay error: " +:+ error in
    let errJson := of_object [("error", of_string errorMessage)] in
    updateRefundWithError (j_refundNo j) errJson
      (callback (outcome_json j 1502 errorMessage "refund_amount" "REFUND_FAIL"
                   [("error", of_string errorMessage); ("alipay_response", errJson)]) 1502)
  else
    attempt alipayCode <- get_string result "code";
    if negb (String.eqb alipayCode "10000") then
      attempt msg <- get_string result "msg";
      let errorMessage := "Alipay refund failed: " +:+ msg in
      updateRefundWithError (j_refundNo j) result
        (callback (outcome_json j 1502 errorMessage "refund_amount" "REFUND_FAIL" []) 1502)
    else
      attempt refundId <- get_string result "refund_id";
      updateRefundWithSuccess (settlement_of j "REFUND_SUCCESS" refundId result) callback.

Definition wechatPayload (j : refund_job) : json :=
  let r := j_request j in
  of_object ([("out_trade_no", of_string (j_orderNo j)); ("out_refund_no", of_string (j_refundNo j))]
    ++ (if is_empty (j_reason j) then [] else [("reason", of_string (j_reason j))])
    ++ (if is_empty (rq_notifyUrl r) then [] else [("notify_url", of_string (rq_notifyUrl r))])
    ++ (if is_empty (rq_fundsAccount r) then [] else [("funds_account", of_string (rq_fundsAccount r))])
    ++ [("amount", of_object [("refund", of_int (j_refundFen j)); ("total", of_int (j_totalFen j));
          ("currency", of_string (j_currency j))])])%list.

(** The answer to an outcome that is not a success; REFUND_FAIL is booked only
    when it is [certain]. *)
Definition wechatUnsettled (j : refund_job) (callback : RefundCallback) (certain : bool)
    (errorMessage : string) : prog svc :=
  let errJson := of_object [("error", of_string errorMessage)] in
  let answer :=
    callback (outcome_json j 1502 errorMessage "amount" (if certain then "REFUND_FAIL" else "REFUNDING")
                [("error", of_string errorMessage); ("wechat_response", errJson)]) 1502 in
  if certain then updateRefundWithError (j_refundNo j) errJson answer else answer.

Definition onWechatAnswer (j : refund_job) (callback : RefundCallback) (result : json) (error : string) :
    prog svc :=
  if negb (is_empty error) then
    wechatUnsettled j callback (refundCertainlyDidNotHappen error) ("WeChat error: " +:+ error)
  else
    attempt wechatStatus <- get_string result "status";
    attempt refundId <- get_string result "refund_id";
    let mappedStatus := mapRefundStatus wechatStatus in
    if is_empty mappedStatus || String.eqb mappedStatus "REFUND_FAIL" then
      attempt code <- get_string result "code";
      let definitive := negb (is_empty mappedStatus) || negb (is_empty code) in
      let errorMessage :=
        if is_empty mappedStatus then "WeChat refund response has no usable status"
        else "WeChat reported refund status " +:+ wechatStatus in
      if negb (is_empty code) then
        attempt message <- get_string result "message";
        wechatUnsettled j callback definitive (errorMessage +:+ ": " +:+ code +:+ " " +:+ message)
      else wechatUnsettled j callback definitive errorMessage
    else updateRefundWithSuccess (settlement_of j mappedStatus refundId result) callback.

Definition invokeRefundChannel (j : refund_job) (channel : string) (callback : RefundCallback) : prog svc :=
  if String.eqb channel "alipay" then
    if negb (findChannel channel) then
      callback (outcome_json j 1501 "Alipay client not ready" "refund_amount" "REFUND_FAIL" []) 1501
    else
      do a <- Call channel (ChRefund (alipayPayload j));
      match a with
      | Answered result error => onAlipayAnswer j callback result error
      | ChannelThrew => Escape
      end
  else if String.eqb channel "wechat" then
    if negb (findChannel channel) then
      let errMsg := "wechat client not ready" in
      updateRefundWithError (j_refundNo j) (of_object [("error", of_string errMsg)])
        (callback (outcome_json j 1501 "WeChat refund client not configured" "amount" "REFUND_FAIL"
                     [("error", of_string errMsg)]) 1501)
    else
      do a <- Call channel (ChRefund (wechatPayload j));
      match a with
      | Answered result error => onWechatAnswer j callback result error
      | ChannelThrew => Escape
      end
  else
    callback (outcome_json j 1500 ("Unknown payment channel: " +:+ channel) "refund_amount" "REFUND_FAIL" [])
      1500.

(** ** The transaction that books the refund *)

(** Roll back, then answer. *)
Definition rolledBack (callback : RefundCallback) (code : Z) (message : string) : prog svc :=
  do _ <- Io Rollback; refuse callback code message.

(** The [failDb] of the transaction. *)
Definition failTxn (callback : RefundCallback) (e : db_exception) : prog svc :=
  rolledBack callback 1500 ("Database error: " +:+ what e).

(** The [catch] clauses of the transaction. *)
Definition mapperFailedTxn (callback : RefundCallback) (w : option string) : prog svc :=
  do _ <- Io Rollback; reportMapperFailure callback w.

Definition onRefundCommitted (j : refund_job) (channel : string) (callback : RefundCallback)
    (a : answer unit) : prog svc :=
  match a with
  | Ok _ => invokeRefundChannel j channel callback
  | Exc e => refuse callback 1500 ("Failed to commit refund: " +:+ what e)
  | Threw _ => Escape
  end.

(** The result of looking the order up inside the transaction. *)
Definition onChannelLookup (j : refund_job) (callback : RefundCallback) (a : answer order_row) : prog svc :=
  match a with
  | Ok order =>
      do b <- Io (Sql Txn Commit); onRefundCommitted j (o_channel order) callback b
  | Exc e => rolledBack callback 1404 ("Order not found: " +:+ what e)
  | Threw w => mapperFailedTxn callback w
  end.

Definition onRefundInserted (j : refund_job) (callback : RefundCallback) (a : answer unit) : prog svc :=
  match a with
  | Ok _ => do b <- Io (Sql Txn (FindOrder (j_orderNo j))); onChannelLookup j callback b
  | Exc e => failTxn callback e
  | Threw w => mapperFailedTxn callback w
  end.

(** The cumulative check and the insert. *)
Definition onLiveSum (j : refund_job) (callback : RefundCallback) (a : answer (list string)) : prog svc :=
  match a with
  | Ok sums =>
      match refund_sum_fen sums with
      | None => rolledBack callback 1500 "Invalid refund sum"
      | Some refundedFen =>
          if j_totalFen j <? wrap64 (refundedFen + j_refundFen j)
          then rolledBack callback 1409 "refund amount exceeds paid"
          else
            do b <- Io (Sql Txn (InsertRefund (j_refundNo j) (j_orderNo j) (j_paymentNo j)
                                   "REFUND_INIT" (j_amount j)));
            onRefundInserted j callback b
      end
  | Exc e => failTxn callback e
  | Threw _ => Escape
  end.

Definition onPaymentLocked (j : refund_job) (callback : RefundCallback) (a : answer (list payment_row)) :
    prog svc :=
  match a with
  | Ok [] => rolledBack callback 1404 "payment not found for order"
  | Ok _ => do b <- Io (Sql Txn (SumLiveRefunds (j_orderNo j))); onLiveSum j callback b
  | Exc e => failTxn callback e
  | Threw w => mapperFailedTxn callback w
  end.

Definition proceedWithInsert (j : refund_job) (callback : RefundCallback) : prog svc :=
  do created <- Io BeginOrNull;
  if negb created then refuse callback 1500 "Transaction unavailable"
  else
    do a <- Io (Sql Txn (LockPayment (j_orderNo j) (j_paymentNo j)));
    onPaymentLocked j callback a.

(** ** The checks before the transaction *)

Definition proceedWithInProgressCheck (j : refund_job) (callback : RefundCallback) : prog svc :=
  do a <- Io (Sql Main (CountOpenRefunds (j_orderNo j) (j_paymentNo j) (j_amount j)));
  match a with
  | Ok count =>
      if 0 <? count then refuse callback 1409 "refund already in progress"
      else proceedWithInsert j callback
  | Exc e => failDb callback e
  | Threw w => reportMapperFailure callback w
  end.

(** A refund of the same amount already succeeded. *)
Definition alreadySuccessful (j : refund_job) (row : refund_row) (callback : RefundCallback) : prog svc :=
  callback
    (of_object [("code", of_int 0); ("message", of_string "Refund already successful");
       ("data", of_object ([("refund_no", of_string (r_no row)); ("order_no", of_string (r_order row));
          ("payment_no", of_string (j_paymentNo j)); ("refund_amount", of_string (j_amount j));
          ("status", of_string (r_status row))]
          ++ match r_channel_no row with
             | Some no => [("channel_refund_no", of_string no)]
             | None => []
             end)%list)]) 0.

Definition proceedWithAmountCheck (j : refund_job) (callback : RefundCallback) : prog svc :=
  do a <- Io (Sql Main (FindSettledRefund (j_orderNo j) (j_paymentNo j) (j_amount j)));
  match a with
  | Ok (row :: _) => alreadySuccessful j row callback
  | Ok [] => proceedWithInProgressCheck j callback
  | Exc e => failDb callback e
  | Threw w => reportMapperFailure callback w
  end.

(** The result callback of the order lookup. *)
Definition onOrder (request : refund_request) (refundNo : string) (callback : RefundCallback)
    (order : order_row) : prog svc :=
  if negb (String.eqb (o_status order) "PAID") then refuse callback 1409 "order not paid"
  else
    match parseAmountToFen (rq_amount request), parseAmountToFen (o_amount order) with
    | Some refundFen, Some totalFen =>
        if (refundFen <=? 0) || (totalFen <? refundFen) then refuse callback 1400 "Invalid refund amount"
        else
          proceedWithAmountCheck
            (RefundJob request refundNo (rq_paymentNo request) refundFen totalFen (o_currency order))
            callback
    | _, _ => refuse callback 1400 "Invalid amount format"
    end.

Definition proceedOrderFlow (request : refund_request) (refundNo : string) (callback : RefundCallback) :
    prog svc :=
  do a <- Io (Sql Main (FindOrder (rq_orderNo request)));
  match a with
  | Ok order => onOrder request refundNo callback order
  | Exc e => refuse callback 1404 ("Order not found: " +:+ what e)
  | Threw w => reportMapperFailure callback w
  end.

(** The [attemptsFinder] lambda. *)
Definition findAttempt (orderNo : string) (statuses : list string) (callback : RefundCallback)
    (thenEmpty : prog svc) (proceedWith : string -> prog svc) : prog svc :=
  do a <- Io (Sql Main (NewestAttempt orderNo statuses));
  match a with
  | Ok [] => thenEmpty
  | Ok (row :: _) => proceedWith (p_no row)
  | Exc e => failDb callback e
  | Threw w => reportMapperFailure callback w
  end.

(** The first part of [proceedRefund]: [Some message] refuses the request. *)
Definition refundProblem (request : refund_request) : option string :=
  if 80 <? slen (rq_reason request) then Some "reason too long (max 80 characters)"
  else if is_empty (rq_orderNo request) || (64 <? slen (rq_orderNo request)) then Some "invalid order_no format"
  else if is_empty (rq_amount request) then Some "amount cannot be empty"
  else if negb (is_empty (rq_fundsAccount request))
          && negb (String.eqb (rq_fundsAccount request) "AVAILABLE")
          && negb (String.eqb (rq_fundsAccount request) "UNSETTLED")
  then Some "invalid funds_account (must be AVAILABLE or UNSETTLED)"
  else if is_empty (rq_notifyUrl request) then None
  else validateNotifyUrl (rq_notifyUrl request).

(** [drogon::utils::getUuid()] unless the request names the refund. *)
Definition refundNumber (request : refund_request) (k : string -> prog svc) : prog svc :=
  if is_empty (rq_refundNo request) then do uuid <- Io Uuid; k uuid else k (rq_refundNo request).

(** The request names its payment. *)
Definition proceedWithPayment (request : refund_request) (refundNo : string) (callback : RefundCallback) :
    prog svc :=
  do a <- Io (Sql Main (FindPayment (rq_paymentNo request) (rq_orderNo request)));
  match a with
  | Ok payment =>
      if negb (String.eqb (p_status payment) "SUCCESS") then refuse callback 1409 "payment not successful"
      else proceedOrderFlow request refundNo callback
  | Exc e => refuse callback 1404 ("Payment not found: " +:+ what e)
  | Threw w => reportMapperFailure callback w
  end.

(** [depth] bounds the calls of [proceedRefund] by itself: it calls itself with
    the payment number it found, and again only if that is empty. *)
Fixpoint proceedRefund (depth : nat) (request : refund_request) (callback : RefundCallback) : prog svc :=
  match refundProblem request with
  | Some message => refuse callback 1400 message
  | None =>
      refundNumber request (fun refundNo =>
      if is_empty (rq_paymentNo request) then
        match depth with
        | O => Done
        | S depth' =>
            let answerWith chosen := proceedRefund depth' (with_paymentNo chosen request) callback in
            let reportNoAttempt := refuse callback 1404 "Payment not found" in
            let askOpenAttempts :=
              findAttempt (rq_orderNo request) ["INIT"; "PROCESSING"] callback reportNoAttempt answerWith in
            findAttempt (rq_orderNo request) ["SUCCESS"; "REFUNDED"] callback askOpenAttempts answerWith
        end
      else proceedWithPayment request refundNo callback)
  end.

(** ** The request, under its idempotency key *)

Definition requestHash (request : refund_request) : string :=
  sha256 (toJsonString (of_object [("order_no", of_string (rq_orderNo request));
            ("amount", of_string (rq_amount request)); ("reason", of_string (rq_reason request))])).

(** The [wrappedCallback]: store the answer, then give it. *)
Definition wrappedCallback (idempotencyKey requestHash : string) (callback : RefundCallback) : RefundCallback :=
  fun response error =>
  attempt hasData <- isMember response "data";
  if negb (is_empty idempotencyKey) && hasData then
    updateResult redis ttlSeconds idempotencyKey requestHash response false (fun success =>
    if success then callback response error
    else clearReservation idempotencyKey requestHash (fun _ => callback response error))
  else callback response error.

(** The [proceedCb]: release the reservation of a request that failed hard. *)
Definition proceedCb (idempotencyKey requestHash : string) (wrapped : RefundCallback) : RefundCallback :=
  fun response error =>
  attempt hasData <- isMember response "data";
  if negb (is_empty idempotencyKey) && negb (error =? 0) && negb hasData
  then clearReservation idempotencyKey requestHash (fun _ => wrapped response error)
  else wrapped response error.

(** Payment numbers are not empty: one call of [proceedRefund] by itself. *)
Definition depth : nat := 1.

Definition createRefund (request : refund_request) (idempotencyKey : string) (callback : RefundCallback) :
    prog svc :=
  let hash := requestHash request in
  let wrapped := wrappedCallback idempotencyKey hash callback in
  if is_empty idempotencyKey then proceedRefund depth request wrapped
  else
    checkAndSet ttlSeconds idempotencyKey hash (fun canProceed cachedResult =>
    if negb canProceed
    then refuse wrapped 1409 "Idempotency conflict: different parameters for same key"
    else if negb (isNull cachedResult) then wrapped cachedResult 0
    else proceedRefund depth request (proceedCb idempotencyKey hash wrapped)).

(** The caller of the service takes the answer. *)
Definition answerCaller : RefundCallback := fun response error => do _ <- Answer response error; Done.

(** ** Queries *)

(** The actions of [syncRefundStatusFromWechat]; [callback] runs at most once. *)
Definition once (callback : string -> act svc) (status : string) : act svc :=
  Perform Claim (fun first : bool => if first then callback status else Return).

(** Roll back, then report nothing. *)
Definition rollBackSync (callback : string -> act svc) : act svc :=
  Perform (Io Rollback) (fun _ => once callback "").

Definition insertLedgerRow (userId : Z) (orderNo paymentNo entryType amount : string) : act svc :=
  Perform (Io Now) (fun createdAt =>
  issue (InsertLedger (LedgerRow userId orderNo paymentNo entryType amount createdAt))
    (fun _ => Return) Return Return).

(** [insertLedgerEntry] on the transaction, followed by [next]. *)
Definition insertLedgerEntry (userId : Z) (orderNo paymentNo entryType amount : string) (next : act svc) :
    act svc :=
  if is_empty orderNo || is_empty entryType
  then Perform (Io Now) (fun createdAt =>
       issue (InsertLedger (LedgerRow userId orderNo paymentNo entryType amount createdAt))
         (fun _ => Return) next next)
  else
    issue (FindLedger orderNo entryType paymentNo)
      (fun a => match a with
                | inr [] => insertLedgerRow userId orderNo paymentNo entryType amount
                | inr _ => Return
                | inl _ => Return
                end) next next.

Definition onSyncOrderWritten (callback : string -> act svc) (refundStatus : string)
    (a : db_exception + Z) : act svc :=
  match a with
  | inr _ => once callback refundStatus
  | inl _ => rollBackSync callback
  end.

(** The result of the settled-refund sum; the update is outside any [try]. *)
Definition onSyncSum (callback : string -> act svc) (refundStatus : string) (order : order_row)
    (orderNo : string) (a : db_exception + list string) : act svc :=
  match a with
  | inl _ => rollBackSync callback
  | inr sums =>
      let settledRefundFen := default 0 (refund_sum_fen sums) in
      let orderTotalFen := default 0 (parseAmountToFen (o_amount order)) in
      if negb (refundsCoverOrderAmount settledRefundFen orderTotalFen) then once callback refundStatus
      else issue (RefundOrder orderNo "REFUNDED") (onSyncOrderWritten callback refundStatus) Throw Return
  end.

(** The result of the order lookup. *)
Definition onSyncOrder (callback : string -> act svc) (refundStatus : string) (refund : refund_row)
    (a : db_exception + order_row) : act svc :=
  match a with
  | inl _ => rollBackSync callback
  | inr order =>
      insertLedgerEntry (o_user order) (r_order refund) (r_payment refund) "REFUND" (r_amount refund)
        (if negb (String.eqb (o_status order) "PAID") then once callback refundStatus
         else issue (SumRefunds (r_order refund) "REFUND_SUCCESS")
                (onSyncSum callback refundStatus order (r_order refund)) (rollBackSync callback) Return)
  end.

Definition onSyncPayload (callback : string -> act svc) (refundStatus : string) (a : db_exception + Z) :
    act svc :=
  match a with
  | inr _ =>
      if negb (String.eqb refundStatus "REFUND_SUCCESS") then once callback refundStatus else Return
  | inl _ => rollBackSync callback
  end.

(** The result of the refund update: two statements are submitted. *)
Definition onSyncUpdated (callback : string -> act svc) (refundNo refundStatus : string)
    (refund : refund_row) (result : json) (a : db_exception + Z) : act svc :=
  match a with
  | inl _ => rollBackSync callback
  | inr _ =>
      issue (UpdateRefundPayload refundNo (toJsonString result)) (onSyncPayload callback refundStatus)
        (rollBackSync callback)
        (if String.eqb refundStatus "REFUND_SUCCESS"
         then issue (FindOrder (r_order refund)) (onSyncOrder callback refundStatus refund)
                (rollBackSync callback) Return
         else Return)
  end.

(** The callback of [newTransactionAsync]. *)
Definition syncInTransaction (callback : string -> act svc) (refundNo refundStatus refundId : string)
    (refund : refund_row) (result : json) : act svc :=
  issue (UpdateRefund (r_id refund) refundStatus refundId)
    (onSyncUpdated callback refundNo refundStatus refund result) (rollBackSync callback) Return.

(** At most seven statements run on the transaction. *)
Definition syncFuel : nat := 7.

(** A program with nothing queued. *)
Definition act_run (a : act svc) : prog svc := drain 0 a [].

Definition syncRefundStatusFromWechat (dbClient : bool) (refundNo : string) (result : json)
    (callback : string -> act svc) : prog svc :=
  attempt wechatStatus <- get_string result "status";
  if is_empty wechatStatus then act_run (once callback "")
  else
    let refundStatus := mapRefundStatus wechatStatus in
    attempt refundId <- get_string result "refund_id";
    if is_empty refundStatus then act_run (once callback "")
    else if negb dbClient then act_run (once callback refundStatus)
    else
      do a <- Io (Sql Main (FindRefund refundNo));
      match a with
      | Ok refund =>
          if String.eqb (r_status refund) "REFUND_SUCCESS" then act_run (once callback refundStatus)
          else
            do _ <- Io Begin;
            drain syncFuel (syncInTransaction callback refundNo refundStatus refundId refund result) []
      | Exc _ => act_run (once callback "")
      | Threw _ => act_run (once callback "")
      end.

Definition refund_data (row : refund_row) (more : list (string * json)) (status : string) : json :=
  of_object ([("refund_no", of_string (r_no row)); ("order_no", of_string (r_order row));
    ("payment_no", of_string (r_payment row)); ("status", of_string status);
    ("refund_amount", of_string (r_amount row));
    ("channel_refund_no", of_string (default "" (r_channel_no row)));
    ("updated_at", of_string (toRfc3339Utc (r_updated row)))] ++ more)%list.

Definition query_json (data : json) : json :=
  of_object [("code", of_int 0); ("message", of_string "Query refund successful"); ("data", data)].

Definition queryRefund (refundNo : string) : prog svc :=
  do a <- Io (Sql Main (FindRefund refundNo));
  match a with
  | Ok row =>
      let response := query_json (refund_data row [] (r_status row)) in
      if negb (findChannel "wechat") then do _ <- Answer response 0; Done
      else
        do b <- Call "wechat" (ChQueryRefund refundNo);
        match b with
        | Answered result error =>
            if negb (is_empty error) then do _ <- Answer response 0; Done
            else
              syncRefundStatusFromWechat true refundNo result (fun status =>
              Perform (Answer (query_json (refund_data row [("wechat_response", result)]
                                 (if is_empty status then r_status row else status))) 0)
                (fun _ => Return))
        | ChannelThrew => Escape
        end
  | Exc e =>
      do _ <- Answer (error_json 1404 ("Refund not found: " +:+ what e)) 1404; Done
  | Threw w =>
      do _ <- Answer (error_json 1500 ("Database error: " +:+ default "unknown exception" w)) 1500; Done
  end.
End Service.
End Refunds.
