(* ===== verification/PaymentService.v ===== *)
(** * Payments: the channel's answers and the tables
    (src/libs/drogon-pay/src/services/PaymentService.cc): classification of answers,
    closing a refused attempt, the status syncs and queries.

    One definition per method or lambda of the source.  The syncs queue statements
    on one transaction ([Queued.v]); the [shared_ptr] their callbacks share is the
    cell of [Service.celled]. *)
From S2P Require Import Prelude Cxx Json Effects Store Amount RefDb Service Queued RefundService.

(** ** Helpers *)

(** [normalizeQrCurrency]; [None]: not valid. *)
Fixpoint upper_letters (s : string) : option string :=
  match s with
  | EmptyString => Some EmptyString
  | String c s' =>
      if (code c <? 65) || (90 <? code c) then
        if (code c <? 97) || (122 <? code c) then None
        else t ← upper_letters s'; Some (String (ascii_of_N (Z.to_N (code c - 97 + 65))) t)
      else t ← upper_letters s'; Some (String c t)
  end.

Definition normalizeQrCurrency (currency : string) : option string :=
  if negb (slen currency =? 3) then None else upper_letters currency.

Definition kNoPayableCode : string := "WeChat response carries neither code_url nor prepay_id".

(** Whether a failure text proves that the channel created nothing. *)
Definition attemptCertainlyNotCreated (failure : string) : bool :=
  if String.prefix "Alipay error: " failure || String.prefix "WeChat error: " failure then true
  else if String.prefix "HTTP 4" failure && negb (contains "no error envelope" failure) then true
  else if String.eqb failure kNoPayableCode then false
  else
    negb (String.prefix "HTTP " failure || String.prefix "http request" failure
          || String.eqb failure "invalid json response").

Module Payments.
Section Service.
Context `{J : JsonLib}.
(** [channels_]: the names that have a channel. *)
Context (channels : list string).

Definition findChannel (name : string) : bool := existsb (String.eqb name) channels.

Definition dbErrorResponse (what : string) : json :=
  of_object [("code", of_int 1003); ("message", of_string ("Database error: " +:+ what))].

(** [std::errc] on Linux. *)
Definition io_error : Z := 5.
Definition invalid_argument : Z := 22.

Definition reportMapperFailure (w : option string) : prog svc :=
  do _ <- Answer (dbErrorResponse (default "unknown exception" w)) io_error; Done.

(** A string that is not empty. *)
Definition some_text (v : json) : bool :=
  isString v && match asString v with Some s => negb (is_empty s) | None => false end.

(** The error text of a 2xx answer, empty when it created the trade; [None]: an
    accessor throws. *)
Definition channelResultError (channel : string) (result : json) : option string :=
  if String.eqb channel "alipay" then
    code ← get_string result "code";
    if String.eqb code "10000" then Some ""
    else
      subMsg ← get_string result "sub_msg";
      detail ← (if is_empty subMsg then get_string result "msg" else Some subMsg);
      Some (if is_empty detail then "Alipay error: code " +:+ code else "Alipay error: " +:+ detail)
  else if String.eqb channel "wechat" then
    codeUrl ← get result "code_url" (of_string "");
    prepayId ← get result "prepay_id" (of_string "");
    if some_text codeUrl || some_text prepayId then Some ""
    else
      code ← get_string result "code";
      if is_empty code then Some kNoPayableCode
      else
        message ← get_string result "message";
        Some ("WeChat error: " +:+ code +:+ " " +:+ message)
  else Some "".

(** Close a refused attempt and its order, then go on whatever happened. *)
Definition bookRefusedAttempt (db : bool) (paymentNo orderNo errPayload : string) (done : prog svc) : prog svc :=
  if negb db then done
  else
    do a <- Io (Sql Main (FindAttempt paymentNo));
    match a with
    | Ok payment =>
        do b <- Io (Sql Main (UpdatePayment (p_no payment) "FAIL" errPayload));
        match b with
        | Ok _ =>
            do c <- Io (Sql Main (FindOrder orderNo));
            match c with
            | Ok order =>
                do d <- Io (Sql Main (UpdateOrderStatus (o_id order) "FAILED"));
                match d with Ok _ => done | Exc _ => done | Threw _ => done end
            | Exc _ => done
            | Threw _ => done
            end
        | Exc _ => done
        | Threw _ => done
        end
    | Exc _ => done
    | Threw _ => done
    end.

(** ** Syncing an order from a channel's answer

    Callbacks of the transaction; [callback] takes the status, and runs at most
    once. *)
Abbreviation csvc := (celled svc).

Definition onceCall (callback : string -> act csvc) (status : string) : act csvc :=
  Perform (Lift Claim) (fun first : bool => if first then callback status else Return).

(** Roll back, then report nothing. *)
Definition rollbackDone (callback : string -> act csvc) : act csvc :=
  Perform (host Rollback) (fun _ => onceCall callback "").

Definition insertRow (userId : Z) (orderNo paymentNo entryType amount : string) : act csvc :=
  Perform (host Now) (fun createdAt =>
  issue (InsertLedger (LedgerRow userId orderNo paymentNo entryType amount createdAt))
    (fun _ => Return) Return Return).

(** [insertLedgerEntry] on the transaction, followed by [next]. *)
Definition insertLedgerEntry (userId : Z) (orderNo paymentNo entryType amount : string) (next : act csvc) :
    act csvc :=
  if is_empty orderNo || is_empty entryType
  then Perform (host Now) (fun createdAt =>
       issue (InsertLedger (LedgerRow userId orderNo paymentNo entryType amount createdAt))
         (fun _ => Return) next next)
  else
    issue (FindLedger orderNo entryType paymentNo)
      (fun a => match a with
                | inr [] => insertRow userId orderNo paymentNo entryType amount
                | inr _ => Return
                | inl _ => Return
                end) next next.

(** What the lambdas of a sync capture. *)
Record answered := AnsweredTrade {
  y_orderNo : string;
  y_orderStatus : string;
  y_paymentStatus : string;
  y_transactionId : string;
  y_payload : string;
  y_fen : Z               (* the amount the answer names *)
}.

(** The order was written: the ledger entry of [booked] states, then the answer. *)
Definition onOrderUpdated (callback : string -> act csvc) (booked : string -> bool) (status paymentNo : string)
    (order : order_row) (a : db_exception + Z) : act csvc :=
  match a with
  | inr _ =>
      if booked status
      then insertLedgerEntry (o_user order) (o_no order) paymentNo "PAYMENT" (o_amount order)
             (onceCall callback status)
      else onceCall callback status
  | inl _ => rollbackDone callback
  end.

Definition writeOrder (callback : string -> act csvc) (booked : string -> bool) (status paymentNo : string)
    (order : order_row) : act csvc :=
  issue (UpdateOrderStatus (o_id order) status) (onOrderUpdated callback booked status paymentNo order)
    (rollbackDone callback) Return.

(** *** WeChat *)

Definition wechat_booked (status : string) : bool := String.eqb status "PAID" || String.eqb status "REFUNDED".

Definition onWechatOrder (callback : string -> act csvc) (y : answered) (paymentNo : string)
    (a : db_exception + order_row) : act csvc :=
  match a with
  | inl _ => rollbackDone callback
  | inr order =>
      Perform Load (fun settledRefundFen =>
      let finalOrderStatus :=
        orderStatusAfterRefundCoverage (y_orderStatus y) (o_amount order) settledRefundFen in
      if String.eqb (o_status order) "PAID" then onceCall callback finalOrderStatus
      else writeOrder callback wechat_booked finalOrderStatus paymentNo order)
  end.

Definition findWechatOrder (callback : string -> act csvc) (y : answered) (paymentNo : string) : act csvc :=
  issue (FindOrder (y_orderNo y)) (onWechatOrder callback y paymentNo) (rollbackDone callback) Return.

(** The result of the status CAS, for either channel. *)
Definition onCas (callback : string -> act csvc) (orderStatus : string) (findOrder : act csvc)
    (a : db_exception + list unit) : act csvc :=
  match a with
  | inl _ => rollbackDone callback
  | inr [] => Perform (host Rollback) (fun _ => onceCall callback orderStatus)
  | inr _ => findOrder
  end.

(** The payment is SUCCESS, final otherwise, or still open. *)
Definition settlePayment (callback : string -> act csvc) (y : answered) (payment : payment_row)
    (findOrder : act csvc) : act csvc :=
  if String.eqb (p_status payment) "SUCCESS" then findOrder
  else if String.eqb (p_status payment) "REFUNDED"
  then Perform (host Rollback) (fun _ => onceCall callback "REFUNDED")
  else
    issue (SettlePayment (y_paymentStatus y) (y_transactionId y) (y_payload y) (p_no payment))
      (onCas callback (y_orderStatus y) findOrder) Throw Return.

(** The callback of the settled-refund sum. *)
Definition onSettledSum (a : db_exception + list string) : act csvc :=
  match a with
  | inr sums => Perform (Save (default 0 (Refunds.refund_sum_fen sums))) (fun _ => Return)
  | inl _ => Return
  end.

(** The callback of [newTransactionAsync]. *)
Definition wechatInTransaction (callback : string -> act csvc) (y : answered) (payment : payment_row) : act csvc :=
  let settle := settlePayment callback y payment (findWechatOrder callback y (p_no payment)) in
  if String.eqb (y_orderStatus y) "REFUNDED"
  then issue (SumRefunds (y_orderNo y) "REFUND_SUCCESS") onSettledSum Throw settle
  else settle.

(** At most six statements run on the transaction: the sum, the CAS, the order
    lookup and update, the ledger lookup and insert. *)
Definition fuel : nat := 6.

(** A callback outside of the transaction; the cell starts at 0. *)
Definition idle (a : act csvc) : prog svc := with_cell 0 (drain 0 a []).

(** The attempts that can still carry money. *)
Definition carrying : list string := ["INIT"; "PROCESSING"; "SUCCESS"; "REFUNDED"].

(** The rest of both syncs: the newest attempt, the amount, the transaction. *)
Definition syncPayment (callback : string -> act csvc) (y : answered) (settles : bool)
    (inTransaction : payment_row -> act csvc) : prog svc :=
  do a <- Io (Sql Main (NewestAttempt (y_orderNo y) carrying));
  match a with
  | Ok [] => idle (onceCall callback (y_orderStatus y))
  | Ok (payment :: _) =>
      if settles && negb (is_empty (reconcileAmountProblem (y_fen y) (p_amount payment)))
      then idle (onceCall callback "")
      else do _ <- Io Begin; with_cell 0 (drain fuel (inTransaction payment) [])
  | Exc _ => idle (onceCall callback "")
  | Threw _ => idle (onceCall callback "")
  end.

Definition syncOrderStatusFromWechat (dbClient : bool) (orderNo : string) (result : json)
    (callback : string -> act csvc) : prog svc :=
  attempt tradeState <- get_string result "trade_state";
  if is_empty tradeState then idle (onceCall callback "")
  else
    let '(orderStatus, paymentStatus) := mapTradeState tradeState in
    attempt transactionId <- get_string result "transaction_id";
    attempt amount <- index result "amount";
    attempt answerTotalFen <- get_int64 amount "total";
    if negb dbClient then idle (onceCall callback orderStatus)
    else
      let y := AnsweredTrade orderNo orderStatus paymentStatus transactionId (toJsonString result) answerTotalFen in
      syncPayment callback y (wechat_booked orderStatus) (wechatInTransaction callback y).

(** *** Alipay *)

(** Order and payment status of a [trade_status]; [None]: unknown. *)
Definition mapAlipayStatus (tradeStatus : string) : option (string * string) :=
  if String.eqb tradeStatus "TRADE_SUCCESS" || String.eqb tradeStatus "TRADE_FINISHED"
  then Some ("PAID", "SUCCESS")
  else if String.eqb tradeStatus "WAIT_BUYER_PAY" then Some ("PAYING", "PROCESSING")
  else if String.eqb tradeStatus "TRADE_CLOSED" then Some ("FAILED", "FAIL")
  else None.

Definition alipay_booked (status : string) : bool := String.eqb status "PAID".

Definition onAlipayOrder (callback : string -> act csvc) (y : answered) (paymentNo : string)
    (a : db_exception + order_row) : act csvc :=
  match a with
  | inl _ => rollbackDone callback
  | inr order =>
      if String.eqb (o_status order) "PAID" then onceCall callback (y_orderStatus y)
      else if alipay_booked (y_orderStatus y) && negb (amountEqualsFen (o_amount order) (y_fen y))
      then rollbackDone callback
      else writeOrder callback alipay_booked (y_orderStatus y) paymentNo order
  end.

Definition findAlipayOrder (callback : string -> act csvc) (y : answered) (paymentNo : string) : act csvc :=
  issue (FindOrder (y_orderNo y)) (onAlipayOrder callback y paymentNo) (rollbackDone callback) Return.

Definition alipayInTransaction (callback : string -> act csvc) (y : answered) (payment : payment_row) : act csvc :=
  settlePayment callback y payment (findAlipayOrder callback y (p_no payment)).

(** [notifiedFen]: the amount of an answer that says PAID, else -1. *)
Definition notified (orderStatus : string) (result : json) : option Z :=
  if alipay_booked orderStatus
  then notifiedAmount ← get_string result "total_amount"; Some (default (-1) (parseAmountToFen notifiedAmount))
  else Some (-1).

Definition syncOrderStatusFromAlipay (dbClient : bool) (orderNo : string) (result : json)
    (callback : string -> act csvc) : prog svc :=
  attempt responseCode <- get_string result "code";
  if negb (String.eqb responseCode "10000") then idle (onceCall callback "")
  else
    attempt tradeStatus <- get_string result "trade_status";
    if is_empty tradeStatus then idle (onceCall callback "")
    else
      match mapAlipayStatus tradeStatus with
      | None => idle (onceCall callback "")
      | Some (orderStatus, paymentStatus) =>
          attempt transactionId <- get_string result "trade_no";
          attempt notifiedFen <- notified orderStatus result;
          if negb dbClient then idle (onceCall callback orderStatus)
          else
            let y := AnsweredTrade orderNo orderStatus paymentStatus transactionId (toJsonString result) notifiedFen in
            syncPayment callback y (alipay_booked orderStatus) (alipayInTransaction callback y)
      end.

(** ** Queries *)

(** The [data] of an answer, with more members. *)
Definition order_data (order : order_row) (status : string) (more : list (string * json)) : json :=
  of_object ([("order_no", of_string (o_no order)); ("amount", of_string (o_amount order));
    ("currency", of_string (o_currency order)); ("status", of_string status);
    ("channel", of_string (o_channel order)); ("title", of_string (o_title order));
    ("user_id", of_int (o_user order))] ++ more)%list.

Definition found (code : Z) (message : string) (data : json) : json :=
  of_object [("code", of_int code); ("message", of_string message); ("data", data)].

(** The answer of [channel] to [queryPayment]: [key] names the member that takes its
    transaction number from [member]. *)
Definition answerQuery (order : order_row) (channel member key : string) (result : json) (status : string) :
    act csvc :=
  match get_string result member with
  | None => Throw
  | Some number =>
      Perform (Lift (Answer (found 0 "Order found"
        (order_data order (if is_empty status then o_status order else status)
           ((if is_empty number then [] else [(key, of_string number)])
            ++ [(channel +:+ "_response", result)])%list)) 0)) (fun _ => Return)
  end.

Definition onOrderFound (orderNo : string) (order : order_row) : prog svc :=
  let channel := o_channel order in
  if (String.eqb channel "wechat" || String.eqb channel "alipay") && findChannel channel then
    do a <- Call channel (ChQueryPayment orderNo);
    match a with
    | Answered result error =>
        if negb (is_empty error) then
          do _ <- Answer (found 1 "Order found (with query error)"
                     (order_data order (o_status order) [(channel +:+ "_query_error", of_string error)])) 0;
          Done
        else if String.eqb channel "wechat" then
          syncOrderStatusFromWechat true orderNo result
            (answerQuery order channel "refund_id" "channel_refund_no" result)
        else
          syncOrderStatusFromAlipay true orderNo result
            (answerQuery order channel "trade_no" "trade_no" result)
    | ChannelThrew => Escape
    end
  else do _ <- Answer (found 0 "Order found" (order_data order (o_status order) [])) 0; Done.

Definition queryOrder (dbClient : bool) (orderNo : string) : prog svc :=
  let refuse (code : Z) (message : string) (error : Z) :=
    do _ <- Answer (of_object [("code", of_int code); ("message", of_string message)]) error; Done in
  if negb dbClient then refuse 1003 "Database client not available" io_error
  else if is_empty orderNo then refuse 1001 "Missing order_no parameter" invalid_argument
  else
    do a <- Io (Sql Main (FindOrder orderNo));
    match a with
    | Ok order => onOrderFound orderNo order
    | Exc e => refuse 1004 ("Order not found: " +:+ what e) 1004
    | Threw w => reportMapperFailure w
    end.
End Service.
End Payments.
