(* ===== verification/PaymentCreate.v ===== *)
(** * Creating a payment (createPayment and proceedCreatePayment of
    src/libs/drogon-pay/src/services/PaymentService.cc).

    One definition per lambda of the source, each taking the captured values it
    uses.  Every path below calls [callback] at most once
    ([CreateGuard.create_answered]), so the [OnceCallback]s around it are not
    repeated here. *)
From S2P Require Import Prelude Cxx Json Effects Store Amount NotifyUrl Rfc3339 ChannelFields RefDb Idempotency Service RefundService PaymentService.
Import PaymentService.Payments.

(** ** The number of a payment *)

(** [std::setfill('0') << std::setw(width)] *)
Fixpoint zeros (n : nat) : string := match n with O => "" | S n' => String "0" (zeros n') end.
Definition zero_filled (width : nat) (z : Z) : string :=
  zeros (width - String.length (to_string z)) +:+ to_string z.

(** [localtime_r], as the offset in seconds of local time at an instant, and
    [std::put_time "%Y%m%d%H%M%S"]. *)
Definition local_stamp (utc_offset : Z -> Z) (now : Z) : string :=
  let local := Z.quot now 1000000 + utc_offset now in
  let '(y, m, d) := gmtime_date (local / 86400) in
  let t := local mod 86400 in
  to_string y +:+ d2 m +:+ d2 d +:+ d2 (t / 3600) +:+ d2 (t / 60 mod 60) +:+ d2 (t mod 60).

Definition paymentNumber (utc_offset : Z -> Z) (now drawn : Z) : string :=
  "PAY" +:+ local_stamp utc_offset now +:+ zero_filled 8 drawn.

Definition generatePaymentNoValue `{J : JsonLib} (utc_offset : Z -> Z) (k : string -> prog svc) : prog svc :=
  do now <- Io Now; do drawn <- Draw 99999999; k (paymentNumber utc_offset now drawn).

(** ** The request *)

(** [CreatePaymentRequest] (services/PaymentService.h) *)
Record create_request `{J : JsonLib} := CreateRequest {
  cr_orderNo : string;
  cr_amount : string;
  cr_currency : string;
  cr_description : string;
  cr_notifyUrl : string;
  cr_userId : Z;
  cr_sceneInfo : json;
  cr_channel : string;
  cr_timeExpire : string;
  cr_attach : string
}.

Module Creates.
Section Service.
Context `{J : JsonLib} (sha256 : string -> string).
(** [channels_]; the idempotency service's Redis client and TTL; the time zone;
    the environment variable ALIPAY_SANDBOX_BUYER_ID. *)
Context (channels : list string) (redis : bool) (ttlSeconds : Z).
Context (utc_offset : Z -> Z) (buyerIdEnv : option string).

Abbreviation PaymentCallback := (json -> Z -> prog svc).

(** [{"code": code, "message": message}] *)
Definition error_json (code : Z) (message : string) : json :=
  of_object [("code", of_int code); ("message", of_string message)].

Definition refuse (callback : PaymentCallback) (code : Z) (message : string) : prog svc :=
  callback (error_json code message) code.

Definition mapperFailure (callback : PaymentCallback) (w : option string) : prog svc :=
  callback (dbErrorResponse (default "unknown exception" w)) io_error.

(** A member that is left out when its text is empty. *)
Definition optional (key value : string) : list (string * json) :=
  if is_empty value then [] else [(key, of_string value)].

(** What the channel is asked for. *)
Definition createPayload (request : create_request) (totalFen : Z) : json :=
  if String.eqb (cr_channel request) "alipay" then
    of_object ([("total_amount", of_string (yuanString totalFen));
      ("subject", of_string (cr_description request)); ("out_trade_no", of_string (cr_orderNo request))]
      ++ optional "buyer_id" (default "" buyerIdEnv) ++ optional "notify_url" (cr_notifyUrl request))%list
  else
    of_object ([("description", of_string (cr_description request));
      ("out_trade_no", of_string (cr_orderNo request));
      ("amount", of_object [("total", of_int totalFen); ("currency", of_string (cr_currency request))])]
      ++ optional "notify_url" (cr_notifyUrl request)
      ++ (if isNull (cr_sceneInfo request) then [] else [("scene_info", cr_sceneInfo request)])
      ++ optional "time_expire" (cr_timeExpire request) ++ optional "attach" (cr_attach request))%list.

(** [expire_at], in microseconds. *)
Definition expireAt (timeExpire : string) : option Z :=
  if is_empty timeExpire then None
  else
    match parseRfc3339 timeExpire with
    | inl _ => None
    | inr expireSeconds => Some (wrap64 (expireSeconds * 1000000))
    end.

(** ** After COMMIT: the channel and its answer *)

Section Attempt.
Context (request : create_request) (paymentNo : string) (callback : PaymentCallback).

Definition answerChannelError (error : string) : prog svc :=
  let channelName := if String.eqb (cr_channel request) "alipay" then "Alipay" else "WeChat Pay" in
  refuse callback 1002 (channelName +:+ " error: " +:+ error).

Definition onChannelError (error : string) : prog svc :=
  let errPayload := toJsonString (of_object [("error", of_string error)]) in
  if attemptCertainlyNotCreated error
  then bookRefusedAttempt true paymentNo (cr_orderNo request) errPayload (answerChannelError error)
  else answerChannelError error.

(** The members of the answer that the payer needs; [None]: an accessor throws. *)
Definition payable (result : json) : option (list (string * json)) :=
  if String.eqb (cr_channel request) "alipay" then
    qrCode ← get_string result "qr_code";
    Some (("alipay_response", result) :: optional "qr_code" qrCode)
  else
    codeUrl ← get_string result "code_url";
    prepayId ← get_string result "prepay_id";
    Some (("wechat_response", result) :: optional "code_url" codeUrl ++ optional "prepay_id" prepayId)%list.

(** The [answer] lambda. *)
Definition answerCreated (result : json) : prog svc :=
  attempt members <- payable result;
  callback (of_object [("code", of_int 0); ("message", of_string "Payment created successfully");
    ("data", of_object ([("order_no", of_string (cr_orderNo request)); ("payment_no", of_string paymentNo);
                         ("status", of_string "PAYING")] ++ members)%list)]) 0.

Definition promoteOrder (result : json) : prog svc :=
  do a <- Io (Sql Main (AdvanceOrder (cr_orderNo request) "PAYING"));
  match a with
  | Ok _ => answerCreated result
  | Exc _ => answerCreated result
  | Threw _ => answerCreated result
  end.

Definition promotePayment (result : json) : prog svc :=
  do a <- Io (Sql Main (AdvancePayment paymentNo "PROCESSING" (toJsonString result)));
  match a with
  | Ok updated => if updated =? 0 then answerCreated result else promoteOrder result
  | Exc e => refuse callback 1003 ("Database error: " +:+ what e)
  | Threw w => mapperFailure callback w
  end.

Definition paymentCallback (result : json) (transportError : string) : prog svc :=
  attempt error <- (if is_empty transportError then channelResultError (cr_channel request) result
                    else Some transportError);
  if negb (is_empty error) then onChannelError error else promotePayment result.

Definition callChannel (payload : json) : prog svc :=
  let channel := cr_channel request in
  if negb (findChannel channels channel) then paymentCallback jnull ("CHANNEL_NOT_AVAILABLE: " +:+ channel)
  else
    do a <- Call channel (ChCreateQr payload);
    match a with
    | Answered result transportError => paymentCallback result transportError
    | ChannelThrew => Escape
    end.

(** ** The transaction that books the attempt *)

Definition failDbTxn (e : db_exception) : prog svc :=
  do _ <- Io Rollback; refuse callback 1003 ("Database error: " +:+ what e).

Definition mapperFailedInTxn (w : option string) : prog svc :=
  do _ <- Io Rollback; mapperFailure callback w.

Definition onCreateCommitted (payload : json) (a : answer unit) : prog svc :=
  match a with
  | Ok _ => callChannel payload
  | Exc e => refuse callback 1003 ("Failed to commit transaction: " +:+ what e)
  | Threw _ => Escape
  end.

Definition onPaymentInserted (payload : json) (a : answer unit) : prog svc :=
  match a with
  | Ok _ => do b <- Io (Sql Txn Commit); onCreateCommitted payload b
  | Exc e => failDbTxn e
  | Threw w => mapperFailedInTxn w
  end.

Definition onOrderInserted (payload : json) (a : answer unit) : prog svc :=
  match a with
  | Ok _ =>
      do createdAt <- Io Now;
      do b <- Io (Sql Txn (InsertPayment paymentNo (cr_orderNo request) "INIT" (cr_amount request)
                             (toJsonString payload) createdAt));
      onPaymentInserted payload b
  | Exc e => failDbTxn e
  | Threw w => mapperFailedInTxn w
  end.

Definition proceedCreatePayment (totalFen : Z) : prog svc :=
  do thrown <- Io Construct;
  match thrown with
  | Some w =>
      callback (error_json 1003 ("Exception during payment creation: " +:+ default "unknown exception" w)) io_error
  | None =>
      do createdAt <- Io Now;
      let payload := createPayload request totalFen in
      do created <- Io BeginOrNull;
      if negb created then refuse callback 1003 "Transaction unavailable"
      else
        do a <- Io (Sql Txn (InsertOrder (cr_orderNo request) (cr_userId request) (cr_amount request)
                     (cr_currency request) "CREATED" (cr_channel request) (cr_description request)
                     (Some createdAt) (expireAt (cr_timeExpire request))));
        onOrderInserted payload a
  end.
End Attempt.

(** ** The request, under its idempotency key *)

Definition requestHash (request : create_request) : string :=
  sha256 (toJsonString (of_object [("order_no", of_string (cr_orderNo request));
    ("amount", of_string (cr_amount request)); ("currency", of_string (cr_currency request));
    ("description", of_string (cr_description request))])).

(** Release the reservation of a key, if there is one, before [next]. *)
Definition releasing (idempotencyKey requestHash : string) (next : prog svc) : prog svc :=
  if negb (is_empty idempotencyKey) then clearReservation idempotencyKey requestHash (fun _ => next) else next.

(** The [wrappedCb]: store an answer with data, release the key of a failure. *)
Definition wrappedCb (idempotencyKey requestHash : string) (callback : PaymentCallback) : PaymentCallback :=
  fun result error =>
  let keyed := negb (is_empty idempotencyKey) in
  attempt stores <- (if keyed && (error =? 0) then isMember result "data" else Some false);
  if stores then
    updateResult redis ttlSeconds idempotencyKey requestHash result false (fun success =>
    if success then callback result error
    else clearReservation idempotencyKey requestHash (fun _ => callback result error))
  else if keyed && negb (error =? 0)
  then clearReservation idempotencyKey requestHash (fun _ => callback result error)
  else callback result error.

(** [validateTimeExpire] reads the clock. *)
Definition checkTimeExpire (timeExpire channel : string) (k : option string -> prog svc) : prog svc :=
  if is_empty timeExpire then k None
  else do now <- Io Now; k (validateTimeExpire timeExpire channel (Z.quot now 1000000)).

Definition wechatFieldError (request : create_request) : option string :=
  if String.eqb (cr_channel request) "wechat"
  then validateWechatOrderFields (cr_orderNo request) (cr_description request) (cr_attach request)
  else None.

(** A request whose key was taken. *)
Definition startCreate (request : create_request) (idempotencyKey hash : string) (callback : PaymentCallback) :
    prog svc :=
  let reject message := releasing idempotencyKey hash (refuse callback 1001 message) in
  generatePaymentNoValue utc_offset (fun paymentNo =>
  match parseAmountToFen (cr_amount request) with
  | None => reject "Invalid amount format"
  | Some totalFen =>
      match validateNotifyUrl (cr_notifyUrl request) with
      | Some urlError => reject urlError
      | None =>
          checkTimeExpire (cr_timeExpire request) (cr_channel request) (fun timeError =>
          match timeError with
          | Some timeExpireError => reject timeExpireError
          | None =>
              match wechatFieldError request with
              | Some fieldError => reject fieldError
              | None => proceedCreatePayment request paymentNo (wrappedCb idempotencyKey hash callback) totalFen
              end
          end)
      end
  end).

Definition createPayment (request : create_request) (idempotencyKey : string) (callback : PaymentCallback) :
    prog svc :=
  let hash := requestHash request in
  checkAndSetStatus ttlSeconds idempotencyKey hash (fun check =>
  match status check with
  | Conflict => refuse callback 1004 "Idempotency conflict: different parameters for same key"
  | InProgress => refuse callback 1004 "Idempotency request is already in progress"
  | Error => refuse callback 1003 "Idempotency check failed"
  | Replay => callback (cachedResult check) 0
  | Started => startCreate request idempotencyKey hash callback
  end).

(** The caller of the service takes the answer. *)
Definition answerCaller : PaymentCallback := fun result error => do _ <- Answer result error; Done.
End Service.
End Creates.
