(* ===== verification/QrPayment.v ===== *)
(** * Offering a QR code (createQRPayment of
    src/libs/drogon-pay/src/services/PaymentService.cc).

    One definition per lambda of the source.  The request is a JSON value read once
    into [qr_request]; its members are read outside of any [try].  Every path calls
    [callback] at most once ([QrGuard.qr_called_after_booking]), so the [OnceCallback]
    around it is not repeated here. *)
From S2P Require Import Prelude Cxx Json Effects Store Amount NotifyUrl Rfc3339 ChannelFields RefDb Idempotency Service PaymentService PaymentCreate.
Import PaymentService.Payments PaymentCreate.Creates.

(** [request.get(key, fallback).asString()] *)
Definition get_text `{J : JsonLib} (request : json) (key fallback : string) : option string :=
  v ← get request key (of_string fallback); asString v.

(** What the lambdas capture. *)
Record qr_request := QrRequest {
  q_orderNo : string;
  q_amount : string;
  q_channel : string;
  q_subject : string;
  q_timeExpire : string;
  q_userId : Z;
  q_requestedCurrency : string;
  q_notifyUrl : string;
  q_buyerId : option string;    (* the member, when the request has it *)
  q_key : string                (* idempotencyKey *)
}.

Module Qr.
Section Service.
Context `{J : JsonLib} (sha256 : string -> string).
Context (channels : list string) (redis : bool) (ttlSeconds : Z) (utc_offset : Z -> Z).

Abbreviation PaymentCallback := (json -> Z -> prog svc).

(** The owner the request names, 0 if it names none. *)
Definition qrUserId (request : json) : option Z :=
  v ← get request "user_id" jnull; if isInt64 v then asInt64 v else Some 0.

Definition buyerMember (request : json) : option (option string) :=
  named ← isMember request "buyer_id";
  if (named : bool) then b ← get_string request "buyer_id"; Some (Some b) else Some None.

(** The members read after the owner was checked. *)
Definition readQrRequest (request : json) (orderNo amount channel subject timeExpire : string) (userId : Z) :
    option qr_request :=
  requestedCurrency ← (if String.eqb channel "wechat" then get_text request "currency" "CNY" else Some "CNY");
  key ← get_text request "idempotency_key" ("QR_" +:+ orderNo +:+ "_" +:+ channel);
  notifyUrl ← get_string request "notify_url";
  buyerId ← buyerMember request;
  Some (QrRequest orderNo amount channel subject timeExpire userId requestedCurrency notifyUrl buyerId key).

(** The currency the hash covers. *)
Definition qrHashCurrency (q : qr_request) : string :=
  default (q_requestedCurrency q) (normalizeQrCurrency (q_requestedCurrency q)).

Definition qrHash (q : qr_request) : string :=
  sha256 (toJsonString (of_object [("order_no", of_string (q_orderNo q)); ("amount", of_string (q_amount q));
    ("channel", of_string (q_channel q)); ("subject", of_string (q_subject q));
    ("user_id", of_int (q_userId q)); ("currency", of_string (qrHashCurrency q));
    ("notify_url", of_string (q_notifyUrl q)); ("buyer_id", of_string (default "" (q_buyerId q)));
    ("time_expire", of_string (q_timeExpire q))])).

(** What the channel is asked for, or why the request is refused. *)
Definition qrPayload (q : qr_request) (currency : string) : string + json :=
  let number := ("out_trade_no", of_string (q_orderNo q)) in
  if String.eqb (q_channel q) "wechat" then
    match parseAmountToFen (q_amount q) with
    | None => inl "Invalid amount for WeChat native payment"
    | Some totalFen =>
        if totalFen <=? 0 then inl "Invalid amount for WeChat native payment"
        else
          match validateWechatOrderFields (q_orderNo q) (q_subject q) "" with
          | Some fieldError => inl fieldError
          | None =>
              match (if is_empty (q_notifyUrl q) then None else validateNotifyUrl (q_notifyUrl q)) with
              | Some urlError => inl urlError
              | None =>
                  inr (of_object ([number; ("description", of_string (q_subject q));
                    ("amount", of_object [("total", of_int totalFen); ("currency", of_string currency)])]
                    ++ optional "notify_url" (q_notifyUrl q) ++ optional "time_expire" (q_timeExpire q))%list)
              end
          end
    end
  else
    inr (of_object ([number; ("total_amount", of_string (q_amount q)); ("subject", of_string (q_subject q))]
      ++ match q_buyerId q with Some b => [("buyer_id", of_string b)] | None => [] end)%list).

(** ** Answers *)

Section Attempt.
Context (q : qr_request) (callback : PaymentCallback).

(** [clearReservation] without waiting for it, then a refusal. *)
Definition dropAndRefuse (code : Z) (message : string) : prog svc :=
  if is_empty (q_key q) then refuse callback code message
  else do _ <- Post (DeleteReservation (q_key q) (qrHash q)); refuse callback code message.

Definition failQr (code : Z) (message : string) (extra : list (string * json)) : prog svc :=
  let response := of_object (extra ++ [("code", of_int code); ("message", of_string message)])%list in
  let ec := if (400 <=? code) && (code <? 500) then code else io_error in
  clearReservation (q_key q) (qrHash q) (fun _ => callback response ec).

Definition respondQr (data : json) : prog svc :=
  let response := of_object [("code", of_int 0); ("message", of_string "QR code created successfully");
                             ("data", data)] in
  updateResult redis ttlSeconds (q_key q) (qrHash q) response false (fun success =>
  if success then callback response 0
  else clearReservation (q_key q) (qrHash q) (fun _ => callback response 0)).

(** ** The channel and its answer *)

(** The booked attempt: its number, and the number of its order row. *)
Context (currency : string) (payload : json) (paymentNo : string) (booked : string).

Definition promoteQrOrder (data : json) : prog svc :=
  do a <- Io (Sql Main (AdvanceOrder booked "PAYING"));
  match a with Ok _ => respondQr data | Exc _ => respondQr data | Threw _ => respondQr data end.

Definition promoteQrRows (result data : json) : prog svc :=
  let responseText := toJsonString (of_object [("channel_response", result)]) in
  do a <- Io (Sql Main (AdvancePayment paymentNo "PROCESSING" responseText));
  match a with
  | Ok updated => if updated =? 0 then respondQr data else promoteQrOrder data
  | Exc _ => respondQr data
  | Threw _ => respondQr data
  end.

Definition markQrPaymentFailed (message : string) (afterClose : prog svc) : prog svc :=
  let responseText := toJsonString (of_object [("error", of_string message)]) in
  do a <- Io (Sql Main (AdvancePayment paymentNo "FAIL" responseText));
  match a with Ok _ => afterClose | Exc _ => afterClose | Threw _ => afterClose end.

(** A failure: the row is closed when nothing was created. *)
Definition failAttempt (error message : string) (extra : list (string * json)) : prog svc :=
  if attemptCertainlyNotCreated error then markQrPaymentFailed message (failQr 500 message extra)
  else failQr 500 message extra.

(** The channel's own codes; [None]: an accessor throws. *)
Definition errorCodes (result : json) : option (list (string * json)) :=
  if String.eqb (q_channel q) "alipay" then
    code ← get_string result "code";
    subCode ← get_string result "sub_code";
    Some [("alipay_code", of_string code); ("alipay_sub_code", of_string subCode)]
  else
    code ← get_string result "code"; Some [("wechat_code", of_string code)].

(** A member that is copied when it is there. *)
Definition copied (result : json) (key : string) : option (list (string * json)) :=
  there ← isMember result key;
  if (there : bool) then v ← get_string result key; Some [(key, of_string v)] else Some [].

(** What the client gets. *)
Definition qrData (result : json) : option json :=
  members ← (if String.eqb (q_channel q) "wechat"
             then codeUrl ← get_string result "code_url"; Some [("code_url", of_string codeUrl)]
             else qrCode ← copied result "qr_code"; number ← copied result "out_trade_no"; Some (qrCode ++ number)%list);
  Some (of_object (("order_no", of_string (q_orderNo q)) :: members)).

Definition onQrAnswer (result : json) (error : string) : prog svc :=
  if negb (is_empty error) then failAttempt error ("QR payment creation failed: " +:+ error) []
  else
    attempt resultError <- channelResultError (q_channel q) result;
    if negb (is_empty resultError) then
      attempt extra <- errorCodes result; failAttempt resultError resultError extra
    else
      attempt data <- qrData result; promoteQrRows result data.

Definition offerQrChannel : prog svc :=
  do a <- Call (q_channel q) (ChCreateQr payload);
  match a with
  | Answered result error => onQrAnswer result error
  | ChannelThrew => Escape
  end.

(** ** Booking *)

Definition bookQrPayment : prog svc :=
  do createdAt <- Io Now;
  do a <- Io (Sql Main (InsertPayment paymentNo (q_orderNo q) "INIT" (q_amount q) (toJsonString payload) createdAt));
  match a with
  | Ok _ => offerQrChannel
  | Exc e => failQr 500 ("Failed to book the QR payment: " +:+ what e) []
  | Threw w => failQr 500 ("Failed to book the QR payment: " +:+ default "unknown error" w) []
  end.

Definition refuseIfAlreadySettled : prog svc :=
  do a <- Io (Sql Main (FindAttempts (q_orderNo q) ["SUCCESS"; "REFUNDED"]));
  match a with
  | Ok (row :: _) =>
      failQr 400 ("Order " +:+ q_orderNo q +:+ " already has a settled payment (" +:+ p_status row +:+ ")") []
  | Ok [] => bookQrPayment
  | Exc e => failQr 500 ("Failed to read the QR order's payment attempts: " +:+ what e) []
  | Threw w => failQr 500 ("Failed to read the QR order's payment attempts: " +:+ default "unknown error" w) []
  end.
End Attempt.

(** Two amounts are one charge. *)
Definition sameAmount (booked requested : string) : bool :=
  match parseAmountToFen booked, parseAmountToFen requested with
  | Some bookedFen, Some requestedFen => bookedFen =? requestedFen
  | _, _ => String.eqb booked requested
  end.

(** Why the row of an earlier attempt may not be offered again. *)
Definition reuseProblem (q : qr_request) (currency : string) (existing : order_row) : option string :=
  let order := "Order " +:+ q_orderNo q in
  let st := o_status existing in
  if String.eqb st "PAID" || String.eqb st "SUCCESS" || String.eqb st "REFUNDED"
  then Some (order +:+ " is already " +:+ st +:+ " and cannot be offered again")
  else if negb (sameAmount (o_amount existing) (q_amount q))
  then Some (order +:+ " exists with amount " +:+ o_amount existing)
  else if negb (String.eqb (o_currency existing) currency)
  then Some (order +:+ " exists with currency " +:+ o_currency existing)
  else if negb (String.eqb (o_channel existing) (q_channel q))
  then Some (order +:+ " belongs to channel " +:+ o_channel existing)
  else if negb (o_user existing =? q_userId q)
  then Some (order +:+ " belongs to another user")
  else None.

Definition insertQrOrder (q : qr_request) (callback : PaymentCallback) (currency : string) (payload : json)
    (paymentNo : string) : prog svc :=
  do a <- Io (Sql Main (InsertOrder (q_orderNo q) (q_userId q) (q_amount q) currency "CREATED" (q_channel q)
                          (q_subject q) None (expireAt (q_timeExpire q))));
  match a with
  | Ok _ => bookQrPayment q callback payload paymentNo (q_orderNo q)
  | Exc e => failQr q callback 500 ("Failed to book the QR order: " +:+ what e) []
  | Threw w => failQr q callback 500 ("Failed to book the QR order: " +:+ default "unknown error" w) []
  end.

Definition probeQrOrder (q : qr_request) (callback : PaymentCallback) (currency : string) (payload : json)
    (paymentNo : string) : prog svc :=
  do a <- Io (Sql Main (FindOrders (q_orderNo q)));
  match a with
  | Ok [] => insertQrOrder q callback currency payload paymentNo
  | Ok (existing :: _) =>
      match reuseProblem q currency existing with
      | Some message => failQr q callback 400 message []
      | None => refuseIfAlreadySettled q callback payload paymentNo (o_no existing)
      end
  | Exc e => failQr q callback 500 ("Failed to read the QR order: " +:+ what e) []
  | Threw w => failQr q callback 500 ("Failed to read the QR order: " +:+ default "unknown error" w) []
  end.

(** ** The request *)

Definition startQr (q : qr_request) (callback : PaymentCallback) : prog svc :=
  match normalizeQrCurrency (q_requestedCurrency q) with
  | None => dropAndRefuse q callback 400 "Invalid currency: expected a three-letter ISO-4217 code"
  | Some currency =>
      checkTimeExpire (q_timeExpire q) (q_channel q) (fun timeError =>
      match timeError with
      | Some timeExpireError => dropAndRefuse q callback 400 timeExpireError
      | None =>
          match qrPayload q currency with
          | inl message => dropAndRefuse q callback 400 message
          | inr payload =>
              if negb (findChannel channels (q_channel q))
              then dropAndRefuse q callback 1005 ("CHANNEL_NOT_AVAILABLE: " +:+ q_channel q)
              else
                generatePaymentNoValue utc_offset (fun paymentNo =>
                probeQrOrder q callback currency payload paymentNo)
          end
      end)
  end.

Definition serveQr (q : qr_request) (callback : PaymentCallback) : prog svc :=
  checkAndSetStatus ttlSeconds (q_key q) (qrHash q) (fun check =>
  match status check with
  | Conflict => refuse callback 1004 "Idempotency conflict: different parameters for same key"
  | InProgress => refuse callback 1004 "Idempotency request is already in progress"
  | Error => refuse callback 1003 "Idempotency check failed"
  | Replay => callback (cachedResult check) 0
  | Started => startQr q callback
  end).

Definition createQRPayment (dbClient : bool) (request : json) (callback : PaymentCallback) : prog svc :=
  if negb dbClient then refuse callback 1003 "Database client not available"
  else
    attempt orderNo <- get_string request "order_no";
    attempt amount <- get_string request "amount";
    attempt channel <- get_text request "channel" "alipay";
    attempt subject <- get_text request "subject" "Payment";
    attempt timeExpire <- get_string request "time_expire";
    if is_empty orderNo || is_empty amount
    then refuse callback 400 "Missing required parameters: order_no, amount"
    else
      attempt userId <- qrUserId request;
      if userId <=? 0 then refuse callback 400 "Missing or invalid user_id"
      else
        attempt q <- readQrRequest request orderNo amount channel subject timeExpire userId;
        serveQr q callback.
End Service.
End Qr.
