(* ===== verification/PaymentReports.v ===== *)
(** * Reports on payments (reconcileSummary and queryOrderList of
    src/libs/drogon-pay/src/services/PaymentService.cc).

    [reconcileSummary] starts two chains of queries whose callbacks may run on
    different threads; they share two atomics and the summary.  Here a step is one
    callback up to its next atomic operation, and any interleaving is a list of
    labels. *)
From S2P Require Import Prelude Cxx Json Effects Store Service PaymentService.
Import PaymentService.Payments.

(** ** reconcileSummary *)

Module Summary.

(** Where one chain is. *)
Inductive pc :=
| Counting                (* the count was submitted *)
| Probing                 (* the probe for the oldest row was submitted *)
| Arrived                 (* in [finishIfReady], before [pending->fetch_sub(1)] *)
| Last                    (* it was the last, before [responded->exchange(true)] *)
| Failed (what : string)  (* in an error branch, before [responded->exchange(true)] *)
| Over.

(** The members a chain writes: its count and its oldest [updated_at]. *)
Record part := Part { count : Z; oldest : string }.

(** An answer: the two parts of a summary, or an error. *)
Inductive report := Summed (orders refunds : part) | DbError (what : string).

Record state := State {
  pcs : pc * pc;             (* paying orders, refunding refunds *)
  parts : part * part;
  pending : Z;
  responded : bool;
  reports : list report      (* the answers sent, newest first *)
}.

Definition start : state := State (Counting, Counting) (Part 0 "", Part 0 "") 2 false [].

(** Which chain moves, and what its query was answered; a failed query is its error
    callback or the exception of the Mapper. *)
Inductive sweep := Orders | Refunds.
Inductive event := Counted (n : Z) | Oldest (updated : option string) | Fails (what : string) | Goes.

Definition pick {A} (w : sweep) (p : A * A) : A := match w with Orders => fst p | Refunds => snd p end.
Definition put {A} (w : sweep) (a : A) (p : A * A) : A * A :=
  match w with Orders => (a, snd p) | Refunds => (fst p, a) end.

Definition moves (w : sweep) (next : pc) (part' : part) (s : state) : state :=
  State (put w next (pcs s)) (put w part' (parts s)) (pending s) (responded s) (reports s).

(** [responded->exchange(true)], and the answer if it was [false]. *)
Definition responds (w : sweep) (r : report) (s : state) : state :=
  State (put w Over (pcs s)) (parts s) (pending s) true (if responded s then reports s else r :: reports s).

(** A query of a chain was answered. *)
Definition hears (p : pc) (a : part) (e : event) : option (pc * part) :=
  match p, e with
  | Counting, Counted n => Some (Probing, Part n (oldest a))
  | Counting, Fails what => Some (Failed what, a)
  | Probing, Oldest updated => Some (Arrived, Part (count a) (default (oldest a) updated))
  | Probing, Fails what => Some (Failed what, a)
  | _, _ => None
  end.

Definition step (w : sweep) (e : event) (s : state) : option state :=
  match e with
  | Goes =>
      match pick w (pcs s) with
      | Arrived =>
          Some (State (put w (if pending s =? 1 then Last else Over) (pcs s)) (parts s) (pending s - 1)
                  (responded s) (reports s))
      | Last => Some (responds w (Summed (fst (parts s)) (snd (parts s))) s)
      | Failed what => Some (responds w (DbError what) s)
      | _ => None
      end
  | _ =>
      match hears (pick w (pcs s)) (pick w (parts s)) e with
      | Some (next, part') => Some (moves w next part' s)
      | None => None
      end
  end.

(** An interleaving; [None] when a step does not apply. *)
Fixpoint steps (es : list (sweep * event)) (s : state) : option state :=
  match es with
  | [] => Some s
  | (w, e) :: rest => s' ← step w e s; steps rest s'
  end.

Section Answers.
Context `{J : JsonLib}.

Definition report_answer (r : report) : json * Z :=
  match r with
  | Summed orders refunds =>
      (found 0 "Reconciliation summary"
         (of_object [("paying_orders", of_int (count orders)); ("refunding_refunds", of_int (count refunds));
            ("oldest_paying_updated", of_string (oldest orders));
            ("oldest_refund_updated", of_string (oldest refunds))]), 0)
  | DbError what => (dbErrorResponse what, io_error)
  end.
End Answers.

Definition other (w : sweep) : sweep := match w with Orders => Refunds | Refunds => Orders end.
#[global] Instance sweep_eq : EqDecision sweep.
Proof. solve_decision. Defined.

(** What a chain was answered so far. *)
Definition answered (w : sweep) (es : list (sweep * event)) : list event :=
  flat_map (fun we => match snd we with Goes => [] | e => if decide (fst we = w) then [e] else [] end) es.

(** ** What the answer is *)

(** The part a chain wrote, by where it is. *)
Definition wrote (p : pc) (a : part) (es : list event) : Prop :=
  match p with
  | Counting => es = [] /\ a = Part 0 ""
  | Probing => exists n, es = [Counted n] /\ a = Part n ""
  | Arrived | Last => exists n u, es = [Counted n; Oldest u] /\ a = Part n (default "" u)
  | Failed what => exists n, es = [Fails what] \/ es = [Counted n; Fails what]
  | Over =>
      (exists n u, es = [Counted n; Oldest u] /\ a = Part n (default "" u)) \/
      (exists n what, es = [Fails what] \/ es = [Counted n; Fails what])
  end.

(** A chain that failed keeps [pending] from reaching 0. *)
Definition failed (es : list event) : bool :=
  existsb (fun e => match e with Fails _ => true | _ => false end) es.

(** The decrements a chain still owes. *)
Definition owes (p : pc) (es : list event) : Z :=
  match p with
  | Counting | Probing | Arrived => 1
  | Last => 0
  | Failed _ => 1
  | Over => if failed es then 1 else 0
  end.

(** A report is justified by what the chains were answered. *)
Definition justified (es : list (sweep * event)) (r : report) : Prop :=
  match r with
  | Summed a b => exists n u m v,
      (In (Counted n) (answered Orders es) /\ In (Oldest u) (answered Orders es) /\ a = Part n (default "" u)) /\
      (In (Counted m) (answered Refunds es) /\ In (Oldest v) (answered Refunds es) /\ b = Part m (default "" v))
  | DbError what => In (Fails what) (answered Orders es) \/ In (Fails what) (answered Refunds es)
  end.

Record inv (es : list (sweep * event)) (s : state) : Prop := {
  i_wrote : forall w, wrote (pick w (pcs s)) (pick w (parts s)) (answered w es);
  i_pending : forall w, pending s = owes (pick w (pcs s)) (answered w es)
                                   + owes (pick (other w) (pcs s)) (answered (other w) es);
  i_once : reports s = [] /\ responded s = false \/ (exists r, reports s = [r]) /\ responded s = true;
  i_justified : Forall (justified es) (reports s);
  i_last : forall w, pick w (pcs s) = Last -> pending s = 0;
  i_alive : responded s = false ->
    (forall w, pick w (pcs s) = Over -> failed (answered w es) = false) /\
    (pending s = 0 -> exists w, pick w (pcs s) = Last)
}.

Lemma inv_start : inv [] start.
Proof.
  split; simpl; try (intros []; simpl; done); auto.
Qed.

Lemma pick_put {A} w (a : A) p : pick w (put w a p) = a.
Proof. by destruct w. Qed.

Lemma pick_other {A} w w' (a : A) p : w' <> w -> pick w' (put w a p) = pick w' p.
Proof. by destruct w, w'. Qed.

Lemma other_ne w : other w <> w.
Proof. by destruct w. Qed.

Lemma sweep_cases w w' : w' = w \/ w' = other w.
Proof. destruct w, w'; auto. Qed.

Lemma answered_snoc w es w' e :
  answered w (es ++ [(w', e)])%list =
  (answered w es ++ match e with Goes => [] | _ => if decide (w' = w) then [e] else [] end)%list.
Proof. unfold answered. rewrite flat_map_app. simpl. f_equal. destruct e; by rewrite ?app_nil_r. Qed.

Lemma answered_goes w es w' : answered w (es ++ [(w', Goes)])%list = answered w es.
Proof. by rewrite answered_snoc, app_nil_r. Qed.

Lemma answered_own w es e : e <> Goes -> answered w (es ++ [(w, e)])%list = (answered w es ++ [e])%list.
Proof. intros He. rewrite answered_snoc. by destruct e, (decide (w = w)). Qed.

Lemma answered_others w w' es e : w' <> w -> answered w (es ++ [(w', e)])%list = answered w es.
Proof. intros Hw. rewrite answered_snoc. by destruct e, (decide (w' = w)); rewrite ?app_nil_r. Qed.

Lemma answered_mono w es x e : In e (answered w es) -> In e (answered w (es ++ [x])%list).
Proof. destruct x as [w' e']. rewrite answered_snoc. intros. apply in_or_app. by left. Qed.

Lemma justified_snoc es x r : justified es r -> justified (es ++ [x])%list r.
Proof.
  destruct r as [a b|m]; simpl.
  - intros (n & u & k & v & (? & ? & ?) & ? & ? & ?). exists n, u, k, v.
    repeat split; try done; by apply answered_mono.
  - intros [H|H]; [left | right]; by apply answered_mono.
Qed.

Lemma justified_all es x rs : Forall (justified es) rs -> Forall (justified (es ++ [x])%list) rs.
Proof. intros H. eapply Forall_impl; [exact H | intros; by apply justified_snoc]. Qed.

Lemma steps_snoc es w e s : steps (es ++ [(w, e)])%list s = s' ← steps es s; step w e s'.
Proof.
  revert s. induction es as [|[w0 e0] es IH]; intros s; simpl; [by destruct (step w e s) |].
  destruct (step w0 e0 s); simpl; [apply IH | done].
Qed.

(** A chain that answered both queries. *)
Lemma wrote_both p a es :
  wrote p a es -> owes p es = 0 ->
  exists n u, In (Counted n) es /\ In (Oldest u) es /\ a = Part n (default "" u).
Proof.
  destruct p; simpl; try lia.
  - intros (n & u & -> & ->) _. exists n, u. simpl. auto.
  - intros [(n & u & -> & ->)|(n & m & [->| ->])]; simpl; [|lia..]. intros _. exists n, u. simpl. auto.
Qed.

Lemma owes_range p es : 0 <= owes p es <= 1.
Proof. destruct p; simpl; try lia. destruct (failed es); lia. Qed.

Lemma hears_wrote p a e p' a' es :
  wrote p a es -> hears p a e = Some (p', a') ->
  wrote p' a' (es ++ [e])%list /\ owes p es = 1 /\ owes p' (es ++ [e])%list = 1 /\
  e <> Goes /\ p' <> Last /\ p' <> Over.
Proof.
  destruct p, e; try done; simpl; intros Hw [= <- <-]; simpl in Hw.
  - destruct Hw as [-> ->]. repeat split; try done. by exists n.
  - destruct Hw as [-> ->]. repeat split; try done. exists 0. by left.
  - destruct Hw as (n & -> & ->). repeat split; try done. by exists n, updated.
  - destruct Hw as (n & -> & ->). repeat split; try done. exists n. by right.
Qed.

(** A query is answered. *)
Lemma hears_inv es w e s p a :
  inv es s -> hears (pick w (pcs s)) (pick w (parts s)) e = Some (p, a) ->
  inv (es ++ [(w, e)])%list (moves w p a s).
Proof.
  intros [Hw Hp H1 Hj Hl Ha] Hh.
  destruct (hears_wrote _ _ _ _ _ _ (Hw w) Hh) as (Hwr & Ho & Ho' & He & Hnl & Hno).
  assert (Hold : forall w', w' <> w -> answered w' (es ++ [(w, e)])%list = answered w' es)
    by (intros; by apply answered_others).
  split; simpl.
  - intros w'. destruct (decide (w' = w)) as [->|Hn]; [by rewrite !pick_put, answered_own |].
    rewrite !pick_other, Hold by done. apply Hw.
  - intros w'. rewrite (Hp w). destruct (sweep_cases w w') as [->| ->].
    + rewrite pick_put, pick_other, answered_own, Hold by (done || apply other_ne). lia.
    + replace (other (other w)) with w by (by destruct w).
      rewrite pick_put, pick_other, answered_own, Hold by (done || apply other_ne). lia.
  - done.
  - by apply justified_all.
  - intros w'. destruct (decide (w' = w)) as [->|Hn]; [by rewrite pick_put |]. rewrite pick_other by done. apply Hl.
  - intros Hf. destruct (Ha Hf) as [Hov Hz]. split.
    + intros w'. destruct (decide (w' = w)) as [->|Hn]; [by rewrite pick_put |].
      rewrite pick_other, Hold by done. apply Hov.
    + intros Hz'. destruct (Hz Hz') as [w' Hl']. exists w'. destruct (decide (w' = w)) as [->|Hn].
      * by rewrite Hl' in Ho.
      * by rewrite pick_other.
Qed.

(** The decrement. *)
Lemma arrives_inv es w s :
  inv es s -> pick w (pcs s) = Arrived ->
  inv (es ++ [(w, Goes)])%list
    (State (put w (if pending s =? 1 then Last else Over) (pcs s)) (parts s) (pending s - 1) (responded s) (reports s)).
Proof.
  intros [Hw Hp H1 Hj Hl Ha] Hpc. pose proof (Hw w) as Hww. rewrite Hpc in Hww. destruct Hww as (n & u & Hes & Hpart).
  assert (Hf : failed (answered w es) = false) by (by rewrite Hes).
  pose proof (Hp w) as Hpw. rewrite Hpc in Hpw. simpl in Hpw.
  pose proof (owes_range (pick (other w) (pcs s)) (answered (other w) es)) as Ho.
  set (p := if pending s =? 1 then Last else Over).
  assert (Hp0 : owes p (answered w es) = 0) by (subst p; destruct (pending s =? 1); simpl; by rewrite ?Hf).
  assert (Hnl : forall w', w' <> w -> pick w' (pcs s) <> Last).
  { intros w' _ Hc. apply Hl in Hc. lia. }
  split; simpl.
  - intros w'. rewrite answered_goes. destruct (decide (w' = w)) as [->|Hn]; [|rewrite pick_other by done; apply Hw].
    rewrite pick_put, Hes. subst p. destruct (pending s =? 1); simpl; [by exists n, u | left; by exists n, u].
  - intros w'. rewrite !answered_goes. destruct (sweep_cases w w') as [->| ->];
      [|replace (other (other w)) with w by (by destruct w)]; rewrite pick_put, pick_other by apply other_ne; lia.
  - done.
  - by apply justified_all.
  - intros w'. destruct (decide (w' = w)) as [->|Hn].
    + rewrite pick_put. subst p. destruct (Z.eqb_spec (pending s) 1); [lia | done].
    + rewrite pick_other by done. intros Hc. by destruct (Hnl w' Hn).
  - intros Hr. destruct (Ha Hr) as [Hov Hz]. split.
    + intros w'. rewrite answered_goes. destruct (decide (w' = w)) as [->|Hn]; [done |]. rewrite pick_other by done. apply Hov.
    + intros Hz'. exists w. rewrite pick_put. subst p. by destruct (Z.eqb_spec (pending s) 1); [|lia].
Qed.

(** The exchange, by a chain in an error branch or the last one. *)
Lemma responds_inv es w s r :
  inv es s -> justified es r ->
  (pick w (pcs s) = Last \/ exists what, pick w (pcs s) = Failed what) ->
  inv (es ++ [(w, Goes)])%list (responds w r s).
Proof.
  intros [Hw Hp H1 Hj Hl Ha] Hjr Hpc.
  assert (Ho : wrote Over (pick w (parts s)) (answered w es) /\
               owes Over (answered w es) = owes (pick w (pcs s)) (answered w es)).
  { specialize (Hw w). destruct Hpc as [E|[m E]]; rewrite E in *; simpl in Hw |- *.
    - destruct Hw as (n & u & Hes & Hpa). rewrite Hes. split; [left; by exists n, u | done].
    - destruct Hw as (n & Hes). split; [right; by exists n, m |]. by destruct Hes as [-> | ->]. }
  destruct Ho as [Hwo Ho]. split; simpl.
  - intros w'. rewrite answered_goes. destruct (decide (w' = w)) as [->|Hn]; [by rewrite pick_put |].
    rewrite pick_other by done. apply Hw.
  - intros w'. rewrite !answered_goes, (Hp w). destruct (sweep_cases w w') as [->| ->];
      [|replace (other (other w)) with w by (by destruct w)]; rewrite pick_put, pick_other by apply other_ne; lia.
  - destruct H1 as [[-> ->]|[[r' ->] ->]]; right; (split; [|done]); by eexists.
  - apply justified_all. destruct (responded s); [done | by constructor].
  - intros w'. destruct (decide (w' = w)) as [->|Hn]; [by rewrite pick_put |]. rewrite pick_other by done. apply Hl.
  - done.
Qed.

Lemma step_inv es w e s s' : inv es s -> step w e s = Some s' -> inv (es ++ [(w, e)])%list s'.
Proof.
  intros Hi Hs. unfold step in Hs. destruct e as [n|u|m|].
  1-3: destruct (hears _ _ _) as [[p a]|] eqn:Hh; [|done]; injection Hs as <-; by apply hears_inv.
  destruct (pick w (pcs s)) as [ | | | |m|] eqn:Hpc; try done; injection Hs as <-.
  - by apply arrives_inv.
  - apply responds_inv; [done | | by left]. destruct Hi as [Hw Hp _ _ Hl _].
    pose proof (Hl w Hpc) as Hz. pose proof (Hp Orders) as Hpo. simpl in Hpo.
    pose proof (owes_range (fst (pcs s)) (answered Orders es)). pose proof (owes_range (snd (pcs s)) (answered Refunds es)).
    destruct (wrote_both _ _ _ (Hw Orders)) as (n & u & Ho); [simpl; lia |].
    destruct (wrote_both _ _ _ (Hw Refunds)) as (k & v & Hr); [simpl; lia |]. by exists n, u, k, v.
  - apply responds_inv; [done | | right; by exists m]. destruct Hi as [Hw _ _ _ _ _].
    specialize (Hw w). rewrite Hpc in Hw. destruct Hw as (n & Hes).
    destruct w; [left | right]; destruct Hes as [-> | ->]; simpl; auto.
Qed.

Lemma steps_inv es s : steps es start = Some s -> inv es s.
Proof.
  revert s. induction es as [|[w e] es IH] using rev_ind; intros s H; [injection H as <-; apply inv_start |].
  rewrite steps_snoc in H. apply bind_Some in H as (s0 & H0 & Hs). eapply step_inv; [by apply IH | done].
Qed.

(** However the callbacks of the two chains of [reconcileSummary] interleave, at
    most one answer is sent, and exactly one once both chains are over; a summary
    holds the counts and oldest rows that both chains were answered, and an error
    is one that a query of a chain failed with. *)
Lemma summary_answers_once es s :
  steps es start = Some s ->
  (List.length (reports s) <= 1)%nat /\
  (pcs s = (Over, Over) -> List.length (reports s) = 1%nat) /\
  Forall (justified es) (reports s).
Proof.
  intros H. destruct (steps_inv es s H) as [Hw Hp H1 Hj Hl Ha].
  split; [by destruct H1 as [[-> _]|[[r ->] _]]; simpl; lia |]. split; [|done]. intros E.
  destruct H1 as [[_ Hr]|[[r ->] _]]; [|done]. destruct (Ha Hr) as [Hov Hz].
  specialize (Hp Orders). rewrite E in *. simpl in Hp.
  rewrite (Hov Orders eq_refl), (Hov Refunds eq_refl) in Hp. destruct (Hz Hp) as [[] Hc]; done.
Qed.

(** One chain is answered, the other fails in between. *)
Definition mixed : list (sweep * event) :=
  [(Orders, Counted 3); (Refunds, Counted 1); (Orders, Oldest (Some "2024-01-01")); (Refunds, Fails "timeout");
   (Orders, Goes); (Refunds, Goes)].

Lemma summary_answers_once_witness :
  exists s, steps mixed start = Some s /\ pcs s = (Over, Over) /\ reports s = [DbError "timeout"] /\
    (List.length (reports s) <= 1)%nat /\ (pcs s = (Over, Over) -> List.length (reports s) = 1%nat) /\
    Forall (justified mixed) (reports s).
Proof.
  eexists. split; [reflexivity |]. split; [reflexivity |]. split; [reflexivity |].
  exact (summary_answers_once mixed _ eq_refl).
Defined.
End Summary.

(** ** queryOrderList *)

(** A row of the joined query; the columns of pay_payment are null without an
    attempt. *)
Record list_row := ListRow {
  lr_order_no : string;
  lr_user_id : Z;
  lr_amount : string;
  lr_currency : string;
  lr_status : string;
  lr_channel : string;
  lr_title : string;
  lr_created_at : string;
  lr_updated_at : string;
  lr_payment_no : option string;
  lr_channel_trade_no : option string;
  lr_response_payload : option string
}.

Module OrderList.

Definition kOrderListBaseSQL : string :=
  "SELECT po.order_no, po.user_id, po.amount, po.currency, " +:+
  "po.status, po.channel, po.title, po.created_at, po.updated_at, " +:+
  "pp.payment_no, pp.channel_trade_no, pp.response_payload " +:+
  "FROM pay_order po " +:+
  "LEFT JOIN pay_payment pp ON po.order_no = pp.order_no " +:+
  "WHERE 1=1".

(** The text so far and the parameters bound so far. *)
Abbreviation query := (string * list string)%type.

(** [sql += text + std::to_string(paramIndex++); params.push_back(value)] *)
Definition bind_param (text value : string) (q : query) : query :=
  (fst q +:+ text +:+ to_string (Z.of_nat (S (List.length (snd q)))), (snd q ++ [value])%list).

Definition filtersStatus (status : string) : bool := negb (is_empty status) && negb (String.eqb status "all").

Definition actualLimit (limit : Z) : Z := if (0 <? limit) && (limit <=? 100) then limit else 50.

Definition orderListQuery (status : string) (userId limit offset : Z) : query :=
  let q := (kOrderListBaseSQL, []) in
  let q := if filtersStatus status then bind_param " AND po.status = $" status q else q in
  let q := if 0 <? userId then bind_param " AND po.user_id = $" (to_string userId) q else q in
  let q := (fst q +:+ " ORDER BY po.created_at DESC", snd q) in
  let q := bind_param " LIMIT $" (to_string (actualLimit limit)) q in
  bind_param " OFFSET $" (to_string offset) q.

Section Answer.
Context `{J : JsonLib}.
(** What [reader.parse] leaves in the value of a document that does not parse. *)
Context (leftover : string -> json).

Definition member_of (key : string) (v : option string) : list (string * json) :=
  match v with Some s => [(key, of_string s)] | None => [] end.

Definition order_json (row : list_row) : json :=
  of_object ([("order_no", of_string (lr_order_no row)); ("user_id", of_int (lr_user_id row));
    ("amount", of_string (lr_amount row)); ("currency", of_string (lr_currency row));
    ("status", of_string (lr_status row)); ("channel", of_string (lr_channel row));
    ("title", of_string (lr_title row)); ("created_at", of_string (lr_created_at row));
    ("updated_at", of_string (lr_updated_at row))]
    ++ member_of "payment_no" (lr_payment_no row) ++ member_of "trade_no" (lr_channel_trade_no row)
    ++ [("paid_at", of_string (lr_updated_at row))]
    ++ match lr_response_payload row with
       | Some payload => [("channel_response", default (leftover payload) (jparse payload))]
       | None => []
       end)%list.

(** The database executes the text with the bound parameters. *)
Definition queryOrderList (database : string -> list string -> string + list list_row)
    (status : string) (userId limit offset : Z) : json * Z :=
  let '(sql, params) := orderListQuery status userId limit offset in
  match database sql params with
  | inr rows =>
      (of_object [("code", of_int 200); ("message", of_string "Success"); ("data", of_list (map order_json rows))], 0)
  | inl what =>
      (of_object [("code", of_int 1500); ("message", of_string ("Database error: " +:+ what))], io_error)
  end.
End Answer.

(** The statements the listing can send, and the number of their parameters. *)
Definition listTexts : list (string * nat) :=
  [(kOrderListBaseSQL +:+ " ORDER BY po.created_at DESC LIMIT $1 OFFSET $2", 2%nat);
   (kOrderListBaseSQL +:+ " AND po.user_id = $1 ORDER BY po.created_at DESC LIMIT $2 OFFSET $3", 3%nat);
   (kOrderListBaseSQL +:+ " AND po.status = $1 ORDER BY po.created_at DESC LIMIT $2 OFFSET $3", 3%nat);
   (kOrderListBaseSQL +:+ " AND po.status = $1 AND po.user_id = $2 ORDER BY po.created_at DESC LIMIT $3 OFFSET $4", 4%nat)].

(** A parameter that filters. *)
Definition filters (status : string) (userId : Z) (p : string) : Prop :=
  (p = status /\ filtersStatus status = true) \/ (p = to_string userId /\ 0 < userId).

Lemma actualLimit_bounds limit : 1 <= actualLimit limit <= 100.
Proof. unfold actualLimit. destruct (Z.ltb_spec 0 limit), (Z.leb_spec limit 100); simpl; lia. Qed.

(** The text of the query depends on which filters are present, not on their values:
    it is one of four, with as many parameters as it has placeholders. *)
Lemma orderListQuery_closed status userId limit offset :
  exists sql ps, orderListQuery status userId limit offset =
      (sql, (ps ++ [to_string (actualLimit limit); to_string offset])%list) /\
    In (sql, S (S (List.length ps))) listTexts /\ Forall (filters status userId) ps.
Proof.
  unfold orderListQuery, filters. set (l := to_string (actualLimit limit)). set (o := to_string offset).
  set (u := to_string userId).
  destruct (filtersStatus status), (Z.ltb_spec 0 userId);
    [exists (listTexts !!! 3%nat).1, [status; u] | exists (listTexts !!! 2%nat).1, [status]
    | exists (listTexts !!! 1%nat).1, [u] | exists (listTexts !!! 0%nat).1, []];
    (split; [reflexivity |]); (split; [simpl; tauto |]); rewrite ?Forall_cons, ?Forall_nil; auto.
Qed.

(** Every order of the list carries [paid_at], paid or not. *)
Lemma paid_at_always `{J : JsonLib} `{!JsonLaws J} leftover row :
  index (order_json leftover row) "paid_at" = Some (of_string (lr_updated_at row)).
Proof.
  unfold order_json, index, get. rewrite jfind_of_object.
  by destruct (lr_payment_no row), (lr_channel_trade_no row), (lr_response_payload row).
Qed.
End OrderList.
