(* ===== verification/RefundCallback.v ===== *)
(** * WeChat refund notifications: [handleRefundCallback]
    (src/libs/drogon-pay/src/services/CallbackService.cc).

    The checks and the reservation are as in the payment handler; the settlement
    runs in callbacks that queue statements on one transaction ([Queued]). *)
From S2P Require Import Prelude Cxx Json Effects Store Amount Callback Queued.

(** The values the database lambdas capture. *)
Record refund_notice `{J : JsonLib} := RefundNotice {
  rn_key : string;           (* idempotencyKey *)
  rn_no : string;            (* refundNo *)
  rn_raw : string;           (* refundStatusRaw *)
  rn_id : string;            (* refundId *)
  rn_plaintext : string;
  rn_body : string;
  rn_signature : string;
  rn_serial : string;
  rn_plain : json            (* plainJson *)
}.
Arguments RefundNotice {J}.

Module Refund.
Section Handler.
Context `{J : JsonLib} (md5 : string -> string).
Context (wechat : option wechat_client) (redis : bool).

Definition openRefundEnvelope (wc : wechat_client) : string -> (json -> string -> program) -> program :=
  openEnvelope wc "REFUND." "invalid refund event_type" "refund" "invalid refund associated_data".

(** The decrypted notification. *)
Definition readRefund (wc : wechat_client) (body signature serialNo : string)
    (notifyJson : json) (plaintext : string) (k : refund_notice -> program) : program :=
  match jparse plaintext with
  | None => reject "invalid resource json"
  | Some plainJson =>
      attempt appId <- get_string plainJson "appid";
      attempt mchId <- get_string plainJson "mchid";
      if negb (is_empty appId) && negb (String.eqb appId (wc_appid wc))
      then reject "appid mismatch"
      else if negb (is_empty mchId) && negb (String.eqb mchId (wc_mchid wc))
      then reject "mchid mismatch"
      else
        attempt refundNo <- get_string plainJson "out_refund_no";
        attempt refundStatusRaw <- get_string plainJson "refund_status";
        attempt refundId <- get_string plainJson "refund_id";
        if is_empty refundNo || is_empty refundStatusRaw
        then reject "missing refund_no/refund_status"
        else if String.eqb refundStatusRaw "SUCCESS" && is_empty refundId
        then reject "missing refund_id"
        else
          attempt id <- get_string notifyJson "id";
          let key := if is_empty id then refundNo +:+ ":" +:+ refundStatusRaw else id in
          k (RefundNotice key refundNo refundStatusRaw refundId plaintext body signature serialNo
               plainJson)
  end.

Definition dbUnavailable : error_code := PayError 1400 "db transaction unavailable".

Definition refundCallbackRow (n : refund_notice) (paymentNo : string) (receivedAt : Z) : callback_row :=
  CallbackRow paymentNo (rn_body n) (rn_signature n) (rn_serial n) true true receivedAt.

(** ** A finalized reservation was found *)

Definition recordDuplicateRefund (n : refund_notice) : program :=
  attempt tradeOrderNo <- get_string (rn_plain n) "out_trade_no";
  if is_empty tradeOrderNo
  then finish (fail_reply "missing out_trade_no" (PayError 1400 "missing out_trade_no"))
  else
    do a <- Sql Main (NewestOpenAttempt false tradeOrderNo);
    match a with
    | Ok [] => respondDbError
    | Ok (payment :: _) =>
        do receivedAt <- Now;
        do b <- Sql Main (InsertCallback (refundCallbackRow n (p_no payment) receivedAt));
        match b with
        | Ok _ => finish success_reply
        | Exc _ => respondDbError
        | Threw _ => reportMapperFailure
        end
    | Exc _ => respondDbError
    | Threw _ => reportMapperFailure
    end.

(** ** The callbacks of the transaction, from its end to its beginning *)

Definition answerWith (r : reply) : act io := Perform (Respond r) (fun _ => Return).

(** Roll back, then answer. *)
Definition rollBack (r : reply) : act io := Perform Rollback (fun _ => answerWith r).

Definition failWrite : act io := rollBack (fail_reply "internal error" dbUnavailable).

(** Roll back, then [reportMapperFailure]. *)
Definition mapperFailed : act io :=
  rollBack (fail_reply "internal error" (PayError 1400 "db mapper unavailable")).

(** [onFinalized]: the COMMIT. *)
Definition onCommitted (a : db_exception + unit) : act io :=
  match a with
  | inr _ => answerWith success_reply
  | inl e => rollBack (fail_reply ("db error: " +:+ what e) (PayError 1400 "db commit error"))
  end.

Definition commitRefund : act io := issue Commit onCommitted Throw Return.

(** [finalizeReservation] on the transaction. *)
Definition onFinalize (a : db_exception + list string) : act io :=
  match a with
  | inr [] => rollBack (fail_reply "internal error" (PayError 1400 "idempotency reservation lost"))
  | inr _ => commitRefund
  | inl _ => rollBack (fail_reply "internal error" (PayError 1400 "db idempotency error"))
  end.

Definition finalizeRefund (n : refund_notice) (owner : string) : act io :=
  issue (Finalize (rn_plaintext n) (rn_key n) owner) onFinalize mapperFailed Return.

Definition onCallbackInserted (n : refund_notice) (owner : string) (a : db_exception + unit) : act io :=
  match a with
  | inr _ => finalizeRefund n owner
  | inl _ => failWrite
  end.

Definition insertCallbackAndFinish (n : refund_notice) (owner paymentNo : string) : act io :=
  Perform Now (fun receivedAt =>
  issue (InsertCallback (refundCallbackRow n paymentNo receivedAt)) (onCallbackInserted n owner)
    mapperFailed Return).

(** [queueLedgerEntry] on the transaction. *)
Definition queueLedgerEntry (userId : Z) (orderNo paymentNo entryType amount : string)
    (onSuccess : act io) : act io :=
  Perform Now (fun createdAt =>
  issue (InsertLedger (LedgerRow userId orderNo paymentNo entryType amount createdAt))
    (fun _ => onSuccess) onSuccess Return).

(** The result of the conditional order update. *)
Definition onOrderCovered (a : db_exception + Z) : act io :=
  match a with inr _ => Return | inl _ => failWrite end.

(** [settledRefundFen]; [None]: the sum does not parse. *)
Definition settledRefunds (sumResult : list string) : option Z :=
  match sumResult with [] => Some 0 | sumText :: _ => parseAmountToFen sumText end.

(** The result of the settled-refund sum. *)
Definition onRefundSum (order : order_row) (orderNo : string) (a : db_exception + list string) : act io :=
  match a with
  | inl _ => failWrite
  | inr sumResult =>
      match settledRefunds sumResult with
      | None => failWrite
      | Some settledRefundFen =>
          if negb (refundsCoverOrderAmount settledRefundFen (fen_or_zero (o_amount order)))
          then Return
          else issue (RefundOrder orderNo "REFUNDED") onOrderCovered mapperFailed Return
      end
  end.

(** The result of the payload update. *)
Definition onPayloadUpdated (refundStatus : string) (order : order_row) (orderNo : string)
    (a : db_exception + Z) : act io :=
  match a with
  | inl _ => failWrite
  | inr _ =>
      if negb (String.eqb refundStatus "REFUND_SUCCESS") then Return
      else issue (SumRefunds orderNo "REFUND_SUCCESS") (onRefundSum order orderNo) Throw Return
  end.

(** The CAS matched no row: roll back, keep the audit row, acknowledge. *)
Definition onAlreadySettled (n : refund_notice) (paymentNo : string) : act io :=
  Perform Rollback (fun _ =>
  Perform Now (fun receivedAt =>
  Perform (Sql Main (InsertCallback (refundCallbackRow n paymentNo receivedAt))) (fun a =>
  match a with
  | Ok _ => answerWith success_reply
  | Exc _ => answerWith success_reply
  | Threw _ => answerWith success_reply
  end))).

(** The result of the settlement CAS. *)
Definition onRefundSettled (n : refund_notice) (owner refundStatus : string)
    (refund : refund_row) (order : order_row) (a : db_exception + list unit) : act io :=
  match a with
  | inl _ => failWrite
  | inr [] => onAlreadySettled n (r_payment refund)
  | inr _ =>
      let insertCallbackAndFinish := insertCallbackAndFinish n owner (r_payment refund) in
      issue (UpdateRefundPayload (rn_no n) (rn_plaintext n))
        (onPayloadUpdated refundStatus order (r_order refund))
        mapperFailed
        (if String.eqb refundStatus "REFUND_SUCCESS"
         then queueLedgerEntry (o_user order) (r_order refund) (r_payment refund) "REFUND"
                (r_amount refund) insertCallbackAndFinish
         else insertCallbackAndFinish)
  end.

(** The callback of [newTransactionAsync]. *)
Definition settleRefund (n : refund_notice) (owner refundStatus : string)
    (refund : refund_row) (order : order_row) : act io :=
  issue (SettleRefund refundStatus (rn_id n) (rn_no n))
    (onRefundSettled n owner refundStatus refund order) Throw Return.

(** At most eight statements run on the transaction. *)
Definition fuel : nat := 8.

Definition settleRefundInTransaction (n : refund_notice) (owner refundStatus : string)
    (refund : refund_row) (order : order_row) : program :=
  do _ <- Begin; drain fuel (settleRefund n owner refundStatus refund order) [].

(** ** The checks before the transaction *)

(** The result callback of the order lookup. *)
Definition onRefundOrder (n : refund_notice) (owner refundStatus notifyCurrency : string)
    (refund : refund_row) (order : order_row) : program :=
  if negb (is_empty notifyCurrency) && negb (String.eqb notifyCurrency (o_currency order))
  then finish (fail_reply "refund currency mismatch" dbUnavailable)
  else settleRefundInTransaction n owner refundStatus refund order.

(** The result callback of the refund lookup. *)
Definition onRefund (n : refund_notice) (owner refundStatus : string) (refund : refund_row) : program :=
  if String.eqb (r_status refund) "REFUND_SUCCESS" then finish success_reply
  else
    attempt amountJson <- index (rn_plain n) "amount";
    attempt notifyCurrency <- get_string amountJson "currency";
    attempt notifyRefundFen <- get_int64 amountJson "refund";
    match parseAmountToFen (r_amount refund) with
    | None => finish (fail_reply "invalid refund amount in callback" dbUnavailable)
    | Some refundTotalFen =>
        if notifyRefundFen <=? 0
        then finish (fail_reply "invalid refund amount in callback" dbUnavailable)
        else if negb (notifyRefundFen =? refundTotalFen)
        then finish (fail_reply "refund amount mismatch" dbUnavailable)
        else
          do a <- Sql Main (FindOrder (r_order refund));
          match a with
          | Ok order => onRefundOrder n owner refundStatus notifyCurrency refund order
          | Exc _ => finish (fail_reply "order not found" (SystemError 1404))
          | Threw _ => reportMapperFailure
          end
    end.

(** The reservation is ours. *)
Definition onReserved (n : refund_notice) (owner : string) : program :=
  let refundStatus := mapRefundStatus (rn_raw n) in
  if is_empty refundStatus then finish (fail_reply "invalid refund status" dbUnavailable)
  else
    do a <- Sql Main (FindRefund (rn_no n));
    match a with
    | Ok refund => onRefund n owner refundStatus refund
    | Exc _ => finish (fail_reply "refund not found" (SystemError 1404))
    | Threw _ => reportMapperFailure
    end.

Definition reservationTtl : Z := 7 * 24 * 60 * 60 * 1000000.

Definition reserveRefund (n : refund_notice) : program :=
  do now <- Now;
  newReservationToken (fun owner =>
  do a <- Sql Main (ReserveCallback (rn_key n) (md5 (rn_body n)) owner (now + reservationTtl));
  match a with
  | Ok [] =>
      finish (fail_reply "callback still in progress" (PayError 1400 "callback still in progress"))
  | Ok _ => onReserved n owner
  | Exc _ =>
      finish (fail_reply "internal error" (PayError 1400 "idempotency insert failed"))
  | Threw _ => reportMapperFailure
  end).

Definition proceedRefundDb (n : refund_notice) : program :=
  do a <- Sql Main (FindIdempotency (rn_key n));
  match a with
  | Ok existing =>
      match i_snapshot existing with
      | None =>
          dropUnfinalizedReservation (rn_key n)
            (finish (fail_reply "callback still in progress"
                       (PayError 1400 "callback still in progress")))
      | Some _ => recordDuplicateRefund n
      end
  | Exc (UnexpectedRows _) => reserveRefund n
  | Exc (DbFailure _) =>
      finish (fail_reply "internal error" (PayError 1400 "idempotency lookup failed"))
  | Threw _ => reportMapperFailure
  end.

Definition handleRefundCallback (body signature timestamp nonce serialNo : string) : program :=
  match wechat with
  | None => finish (fail_reply "wechat client not ready" (SystemError 1400))
  | Some wc =>
      if negb (verifySignature wechat body signature timestamp nonce serialNo)
      then finish (fail_reply "signature verification failed" (SystemError 1400))
      else
        isTimestampFresh timestamp (fun tsError =>
        match tsError with
        | Some e => reject e
        | None =>
            openRefundEnvelope wc body (fun notifyJson plaintext =>
            readRefund wc body signature serialNo notifyJson plaintext (fun n =>
            checkNonce redis nonce (fun firstSight =>
            if negb firstSight then reject "replay detected" else proceedRefundDb n)))
        end)
  end.
End Handler.
End Refund.
