(* ===== verification/RefDbFacts.v ===== *)
(** * Facts about the reference environment, shared by the notification proofs:
    what one statement does to the tables that carry money state, and what is left
    of a transaction whatever fails. *)
From S2P Require Import Prelude Cxx Amount Effects Store RefDb.

(** ** Environment lemmas *)

Lemma exactly_one_inv {A} (rs : list A) r : exactly_one rs = Ok r -> rs = [r].
Proof. destruct rs as [|x [|y ys]]; simpl; congruence. Qed.

Section Env.
Context (sum_text : list string -> string) (server_now : Z).
Abbreviation exec := (exec sum_text server_now).
Abbreviation sql := (sql sum_text server_now).
Abbreviation handle := (handle sum_text server_now).

(** The tables that carry money state. *)
Definition money (d : db) : list payment_row * list order_row * list refund_row * list ledger_row :=
  (d_payments d, d_orders d, d_refunds d, d_ledgers d).

(** The tables an open transaction would commit, the committed ones without it. *)
Definition outlook (w : world) : db := w_main (release w).

Definition view (w : world) : db :=
  match w_txn w with TxOpen ws => apply_writes ws (w_main w) | _ => w_main w end.

Lemma outlook_view w : outlook w = view w.
Proof. unfold outlook, release, commit, view. by destruct (w_txn w) eqn:E. Qed.

Lemma outlook_eq w w' : w_txn w = w_txn w' -> w_main w = w_main w' -> outlook w = outlook w'.
Proof. intros Ht Hm. rewrite !outlook_view. unfold view. by rewrite Ht, Hm. Qed.

Lemma apply_writes_snoc ws f d : apply_writes (ws ++ [f])%list d = f (apply_writes ws d).
Proof. unfold apply_writes. by rewrite fold_left_app. Qed.

Lemma exec_not_threw R (q : stmt R) d w : fst (exec q d) <> Threw w.
Proof.
  destruct q; simpl; try done; try (by destruct (select _ _) as [|? []]); by split_goal.
Qed.

(** A statement on an open transaction. *)
Lemma txn_statement R (q : stmt R) w ws a w' :
  w_txn w = TxOpen ws -> is_commit q = false -> sql Txn q w = (a, w') ->
  w_main w' = w_main w /\ w_replies w' = w_replies w /\ w_now w' = w_now w /\
  ((exists r, a = Ok r /\ fst (exec q (view w)) = Ok r /\
      w_txn w' = TxOpen (ws ++ [snd (exec q (view w))])%list) \/
   (exists e, a = Exc e /\ (w_txn w' = TxAborted \/
      (w_txn w' = TxOpen ws /\ exists u, fst (exec q (view w)) = Exc (UnexpectedRows u))))).
Proof.
  intros Hw Hc. unfold RefDb.sql, view. rewrite Hw.
  assert (Hq : forall w, w_txn w = TxOpen ws -> sql_txn sum_text server_now q w = (a, w') ->
    w_main w' = w_main w /\ w_replies w' = w_replies w /\ w_now w' = w_now w /\
    ((exists r, a = Ok r /\ fst (exec q (apply_writes ws (w_main w))) = Ok r /\
        w_txn w' = TxOpen (ws ++ [snd (exec q (apply_writes ws (w_main w)))])%list) \/
     (exists e, a = Exc e /\ (w_txn w' = TxAborted \/
        (w_txn w' = TxOpen ws /\
         exists u, fst (exec q (apply_writes ws (w_main w))) = Exc (UnexpectedRows u)))))).
  { clear Hw w. intros w Hw. unfold sql_txn. rewrite Hw.
    pose proof (exec_not_threw R q (apply_writes ws (w_main w))) as Hn.
    destruct (exec q (apply_writes ws (w_main w))) as [[r|[u|u]|u] f]; rewrite ?Hc; simpl in *.
    - intros [= <- <-]. repeat split. left. eauto.
    - intros [= <- <-]. repeat split. right. eexists. split; [done |]. right. eauto.
    - intros [= <- <-]. repeat split. right. eauto.
    - by destruct (Hn u). }
  destruct (w_faults w) as [|[] fs] eqn:Hf; [by apply Hq | |].
  - intros [= <- <-]. repeat split. right. eauto.
  - intros H. destruct (Hq (set_faults fs w)) as (? & ? & ? & ?); auto.
Qed.

Lemma txn_commit w ws a w' :
  w_txn w = TxOpen ws -> sql Txn Commit w = (a, w') ->
  w_replies w' = w_replies w /\
  ((a = Ok tt /\ w_txn w' = TxNone /\ w_main w' = view w) \/
   (exists e, a = Exc e /\ w_txn w' = TxAborted /\ w_main w' = w_main w)).
Proof.
  intros Hw. unfold RefDb.sql, view. rewrite Hw.
  destruct (w_faults w) as [|[] fs]; unfold sql_txn; simpl; rewrite ?Hw.
  - intros [= <- <-]. unfold commit. rewrite Hw. auto.
  - intros [= <- <-]. split; [done |]. right. eauto.
  - intros [= <- <-]. unfold commit. simpl. rewrite Hw. auto.
Qed.

(** A statement on the main connection. *)
Lemma main_statement R (q : stmt R) w a w' :
  sql Main q w = (a, w') ->
  w_txn w' = w_txn w /\ w_replies w' = w_replies w /\ w_now w' = w_now w /\
  ((exists r, a = Ok r /\ fst (exec q (w_main w)) = Ok r /\
      w_main w' = snd (exec q (w_main w)) (w_main w)) \/
   (exists e, a = Exc e /\ w_main w' = w_main w)).
Proof.
  unfold RefDb.sql.
  assert (Hq : forall w, sql_main sum_text server_now q w = (a, w') ->
    w_txn w' = w_txn w /\ w_replies w' = w_replies w /\ w_now w' = w_now w /\
    ((exists r, a = Ok r /\ fst (exec q (w_main w)) = Ok r /\
        w_main w' = snd (exec q (w_main w)) (w_main w)) \/
     (exists e, a = Exc e /\ w_main w' = w_main w))).
  { clear w. intros w. unfold sql_main. pose proof (exec_not_threw R q (w_main w)) as Hn.
    destruct (exec q (w_main w)) as [[r|u|u] f]; simpl in *; intros [= <- <-];
      [repeat split; eauto.. | by destruct (Hn u)]. }
  destruct (w_faults w) as [|[] fs]; [by apply Hq | |].
  - intros [= <- <-]. repeat split. right. eauto.
  - intros H. destruct (Hq (set_faults fs w)) as (? & ? & ? & ?); auto.
Qed.
(** ** One delivery, started in [w0] *)

Section OneDelivery.
Context (w0 : world).

(** Nothing is pending on the money tables. *)
Definition clean (w : world) : Prop :=
  money (outlook w) = money (w_main w0) /\ money (w_main w) = money (w_main w0) /\
  w_replies w = w_replies w0.

(** A transaction is open whose commit would leave the money tables [m]. *)
Definition pending (m : list payment_row * list order_row * list refund_row * list ledger_row) (w : world) : Prop :=
  exists ws, w_txn w = TxOpen ws /\ money (apply_writes ws (w_main w)) = m /\
    money (w_main w) = money (w_main w0) /\ w_replies w = w_replies w0.

Lemma pending_view m w : pending m w -> money (view w) = m.
Proof. intros (ws & Hw & Hm & _). unfold view. by rewrite Hw. Qed.

(** Statements that do not check row counts. *)
Definition unchecked {R} (q : stmt R) : bool :=
  match q with
  | FindIdempotency _ | GetPayOrder _ | FindRefund _ | FindOrder _ | FindPayment _ _ | FindAttempt _ | Commit => false
  | _ => true
  end.

Lemma unchecked_rows R (q : stmt R) d u :
  unchecked q = true -> fst (exec q d) <> Exc (UnexpectedRows u).
Proof. destruct q; simpl; try done; intros _; by split_goal. Qed.

(** One statement of an open transaction: it succeeds, or nothing is pending. *)
Lemma pending_step R (q : stmt R) m w a w' :
  unchecked q = true -> pending m w -> sql Txn q w = (a, w') ->
  (exists r, a = Ok r /\ fst (exec q (view w)) = Ok r /\
     pending (money (snd (exec q (view w)) (view w))) w' /\
     view w' = snd (exec q (view w)) (view w)) \/
  (exists e, a = Exc e /\ clean w' /\ w_txn w' = TxAborted).
Proof.
  intros Hu (ws & Hw & Hm & Hm0 & Hr) Hs.
  assert (Hc : is_commit q = false) by (by destruct q).
  destruct (txn_statement _ _ _ _ _ _ Hw Hc Hs) as (Hmain & Hrep & _ & [(r & -> & Hx & Ht)|(e & -> & H)]).
  - left. exists r. assert (Hv : view w = apply_writes ws (w_main w)) by (unfold view; by rewrite Hw).
    split; [done |]. split; [done |]. split.
    + eexists. split; [exact Ht |]. by rewrite apply_writes_snoc, Hmain, <- Hv, Hrep.
    + unfold view at 1. rewrite Ht. by rewrite apply_writes_snoc, Hmain, <- Hv.
  - right. exists e. split; [done |]. destruct H as [Ht|(_ & u & Hx)].
    + split; [|done]. split; [|by rewrite Hmain, Hrep]. unfold outlook, release, commit. rewrite Ht. by rewrite Hmain.
    + by destruct (unchecked_rows R q (view w) u Hu).
Qed.

(** A statement on a transaction that was aborted. *)
Lemma aborted_step R (q : stmt R) w a w' :
  clean w /\ w_txn w = TxAborted -> sql Txn q w = (a, w') ->
  exists e, a = Exc e /\ clean w' /\ w_txn w' = TxAborted.
Proof.
  intros [(Ho & Hm & Hr) Ht] Hs.
  assert (H : w_main w' = w_main w /\ w_replies w' = w_replies w /\ w_txn w' = TxAborted /\
              exists e, a = Exc e).
  { revert Hs. unfold RefDb.sql. destruct (w_faults w) as [|[] fs];
      unfold sql_txn; simpl; rewrite ?Ht; intros [= <- <-]; eauto. }
  destruct H as (Hmain & Hrep & Htxn & e & ->). exists e. split; [done |]. split; [|done].
  split; [|by rewrite Hmain, Hrep]. rewrite <- Ho. f_equal. apply outlook_eq; congruence.
Qed.

(** Statements that leave the money tables alone. *)
Definition keeps {R} (q : stmt R) : bool :=
  match q with
  | SettlePayment _ _ _ _ | UpdateOrderStatus _ _ | RefundOrder _ _ | InsertLedger _
  | SettleRefund _ _ _ | UpdateRefundPayload _ _ | InsertRefund _ _ _ _ _
  | FailRefund _ _ _ | AdvanceRefund _ _ _ _ | UpdateRefund _ _ _ | UpdatePayment _ _ _
  | InsertOrder _ _ _ _ _ _ _ _ _ | InsertPayment _ _ _ _ _ _ | AdvancePayment _ _ _ | AdvanceOrder _ _ => false
  | _ => true
  end.

Lemma keeps_money R (q : stmt R) d d' : keeps q = true -> money (snd (exec q d) d') = money d'.
Proof. destruct q; try done; intros _; simpl; try done; by split_goal. Qed.

Lemma main_step R (q : stmt R) w a w' :
  keeps q = true -> w_txn w = TxNone -> clean w -> sql Main q w = (a, w') ->
  clean w' /\ w_txn w' = TxNone /\
  ((exists r, a = Ok r /\ fst (exec q (w_main w)) = Ok r) \/ exists e, a = Exc e).
Proof.
  intros Hk Ht (Ho & Hm & Hr) Hs.
  destruct (main_statement _ _ _ _ _ Hs) as (Htxn & Hrep & _ & H).
  assert (Hmoney : money (w_main w') = money (w_main w)).
  { destruct H as [(r & -> & _ & ->)|(e & -> & ->)]; [by apply keeps_money | done]. }
  rewrite Ht in Htxn. split; [|split; [done |]].
  - split; [|by rewrite Hmoney, Hrep]. unfold outlook, release, commit. rewrite Htxn. by rewrite Hmoney.
  - destruct H as [(r & -> & Hx & _)|(e & -> & _)]; eauto.
Qed.

Lemma pending_clean w : pending (money (w_main w0)) w -> clean w.
Proof.
  intros H. split; [|by destruct H as (ws & _ & _ & ? & ?)].
  rewrite outlook_view. by apply pending_view.
Qed.

Lemma pending_main m w : pending m w -> money (w_main w) = money (w_main w0).
Proof. by intros (ws & _ & _ & ? & _). Qed.

Lemma pending_replies m w : pending m w -> w_replies w = w_replies w0.
Proof. by intros (ws & _ & _ & _ & ?). Qed.

End OneDelivery.
End Env.

(** ** Lemmas on rows *)

Lemma select_nil_existsb {A} (c : A -> bool) rs : select c rs = [] -> existsb c rs = false.
Proof. unfold select. induction rs as [|r rs IH]; simpl; [done |]. by destruct (c r). Qed.

Lemma select_nil {A} (c : A -> bool) rs : select c rs = [] <-> forall r, In r rs -> c r = false.
Proof.
  unfold select. split.
  - intros H r Hin. destruct (c r) eqn:E; [|done].
    assert (Hf : In r (List.filter c rs)) by (by apply filter_In). by rewrite H in Hf.
  - intros H. destruct (List.filter c rs) as [|x xs] eqn:E; [done |].
    assert (Hf : In x (List.filter c rs)) by (rewrite E; by left).
    apply filter_In in Hf as [Hin Hc]. by rewrite H in Hc.
Qed.

(** The reservation of a new key is the only row Finalize sees. *)
Lemma reserved_rows k P ids row (f : idemp_row -> idemp_row) :
  select (key_is k) ids = [] -> key_is k row && P row = true ->
  select (fun r => key_is k r && P r) (ids ++ [row])%list = [row] /\
  update_where (fun r => key_is k r && P r) f (ids ++ [row])%list = (ids ++ [f row])%list.
Proof.
  intros Hn Hr. rewrite select_nil in Hn. unfold select, update_where.
  rewrite List.filter_app, map_app. simpl. rewrite Hr. split.
  - replace (List.filter _ ids) with (@nil idemp_row); [done |]. symmetry. apply select_nil.
    intros r Hin. by rewrite Hn.
  - f_equal. rewrite <- (map_id ids) at 2. apply map_ext_in. intros r Hin. by rewrite Hn.
Qed.

Lemma select_map {A} (c : A -> bool) (f : A -> A) rs :
  (forall r, In r rs -> c (f r) = c r) -> select c (map f rs) = map f (select c rs).
Proof.
  unfold select. induction rs as [|r rs IH]; intros H; simpl; [done |].
  rewrite H by (by left). rewrite IH by (intros; apply H; by right). by destruct (c r).
Qed.

Lemma select_and {A} (c d : A -> bool) rs : select (fun r => c r && d r) rs = select d (select c rs).
Proof.
  unfold select. induction rs as [|r rs IH]; simpl; [done |].
  destruct (c r); simpl; [|done]. destruct (d r); by rewrite IH.
Qed.

(** ** Appended rows *)

Section Appended.
Context {A : Type} (c : A -> bool) (rows : list A) (r : A).

Lemma update_none f : existsb c rows = false -> update_where c f rows = rows.
Proof.
  unfold update_where. induction rows as [|x xs IH]; simpl; [done |]. intros H. apply orb_false_iff in H as [-> H].
  by rewrite IH.
Qed.

Lemma select_none : existsb c rows = false -> select c rows = [].
Proof.
  unfold select. induction rows as [|x xs IH]; simpl; [done |]. intros H. apply orb_false_iff in H as [-> H]. auto.
Qed.

Lemma select_appended : existsb c rows = false -> c r = true -> select c (rows ++ [r])%list = [r].
Proof. intros H Hr. unfold select. rewrite List.filter_app. fold (select c rows). rewrite select_none by done. simpl. by rewrite Hr. Qed.

Lemma update_appended f : existsb c rows = false -> c r = true -> update_where c f (rows ++ [r])%list = (rows ++ [f r])%list.
Proof.
  intros H Hr. unfold update_where. rewrite map_app. fold (update_where c f rows). rewrite update_none by done. simpl. by rewrite Hr.
Qed.

Lemma count_appended : existsb c rows = false -> c r = true -> count c (rows ++ [r])%list = 1.
Proof. intros. unfold count. by rewrite select_appended. Qed.

Lemma existsb_weaken (c' : A -> bool) :
  (forall x, c x = true -> c' x = true) -> existsb c' rows = false -> existsb c rows = false.
Proof.
  intros H. induction rows as [|x xs IH]; simpl; [done |]. rewrite !orb_false_iff. intros [Hx Hxs].
  split; [|auto]. destruct (c x) eqn:E; [|done]. by rewrite H in Hx.
Qed.
End Appended.
