(* ===== verification/Scenario.v ===== *)
(** * Concrete deployments, on which the witnesses evaluate: one order of 12.50
    CNY with one open payment attempt, the same order paid and with an open
    refund, and a WeChat client that accepts every signature and decrypts every
    resource to the same text. *)
From S2P Require Import Prelude Cxx Json Effects Store Amount RefDb Callback RefundCallback Service RefundService.

Definition envelope (event_type associated : string) : Tree.tree :=
  Tree.TObject [("id", Tree.TString "EV-1"); ("event_type", Tree.TString event_type);
    ("resource_type", Tree.TString "encrypt-resource");
    ("resource", Tree.TObject [("algorithm", Tree.TString "AEAD_AES_256_GCM");
       ("ciphertext", Tree.TString "c"); ("nonce", Tree.TString "n");
       ("associated_data", Tree.TString associated)])].

Definition paid_notice (state : string) (total : Z) : Tree.tree :=
  Tree.TObject [("appid", Tree.TString "wx1"); ("mchid", Tree.TString "m1");
    ("out_trade_no", Tree.TString "O1"); ("transaction_id", Tree.TString "T1");
    ("trade_state", Tree.TString state);
    ("amount", Tree.TObject [("total", Tree.TInt total); ("currency", Tree.TString "CNY")])].

Definition docs (state : string) (total : Z) : list (string * Tree.tree) :=
  [("BODY", envelope "TRANSACTION.SUCCESS" "transaction"); ("PLAIN", paid_notice state total)].

Definition shop_client : wechat_client :=
  WechatClient (fun _ _ _ _ _ => true) (fun _ _ _ => inr "PLAIN") "wx1" "m1".

Definition shop_md5 (s : string) : string := "md5:" +:+ s.

Definition shop_payment : payment_row := PaymentRow "P1" "O1" "PROCESSING" "12.50" None None 1 None.
Definition shop_order : order_row := OrderRow 7 "O1" 42 "12.50" "CNY" "PAYING" "wechat" "" 1 None.

Definition shop_db : db := Db [] [shop_payment] [shop_order] [] [] [].

(** 2024-01-01T00:00:00Z, in microseconds. *)
Definition shop_time : Z := 1704067200000000.

Definition shop (faults : list bool) : world :=
  World shop_db TxNone [] shop_time "0f-1e" [] faults.

Definition no_sum (amounts : list string) : string := "0".

Definition shop_handle := handle no_sum shop_time.

(** The delivery of a notification of [total] fen in [state]. *)
Definition deliver (state : string) (total : Z) : program :=
  @Payment.handlePaymentCallback (Tree.lib (docs state total)) shop_md5 (Some shop_client) true
    "BODY" "sig" "1704067200" "nonce-1" "serial".

Definition deliver_history (state : string) (total : Z) (faults : list bool) : trace :=
  fst (snd (run (recording shop_handle) (deliver state total) ([], shop faults))).

Definition deliver_outcome (state : string) (total : Z) (faults : list bool) : outcome :=
  fst (run (recording shop_handle) (deliver state total) ([], shop faults)).

(** The delivery, as an execution against the history semantics. *)
Lemma deliver_runs state total faults :
  guaranteed txn_rely (deliver_history state total faults) ->
  runs (logs txn_rely) (deliver state total) [] (deliver_outcome state total faults)
    (deliver_history state total faults).
Proof. apply recorded_runs. Qed.

(** ** Refunds *)

Definition refund_text (status : string) (total : Z) : Tree.tree :=
  Tree.TObject [("appid", Tree.TString "wx1"); ("mchid", Tree.TString "m1");
    ("out_refund_no", Tree.TString "R1"); ("refund_id", Tree.TString "RF1");
    ("out_trade_no", Tree.TString "O1"); ("refund_status", Tree.TString status);
    ("amount", Tree.TObject [("refund", Tree.TInt total); ("currency", Tree.TString "CNY")])].

Definition refund_docs (status : string) (total : Z) : list (string * Tree.tree) :=
  [("BODY", envelope "REFUND.SUCCESS" "refund"); ("PLAIN", refund_text status total)].

Definition shop_refund : refund_row := RefundRow 3 "R1" "O1" "P1" "REFUND_INIT" "12.50" None None 0.

Definition paid_db : db :=
  Db [] [PaymentRow "P1" "O1" "SUCCESS" "12.50" (Some "PLAIN") (Some "T1") 1 None]
     [set_order_status "PAID" shop_order] [shop_refund] [] [].

Definition paid_shop (faults : list bool) : world :=
  World paid_db TxNone [] shop_time "0f-1e" [] faults.

(** Sums printed as PostgreSQL prints them. *)
Definition shop_sum (amounts : list string) : string :=
  yuanString (fold_right Z.add 0 (map fen_or_zero amounts)).

Definition refund_handle := handle shop_sum shop_time.

(** The delivery of a refund notification of [total] fen. *)
Definition deliver_refund (status : string) (total : Z) : program :=
  @Refund.handleRefundCallback (Tree.lib (refund_docs status total)) shop_md5 (Some shop_client) true
    "BODY" "sig" "1704067200" "nonce-1" "serial".

Definition refund_run (status : string) (total : Z) (faults : list bool) : outcome * (trace * world) :=
  run (recording refund_handle) (deliver_refund status total) ([], paid_shop faults).

Definition refund_history (status : string) (total : Z) (faults : list bool) : trace :=
  fst (snd (refund_run status total faults)).

Lemma refund_runs status total faults :
  guaranteed txn_rely (refund_history status total faults) ->
  runs (logs txn_rely) (deliver_refund status total) [] (fst (refund_run status total faults))
    (refund_history status total faults).
Proof. apply recorded_runs. Qed.

(** ** Refund requests: one paid order of 12.50, and a WeChat channel that accepts
    every refund *)

Definition open_db : db :=
  Db [] [PaymentRow "P1" "O1" "SUCCESS" "12.50" None (Some "T1") 1 None]
     [OrderRow 7 "O1" 42 "12.50" "CNY" "PAID" "wechat" "" 1 None] [] [] [].

Definition lib0 : JsonLib := Tree.lib [].

Definition accepted : @channel_answer lib0 :=
  @Answered lib0 (Tree.TObject [("status", Tree.TString "SUCCESS"); ("refund_id", Tree.TString "RF1")]) "".

Definition refund_of_8 : refund_request := RefundRequest "O1" "P1" "R1" "8.00" "" "" "".
Definition refund_of_7 : refund_request := RefundRequest "O1" "P1" "R2" "7.00" "" "" "".

Definition deployed (faults : list bool) : @deployment lib0 :=
  @Deployment lib0 (World open_db TxNone [] shop_time "u" [] faults) [accepted] [] [] false.

Definition refund_service (request : refund_request) (key : string) : prog (@svc lib0) :=
  @Refunds.createRefund lib0 shop_md5 ["wechat"] false 60 request key (@Refunds.answerCaller lib0).

Definition request_run (request : refund_request) (key : string) (faults : list bool) :
    outcome * (list (event (@svc lib0)) * @deployment lib0) :=
  run (recording (@handle_svc lib0 shop_sum shop_time)) (refund_service request key) ([], deployed faults).

Definition request_history (request : refund_request) (key : string) (faults : list bool) :
    list (event (@svc lib0)) := fst (snd (request_run request key faults)).
