(* ===== verification/RefundGuard.v ===== *)
(** * Refund requests: what they do whatever the database, the channels and the
    other requests answer. *)
From S2P Require Import Prelude Cxx Json Effects Store Amount RefDb Idempotency Service Queued RefundService Scenario.
Import RefundService.Refunds.

(** ** What a request may do after a history *)

Section Guarantee.
Context `{J : JsonLib}.
Abbreviation trace := (list (event svc)).

Definition main {R} (q : stmt R) (a : answer R) : event svc := Event (Io (Sql Main q)) a.
Definition in_txn {R} (q : stmt R) (a : answer R) : event svc := Event (Io (Sql Txn q)) a.
Definition begun : event svc := Event (Io BeginOrNull) true.

(** The order was read PAID and the payment SUCCESS, and the amount is positive
    and at most the order's. *)
Definition job_checked (j : refund_job) (h : trace) : Prop :=
  exists order payment,
    In (main (FindOrder (j_orderNo j)) (Ok order)) h /\ o_status order = "PAID" /\
    parseAmountToFen (o_amount order) = Some (j_totalFen j) /\
    parseAmountToFen (j_amount j) = Some (j_refundFen j) /\ 0 < j_refundFen j <= j_totalFen j /\
    In (main (FindPayment (j_paymentNo j) (j_orderNo j)) (Ok payment)) h /\ p_status payment = "SUCCESS".

(** The steps of the transaction, each on top of the one before. *)
Definition opened (j : refund_job) (h : trace) : Prop :=
  exists h', h = begun :: h' /\ job_checked j h'.

Definition locked (j : refund_job) (h : trace) : Prop :=
  exists row rows h', h = in_txn (LockPayment (j_orderNo j) (j_paymentNo j)) (Ok (row :: rows)) :: h' /\ opened j h'.

(** The live refunds of the order, read under the lock, leave room for it. *)
Definition summed (j : refund_job) (h : trace) : Prop :=
  exists sums refundedFen h', h = in_txn (SumLiveRefunds (j_orderNo j)) (Ok sums) :: h' /\ locked j h' /\
    refund_sum_fen sums = Some refundedFen /\ wrap64 (refundedFen + j_refundFen j) <= j_totalFen j.

Definition insertion (j : refund_job) : stmt unit :=
  InsertRefund (j_refundNo j) (j_orderNo j) (j_paymentNo j) "REFUND_INIT" (j_amount j).

Definition inserted (j : refund_job) (h : trace) : Prop :=
  exists h', h = in_txn (insertion j) (Ok tt) :: h' /\ summed j h'.

Definition routed (j : refund_job) (order : order_row) (h : trace) : Prop :=
  exists h', h = in_txn (FindOrder (j_orderNo j)) (Ok order) :: h' /\ inserted j h'.

(** The refund row is durable, and [channel] is its order's. *)
Definition committed (j : refund_job) (channel : string) (h : trace) : Prop :=
  exists order h', h = in_txn Commit (Ok tt) :: h' /\ routed j order h' /\ o_channel order = channel.

(** The job is the one the request asked for. *)
Definition serves (request : refund_request) (j : refund_job) : Prop :=
  j_orderNo j = rq_orderNo request /\ j_amount j = rq_amount request /\ j_reason j = rq_reason request /\
  (rq_paymentNo request <> "" -> j_paymentNo j = rq_paymentNo request) /\
  (rq_refundNo request <> "" -> j_refundNo j = rq_refundNo request) /\
  rq_notifyUrl (j_request j) = rq_notifyUrl request /\ rq_fundsAccount (j_request j) = rq_fundsAccount request.

(** The request with its payment looked up. *)
Definition completes (request r : refund_request) : Prop :=
  rq_orderNo r = rq_orderNo request /\ rq_amount r = rq_amount request /\ rq_reason r = rq_reason request /\
  (rq_paymentNo request <> "" -> rq_paymentNo r = rq_paymentNo request) /\
  rq_refundNo r = rq_refundNo request /\
  rq_notifyUrl r = rq_notifyUrl request /\ rq_fundsAccount r = rq_fundsAccount request.

Definition names_refund (r : refund_request) (refundNo : string) : Prop :=
  rq_refundNo r <> "" -> refundNo = rq_refundNo r.

(** The call that asks the channel for the refund [j]. *)
Definition asks (j : refund_job) (channel : string) (op : channel_op) : Prop :=
  (channel = "alipay" /\ op = ChRefund (alipayPayload j)) \/
  (channel = "wechat" /\ op = ChRefund (wechatPayload j)).

(** The channel was asked for [j], once, and answered [result] and [error]. *)
Definition told (j : refund_job) (channel : string) (result : json) (error : string) (h : trace) : Prop :=
  exists op h1 h2, h = (h1 ++ Event (Call channel op) (Answered result error) :: h2)%list /\
    asks j channel op /\ committed j channel h2 /\ calls_of h1 = [] /\ calls_of h2 = [].

(** What makes a failure certain enough to be booked, per channel: Alipay's any
    error; WeChat's refusals. *)
Definition refusal (channel : string) (result : json) (error : string) : Prop :=
  if String.eqb channel "alipay"
  then error <> "" \/ (error = "" /\ exists code, get_string result "code" = Some code /\ code <> "10000")
  else
    (error <> "" /\ refundCertainlyDidNotHappen error = true) \/
    (error = "" /\ exists wechatStatus code,
       get_string result "status" = Some wechatStatus /\ get_string result "code" = Some code /\
       (mapRefundStatus wechatStatus = "REFUND_FAIL" \/ (mapRefundStatus wechatStatus = "" /\ code <> ""))).

(** An accepted refund and the status it is booked under. *)
Definition acceptance (channel : string) (result : json) (error status : string) : Prop :=
  error = "" /\
  if String.eqb channel "alipay"
  then get_string result "code" = Some "10000" /\ status = "REFUND_SUCCESS"
  else exists wechatStatus, get_string result "status" = Some wechatStatus /\
    status = mapRefundStatus wechatStatus /\ status <> "" /\ status <> "REFUND_FAIL".

(** The refund [s] was accepted and its row advanced. *)
Definition advanced (s : settlement) (h : trace) : Prop :=
  exists a, In (main (AdvanceRefund (st_no s) (st_status s) (st_id s) (toJsonString (st_result s))) (Ok a)) h.

Definition covered (s : settlement) (h : trace) : Prop :=
  exists sums fen, In (main (SumRefunds (st_order s) "REFUND_SUCCESS") (Ok sums)) h /\
    refund_sum_fen sums = Some fen /\ refundsCoverOrderAmount fen (st_total s) = true.

(** The statements a request may issue on its transaction. *)
Definition txn_allowed (h : trace) {R} (q : stmt R) : Prop :=
  match q with
  | LockPayment o p => exists j, opened j h /\ o = j_orderNo j /\ p = j_paymentNo j
  | SumLiveRefunds o => exists j, locked j h /\ o = j_orderNo j
  | InsertRefund no o p st a =>
      exists j, summed j h /\ no = j_refundNo j /\ o = j_orderNo j /\ p = j_paymentNo j /\
        st = "REFUND_INIT" /\ a = j_amount j
  | FindOrder o => exists j, inserted j h /\ o = j_orderNo j
  | Commit => exists j order, routed j order h
  | _ => False
  end.

(** The writes it may issue outside of one. *)
Definition main_allowed (h : trace) {R} (q : stmt R) : Prop :=
  match q with
  | AdvanceRefund no st id payload =>
      exists j channel result error, told j channel result error h /\
        acceptance channel result error st /\ no = j_refundNo j /\ payload = toJsonString result
  | RefundOrder o st =>
      exists s, advanced s h /\ covered s h /\ st_status s = "REFUND_SUCCESS" /\ o = st_order s /\ st = "REFUNDED"
  | ReserveRequest _ _ _ | UpdateSnapshot _ _ _ | DeleteReservation _ _ => True
  | FindLiveIdempotency _ _ | NewestAttempt _ _ | FindPayment _ _ | FindOrder _
  | FindSettledRefund _ _ _ | CountOpenRefunds _ _ _ | SumRefunds _ _ => True
  | _ => False
  end.

(** The failures it may book. *)
Definition post_allowed (channels : list string) (h : trace) {R} (q : stmt R) : Prop :=
  match q with
  | FailRefund no st _ =>
      st = "REFUND_FAIL" /\ exists j, no = j_refundNo j /\
        ((exists channel result error, told j channel result error h /\ refusal channel result error) \/
         (committed j "wechat" h /\ findChannel channels "wechat" = false))
  | _ => False
  end.

Definition refund_guarantee (channels : list string) (request : refund_request) (h : trace) (ev : event svc) : Prop :=
  match ev with
  | Event e _ =>
      match e with
      | Io (Sql Txn q) => txn_allowed h q
      | Io (Sql Main q) => main_allowed h q
      | Io (Begin | Step _ | Respond _) => False
      | Io BeginOrNull => calls_of h = []
      | Io _ => True
      | Call channel op =>
          exists j, serves request j /\ committed j channel h /\ asks j channel op /\ calls_of h = []
      | Post q => post_allowed channels h q
      | Claim => False
      | Draw _ => False
      | Answer _ _ => answers_of h = []
      end
  end.

(** The database named a payment with an empty number. *)
Definition unnamed (h : trace) : Prop :=
  exists order statuses row rows,
    In (main (NewestAttempt order statuses) (Ok (row :: rows))) h /\ p_no row = "".

Definition refund_end (o : outcome) (h : trace) : Prop := unnamed h \/ answered_once o h.

Definition any_answer (h : trace) (ev : event svc) : Prop := True.

(** ** Facts that histories keep *)

Lemma job_checked_cons j ev h : job_checked j h -> job_checked j (ev :: h).
Proof. intros (o & p & ? & ? & ? & ? & ? & ? & ?). exists o, p. repeat split; auto; try (by right); lia. Qed.

Lemma told_cons j channel result error R (e : io R) r h :
  told j channel result error h -> told j channel result error (Event (Io e) r :: h).
Proof.
  intros (op & h1 & h2 & -> & ? & ? & Hc & ?). by exists op, (Event (Io e) r :: h1), h2.
Qed.

Lemma told_now j channel op result error h :
  committed j channel h -> asks j channel op -> calls_of h = [] ->
  told j channel result error (Event (Call channel op) (Answered result error) :: h).
Proof. intros. by exists op, [], h. Qed.

(** Nothing was answered yet, and no channel was asked. *)
Definition silent (h : trace) : Prop := answers_of h = [] /\ calls_of h = [].

Lemma silent_io R (e : io R) r h : silent h -> silent (Event (Io e) r :: h).
Proof. done. Qed.
End Guarantee.

Create HintDb refund discriminated.
#[export] Hint Resolve job_checked_cons told_cons silent_io : refund.

(** ** The guarantee, method by method *)

Section Walk.
Context `{J : JsonLib} (sha256 : string -> string).
Context (channels : list string) (redis : bool) (ttlSeconds : Z).
(** the request that is served *)
Context (origin : refund_request).
Abbreviation trace := (list (event svc)).
Abbreviation ok := (safe any_answer (refund_guarantee channels origin) refund_end).
Abbreviation RefundCallback := (json -> Z -> prog svc).

(** A callback that may be given the answer, whatever it is. *)
Definition takes_answer (callback : RefundCallback) : Prop :=
  forall r c h, answers_of h = [] -> ok (callback r c) h.

Ltac step := intros ? _; split; [| simpl].

Section Methods.
Context (callback : RefundCallback) (Hcb : takes_answer callback).

Lemma refuseRequest_ok code m h : answers_of h = [] -> ok (refuse callback code m) h.
Proof. apply Hcb. Qed.

Lemma mapper_ok w h : answers_of h = [] -> ok (reportMapperFailure callback w) h.
Proof. apply Hcb. Qed.

Lemma failDb_ok e h : answers_of h = [] -> ok (failDb callback e) h.
Proof. apply Hcb. Qed.

Lemma rolledBack_ok code m h : answers_of h = [] -> ok (rolledBack callback code m) h.
Proof. intros Hh. step; [done | by apply Hcb]. Qed.

Lemma mapperFailedTxn_ok w h : answers_of h = [] -> ok (mapperFailedTxn callback w) h.
Proof. intros Hh. step; [done | by apply Hcb]. Qed.

(** *** Settling *)

Lemma settleOrder_ok s h : advanced s h -> answers_of h = [] -> ok (settleOrder s callback) h.
Proof.
  intros Ha Hh. unfold settleOrder. destruct (String.eqb_spec (st_status s) "REFUND_SUCCESS") as [E|E];
    simpl negb; cbv iota; [|by apply Hcb].
  intros [sums|e|w] _; (split; [done|]); [|by apply Hcb..].
  destruct (refund_sum_fen sums) as [fen|] eqn:Ef; [|by apply Hcb].
  destruct (refundsCoverOrderAmount fen (st_total s)) eqn:Ec; simpl negb; cbv iota; [|by apply Hcb].
  intros a _. split; [|destruct a; by apply Hcb].
  destruct Ha as (n & Ha). exists s. repeat split; auto; [by exists n; right |].
  exists sums, fen. split; [by left | done].
Qed.

Lemma updateRefundWithSuccess_ok j channel status id result h :
  told j channel result "" h -> acceptance channel result "" status -> answers_of h = [] ->
  ok (updateRefundWithSuccess (settlement_of j status id result) callback) h.
Proof.
  intros Ht Hs Hh a _. split; [by exists j, channel, result, "" |].
  destruct a as [n|e|w]; [|by apply Hcb..]. apply settleOrder_ok; [|done]. exists n. by left.
Qed.

Lemma refused_ok j channel result error errJson r c h :
  told j channel result error h -> refusal channel result error -> answers_of h = [] ->
  ok (updateRefundWithError (j_refundNo j) errJson (callback r c)) h.
Proof.
  intros Ht Hr Hh a _. split; [|by apply Hcb]. split; [done |]. exists j. split; [done |]. left.
  by exists channel, result, error.
Qed.

Lemma onAlipayAnswer_ok j result error h :
  told j "alipay" result error h -> answers_of h = [] -> ok (onAlipayAnswer j callback result error) h.
Proof.
  intros Ht Hh. unfold onAlipayAnswer. destruct (is_empty error) eqn:Ee; simpl negb; cbv iota.
  - apply is_empty_true in Ee as ->. destruct (get_string result "code") as [code|] eqn:Ec; [|by right].
    simpl try_. destruct (String.eqb_spec code "10000") as [->|Hn]; simpl negb; cbv iota.
    + destruct (get_string result "refund_id") as [id|]; [|by right]. by eapply updateRefundWithSuccess_ok.
    + destruct (get_string result "msg") as [msg|]; [|by right]. eapply refused_ok; [done | | done].
      right. split; [done |]. by exists code.
  - eapply refused_ok; [done | | done]. left. intros ->. done.
Qed.

Lemma wechatUnsettled_ok j certain m result error h :
  (certain = true -> told j "wechat" result error h /\ refusal "wechat" result error) -> answers_of h = [] ->
  ok (wechatUnsettled j callback certain m) h.
Proof.
  intros Hc Hh. unfold wechatUnsettled. destruct certain; [|by apply Hcb].
  destruct (Hc eq_refl) as [Ht Hr]. by eapply refused_ok.
Qed.

Lemma onWechatAnswer_ok j result error h :
  told j "wechat" result error h -> answers_of h = [] -> ok (onWechatAnswer j callback result error) h.
Proof.
  intros Ht Hh. unfold onWechatAnswer. destruct (is_empty error) eqn:Ee; simpl negb; cbv iota.
  2: { eapply wechatUnsettled_ok; [|done]. intros Hc. split; [done |]. left. split; [by intros -> | done]. }
  apply is_empty_true in Ee as ->.
  destruct (get_string result "status") as [st|] eqn:Es; [|by right].
  destruct (get_string result "refund_id") as [id|]; [|by right]. simpl try_.
  destruct (is_empty (mapRefundStatus st) || String.eqb (mapRefundStatus st) "REFUND_FAIL") eqn:Em.
  - destruct (get_string result "code") as [code|] eqn:Ec; [|by right]. simpl try_.
    assert (Hr : negb (is_empty (mapRefundStatus st)) || negb (is_empty code) = true ->
                 told j "wechat" result "" h /\ refusal "wechat" result "").
    { intros Hd. split; [done |]. right. split; [done |]. exists st, code. repeat split; auto.
      rewrite orb_true_iff, is_empty_true, String.eqb_eq in Em. destruct Em as [E|E]; [|by left].
      right. split; [done |]. rewrite E in Hd. simpl in Hd. by intros ->. }
    destruct (negb (is_empty code)) eqn:Hne; [|by eapply wechatUnsettled_ok].
    destruct (get_string result "message") as [m|]; [|by right]. by eapply wechatUnsettled_ok.
  - apply orb_false_iff in Em as [E1 E2]. apply String.eqb_neq in E2.
    eapply updateRefundWithSuccess_ok; [done | | done]. split; [done |]. exists st. repeat split; auto.
    intros E. by rewrite E in E1.
Qed.

Lemma invokeRefundChannel_ok j channel h :
  serves origin j ->
  committed j channel h -> silent h -> ok (invokeRefundChannel channels j channel callback) h.
Proof.
  intros Hsv Hc [Hh Hq]. unfold invokeRefundChannel.
  destruct (String.eqb_spec channel "alipay") as [->|]; [|destruct (String.eqb_spec channel "wechat") as [->|]].
  - destruct (findChannel channels "alipay"); simpl negb; cbv iota; [|by apply Hcb].
    assert (Ha : asks j "alipay" (ChRefund (alipayPayload j))) by (by left).
    intros a _. split; [by exists j |]. destruct a as [result error|]; [|by right].
    apply onAlipayAnswer_ok; [by eapply told_now | done].
  - destruct (findChannel channels "wechat") eqn:Ef; simpl negb; cbv iota.
    + assert (Ha : asks j "wechat" (ChRefund (wechatPayload j))) by (by right).
      intros a _. split; [by exists j |]. destruct a as [result error|]; [|by right].
      apply onWechatAnswer_ok; [by eapply told_now | done].
    + intros a _. split; [|by apply Hcb]. split; [done |]. exists j. split; [done |]. by right.
  - by apply Hcb.
Qed.

(** *** The transaction *)

Lemma onRefundCommitted_ok j channel order a h :
  serves origin j ->
  routed j order h -> o_channel order = channel -> silent h ->
  ok (onRefundCommitted channels j channel callback a) (in_txn Commit a :: h).
Proof.
  intros Hsv Hr Hc Hs. destruct a as [[]|e|w]; [|by apply Hcb; destruct Hs|by right; destruct Hs].
  apply invokeRefundChannel_ok; [done | | done]. by exists order, h.
Qed.

Lemma onChannelLookup_ok j a h :
  serves origin j ->
  inserted j h -> silent h ->
  ok (onChannelLookup channels j callback a) (in_txn (FindOrder (j_orderNo j)) a :: h).
Proof.
  intros Hsv Hi Hs. destruct a as [order|e|w]; [|by apply rolledBack_ok; destruct Hs|by apply mapperFailedTxn_ok; destruct Hs].
  assert (Hr : routed j order (in_txn (FindOrder (j_orderNo j)) (Ok order) :: h)) by (by exists h).
  intros b _. split; [by exists j, order |]. by eapply onRefundCommitted_ok.
Qed.

Lemma onRefundInserted_ok j a h :
  serves origin j ->
  summed j h -> silent h -> ok (onRefundInserted channels j callback a) (in_txn (insertion j) a :: h).
Proof.
  intros Hsv Hi Hs. destruct a as [[]|e|w]; [|by apply rolledBack_ok; destruct Hs|by apply mapperFailedTxn_ok; destruct Hs].
  assert (Hr : inserted j (in_txn (insertion j) (Ok tt) :: h)) by (by exists h).
  intros b _. split; [by exists j |]. by apply onChannelLookup_ok.
Qed.

Lemma onLiveSum_ok j a h :
  serves origin j ->
  locked j h -> silent h -> ok (onLiveSum channels j callback a) (in_txn (SumLiveRefunds (j_orderNo j)) a :: h).
Proof.
  intros Hsv Hl Hs. destruct a as [sums|e|w]; [|by apply rolledBack_ok; destruct Hs|by right; destruct Hs].
  unfold onLiveSum. destruct (refund_sum_fen sums) as [fen|] eqn:Ef; [|by apply rolledBack_ok; destruct Hs].
  destruct (Z.ltb_spec (j_totalFen j) (wrap64 (fen + j_refundFen j))); [by apply rolledBack_ok; destruct Hs |].
  assert (Hr : summed j (in_txn (SumLiveRefunds (j_orderNo j)) (Ok sums) :: h)) by (by exists sums, fen, h).
  intros b _. split; [by exists j; repeat split |]. by apply onRefundInserted_ok.
Qed.

Lemma onPaymentLocked_ok j a h :
  serves origin j ->
  opened j h -> silent h ->
  ok (onPaymentLocked channels j callback a) (in_txn (LockPayment (j_orderNo j) (j_paymentNo j)) a :: h).
Proof.
  intros Hsv Ho Hs. destruct a as [[|row rows]|e|w];
    [by apply rolledBack_ok; destruct Hs| |by apply rolledBack_ok; destruct Hs|by apply mapperFailedTxn_ok; destruct Hs].
  assert (Hr : locked j (in_txn (LockPayment (j_orderNo j) (j_paymentNo j)) (Ok (row :: rows)) :: h))
    by (by exists row, rows, h).
  intros b _. split; [by exists j |]. by apply onLiveSum_ok.
Qed.

Lemma proceedWithInsert_ok j h : serves origin j -> job_checked j h -> silent h -> ok (proceedWithInsert channels j callback) h.
Proof.
  intros Hsv Hj Hs. intros created _. split; [by destruct Hs |].
  destruct created; simpl negb; cbv iota; [|by apply Hcb; destruct Hs].
  assert (Ho : opened j (begun :: h)) by (by exists h).
  intros a _. split; [by exists j |]. by apply onPaymentLocked_ok.
Qed.

(** *** The checks *)

Lemma proceedWithInProgressCheck_ok j h :
  serves origin j ->
  job_checked j h -> silent h -> ok (proceedWithInProgressCheck channels j callback) h.
Proof.
  intros Hsv Hj Hs a _. split; [done |]. destruct a as [count|e|w]; [|by apply Hcb; destruct Hs..].
  destruct (0 <? count); [by apply Hcb; destruct Hs |].
  apply proceedWithInsert_ok; auto with refund.
Qed.

Lemma proceedWithAmountCheck_ok j h :
  serves origin j ->
  job_checked j h -> silent h -> ok (proceedWithAmountCheck channels j callback) h.
Proof.
  intros Hsv Hj Hs a _. split; [done |]. destruct a as [[|row rows]|e|w]; [|by apply Hcb; destruct Hs..].
  apply proceedWithInProgressCheck_ok; auto with refund.
Qed.

Lemma refundOrder_ok request refundNo order payment h :
  completes origin request -> names_refund request refundNo ->
  In (main (FindOrder (rq_orderNo request)) (Ok order)) h ->
  In (main (FindPayment (rq_paymentNo request) (rq_orderNo request)) (Ok payment)) h ->
  p_status payment = "SUCCESS" -> silent h -> ok (onOrder channels request refundNo callback order) h.
Proof.
  intros Hcp Hnm Ho Hp Hst Hs. unfold onOrder.
  destruct (String.eqb_spec (o_status order) "PAID") as [Hpaid|]; simpl negb; cbv iota; [|by apply Hcb; destruct Hs].
  destruct (parseAmountToFen (rq_amount request)) as [refundFen|] eqn:Er; [|by apply Hcb; destruct Hs].
  destruct (parseAmountToFen (o_amount order)) as [totalFen|] eqn:Et; [|by apply Hcb; destruct Hs].
  destruct (Z.leb_spec refundFen 0); [by apply Hcb; destruct Hs |].
  destruct (Z.ltb_spec totalFen refundFen); [by apply Hcb; destruct Hs |].
  apply proceedWithAmountCheck_ok; [| |done].
  - destruct Hcp as (? & ? & ? & ? & E & ? & ?). unfold names_refund in Hnm. rewrite E in Hnm. by repeat split.
  - exists order, payment. by repeat split.
Qed.

Lemma proceedWithPayment_ok request refundNo h :
  completes origin request -> names_refund request refundNo -> silent h -> ok (proceedWithPayment channels request refundNo callback) h.
Proof.
  intros Hcp Hnm Hs a _. split; [done |]. destruct a as [payment|e|w]; [|by apply Hcb; destruct Hs..].
  destruct (String.eqb_spec (p_status payment) "SUCCESS") as [Hp|]; simpl negb; cbv iota; [|by apply Hcb; destruct Hs].
  intros b _. split; [done |]. destruct b as [order|e|w]; [|by apply Hcb; destruct Hs..].
  eapply refundOrder_ok; [done | done | by left | by right; left | done | done].
Qed.

Lemma findAttempt_ok order statuses empty proceed h :
  silent h ->
  (forall a, silent (main (NewestAttempt order statuses) a :: h) ->
     ok empty (main (NewestAttempt order statuses) a :: h)) ->
  (forall row rows, ok (proceed (p_no row)) (main (NewestAttempt order statuses) (Ok (row :: rows)) :: h)) ->
  ok (findAttempt order statuses callback empty proceed) h.
Proof.
  intros Hs He Hp a _. split; [done |]. destruct a as [[|row rows]|e|w]; [by apply He | by apply Hp |..];
    by apply Hcb; destruct Hs.
Qed.

Lemma refundNumber_ok request k h :
  silent h -> (forall no l, names_refund request no -> silent (l ++ h)%list -> ok (k no) (l ++ h)%list) -> ok (refundNumber request k) h.
Proof.
  intros Hs Hk. unfold refundNumber. destruct (is_empty (rq_refundNo request)) eqn:E; [|by apply (Hk _ [])].
  intros uuid _. split; [done |]. apply (Hk uuid [Event (Io Uuid) uuid]); [|done].
  apply is_empty_true in E. by intros Hne.
Qed.

Lemma unnamed_app l h : unnamed h -> unnamed (l ++ h)%list.
Proof.
  intros (o & sts & row & rows & Hin & Hn). exists o, sts, row, rows. split; [|done].
  apply in_or_app. by right.
Qed.

Lemma proceedRefund_ok d request h :
  completes origin request -> silent h -> (rq_paymentNo request = "" -> d = O -> unnamed h) -> ok (proceedRefund channels d request callback) h.
Proof.
  revert request h. induction d as [|d IH]; intros request h Hcp Hs Hd; simpl;
    (destruct (refundProblem request); [by apply Hcb; destruct Hs |]);
    apply refundNumber_ok; try done; intros no l Hnm Hl.
  - destruct (is_empty (rq_paymentNo request)) eqn:Ep; [|by apply proceedWithPayment_ok].
    apply is_empty_true in Ep. left. apply unnamed_app. auto.
  - destruct (is_empty (rq_paymentNo request)) eqn:Ep; [|by apply proceedWithPayment_ok].
    assert (Hgo : forall statuses row rows h', silent h' ->
      ok (proceedRefund channels d (with_paymentNo (p_no row) request) callback)
        (main (NewestAttempt (rq_orderNo request) statuses) (Ok (row :: rows)) :: h')).
    { intros statuses row rows h' Hh. apply IH; [|done|].
      { destruct Hcp as (? & ? & ? & Hp & ?). repeat split; try tauto. intros Hne. exfalso.
        apply is_empty_true in Ep. rewrite Hp in Ep; auto. }
      intros Hn _.
      exists (rq_orderNo request), statuses, row, rows. split; [by left | done]. }
    apply findAttempt_ok; [done | | intros; by apply Hgo].
    intros a Ha. apply findAttempt_ok; [done | | intros; by apply Hgo].
    intros b Hb. by apply Hcb; destruct Hb.
Qed.
End Methods.

(** ** The request *)

Lemma answerCaller_ok : takes_answer answerCaller.
Proof.
  intros r c h Hh. step; [done |]. right. simpl. by rewrite Hh.
Qed.

Lemma clear_ok key hash (callback : bool -> prog svc) h :
  answers_of h = [] -> (forall b h', answers_of h' = [] -> ok (callback b) h') ->
  ok (clearReservation key hash callback) h.
Proof.
  intros Hh Hk. unfold clearReservation. destruct (is_empty key); [by apply Hk |].
  intros a _. split; [done |]. destruct a; by apply Hk.
Qed.

Lemma wrappedCallback_ok key hash callback :
  takes_answer callback -> takes_answer (wrappedCallback redis ttlSeconds key hash callback).
Proof.
  intros Hcb r c h Hh. unfold wrappedCallback. destruct (isMember r "data") as [hasData|]; [|by right].
  simpl try_. destruct (_ && _); [|by apply Hcb]. unfold updateResult.
  intros a _. split; [done |].
  assert (Hclear : forall h', answers_of h' = [] -> ok (clearReservation key hash (fun _ => callback r c)) h')
    by (intros h' Hh'; apply clear_ok; [done | intros; by apply Hcb]).
  destruct a as [n|e|w]; [|by apply Hclear..]. destruct (n =? 0); [by apply Hclear |].
  destruct redis; [|by apply Hcb]. intros b _. split; [done | by apply Hcb].
Qed.

Lemma proceedCb_ok key hash callback : takes_answer callback -> takes_answer (proceedCb key hash callback).
Proof.
  intros Hcb r c h Hh. unfold proceedCb. destruct (isMember r "data") as [hasData|]; [|by right].
  simpl try_. destruct (_ && _); [|by apply Hcb]. apply clear_ok; [done | intros; by apply Hcb].
Qed.

(** What [checkAndSet] may do before it goes on. *)
Lemma checkAndSet_ok key hash (callback : bool -> json -> prog svc) h :
  silent h -> (forall b r h', silent h' -> ok (callback b r) h') ->
  ok (checkAndSet ttlSeconds key hash callback) h.
Proof.
  intros Hs Hk. unfold checkAndSet, checkAndSetStatus, checkDatabase. destruct (is_empty key); [by apply Hk |].
  intros now _. split; [done |]. intros a _. split; [done |].
  destruct a as [n|e|w]; [|by apply Hk|by right; destruct Hs]. destruct (0 <? n); [by apply Hk |].
  intros now2 _. split; [done |]. intros b _. split; [done |].
  destruct b as [[|row rows]|e|[w|]]; [by apply Hk| |by apply Hk..].
  unfold onExisting. destruct (String.eqb (i_hash row) hash); [|by apply Hk].
  unfold readSnapshot. destruct (i_snapshot row) as [s|]; [|by apply Hk].
  destruct (jparse s) as [doc|]; [|by apply Hk].
  destruct (index doc "response") as [response|]; [|by right; destruct Hs].
  simpl. destruct (isNull response); by apply Hk.
Qed.

Lemma createRefund_ok key h :
  silent h -> ok (createRefund sha256 channels redis ttlSeconds origin key answerCaller) h.
Proof.
  intros Hs. unfold createRefund. assert (Hcp : completes origin origin) by (by repeat split).
  pose proof (wrappedCallback_ok key (requestHash sha256 origin) answerCaller answerCaller_ok) as Hw.
  destruct (is_empty key); [by apply proceedRefund_ok |].
  apply checkAndSet_ok; [done |]. intros canProceed cached h' Hs'.
  destruct canProceed; simpl negb; cbv iota; [|by apply Hw; destruct Hs'].
  destruct (isNull cached); simpl negb; cbv iota; [|by apply Hw; destruct Hs'].
  apply proceedRefund_ok; [by apply proceedCb_ok | done | done | done].
Qed.
End Walk.

(** ** Theorems *)

Lemma every_answer {I} (h : list (event I)) : guaranteed (fun _ _ => True) h.
Proof. induction h; by split. Qed.

Section Claims.
Context `{J : JsonLib} (sha256 : string -> string).
Context (channels : list string) (redis : bool) (ttlSeconds : Z).
Abbreviation execution request key :=
  (runs (logs any_answer) (createRefund sha256 channels redis ttlSeconds request key answerCaller) []).

Lemma calls_once request h :
  guaranteed (refund_guarantee channels request) h -> (List.length (calls_of h) <= 1)%nat.
Proof.
  induction h as [|[R e r] h IH]; simpl; [lia |]. intros [Hg Hh]. specialize (IH Hh).
  destruct e; try done. destruct Hg as (j & _ & _ & _ & E). simpl. by rewrite E.
Qed.

Lemma answers_one request h :
  guaranteed (refund_guarantee channels request) h -> (List.length (answers_of h) <= 1)%nat.
Proof.
  induction h as [|[R e r] h IH]; simpl; [lia |]. intros [Hg Hh]. specialize (IH Hh).
  destruct e; try done. simpl in Hg. simpl. by rewrite Hg.
Qed.

Lemma booked_failure request key o h1 R (q : stmt R) h2 :
  execution request key o (h1 ++ Event (Post q) tt :: h2)%list -> post_allowed channels h2 q.
Proof.
  intros Hr. apply safe_sound with (Guar := refund_guarantee channels request) (Fin := refund_end) in Hr as [Hg _];
    [|by apply createRefund_ok].
  by apply guaranteed_at in Hg.
Qed.

(** C10. Whatever the database and the channels answer, a refund request asks a
    channel at most once, and only for the refund that was requested (its order,
    amount, reason, and its payment and number if given) after a transaction that
    locked the payment, found room among the live refunds of a PAID order with a
    successful payment, inserted the REFUND_INIT row of that amount, and was
    committed. *)
Theorem refund_called_after_commit request key o h :
  execution request key o h ->
  (List.length (calls_of h) <= 1)%nat /\
  forall h1 channel op a h2, h = (h1 ++ Event (Call channel op) a :: h2)%list ->
    exists j, serves request j /\ committed j channel h2 /\ asks j channel op.
Proof.
  intros Hr. apply safe_sound with (Guar := refund_guarantee channels request) (Fin := refund_end) in Hr as [Hg _];
    [|by apply createRefund_ok].
  split; [by eapply calls_once |]. intros h1 channel op a h2 ->.
  apply guaranteed_at in Hg as (j & Hs & Hc & Ha & _). by exists j.
Qed.

(** C25. What is booked about the channel's answer is what the channel said: a
    refund row is failed only on a refusal (WeChat: one that proves the refund did
    not happen) or without a channel, advanced only to the status of an accepted
    answer, and the order is refunded only when the settled refunds, summed after
    that, cover its amount. *)
Theorem refund_outcome_justified request key o h :
  execution request key o h ->
  (forall h1 R (q : stmt R) h2, h = (h1 ++ Event (Post q) tt :: h2)%list -> post_allowed channels h2 q) /\
  (forall h1 R (q : stmt R) a h2, h = (h1 ++ main q a :: h2)%list -> main_allowed h2 q).
Proof.
  intros Hr. apply safe_sound with (Guar := refund_guarantee channels request) (Fin := refund_end) in Hr as [Hg _];
    [|by apply createRefund_ok].
  by split; intros; subst h; apply guaranteed_at in Hg.
Qed.

(** C35. A refund request is answered: every execution that returns has answered
    exactly once (payment numbers are not empty), none answers twice, and one that
    an exception leaves has not answered. *)
Theorem refund_request_answered request key o h :
  execution request key o h -> ~ unnamed h ->
  (List.length (answers_of h) <= 1)%nat /\ answered_once o h.
Proof.
  intros Hr Hn. apply safe_sound with (Guar := refund_guarantee channels request) (Fin := refund_end) in Hr as [Hg He];
    [|by apply createRefund_ok].
  split; [by eapply answers_one |]. destruct o; [|by destruct He|done]. by destruct He.
Qed.
End Claims.

(** ** Witnesses *)

Lemma request_runs request key faults :
  runs (logs any_answer) (refund_service request key) [] (fst (request_run request key faults))
    (request_history request key faults).
Proof. apply recorded_runs. apply every_answer. Qed.

Lemma refund_called_after_commit_witness :
  calls_of (request_history refund_of_8 "K" []) <> [] /\
  (List.length (calls_of (request_history refund_of_8 "K" [])) <= 1)%nat /\
  forall h1 channel op a h2,
    request_history refund_of_8 "K" [] = (h1 ++ Event (Call channel op) a :: h2)%list ->
    exists j, serves refund_of_8 j /\ committed j channel h2 /\ asks j channel op.
Proof.
  split; [by vm_compute |].
  exact (refund_called_after_commit (J := lib0) shop_md5 ["wechat"] false 60 refund_of_8 "K" _ _
           (request_runs refund_of_8 "K" [])).
Defined.

Lemma refund_outcome_justified_witness :
  (forall h1 R (q : stmt R) h2,
     request_history refund_of_8 "K" [] = (h1 ++ Event (Post q) tt :: h2)%list -> post_allowed ["wechat"] h2 q) /\
  (forall h1 R (q : stmt R) a h2,
     request_history refund_of_8 "K" [] = (h1 ++ main q a :: h2)%list -> main_allowed h2 q).
Proof.
  exact (refund_outcome_justified (J := lib0) shop_md5 ["wechat"] false 60 refund_of_8 "K" _ _
           (request_runs refund_of_8 "K" [])).
Defined.

Definition v_attempt R (q : stmt R) : answer R -> option (list payment_row) :=
  match q with
  | NewestAttempt _ _ => fun a => match a with Ok rows => Some rows | _ => None end
  | _ => fun _ => None
  end.

Lemma named h :
  Forall (fun ev : event (@svc lib0) => main_view v_attempt ev = None) h -> ~ unnamed h.
Proof.
  intros Hf (o & sts & row & rows & Hin & _). rewrite Forall_forall in Hf.
  apply list_elem_of_In in Hin. by specialize (Hf _ Hin).
Qed.

Lemma refund_request_answered_witness :
  fst (request_run refund_of_8 "K" [false; true]) = Effects.Returned /\
  (List.length (answers_of (request_history refund_of_8 "K" [false; true])) <= 1)%nat /\
  answered_once (fst (request_run refund_of_8 "K" [false; true])) (request_history refund_of_8 "K" [false; true]).
Proof.
  split; [by vm_compute |].
  apply (refund_request_answered (J := lib0) shop_md5 ["wechat"] false 60 refund_of_8 "K" _ _
           (request_runs refund_of_8 "K" [false; true])).
  apply named. repeat constructor.
Defined.
