(* ===== verification/Channels.v ===== *)
(** * The PaymentChannel interface (include/drogon_pay/PaymentChannel.h): what a
    channel promises to the refund service, and what the service's bookings are worth
    over a channel that keeps the promise.

    [WechatRefund.v] discharges the promise for the WeChat channel; [AlipayCreate.v]
    shows that the Alipay channel does not keep it. *)
From S2P Require Import Prelude Cxx Json Effects Store Service RefundService RefundGuard.
Import RefundService.Refunds.

(** ** Definitions *)

(** A channel: what one call with everything it met ([encounter]: clock, nonce, what
    came back from the network, the channel's own state) leads to. *)
Class PaymentChannel `{J : JsonLib} := {
  name : string;
  encounter : Type;
  possible : encounter -> Prop;                       (* the channel's state can arise *)
  perform : channel_op -> encounter -> channel_answer;
  not_refunded : json -> encounter -> Prop            (* the call proves that the refund was not made *)
}.
Arguments perform {J} _ op x : simpl never.

(** What RefundService takes for a refusal is one. *)
Class HonestRefusals `{J : JsonLib} (P : PaymentChannel) : Prop :=
  refusal_honest payload x result error :
    possible x -> perform P (ChRefund payload) x = Answered result error -> refusal name result error ->
    not_refunded payload x.

(** The default of [PaymentChannel::closeOrder]. *)
Definition closeOrder `{J : JsonLib} (orderNo : string) : channel_answer :=
  Answered jnull "channel does not support closing orders".

Section Client.
Context `{J : JsonLib} (P : PaymentChannel).
Context (sha256 : string -> string) (channels : list string) (redis : bool) (ttlSeconds : Z).
Abbreviation trace := (list (event svc)).

(** The calls a history made to the channel, with their answers. *)
Fixpoint dialogue (h : trace) : list (channel_op * channel_answer) :=
  match h with
  | [] => []
  | Event e r :: h' =>
      match e in svc R return R -> list (channel_op * channel_answer) with
      | Call channel op => fun a => if String.eqb channel name then (op, a) :: dialogue h' else dialogue h'
      | _ => fun _ => dialogue h'
      end r
  end.

(** The channel served them. *)
Definition served (h : trace) : Prop :=
  Forall (fun oa => exists x, possible x /\ snd oa = perform P (fst oa) x) (dialogue h).

Lemma dialogue_in op a h1 h2 : In (op, a) (dialogue (h1 ++ Event (Call name op) a :: h2)%list).
Proof.
  induction h1 as [|[R e r] h1 IH]; simpl; [rewrite String.eqb_refl; by left |].
  destruct e as [| channel op' | | | |]; try exact IH. destruct (String.eqb channel name); [by right | done].
Qed.

Lemma served_call op a h1 h2 :
  served (h1 ++ Event (Call name op) a :: h2)%list -> exists x, possible x /\ a = perform P op x.
Proof. intros H. unfold served in H. rewrite List.Forall_forall in H. apply (H _ (dialogue_in op a h1 h2)). Qed.

(** A refund is booked as failed because of an honest channel only if its call proved
    that nothing happened. *)
Lemma booked_failure_proved `{!HonestRefusals P} request key o h :
  runs (logs any_answer) (createRefund sha256 channels redis ttlSeconds request key answerCaller) [] o h ->
  served h ->
  forall h1 no st payload h2, h = (h1 ++ Event (Post (FailRefund no st payload)) tt :: h2)%list ->
  exists j, no = j_refundNo j /\
    ((exists channel result error, channel <> name /\ told j channel result error h2) \/
     (committed j "wechat" h2 /\ findChannel channels "wechat" = false) \/
     (exists payload x, asks j name (ChRefund payload) /\ possible x /\
        In (Event (Call name (ChRefund payload)) (perform P (ChRefund payload) x)) h2 /\
        not_refunded payload x)).
Proof.
  intros Hr Hw h1 no st payload h2 ->. apply booked_failure in Hr as (_ & j & Hno & Hj). exists j.
  split; [done |]. destruct Hj as [(channel & result & error & Ht & Href) | Hn]; [|by right; left].
  destruct (decide (channel = name)) as [->|Hne]; [|left; by exists channel, result, error].
  right. right. destruct Ht as (op & h3 & h4 & -> & Hask & _).
  assert (Hop : exists p, op = ChRefund p) by (destruct Hask as [[_ ->]|[_ ->]]; by eexists). destruct Hop as [p ->].
  change (h1 ++ Event (Post (FailRefund no st payload)) tt :: h3 ++ Event (Call name (ChRefund p)) (Answered result error) :: h4)%list
    with (h1 ++ (Event (Post (FailRefund no st payload)) tt :: h3) ++ Event (Call name (ChRefund p)) (Answered result error) :: h4)%list in Hw.
  rewrite app_assoc in Hw. destruct (served_call _ _ _ _ Hw) as (x & Hx & Ha). exists p, x.
  do 2 (split; [done |]). split; [rewrite <- Ha; apply in_or_app; right; by left |].
  by eapply refusal_honest.
Qed.
End Client.
