(* ===== verification/KeyedGuard.v ===== *)
(** * Requests under an idempotency key: what the calls of IdempotencyService.v
    keep of a guarantee, whatever the database answers. *)
From S2P Require Import Prelude Cxx Json Effects Store Idempotency Service RefundGuard.

(** The statements of the service on [key]. *)
Definition keyed (key : string) {R} (q : stmt R) : Prop :=
  match q with
  | ReserveRequest k _ _ | FindLiveIdempotency k _ | UpdateSnapshot k _ _ | DeleteReservation k _ => k = key
  | _ => False
  end.

Section Keyed.
Context `{J : JsonLib} (key hash : string) (redis : bool) (ttlSeconds : Z).
Abbreviation trace := (list (event svc)).

(** The answer stored for the same request under the key. *)
Definition replayed (r : json) (h : trace) : Prop :=
  exists now row rows snapshot doc,
    In (main (FindLiveIdempotency key now) (Ok (row :: rows))) h /\
    i_hash row = hash /\ i_snapshot row = Some snapshot /\
    jparse snapshot = Some doc /\ index doc "response" = Some r.

Lemma replayed_cons r ev h : replayed r h -> replayed r (ev :: h).
Proof. intros (now & row & rows & s & d & Hi & ?). exists now, row, rows, s, d. split; [by right | done]. Qed.

(** A guarantee that admits those statements, and answers that stay admissible
    while they run. *)
Context (Guar : trace -> event svc -> Prop) (may : trace -> json -> Z -> Prop).
Context (Hstmt : forall h R (q : stmt R) a, keyed key q -> Guar h (main q a)).
Context (Hnow : forall h t, Guar h (Event (Io Now) t)).
Context (Hredis : forall h k t v a, Guar h (Event (Io (RedisSetEx k t v)) a)).
Context (Hmay : forall h r c R (e : io R) a, may h r c -> may (Event (Io e) a :: h) r c).
Abbreviation ok := (safe any_answer Guar answered_once).

Section Callback.
Context (callback : json -> Z -> prog svc) (Hcb : forall r c h, may h r c -> ok (callback r c) h).

Lemma clearing r c h : may h r c -> ok (clearReservation key hash (fun _ => callback r c)) h.
Proof.
  intros Ha. unfold clearReservation. destruct (is_empty key); [by apply Hcb |].
  intros a _. split; [by apply Hstmt |]. destruct a; apply Hcb; by apply Hmay.
Qed.

Lemma storing r c h :
  may h r c ->
  ok (updateResult redis ttlSeconds key hash r false (fun success =>
      if success then callback r c else clearReservation key hash (fun _ => callback r c))) h.
Proof.
  intros Ha. unfold updateResult. intros n _. split; [by apply Hstmt |].
  destruct n as [n|e|w]; [|by apply clearing, Hmay..].
  destruct (n =? 0); [by apply clearing, Hmay |]. destruct redis; [|by apply Hcb, Hmay].
  intros x _. split; [by apply Hredis |]. by apply Hcb, Hmay, Hmay.
Qed.
End Callback.

Lemma checking k h :
  silent h ->
  (forall r h', silent h' -> status r <> Replay -> ok (k r) h') ->
  (forall r h', silent h' -> status r = Replay -> replayed (cachedResult r) h' -> ok (k r) h') ->
  ok (checkAndSetStatus ttlSeconds key hash k) h.
Proof.
  intros Hs Hk Hr. unfold checkAndSetStatus, checkDatabase. destruct (is_empty key); [by apply Hk |].
  intros now _. split; [by apply Hnow |]. intros a _. split; [by apply Hstmt |].
  destruct a as [affected|e|w]; [|by apply Hk | by destruct Hs].
  destruct (0 <? affected); [by apply Hk |].
  intros now2 _. split; [by apply Hnow |]. intros b _. split; [by apply Hstmt |].
  destruct b as [[|row rows]|e|[w|]]; try by apply Hk.
  unfold onExisting. destruct (String.eqb_spec (i_hash row) hash) as [Eh|_]; [|by apply Hk].
  unfold readSnapshot. destruct (i_snapshot row) as [s|] eqn:Es; [|by apply Hk].
  destruct (jparse s) as [doc|] eqn:Ed; [|by apply Hk].
  destruct (index doc "response") as [r|] eqn:Er; [|by destruct Hs]. simpl try_.
  destruct (isNull r); [by apply Hk |]. apply Hr; [done.. |].
  exists now2, row, rows, s, doc. repeat split; try done. by left.
Qed.
End Keyed.
