(* ===== verification/RefundPool.v ===== *)
(** * Concurrent refund requests never give back more than was paid.

    Any number of [createRefund] requests run against one database, their
    operations interleaved one by one, together with every other writer that adds
    no live refund (notifications and settlements among them).  Transactions read
    the committed tables and their own writes; [LockPayment] waits for the rows
    another transaction locked; locks are released by COMMIT, by a rollback and with
    the transaction. *)
From S2P Require Import Prelude Cxx Json Effects Store Amount RefDb RefDbFacts Service RefundService RefundGuard Scenario.
Import RefundService.Refunds.

(** ** Definitions *)

Definition sumz (zs : list Z) : Z := fold_right Z.add 0 zs.

(** The fen of the refunds of an order that happened or may still happen. *)
Definition live_refunds (o : string) (rs : list refund_row) : list refund_row :=
  select (fun r => String.eqb (r_order r) o && refund_live r) rs.
Definition live (d : db) (o : string) : Z :=
  sumz (map fen_or_zero (map r_amount (live_refunds o (d_refunds d)))).

Section Pool.
Context `{J : JsonLib} (sha256 : string -> string).
Context (channels : list string) (redis : bool) (ttlSeconds : Z).
Context (sum_text : list string -> string) (server_now : Z).
Abbreviation exec := (exec sum_text server_now).

(** A request in flight: what is left of it, what it did (newest first), its
    transaction and the payments that has locked. *)
Record thread := Thread {
  t_prog : prog svc;
  t_history : list (event svc);
  t_txn : txn;
  t_locks : list string
}.

Definition pool : Type := list thread * db.

(** A statement outside of a transaction succeeds, or fails without an effect. *)
Inductive main_result {R} (q : stmt R) (d : db) : answer R -> db -> Prop :=
| main_ok r f : exec q d = (Ok r, f) -> main_result q d (Ok r) (f d)
| main_fails a : (forall r, a <> Ok r) -> main_result q d a d.

Definition is_lock {R} (q : stmt R) : bool := match q with LockPayment _ _ => true | _ => false end.

(** One operation of a thread: its answer and what it does to the tables, to the
    thread's transaction and its locks; [held] is what others have locked. *)
Inductive interact (held : list string) (d : db) :
    forall R, svc R -> txn -> list string -> R -> db -> txn -> list string -> Prop :=
| on_main R (q : stmt R) x l a d' :
    main_result q d a d' -> interact held d _ (Io (Sql Main q)) x l a d' x l
| on_post R (q : stmt R) x l a d' :
    main_result q d a d' -> interact held d _ (Post q) x l tt d' x l
| on_begin x l : interact held d _ (Io BeginOrNull) x l true d (TxOpen []) []
| on_null x l : interact held d _ (Io BeginOrNull) x l false d TxNone []
| on_txn R (q : stmt R) ws l r f :
    is_commit q = false -> is_lock q = false -> exec q (apply_writes ws d) = (Ok r, f) ->
    interact held d _ (Io (Sql Txn q)) (TxOpen ws) l (Ok r) d (TxOpen (ws ++ [f])%list) l
| on_lock order no ws l rows f :
    exec (LockPayment order no) (apply_writes ws d) = (Ok rows, f) ->
    (forall p, In p rows -> ~ In (p_no p) held) ->
    interact held d _ (Io (Sql Txn (LockPayment order no))) (TxOpen ws) l (Ok rows) d
      (TxOpen (ws ++ [f])%list) (map p_no rows ++ l)%list
| on_commit ws l :
    interact held d _ (Io (Sql Txn Commit)) (TxOpen ws) l (Ok tt) (apply_writes ws d) TxNone []
| on_failure R (q : stmt R) x l a :
    (forall r, a <> Ok r) -> interact held d _ (Io (Sql Txn q)) x l a d TxAborted []
(* a call that throws, or whose rows the mapper refuses, leaves the transaction *)
| on_client_error R (q : stmt R) x l a :
    (forall r, a <> Ok r) -> interact held d _ (Io (Sql Txn q)) x l a d x l
| on_rollback x l : interact held d _ (Io Rollback) x l tt d TxAborted []
| on_call c op x l a : interact held d _ (Call c op) x l a d x l
| on_answer r c x l : interact held d _ (Answer r c) x l tt d x l
| on_now x l t : interact held d _ (Io Now) x l t d x l
| on_uuid x l u : interact held d _ (Io Uuid) x l u d x l
| on_setex k t v x l a : interact held d _ (Io (RedisSetEx k t v)) x l a d x l.

(** What the threads other than the [i]th have locked. *)
Definition held_by_others (i : nat) (ts : list thread) : list string :=
  List.concat (map t_locks (firstn i ts ++ skipn (S i) ts)%list).

Context (paid_by : string -> string).

(** Order numbers are unique, amounts far from overflow, the successful payment
    of an order is [paid_by], and live refunds have readable amounts. *)
Record wf (d : db) : Prop := Wf {
  wf_orders : forall r r', In r (d_orders d) -> In r' (d_orders d) -> o_no r = o_no r' -> o_amount r = o_amount r';
  wf_total : forall r f, In r (d_orders d) -> parseAmountToFen (o_amount r) = Some f -> f < 2 ^ 62;
  wf_paid : forall p, In p (d_payments d) -> p_status p = "SUCCESS" -> p_no p = paid_by (p_order p);
  wf_refunds : forall r, In r (d_refunds d) -> refund_live r = true -> parseAmountToFen (r_amount r) <> None
}.

(** The live refunds of every order fit in its amount. *)
Definition capacity (d : db) : Prop :=
  forall r f, In r (d_orders d) -> parseAmountToFen (o_amount r) = Some f -> live d (o_no r) <= f.

Definition same_order (r r' : order_row) : Prop := o_no r = o_no r' /\ o_amount r = o_amount r'.

(** Writers that add no live refund to an order and keep the orders' amounts;
    they may insert new orders. *)
Record benign (d d' : db) : Prop := Benign {
  bn_wf : wf d';
  bn_live : forall o, live d' o <= live d o;
  bn_kept : forall r, In r (d_orders d) -> exists r', In r' (d_orders d') /\ same_order r r';
  bn_new : forall r', In r' (d_orders d') ->
    (exists r, In r (d_orders d) /\ same_order r r') \/ live d' (o_no r') = 0
}.

Definition request_thread (request : refund_request) (key : string) : thread :=
  Thread (createRefund sha256 channels redis ttlSeconds request key answerCaller) [] TxNone [].

Inductive pool_step : pool -> pool -> Prop :=
| step_request ts d request key : pool_step (ts, d) ((ts ++ [request_thread request key])%list, d)
| step_thread ts d i t R (e : svc R) k r d' x l :
    ts !! i = Some t -> t_prog t = Vis e k ->
    interact (held_by_others i ts) d R e (t_txn t) (t_locks t) r d' x l ->
    pool_step (ts, d) (<[i := Thread (k r) (Event e r :: t_history t) x l]> ts, d')
(* a thread that ended drops its transaction: what is open is committed *)
| step_end ts d i t ws :
    ts !! i = Some t -> (t_prog t = Done \/ t_prog t = Escape) -> t_txn t = TxOpen ws ->
    pool_step (ts, d) (<[i := Thread (t_prog t) (t_history t) TxNone []]> ts, apply_writes ws d)
| step_others ts d d' : benign d d' -> pool_step (ts, d) (ts, d').

Inductive pool_reachable (p0 : pool) : pool -> Prop :=
| pool_start : pool_reachable p0 p0
| pool_next p p' : pool_reachable p0 p -> pool_step p p' -> pool_reachable p0 p'.

(** The text of a sum of amounts is the amount of the sum. *)
Definition sums_amounts : Prop := forall amounts,
  Forall (fun a => parseAmountToFen a <> None) amounts -> sumz (map fen_or_zero amounts) < 2 ^ 62 ->
  parseAmountToFen (sum_text amounts) = Some (sumz (map fen_or_zero amounts)).

(** ** The invariant *)

Definition inert (ws : list (db -> db)) : Prop := forall d, apply_writes ws d = d.

Definition new_row (j : refund_job) (rs : list refund_row) : refund_row :=
  RefundRow (fresh_id rs) (j_refundNo j) (j_orderNo j) (j_paymentNo j) "REFUND_INIT" (j_amount j) None None
    server_now.

(** The writes insert the row of [j] and nothing else. *)
Definition books (j : refund_job) (ws : list (db -> db)) : Prop :=
  forall d, apply_writes ws d = with_refunds (fun rs => rs ++ [new_row j rs])%list d.

Definition knows (d : db) (j : refund_job) : Prop :=
  j_paymentNo j = paid_by (j_orderNo j) /\ parseAmountToFen (j_amount j) = Some (j_refundFen j) /\
  0 < j_refundFen j <= j_totalFen j /\
  exists r, In r (d_orders d) /\ o_no r = j_orderNo j /\ parseAmountToFen (o_amount r) = Some (j_totalFen j).

Definition room (d : db) (j : refund_job) : Prop := live d (j_orderNo j) + j_refundFen j <= j_totalFen j.

Definition running (p : prog svc) : Prop := match p with Vis _ _ => True | _ => False end.

Record thread_ok (d : db) (t : thread) : Prop := ThreadOk {
  to_safe : exists request, safe any_answer (refund_guarantee channels request) refund_end (t_prog t) (t_history t);
  to_read : forall o order, In (main (FindOrder o) (Ok order)) (t_history t) ->
    o_no order = o /\ exists r, In r (d_orders d) /\ same_order order r;
  to_paid : forall no o p, In (main (FindPayment no o) (Ok p)) (t_history t) ->
    p_status p = "SUCCESS" -> no = paid_by o;
  to_opened : running (t_prog t) -> forall j, opened j (t_history t) -> t_txn t = TxOpen [];
  to_locked : running (t_prog t) -> forall j, locked j (t_history t) \/ summed j (t_history t) ->
    (exists ws, t_txn t = TxOpen ws /\ inert ws) /\ In (j_paymentNo j) (t_locks t);
  to_summed : running (t_prog t) -> forall j, summed j (t_history t) -> room d j;
  to_open : forall ws, t_txn t = TxOpen ws -> inert ws \/
    exists j, books j ws /\ In (j_paymentNo j) (t_locks t) /\ room d j /\ knows d j
}.

Definition disjoint_locks (ts : list thread) : Prop :=
  forall i k ti tk p, ts !! i = Some ti -> ts !! k = Some tk -> i <> k ->
    In p (t_locks ti) -> ~ In p (t_locks tk).

Record pool_ok (p : pool) : Prop := PoolOk {
  po_threads : forall i t, fst p !! i = Some t -> thread_ok (snd p) t;
  po_locks : disjoint_locks (fst p);
  po_wf : wf (snd p);
  po_capacity : capacity (snd p)
}.

(** ** Sums of live refunds *)

Lemma sumz_app a b : sumz (a ++ b)%list = sumz a + sumz b.
Proof. unfold sumz. induction a as [|x a IH]; simpl; lia. Qed.

Lemma fen_nonneg a : 0 <= fen_or_zero a.
Proof.
  unfold fen_or_zero. destruct (parseAmountToFen a) as [f|] eqn:E; simpl; [|lia].
  apply parseAmountToFen_range in E. lia.
Qed.

Lemma live_nonneg d o : 0 <= live d o.
Proof.
  unfold live. induction (map r_amount _) as [|a l IH]; simpl; [lia |]. pose proof (fen_nonneg a). lia.
Qed.

Lemma live_refunds_app o rs r :
  live_refunds o (rs ++ [r])%list =
  (live_refunds o rs ++ (if String.eqb (r_order r) o && refund_live r then [r] else []))%list.
Proof.
  unfold live_refunds, select. rewrite List.filter_app. simpl. by destruct (_ && _).
Qed.

(** Changing rows without reviving any: the sums do not grow. *)
Lemma live_update (c : refund_row -> bool) f rs o :
  (forall r, r_order (f r) = r_order r /\ r_amount (f r) = r_amount r) ->
  (forall r, c r = true -> refund_live (f r) = true -> refund_live r = true) ->
  sumz (map fen_or_zero (map r_amount (live_refunds o (update_where c f rs)))) <=
  sumz (map fen_or_zero (map r_amount (live_refunds o rs))).
Proof.
  intros Hf Hc. unfold live_refunds, select, update_where. induction rs as [|r rs IH]; simpl; [lia |].
  destruct (c r) eqn:Ec; simpl.
  - destruct (Hf r) as [Ho Ha]. rewrite Ho. destruct (String.eqb (r_order r) o); simpl; [|lia].
    pose proof (fen_nonneg (r_amount r)) as Hn.
    destruct (refund_live (f r)) eqn:El; simpl.
    + rewrite (Hc r Ec El). simpl. rewrite Ha. lia.
    + destruct (refund_live r); simpl; lia.
  - destruct (_ && _); simpl; lia.
Qed.

(** ** Statements that add no live refund *)

(** The statements of every service but the insertion of a refund, the update of
    a refund row whatever its status, and the settlement or closing of a payment. *)
Definition tame {R} (q : stmt R) : bool :=
  match q with
  | InsertRefund _ _ _ _ _ | UpdateRefund _ _ _ | SettlePayment _ _ _ _ | UpdatePayment _ _ _
  | InsertOrder _ _ _ _ _ _ _ _ _ | InsertPayment _ _ _ _ _ _ | AdvancePayment _ _ _ => false
  | _ => true
  end.

Lemma benign_refl d : wf d -> benign d d.
Proof. intros Hw. split; [done | done | intros r Hr; exists r; by repeat split | intros r Hr; left; exists r; by repeat split]. Qed.

Lemma benign_orders d (c : order_row -> bool) status :
  wf d -> benign d (with_orders (update_where c (set_order_status status)) d).
Proof.
  intros Hw. pose (f := fun r => if c r then set_order_status status r else r).
  assert (Hf : forall r, same_order r (f r)) by (intros r; unfold f; by destruct (c r)).
  assert (Hin : forall r', In r' (map f (d_orders d)) -> exists r, In r (d_orders d) /\ same_order r r').
  { intros r' H. apply in_map_iff in H as (r & <- & H). by exists r. }
  destruct Hw as [Ho Ht Hp Hr]. split; [split| | |]; simpl.
  - intros a b Ha Hb E. apply Hin in Ha as (x & Hx & Nx & Ax). apply Hin in Hb as (y & Hy & Ny & Ay).
    rewrite <- Ax, <- Ay. apply Ho; congruence.
  - intros a g Ha E. apply Hin in Ha as (x & Hx & Nx & Ax). apply (Ht x); [done | by rewrite Ax].
  - done.
  - done.
  - intros o. unfold live. simpl. lia.
  - intros r H. exists (f r). split; [by apply in_map | done].
  - intros r' H. left. by apply Hin.
Qed.

Lemma benign_refunds d (c : refund_row -> bool) f :
  (forall r, r_order (f r) = r_order r /\ r_amount (f r) = r_amount r) ->
  (forall r, c r = true -> refund_live (f r) = true -> refund_live r = true) ->
  wf d -> benign d (with_refunds (update_where c f) d).
Proof.
  intros Hf Hc [Ho Ht Hp Hr]. split; [split| | |]; simpl; try done.
  - intros r' H Hl. apply in_map_iff in H as (r & <- & H). destruct (c r) eqn:Ec; [|by apply Hr].
    destruct (Hf r) as [_ ->]. apply Hr; auto.
  - intros o. by apply live_update.
  - intros r H. exists r. by repeat split.
  - intros r H. left. exists r. by repeat split.
Qed.

Lemma settleable_live no r : refund_settleable no r = true -> refund_live r = true.
Proof. unfold refund_settleable, refund_live, refund_open. intros H. breflect. tauto. Qed.

(** Writes to the other tables. *)
Lemma benign_same d d' :
  d_orders d' = d_orders d -> d_payments d' = d_payments d -> d_refunds d' = d_refunds d ->
  wf d -> benign d d'.
Proof.
  intros Ho Hp Hr Hw. assert (Hl : forall o, live d' o = live d o) by (intros o; unfold live; by rewrite Hr).
  pose proof (benign_refl d Hw) as [_ _ Hk Hn].
  split; [destruct Hw; split; rewrite ?Ho, ?Hp, ?Hr; done | intros o; by rewrite Hl | by rewrite Ho |].
  intros r Hin. left. rewrite Ho in Hin. exists r. by repeat split.
Qed.

Lemma tame_benign R (q : stmt R) d : tame q = true -> wf d -> benign d (snd (exec q d) d).
Proof.
  intros Hq Hw. destruct q; try done; simpl;
    first [ by apply benign_orders
          | by apply benign_refunds; [| intros r H _; by eapply settleable_live |]
          | by apply benign_refunds
          | by apply benign_same; repeat (simpl; split_goal) ].
Qed.

(** ** What a thread knows *)

Lemma opened_checked j h : opened j h -> job_checked j h.
Proof. intros (h' & -> & H). by apply job_checked_cons. Qed.

Lemma locked_checked j h : locked j h -> job_checked j h.
Proof. intros (row & rows & h' & -> & H). by apply job_checked_cons, opened_checked. Qed.

Lemma summed_checked j h : summed j h -> job_checked j h.
Proof. intros (sums & fen & h' & -> & H & _). by apply job_checked_cons, locked_checked. Qed.

Lemma checked_knows d t j : thread_ok d t -> job_checked j (t_history t) -> knows d j.
Proof.
  intros Ht (order & payment & Ho & _ & Hf & Ha & Hr & Hp & Hs).
  destruct (to_read _ _ Ht _ _ Ho) as (Hno & r & Hin & Hsame & Hamount).
  split; [by eapply to_paid |]. split; [done |]. split; [done |].
  exists r. repeat split; [done | congruence | by rewrite <- Hamount].
Qed.

Lemma knows_kept d d' j :
  (forall r, In r (d_orders d) -> exists r', In r' (d_orders d') /\ same_order r r') -> knows d j -> knows d' j.
Proof.
  intros Hk (H1 & H2 & H3 & r & Hin & Hno & Ha). split; [done |]. split; [done |]. split; [done |].
  destruct (Hk r Hin) as (r' & Hin' & Hs & Hs'). exists r'. repeat split; [done | congruence | congruence].
Qed.

Lemma same_order_trans r1 r2 r3 : same_order r1 r2 -> same_order r2 r3 -> same_order r1 r3.
Proof. intros [] []. split; congruence. Qed.

(** A thread survives changes that keep the orders and add nothing live to the
    orders whose payment it has locked. *)
Lemma thread_ok_db d d' t :
  thread_ok d t ->
  (forall r, In r (d_orders d) -> exists r', In r' (d_orders d') /\ same_order r r') ->
  (forall j, knows d j -> In (j_paymentNo j) (t_locks t) -> live d' (j_orderNo j) <= live d (j_orderNo j)) ->
  thread_ok d' t.
Proof.
  intros Ht Hk Hl. pose proof Ht as [Hs Hr Hp Ho Hlk Hsum Hopen]. split; try done.
  - intros o order Hin. destruct (Hr o order Hin) as (Hno & r & Hir & Hsame). split; [done |].
    destruct (Hk r Hir) as (r' & Hir' & Hs'). exists r'. split; [done | by eapply same_order_trans].
  - intros Hrun j Hj. destruct (Hlk Hrun j (or_intror Hj)) as [_ Hin]. pose proof (Hsum Hrun j Hj) as Hroom.
    assert (Hkn : knows d j) by (by eapply checked_knows, summed_checked).
    unfold room in *. pose proof (Hl j Hkn Hin). lia.
  - intros ws Hws. destruct (Hopen ws Hws) as [|(j & Hb & Hin & Hroom & Hkn)]; [by left |]. right.
    exists j. split; [done |]. split; [done |]. split; [|by eapply knows_kept].
    unfold room in *. pose proof (Hl j Hkn Hin). lia.
Qed.

Lemma thread_ok_benign d d' t : benign d d' -> thread_ok d t -> thread_ok d' t.
Proof. intros [_ Hl Hk _] Ht. by eapply thread_ok_db. Qed.

Lemma capacity_benign d d' : benign d d' -> capacity d -> capacity d'.
Proof.
  intros [_ Hl _ Hn] Hc r' f Hin Hf. destruct (Hn r' Hin) as [(r & Hir & Hno & Ha)|Hz].
  - specialize (Hl (o_no r')). rewrite <- Hno in *. rewrite <- Ha in Hf. specialize (Hc r f Hir Hf). lia.
  - rewrite Hz. apply parseAmountToFen_range in Hf. lia.
Qed.

(** ** Committing a booked refund *)

Lemma live_booked d j o :
  live (with_refunds (fun rs => rs ++ [new_row j rs])%list d) o =
  live d o + (if String.eqb (j_orderNo j) o then fen_or_zero (j_amount j) else 0).
Proof.
  unfold live, with_refunds. simpl d_refunds. rewrite live_refunds_app. simpl r_order.
  change (refund_live (new_row j (d_refunds d))) with true. rewrite andb_true_r.
  rewrite !map_app, sumz_app. destruct (String.eqb (j_orderNo j) o); simpl; lia.
Qed.

Lemma booked_fen d j : knows d j -> fen_or_zero (j_amount j) = j_refundFen j.
Proof. intros (_ & H & _). unfold fen_or_zero. by rewrite H. Qed.

Lemma booked_wf d j : knows d j -> wf d -> wf (with_refunds (fun rs => rs ++ [new_row j rs])%list d).
Proof.
  intros (_ & Ha & _) [Ho Ht Hp Hr]. split; simpl; try done.
  intros r Hin Hl. apply in_app_or in Hin as [Hin|[<-|[]]]; [by apply Hr |]. simpl. by rewrite Ha.
Qed.

Lemma booked_capacity d j :
  knows d j -> room d j -> wf d -> capacity d -> capacity (with_refunds (fun rs => rs ++ [new_row j rs])%list d).
Proof.
  intros Hk Hroom Hw Hc r f Hin Hf. simpl in Hin. rewrite live_booked.
  destruct (String.eqb_spec (j_orderNo j) (o_no r)) as [E|E]; [|specialize (Hc r f Hin Hf); lia].
  rewrite (booked_fen d j Hk). destruct Hk as (_ & _ & _ & r' & Hin' & Hno & Ha').
  assert (Ea : o_amount r = o_amount r') by (apply (wf_orders d Hw); congruence).
  rewrite Ea, Ha' in Hf. injection Hf as <-. unfold room in Hroom. by rewrite <- E.
Qed.

(** ** Reading events

    The answers of the statements the invariant speaks of. *)

Definition is_begun (ev : event svc) : bool :=
  match ev with
  | Event e r =>
      match e in svc R return R -> bool with
      | Io e' => match e' in io R return R -> bool with BeginOrNull => fun ok => ok | _ => fun _ => false end
      | _ => fun _ => false
      end r
  end.

Definition v_order R (q : stmt R) : answer R -> option (string * order_row) :=
  match q with FindOrder o => fun a => match a with Ok row => Some (o, row) | _ => None end | _ => fun _ => None end.
Definition v_payment R (q : stmt R) : answer R -> option (string * string * payment_row) :=
  match q with
  | FindPayment no o => fun a => match a with Ok row => Some (no, o, row) | _ => None end
  | _ => fun _ => None
  end.
Definition v_lock R (q : stmt R) : answer R -> option (string * string * list payment_row) :=
  match q with
  | LockPayment o p => fun a => match a with Ok rows => Some (o, p, rows) | _ => None end
  | _ => fun _ => None
  end.
Definition v_sum R (q : stmt R) : answer R -> option (string * list string) :=
  match q with
  | SumLiveRefunds o => fun a => match a with Ok sums => Some (o, sums) | _ => None end
  | _ => fun _ => None
  end.

Lemma opened_head j ev h : opened j (ev :: h) -> is_begun ev = true.
Proof. intros (h' & E & _). by apply (f_equal (fun h => match h with [] => false | ev :: _ => is_begun ev end)) in E. Qed.

Lemma locked_head j ev h :
  locked j (ev :: h) ->
  (exists row rows, txn_view v_lock ev = Some (j_orderNo j, j_paymentNo j, row :: rows)) /\ opened j h.
Proof.
  intros (row & rows & h' & E & Ho). split.
  - exists row, rows. by apply (f_equal (fun h => match h with [] => None | ev :: _ => txn_view v_lock ev end)) in E.
  - apply (f_equal (@tl _)) in E. simpl in E. by subst.
Qed.

Lemma summed_head j ev h :
  summed j (ev :: h) ->
  exists sums fen, txn_view v_sum ev = Some (j_orderNo j, sums) /\ locked j h /\
    refund_sum_fen sums = Some fen /\ wrap64 (fen + j_refundFen j) <= j_totalFen j.
Proof.
  intros (sums & fen & h' & E & Hl & Hf & Hw). exists sums, fen.
  split; [by apply (f_equal (fun h => match h with [] => None | ev :: _ => txn_view v_sum ev end)) in E |].
  apply (f_equal (@tl _)) in E. simpl in E. by subst.
Qed.

(** The next state of a thread whose transaction did nothing the invariant
    speaks of. *)
Lemma thread_ok_next d d' p ev h x x' l l' p' :
  thread_ok d (Thread p h x l) ->
  (forall r, In r (d_orders d) -> exists r', In r' (d_orders d') /\ same_order r r') ->
  (exists request, safe any_answer (refund_guarantee channels request) refund_end p' (ev :: h)) ->
  (forall o order, main_view v_order ev = Some (o, order) ->
     o_no order = o /\ exists r, In r (d_orders d') /\ same_order order r) ->
  (forall no o p, main_view v_payment ev = Some (no, o, p) -> p_status p = "SUCCESS" -> no = paid_by o) ->
  (running p' -> is_begun ev = true -> x' = TxOpen []) ->
  (forall j, txn_view v_lock ev <> None -> locked j (ev :: h) ->
     (exists ws, x' = TxOpen ws /\ inert ws) /\ In (j_paymentNo j) l') ->
  (forall j, txn_view v_sum ev <> None -> summed j (ev :: h) ->
     (exists ws, x' = TxOpen ws /\ inert ws) /\ In (j_paymentNo j) l' /\ room d' j) ->
  (forall ws, x' = TxOpen ws -> inert ws \/
     exists j, books j ws /\ In (j_paymentNo j) l' /\ room d' j /\ knows d' j) ->
  thread_ok d' (Thread p' (ev :: h) x' l').
Proof.
  intros Ht Hk Hs Hor Hpay Hb Hlk Hsm Hop. split; simpl; try done.
  - intros o order [E|Hin].
    + apply Hor. by rewrite E.
    + destruct (to_read _ _ Ht _ _ Hin) as (Hno & r & Hir & Hsame). split; [done |].
      destruct (Hk r Hir) as (r' & Hir' & Hs'). exists r'. split; [done | by eapply same_order_trans].
  - intros no o q [E|Hin]; [|by eapply to_paid]. apply Hpay. by rewrite E.
  - intros Hrun j Hj. apply opened_head in Hj. auto.
  - intros Hrun j [Hj|Hj].
    + apply Hlk; [|done]. destruct (locked_head _ _ _ Hj) as [(row & rows & ->) _]. done.
    + destruct (Hsm j) as (H1 & H2 & _); [|done | done].
      destruct (summed_head _ _ _ Hj) as (sums & fen & -> & _). done.
  - intros Hrun j Hj. apply Hsm; [|done]. destruct (summed_head _ _ _ Hj) as (sums & fen & -> & _). done.
Qed.

(** ** One operation of a thread *)

(** What a thread is about to do is allowed, and it stays safe. *)
Lemma to_moves d R (e : svc R) k h x l :
  thread_ok d (Thread (Vis e k) h x l) -> forall r,
  (exists request, refund_guarantee channels request h (Event e r)) /\
  exists request, safe any_answer (refund_guarantee channels request) refund_end (k r) (Event e r :: h).
Proof. intros Ht r. destruct (to_safe _ _ Ht) as [rq Hs]. destruct (Hs r I) as [Hg Hs']. split; by exists rq. Qed.

(** What it does to the tables: nothing live is added, or the refund the thread
    booked is committed under the lock of its payment. *)
Inductive effect (d : db) (locks : list string) (d' : db) : Prop :=
| effect_benign : benign d d' -> effect d locks d'
| effect_booked j :
    d' = with_refunds (fun rs => rs ++ [new_row j rs])%list d -> In (j_paymentNo j) locks ->
    room d j -> knows d j -> effect d locks d'.

Lemma main_tame R (q : stmt R) h : main_allowed h q -> tame q = true.
Proof. by destruct q. Qed.

Lemma post_tame R (q : stmt R) h : post_allowed channels h q -> tame q = true.
Proof. by destruct q. Qed.

Lemma main_result_benign R (q : stmt R) d a d' : tame q = true -> wf d -> main_result q d a d' -> benign d d'.
Proof.
  intros Hq Hw [r f He|a' _]; [|by apply benign_refl]. pose proof (tame_benign R q d Hq Hw) as H. by rewrite He in H.
Qed.

Lemma release_effect d t ws : wf d -> thread_ok d t -> t_txn t = TxOpen ws -> effect d (t_locks t) (apply_writes ws d).
Proof.
  intros Hw Ht Hws. destruct (to_open _ _ Ht ws Hws) as [Hi|(j & Hb & Hin & Hroom & Hk)].
  - left. rewrite Hi. by apply benign_refl.
  - right with j; try done.
Qed.

Lemma interact_effect held d R (e : svc R) x l r d' x' l' :
  interact held d R e x l r d' x' l' -> forall k h,
  wf d -> thread_ok d (Thread (Vis e k) h x l) -> effect d l d'.
Proof.
  intros Hi k0 h Hw Ht. destruct Hi; try (left; by apply benign_refl).
  - left. eapply main_result_benign; [|done |eassumption]. destruct (to_moves _ _ _ _ _ _ _ Ht a) as [[rq Hg] _]. by eapply main_tame.
  - left. eapply main_result_benign; [|done |eassumption]. destruct (to_moves _ _ _ _ _ _ _ Ht tt) as [[rq Hg] _]. by eapply post_tame.
  - exact (release_effect d _ ws Hw Ht eq_refl).
Qed.

Lemma interact_locks held d R (e : svc R) x l r d' x' l' p :
  interact held d R e x l r d' x' l' -> In p l' -> In p l \/ ~ In p held.
Proof.
  destruct 1; simpl; try tauto. rewrite in_app_iff. intros [Hin|Hin]; [|by left].
  apply in_map_iff in Hin as (q & <- & Hin). right. auto.
Qed.

Lemma effect_kept d locks d' :
  effect d locks d' -> forall r, In r (d_orders d) -> exists r', In r' (d_orders d') /\ same_order r r'.
Proof.
  intros [[_ _ Hk _]|j -> _ _ _] r Hin; [by apply Hk |]. exists r. by repeat split.
Qed.

(** The rows a mapper reads. *)
Lemma exec_find_order d o order f :
  exec (FindOrder o) d = (Ok order, f) -> o_no order = o /\ In order (d_orders d).
Proof.
  simpl. intros [= H _]. apply exactly_one_inv in H.
  assert (Hin : In order (select (fun r => String.eqb (o_no r) o) (d_orders d))) by (rewrite H; by left).
  apply filter_In in Hin as [Hin E]. by apply String.eqb_eq in E.
Qed.

Lemma exec_find_payment d no o p f :
  exec (FindPayment no o) d = (Ok p, f) -> p_no p = no /\ p_order p = o /\ In p (d_payments d).
Proof.
  simpl. intros [= H _]. apply exactly_one_inv in H.
  assert (Hin : In p (select (fun r => String.eqb (p_no r) no && String.eqb (p_order r) o) (d_payments d)))
    by (rewrite H; by left).
  apply filter_In in Hin as [Hin E]. breflect. by destruct E.
Qed.

(** The sum read under the lock is the sum of the live refunds. *)
Lemma exec_sum_live d j sums f fen :
  sums_amounts -> wf d -> capacity d -> knows d j ->
  exec (SumLiveRefunds (j_orderNo j)) d = (Ok sums, f) -> refund_sum_fen sums = Some fen ->
  wrap64 (fen + j_refundFen j) <= j_totalFen j -> room d j.
Proof.
  intros Hsum Hw Hc (_ & _ & Hpos & r & Hin & Hno & Hf) He Hfen Hwrap. simpl in He. injection He as <- _.
  pose proof (wf_total d Hw r _ Hin Hf) as Htot. pose proof (Hc r _ Hin Hf) as Hcap. rewrite Hno in Hcap.
  pose proof (live_nonneg d (j_orderNo j)) as Hnn. unfold refund_sum_fen in Hfen.
  rewrite Hsum in Hfen; [| |change (live d (j_orderNo j) < 2 ^ 62); lia].
  - injection Hfen as <-. change (wrap64 (live d (j_orderNo j) + j_refundFen j) <= j_totalFen j) in Hwrap. unfold room.
    rewrite wrap64_small in Hwrap; [done |]. unfold in_int64, int64_min, int64_max. lia.
  - apply Forall_forall. intros a Ha. apply list_elem_of_In, in_map_iff in Ha as (row & <- & Hrow).
    apply filter_In in Hrow as [Hrow Hlive]. apply andb_true_iff in Hlive as [_ Hlive]. by apply (wf_refunds d Hw).
Qed.

Lemma inert_snoc ws f : inert ws -> (forall d, f d = d) -> inert (ws ++ [f])%list.
Proof. intros Hi Hf d. by rewrite apply_writes_snoc, Hi. Qed.

Lemma books_snoc j ws f : books j ws -> (forall d, f d = d) -> books j (ws ++ [f])%list.
Proof. intros Hb Hf d. by rewrite apply_writes_snoc, Hb. Qed.

(** A statement of the transaction that leaves the tables alone. *)
Lemma open_read d t ws f :
  thread_ok d t -> t_txn t = TxOpen ws -> (forall d, f d = d) ->
  forall ws', TxOpen (ws ++ [f])%list = TxOpen ws' -> inert ws' \/
    exists j, books j ws' /\ In (j_paymentNo j) (t_locks t) /\ room d j /\ knows d j.
Proof.
  intros Ht Hws Hf ws' [= <-]. destruct (to_open _ _ Ht ws Hws) as [Hi|(j & Hb & H)].
  - left. by apply inert_snoc.
  - right. exists j. split; [by apply books_snoc | done].
Qed.

Section Step.
Context (Hsums : sums_amounts) (d : db) (Hw : wf d) (Hc : capacity d).

Lemma orders_refl r : In r (d_orders d) -> exists r', In r' (d_orders d) /\ same_order r r'.
Proof. intros Hin. exists r. by repeat split. Qed.

(** A statement outside of the transaction. *)
Lemma main_step_ok R (q : stmt R) a d' k h x l :
  thread_ok d (Thread (Vis (Io (Sql Main q)) k) h x l) -> main_result q d a d' ->
  thread_ok d' (Thread (k a) (main q a :: h) x l).
Proof.
  intros Ht Hm. destruct (to_moves _ _ _ _ _ _ _ Ht a) as [[rq Hg] Hs].
  assert (Hb : benign d d') by (eapply main_result_benign; [by eapply main_tame | done | done]).
  pose proof (thread_ok_benign _ _ _ Hb Ht) as Ht'.
  eapply (thread_ok_next d d'); try done; try by eapply to_open; [exact Ht' |].
  - apply Hb.
  - intros o order E. destruct q; try done. destruct Hm as [row f He|a' Hn]; [|by destruct a'; try done; destruct (Hn r)].
    injection E as <- <-. apply exec_find_order in He as [Hno Hin]. split; [done |]. by apply (bn_kept _ _ Hb).
  - intros no' o p E Hp. destruct q; try done. destruct Hm as [row f He|a' Hn]; [|by destruct a'; try done; destruct (Hn r)].
    injection E as <- <- <-. apply exec_find_payment in He as (<- & <- & Hin). by apply (wf_paid d Hw).
  - intros ws Hws. by apply (to_open _ _ Ht').
Qed.

(** A statement that fails, and operations that are not statements. *)
Lemma plain_step_ok R (e : svc R) r k h x l x' l' d' :
  thread_ok d (Thread (Vis e k) h x l) ->
  (forall r, In r (d_orders d) -> exists r', In r' (d_orders d') /\ same_order r r') ->
  main_view v_order (Event e r) = None -> main_view v_payment (Event e r) = None ->
  txn_view v_lock (Event e r) = None -> txn_view v_sum (Event e r) = None ->
  (is_begun (Event e r) = true -> running (k r) -> x' = TxOpen []) ->
  (forall ws, x' = TxOpen ws -> inert ws \/
     exists j, books j ws /\ In (j_paymentNo j) l' /\ room d' j /\ knows d' j) ->
  thread_ok d' (Thread (k r) (Event e r :: h) x' l').
Proof.
  intros Ht Hk H1 H2 H3 H4 Hb Ho. eapply (thread_ok_next d d'); try done; try (rewrite ?H1, ?H2, ?H3, ?H4; done); auto.
  by destruct (to_moves _ _ _ _ _ _ _ Ht r).
Qed.

Lemma lock_step_ok held order no ws l rows f k h :
  exec (LockPayment order no) (apply_writes ws d) = (Ok rows, f) ->
  thread_ok d (Thread (Vis (Io (Sql Txn (LockPayment order no))) k) h (TxOpen ws) l) ->
  (forall p, In p rows -> ~ In (p_no p) held) ->
  thread_ok d (Thread (k (Ok rows)) (in_txn (LockPayment order no) (Ok rows) :: h) (TxOpen (ws ++ [f])%list)
                 (map p_no rows ++ l)%list).
Proof.
  intros He Ht _. destruct (to_moves _ _ _ _ _ _ _ Ht (Ok rows)) as [[rq (j & Ho & -> & ->)] Hs].
  pose proof (to_opened _ _ Ht I j Ho) as Hws. injection Hws as ->.
  injection He as Hrows <-.
  assert (Hi : inert [fun d : db => d]) by done.
  eapply (thread_ok_next d d); try done; [apply orders_refl | | by intros ws [= <-]; left].
  intros j' _ Hl. apply locked_head in Hl as [(row & rs & E) _]. simpl in E. injection E as _ <- ->.
  split; [by exists [fun d => d] |].
  assert (Hin : In row (select (fun r => String.eqb (p_order r) (j_orderNo j) && String.eqb (p_no r) (j_paymentNo j))
                          (d_payments d))) by (simpl in Hrows; rewrite Hrows; by left).
  apply filter_In in Hin as [_ Hin]. apply andb_true_iff in Hin as [_ Hin]. apply String.eqb_eq in Hin.
  apply in_or_app. left. rewrite <- Hin. by left.
Qed.

Lemma txn_step_ok R (q : stmt R) ws l r f k h :
  is_commit q = false -> is_lock q = false -> exec q (apply_writes ws d) = (Ok r, f) ->
  thread_ok d (Thread (Vis (Io (Sql Txn q)) k) h (TxOpen ws) l) ->
  thread_ok d (Thread (k (Ok r)) (in_txn q (Ok r) :: h) (TxOpen (ws ++ [f])%list) l).
Proof.
  intros Hcm Hlk He Ht. destruct (to_moves _ _ _ _ _ _ _ Ht (Ok r)) as [[rq Hg] Hs]. destruct q; try done.
  - (* FindOrder *)
    injection He as _ <-. eapply (thread_ok_next d d); try done; [apply orders_refl |].
    by eapply (open_read d _ ws _ Ht).
  - (* SumLiveRefunds *)
    destruct Hg as (j & Hl & ->). destruct (to_locked _ _ Ht I j (or_introl Hl)) as ((ws' & E & Hi) & Hin).
    injection E as <-. rewrite Hi in He. assert (Hf : f = fun d => d) by (by injection He).
    assert (Hi' : inert (ws ++ [f])%list) by (apply inert_snoc; [done | by rewrite Hf]).
    eapply (thread_ok_next d d); try done; [apply orders_refl | | by intros ws'' [= <-]; left].
    intros j' _ Hj'. pose proof Hj' as Hj''. apply summed_head in Hj' as (sums & fen & E & Hl' & Hfen & Hwrap).
    injection E as E <-. destruct (to_locked _ _ Ht I j' (or_introl Hl')) as (_ & Hin').
    split; [by exists (ws ++ [f])%list |]. split; [done |].
    rewrite E in He. eapply exec_sum_live; try done. by eapply checked_knows, locked_checked.
  - (* InsertRefund *)
    destruct Hg as (j & Hsm & -> & -> & -> & -> & ->).
    destruct (to_locked _ _ Ht I j (or_intror Hsm)) as ((ws' & E & Hi) & Hin). injection E as <-.
    rewrite Hi in He. simpl in He. destruct (existsb _ _); [done |]. injection He as _ <-.
    eapply (thread_ok_next d d); try done; [apply orders_refl |]. intros ws' [= <-]. right. exists j.
    split; [intros d0; by rewrite apply_writes_snoc, Hi |]. split; [done |].
    split; [by eapply to_summed | by eapply checked_knows, summed_checked].
Qed.

Lemma interact_ok held R (e : svc R) x l r d' x' l' :
  interact held d R e x l r d' x' l' -> forall k h,
  thread_ok d (Thread (Vis e k) h x l) -> thread_ok d' (Thread (k r) (Event e r :: h) x' l').
Proof.
  intros Hi k0 h Ht. pose proof (interact_effect _ _ _ _ _ _ _ _ _ _ Hi k0 h Hw Ht) as He.
  pose proof (effect_kept _ _ _ He) as Hk. destruct Hi as
    [R q x l a d' Hm|R q x l a d' Hm|x l|x l|R q ws l r f H1 H2 H3|order no ws l rows f H1 H2|ws l|R q x l a Hn|R q x l a Hn|x l|c op x l a|rr c x l|x l t|x l u|k t v x l a].
  - by eapply main_step_ok.
  - assert (Hb : benign d d').
    { eapply main_result_benign; [|done |exact Hm]. destruct (to_moves _ _ _ _ _ _ _ Ht tt) as [[rq Hg] _]. by eapply post_tame. }
    eapply plain_step_ok; try done. intros ws Hws. by apply (to_open _ _ (thread_ok_benign _ _ _ Hb Ht)).
  - eapply plain_step_ok; try done. intros ws [= <-]. by left.
  - by eapply plain_step_ok.
  - by eapply txn_step_ok.
  - by eapply lock_step_ok.
  - by eapply plain_step_ok.
  - eapply plain_step_ok; try done; by destruct q; try done; destruct a; try done; destruct (Hn r).
  - eapply plain_step_ok; try done; try (by destruct q; try done; destruct a; try done; destruct (Hn r)).
    intros ws Hws. by apply (to_open _ _ Ht).
  - by eapply plain_step_ok.
  - eapply plain_step_ok; try done. intros ws Hws. by apply (to_open _ _ Ht).
  - eapply plain_step_ok; try done. intros ws Hws. by apply (to_open _ _ Ht).
  - eapply plain_step_ok; try done. intros ws Hws. by apply (to_open _ _ Ht).
  - eapply plain_step_ok; try done. intros ws Hws. by apply (to_open _ _ Ht).
  - eapply plain_step_ok; try done. intros ws Hws. by apply (to_open _ _ Ht).
Qed.
End Step.

(** ** One step of the pool *)

Lemma in_held i k ts t p :
  ts !! k = Some t -> k <> i -> In p (t_locks t) -> In p (held_by_others i ts).
Proof.
  intros Hk Hne Hp. unfold held_by_others. apply in_concat. exists (t_locks t). split; [|done].
  apply in_map. apply in_or_app. apply list_elem_of_lookup_2 in Hk as Hin.
  destruct (decide (k < i)%nat) as [Hlt|Hge]; [left | right]; apply list_elem_of_In.
  - apply list_elem_of_lookup. exists k. by rewrite lookup_take_lt.
  - apply list_elem_of_lookup. exists (k - S i)%nat. rewrite lookup_drop. rewrite <- Hk. f_equal. lia.
Qed.

(** The other threads survive what one does. *)
Lemma others_survive d d' l t :
  effect d l d' -> (forall p, In p (t_locks t) -> ~ In p l) -> thread_ok d t -> thread_ok d' t.
Proof.
  intros He Hdis Ht. destruct He as [Hb|j -> Hin Hroom Hkn]; [by eapply thread_ok_benign|].
  eapply thread_ok_db; [done | apply (effect_kept d l); by right with j |].
  intros j' Hkn' Hin'. rewrite live_booked. destruct (String.eqb_spec (j_orderNo j) (j_orderNo j')) as [E|]; [|lia].
  exfalso. apply (Hdis (j_paymentNo j') Hin'). destruct Hkn as [E1 _], Hkn' as [E2 _].
  rewrite E2, <- E, <- E1. done.
Qed.

Lemma effect_tables d l d' : effect d l d' -> wf d -> capacity d -> wf d' /\ capacity d'.
Proof.
  intros [Hb|j -> _ Hroom Hkn] Hw Hc.
  - split; [apply Hb | by eapply capacity_benign].
  - split; [by apply booked_wf | by apply booked_capacity].
Qed.

(** A thread moves, with what it does to the tables. *)
Lemma move_ok ts d i t t' d' :
  pool_ok (ts, d) -> ts !! i = Some t -> effect d (t_locks t) d' -> thread_ok d' t' ->
  (forall p, In p (t_locks t') -> In p (t_locks t) \/ ~ In p (held_by_others i ts)) ->
  pool_ok (<[i := t']> ts, d').
Proof.
  intros [Hts Hlk Hw Hc] Hi He Ht' Hnew. simpl in *.
  destruct (effect_tables _ _ _ He Hw Hc) as [Hw' Hc']. split; simpl; try done.
  - intros k tk Hk. destruct (decide (k = i)) as [->|Hne].
    + rewrite list_lookup_insert_eq in Hk by (by eapply lookup_lt_Some). by injection Hk as <-.
    + rewrite list_lookup_insert_ne in Hk by done. eapply others_survive; [done | | by eapply Hts].
      intros p Hp Hp'. by apply (Hlk k i tk t p Hk Hi Hne).
  - assert (Hcase : forall k tk p, ts !! k = Some tk -> k <> i -> In p (t_locks t') -> ~ In p (t_locks tk)).
    { intros k tk p Hk Hne Hp Hp'. destruct (Hnew p Hp) as [Hold|Hfree].
      - by apply (Hlk k i tk t p Hk Hi Hne).
      - apply Hfree. by eapply in_held. }
    intros a b ta tb p Ha Hb Hne Hpa Hpb. destruct (decide (a = i)) as [->|Hai], (decide (b = i)) as [->|Hbi];
      try done; rewrite ?list_lookup_insert_ne in Ha by done; rewrite ?list_lookup_insert_ne in Hb by done.
    + rewrite list_lookup_insert_eq in Ha by (by eapply lookup_lt_Some). injection Ha as <-. by eapply (Hcase b tb p).
    + rewrite list_lookup_insert_eq in Hb by (by eapply lookup_lt_Some). injection Hb as <-. by eapply (Hcase a ta p).
    + by apply (Hlk a b ta tb p).
Qed.

Lemma request_ok d request key : thread_ok d (request_thread request key).
Proof.
  split; simpl; try done; [by exists request; apply createRefund_ok | intros _ j (? & ? & ?); done | |].
  - intros _ j [(? & ? & ? & ? & ?)|(? & ? & ? & ? & ?)]; done.
  - intros _ j (? & ? & ? & ? & ?); done.
Qed.

Lemma pool_step_ok p p' : sums_amounts -> pool_ok p -> pool_step p p' -> pool_ok p'.
Proof.
  intros Hsums Hok Hs. destruct Hs as [ts d request key|ts d i t R e k r d' x l Hi Hp Hint|ts d i t ws Hi Hp Hws|ts d d' Hb].
  - destruct Hok as [Hts Hlk Hw Hc]. split; simpl in *; try done.
    + intros k t Hk. apply lookup_app_Some in Hk as [Hk|[_ Hk]]; [by eapply Hts |].
      apply list_lookup_singleton_Some in Hk as [_ <-]. apply request_ok.
    + intros a b ta tb q Ha Hb Hne Hqa Hqb.
      apply lookup_app_Some in Ha as [Ha|[_ Ha]]; [|apply list_lookup_singleton_Some in Ha as [_ <-]; done].
      apply lookup_app_Some in Hb as [Hb|[_ Hb]]; [|apply list_lookup_singleton_Some in Hb as [_ <-]; done].
      by apply (Hlk a b ta tb q).
  - pose proof Hok as [Hts Hlk Hw Hc]. simpl in *. pose proof (Hts i t Hi) as Ht.
    destruct t as [p h y ls]. simpl in *. subst p. eapply move_ok; [done | exact Hi | | |].
    + by eapply interact_effect.
    + by eapply interact_ok.
    + intros q Hq. by eapply interact_locks.
  - pose proof Hok as [Hts Hlk Hw Hc]. simpl in *. pose proof (Hts i t Hi) as Ht.
    pose proof (release_effect d t ws Hw Ht Hws) as He.
    eapply move_ok; [done | exact Hi | exact He | | done].
    pose proof (effect_kept _ _ _ He) as Hk. split; simpl; try done; try (by destruct Hp as [->| ->]).
    + apply Ht.
    + intros o order Hin. destruct (to_read _ _ Ht _ _ Hin) as (Hno & r & Hir & Hsame). split; [done |].
      destruct (Hk r Hir) as (r' & Hir' & Hs'). exists r'. split; [done | by eapply same_order_trans].
    + apply Ht.
  - destruct Hok as [Hts Hlk Hw Hc]. simpl in *. split; simpl; try done.
    + intros i t Hi. eapply thread_ok_benign; [done | by eapply Hts].
    + apply Hb.
    + by eapply capacity_benign.
Qed.
End Pool.

(** ** An executable scheduler *)

Section Scheduler.
Context `{J : JsonLib} (sha256 : string -> string).
Context (channels : list string) (redis : bool) (ttlSeconds : Z).
Context (sum_text : list string -> string) (server_now : Z) (paid_by : string -> string).
Abbreviation exec := (exec sum_text server_now).
Abbreviation interact := (interact sum_text server_now).
Abbreviation pool_reachable := (pool_reachable sha256 channels redis ttlSeconds sum_text server_now paid_by).
(** [advance] is one way an operation may go: it succeeds when it can; a lock that
    is taken blocks ([None]); every channel gives [told_by_channel]. *)
Context (told_by_channel : channel_answer) (uuid : string).

Definition txn_advance (held : list string) (d : db) (ws : list (db -> db)) (l : list string) R (q : stmt R) :
    option (answer R * db * txn * list string) :=
  match q in stmt R return option (answer R * db * txn * list string) with
  | Commit => Some (Ok tt, apply_writes ws d, TxNone, [])
  | LockPayment order no =>
      match exec (LockPayment order no) (apply_writes ws d) with
      | (Ok rows, f) =>
          if existsb (fun p => existsb (String.eqb (p_no p)) held) rows then None
          else Some (Ok rows, d, TxOpen (ws ++ [f])%list, (map p_no rows ++ l)%list)
      | (a, _) => Some (a, d, TxAborted, [])
      end
  | q =>
      match exec q (apply_writes ws d) with
      | (Ok r, f) => if is_lock q then None else Some (Ok r, d, TxOpen (ws ++ [f])%list, l)
      | (a, _) => Some (a, d, TxAborted, [])
      end
  end.

Definition advance (held : list string) (d : db) R (e : svc R) (x : txn) (l : list string) :
    option (R * db * txn * list string) :=
  match e in svc R return option (R * db * txn * list string) with
  | Io e' =>
      match e' in io R return option (R * db * txn * list string) with
      | Now => Some (server_now, d, x, l)
      | Uuid => Some (uuid, d, x, l)
      | Sql Main q =>
          match exec q d with
          | (Ok r, f) => Some (Ok r, f d, x, l)
          | (a, _) => Some (a, d, x, l)
          end
      | Sql Txn q => match x with TxOpen ws => txn_advance held d ws l _ q | _ => None end
      | BeginOrNull => Some (true, d, TxOpen [], [])
      | Rollback => Some (tt, d, TxAborted, [])
      | RedisSetEx _ _ _ => Some (RedisValue, d, x, l)
      | _ => None
      end
  | Call _ _ => Some (told_by_channel, d, x, l)
  | Post q =>
      match exec q d with (Ok r, f) => Some (tt, f d, x, l) | _ => Some (tt, d, x, l) end
  | Answer _ _ => Some (tt, d, x, l)
  | Claim => None
  | Draw _ => None
  end.

(** The threads to move, in turn; a thread that cannot stays where it is. *)
Fixpoint drive (schedule : list nat) (p : pool) : pool :=
  match schedule with
  | [] => p
  | i :: rest =>
      drive rest
        match fst p !! i with
        | Some (Thread (Vis e k) h x l) =>
            match advance (held_by_others i (fst p)) (snd p) _ e x l with
            | Some (r, d', x', l') => (<[i := Thread (k r) (Event e r :: h) x' l']> (fst p), d')
            | None => p
            end
        | _ => p
        end
  end.

(** The scheduler only takes steps. *)
Lemma txn_advance_sound held d ws l R (q : stmt R) a d' x' l' :
  txn_advance held d ws l R q = Some (a, d', x', l') ->
  interact held d _ (Io (Sql Txn q)) (TxOpen ws) l a d' x' l'.
Proof.
  assert (Hgen : is_commit q = false -> is_lock q = false ->
    match exec q (apply_writes ws d) with
    | (Ok r, f) => if is_lock q then None else Some (Ok r, d, TxOpen (ws ++ [f])%list, l)
    | (a, _) => Some (a, d, TxAborted, [])
    end = Some (a, d', x', l') -> interact held d _ (Io (Sql Txn q)) (TxOpen ws) l a d' x' l').
  { intros Hc Hl. destruct (exec q (apply_writes ws d)) as [[r|e|w] f] eqn:E; rewrite ?Hl;
      intros H; injection H as <- <- <- <-; [by apply on_txn | by apply on_failure..]. }
  destruct q; try (apply Hgen; done); intros H; unfold txn_advance in H.
  - destruct (exec _ _) as [[rows|e|w] f] eqn:E; [|injection H as <- <- <- <-; by apply on_failure..].
    destruct (existsb _ rows) eqn:Ex; [done |]. injection H as <- <- <- <-. apply on_lock; [done |].
    intros p Hp Hin. assert (existsb (fun p => existsb (String.eqb (p_no p)) held) rows = true); [|congruence].
    apply existsb_exists. exists p. split; [done |]. apply existsb_exists. exists (p_no p). split; [done |].
    apply String.eqb_refl.
  - injection H as <- <- <- <-. apply on_commit.
Qed.

Lemma advance_sound held d R (e : svc R) x l r d' x' l' :
  advance held d R e x l = Some (r, d', x', l') -> interact held d R e x l r d' x' l'.
Proof.
  destruct e as [R e|c op|R q| |res c|bound]; simpl.
  - destruct e as [ | |R c q| | | |R q| | |k t v|rp]; try done; try (intros H; injection H as <- <- <- <-; constructor).
    destruct c; [|destruct x as [|ws|]; try done; apply txn_advance_sound].
    destruct (exec q d) as [[a|e|w] f] eqn:E; intros H; injection H as <- <- <- <-; apply on_main;
      [by apply main_ok | by apply main_fails..].
  - intros H; injection H as <- <- <- <-. constructor.
  - destruct (exec q d) as [[a|e|w] f] eqn:E; intros H; injection H as <- <- <- <-;
      [eapply on_post, main_ok; done | eapply on_post, (main_fails _ _ _ _ (Exc e)); done
      | eapply on_post, (main_fails _ _ _ _ (Threw w)); done].
  - done.
  - intros H; injection H as <- <- <- <-. constructor.
  - done.
Qed.

Lemma drive_reachable schedule p0 p : pool_reachable p0 p -> pool_reachable p0 (drive schedule p).
Proof.
  revert p. induction schedule as [|i rest IH]; intros p Hp; simpl; [done |]. apply IH.
  destruct p as [ts d]. simpl. destruct (ts !! i) as [[pr h x l]|] eqn:Hi; [|done].
  destruct pr as [| |R e k]; try done.
  destruct (advance _ _ _ _ _ _) as [[[[r d'] x'] l']|] eqn:E; [|done].
  eapply pool_next; [done |]. apply (step_thread _ _ _ _ _ _ _ ts d i (Thread (Vis e k) h x l) R e k r d' x' l'); [done | done |].
  by apply advance_sound.
Qed.

End Scheduler.

(** ** Theorem *)

Section Claims.
Context `{J : JsonLib} (sha256 : string -> string).
Context (channels : list string) (redis : bool) (ttlSeconds : Z).
Context (sum_text : list string -> string) (server_now : Z) (paid_by : string -> string).

(** C9. However any number of refund requests interleave with each other, with
    failures, and with writers that add no live refund, the refunds of every
    order that happened or may still happen never add up to more than the order's
    amount: the invariant of the tables is kept by every step.  Each order has one
    successful payment, whose row the requests lock. *)
Theorem refunds_never_exceed_order d ts d' :
  sums_amounts sum_text -> wf paid_by d -> capacity d ->
  pool_reachable sha256 channels redis ttlSeconds sum_text server_now paid_by ([], d) (ts, d') ->
  capacity d'.
Proof.
  intros Hsums Hw Hc Hr.
  assert (H : pool_ok channels server_now paid_by (ts, d')) by
    (clear -Hsums Hw Hc Hr; induction Hr as [|p p' _ IH Hs]; [by split | by eapply pool_step_ok]).
  apply H.
Qed.
End Claims.

(** ** Witnesses *)

Definition paid_one (o : string) : string := "P1".

Definition racer (request : refund_request) : thread :=
  @request_thread lib0 shop_md5 ["wechat"] false 60 request "".

Definition race : list thread := [racer refund_of_8; racer refund_of_7].

(** Two requests, move for move. *)
Fixpoint turns (n : nat) : list nat := match n with O => [] | S n' => 0%nat :: 1%nat :: turns n' end.

Definition after_race : pool :=
  @drive lib0 shop_sum shop_time accepted "u" (turns 24) (race, open_db).

Lemma open_db_wf : wf paid_one open_db /\ capacity open_db.
Proof.
  split; [split|]; unfold open_db; simpl.
  - intros r r' [<-|[]] [<-|[]]. done.
  - intros r f [<-|[]] H. vm_compute in H. injection H as <-. lia.
  - intros p [<-|[]] _. done.
  - done.
  - intros r f [<-|[]] H. vm_compute in H. injection H as <-. done.
Qed.

Lemma shop_sums : sums_amounts shop_sum.
Proof.
  intros amounts _ Hs. unfold shop_sum. change (fold_right Z.add 0 (map fen_or_zero amounts)) with (sumz (map fen_or_zero amounts)).
  apply yuanString_parses. split.
  - clear. induction amounts as [|a l IH]; simpl; [lia |]. pose proof (fen_nonneg a). lia.
  - unfold max_yuan. lia.
Qed.

Lemma race_reachable :
  @pool_reachable lib0 shop_md5 ["wechat"] false 60 shop_sum shop_time paid_one ([], open_db) after_race.
Proof.
  apply drive_reachable. apply (pool_next _ _ _ _ _ _ _ _ ([racer refund_of_8], open_db));
    [apply (pool_next _ _ _ _ _ _ _ _ ([], open_db)); [apply pool_start |] |].
  - exact (step_request _ _ _ _ _ _ _ [] open_db refund_of_8 "").
  - exact (step_request _ _ _ _ _ _ _ [racer refund_of_8] open_db refund_of_7 "").
Qed.

(** Two racing refunds of 8.00 and 7.00 on an order of 12.50: the first is made,
    the second refused. *)
Lemma refunds_never_exceed_order_witness :
  capacity (snd after_race) /\
  map (fun t => map snd (answers_of (t_history t))) (fst after_race) = [[0]; [1409]] /\
  map (fun r => (r_amount r, r_status r)) (d_refunds (snd after_race)) = [("8.00", "REFUND_SUCCESS")].
Proof.
  split; [|by vm_compute]. destruct open_db_wf as [Hw Hc].
  apply (refunds_never_exceed_order (J := lib0) shop_md5 ["wechat"] false 60 shop_sum shop_time paid_one open_db
           (fst after_race)); [exact shop_sums | exact Hw | exact Hc |].
  rewrite <- surjective_pairing. exact race_reachable.
Defined.
