(* ===== verification/RefundRun.v ===== *)
(** * Refund requests on the reference database: the decision they make.

    The chain of callbacks from [proceedRefund] to the channel call, run on tables
    without failures, decides as one function of the tables. *)
From S2P Require Import Prelude Cxx Json Effects Store Amount RefDb RefDbFacts Service RefundService Scenario.
From S2P Require Import RefundGuard RefundPool.
Import RefundService.Refunds.

(** ** The specification *)

Section Verdict.
Context `{J : JsonLib}.

Inductive verdict :=
| Refuse (code : Z) (message : string)
| Already (j : refund_job) (row : refund_row)    (* a refund of this amount succeeded before *)
| Book (j : refund_job) (channel : string).      (* insert the row, then ask the channel *)

(** The one row of a lookup, or its error. *)
Definition the_row {A} (rows : list A) : A + string :=
  match rows with
  | [] => inr "0 rows found"
  | [r] => inl r
  | _ => inr "Found more than one row"
  end.

Definition settled_same (o p a : string) (r : refund_row) : bool :=
  refund_of o p a r && String.eqb (r_status r) "REFUND_SUCCESS".
Definition open_same (o p a : string) (r : refund_row) : bool := refund_of o p a r && refund_open r.

(** A paid order and a positive amount within it: what the other refunds leave. *)
Definition verdict_on_job (j : refund_job) (channel : string) (d : db) : verdict :=
  match latest (select (settled_same (j_orderNo j) (j_paymentNo j) (j_amount j)) (d_refunds d)) with
  | Some row => Already j row
  | None =>
      if existsb (open_same (j_orderNo j) (j_paymentNo j) (j_amount j)) (d_refunds d)
      then Refuse 1409 "refund already in progress"
      else if j_totalFen j <? live d (j_orderNo j) + j_refundFen j
      then Refuse 1409 "refund amount exceeds paid"
      else if existsb (fun r => String.eqb (r_no r) (j_refundNo j)) (d_refunds d)
      then Refuse 1500 "Database error: duplicate key"
      else Book j channel
  end.

Definition verdict_on_order (request : refund_request) (refundNo : string) (d : db) : verdict :=
  match the_row (select (fun r => String.eqb (o_no r) (rq_orderNo request)) (d_orders d)) with
  | inr e => Refuse 1404 ("Order not found: " +:+ e)
  | inl order =>
      if negb (String.eqb (o_status order) "PAID") then Refuse 1409 "order not paid"
      else
        match parseAmountToFen (rq_amount request), parseAmountToFen (o_amount order) with
        | Some refundFen, Some totalFen =>
            if (0 <? refundFen) && (refundFen <=? totalFen)
            then verdict_on_job (RefundJob request refundNo (rq_paymentNo request) refundFen totalFen
                                   (o_currency order)) (o_channel order) d
            else Refuse 1400 "Invalid refund amount"
        | _, _ => Refuse 1400 "Invalid amount format"
        end
  end.

Definition verdict_of (request : refund_request) (refundNo : string) (d : db) : verdict :=
  match the_row (select (fun r => String.eqb (p_no r) (rq_paymentNo request) &&
                                  String.eqb (p_order r) (rq_orderNo request)) (d_payments d)) with
  | inr e => Refuse 1404 ("Payment not found: " +:+ e)
  | inl payment =>
      if negb (String.eqb (p_status payment) "SUCCESS") then Refuse 1409 "payment not successful"
      else verdict_on_order request refundNo d
  end.
End Verdict.

(** ** Running *)

Section Run.
Context `{J : JsonLib} (sha256 : string -> string).
Context (channels : list string) (redis : bool) (ttlSeconds : Z).
Context (sum_text : list string -> string) (server_now : Z) (paid_by : string -> string).
Abbreviation exec := (exec sum_text server_now).
Abbreviation run := (run (handle_svc sum_text server_now)).
Abbreviation RefundCallback := (json -> Z -> prog svc).

(** The deployment [s] with the tables [d] and the transaction [x]. *)
Definition moved (d : db) (x : txn) (s : deployment) : deployment :=
  with_world (set_txn x (set_main d (dp_world s))) s.

Definition quiet (s : deployment) : Prop := w_faults (dp_world s) = [].

(** The channel was called. *)
Definition after_call (channel : string) (op : channel_op) (s : deployment) : deployment :=
  Deployment (dp_world s) (snd (next_answer (dp_script s))) ((channel, op) :: dp_calls s) (dp_answers s) (dp_claimed s).

Lemma moved_twice d x d' x' s : moved d x (moved d' x' s) = moved d x s.
Proof. done. Qed.

Lemma moved_quiet d x s : quiet s -> quiet (moved d x s).
Proof. done. Qed.

Lemma moved_self s : moved (w_main (dp_world s)) (w_txn (dp_world s)) s = s.
Proof. by destruct s as [[] ?]. Qed.

Lemma run_main R (q : stmt R) k s a f :
  quiet s -> exec q (w_main (dp_world s)) = (a, f) ->
  run (Vis (Io (Sql Main q)) k) s =
  run (k a) (match a with Ok _ => moved (f (w_main (dp_world s))) (w_txn (dp_world s)) s | _ => s end).
Proof.
  unfold quiet. destruct s as [[d x rs now u ns fs] sc cs ans cl]. cbn -[RefDb.exec]. intros -> He.
  unfold sql, sql_main. cbn -[RefDb.exec]. rewrite He. by destruct a.
Qed.

Lemma run_txn R (q : stmt R) k s r f ws :
  quiet s -> w_txn (dp_world s) = TxOpen ws -> is_commit q = false ->
  exec q (apply_writes ws (w_main (dp_world s))) = (Ok r, f) ->
  run (Vis (Io (Sql Txn q)) k) s = run (k (Ok r)) (moved (w_main (dp_world s)) (TxOpen (ws ++ [f])%list) s).
Proof.
  unfold quiet. destruct s as [[d x rs now u ns fs] sc cs ans cl]. cbn -[RefDb.exec]. intros -> -> Hc He.
  unfold sql, sql_txn. cbn -[RefDb.exec]. rewrite He, Hc. done.
Qed.

Context (Hsums : sums_amounts sum_text).

(** What running the request comes to: the answer of a refusal with the tables
    untouched, or the channel call with the row inserted. *)
Definition decided (v : verdict) (callback : RefundCallback) (s : deployment) (o : outcome * deployment) : Prop :=
  let d := w_main (dp_world s) in
  match v with
  | Refuse code m =>
      exists x, (x = w_txn (dp_world s) \/ x = TxAborted) /\ o = run (refuse callback code m) (moved d x s)
  | Already j row => o = run (alreadySuccessful j row callback) s
  | Book j channel =>
      o = run (invokeRefundChannel channels j channel callback)
            (moved (with_refunds (fun rs => rs ++ [new_row server_now j rs])%list d) TxNone s)
  end.

Lemma exactly_row {A} (rows : list A) :
  exactly_one rows = match the_row rows with inl r => Ok r | inr e => Exc (UnexpectedRows e) end.
Proof. by destruct rows as [|r [|]]. Qed.

Lemma decided_main v callback s o x :
  w_txn (dp_world s) = x -> decided v callback (moved (w_main (dp_world s)) x s) o -> decided v callback s o.
Proof. intros <-. by rewrite moved_self. Qed.

(** *** The transaction *)

Definition inserted_verdict (j : refund_job) (channel : string) (d : db) : verdict :=
  if j_totalFen j <? live d (j_orderNo j) + j_refundFen j then Refuse 1409 "refund amount exceeds paid"
  else if existsb (fun r => String.eqb (r_no r) (j_refundNo j)) (d_refunds d)
  then Refuse 1500 "Database error: duplicate key"
  else Book j channel.

(** The sum the transaction reads is the live sum of the specification. *)
Lemma live_sum_parses d j order :
  wf paid_by d -> capacity d -> In order (d_orders d) -> o_no order = j_orderNo j ->
  parseAmountToFen (o_amount order) = Some (j_totalFen j) -> 0 < j_refundFen j <= j_totalFen j ->
  parseAmountToFen (sum_text (map r_amount (live_refunds (j_orderNo j) (d_refunds d)))) =
    Some (live d (j_orderNo j)) /\
  wrap64 (live d (j_orderNo j) + j_refundFen j) = live d (j_orderNo j) + j_refundFen j.
Proof.
  intros Hw Hc Hin Hno Hf Hpos. pose proof (wf_total _ d Hw _ _ Hin Hf) as Ht. pose proof (Hc _ _ Hin Hf) as Hl.
  rewrite Hno in Hl. pose proof (live_nonneg d (j_orderNo j)) as Hn. split.
  - apply Hsums; [|change (live d (j_orderNo j) < 2 ^ 62); lia].
    apply Forall_forall. intros a Ha. apply list_elem_of_In, in_map_iff in Ha as (r & <- & Hr).
    apply filter_In in Hr as [Hr E]. apply andb_true_iff in E as [_ E]. by apply (wf_refunds _ d Hw).
  - apply wrap64_small. unfold in_int64, int64_min, int64_max. lia.
Qed.

Lemma insert_runs j order payment callback s :
  let d := w_main (dp_world s) in
  quiet s -> wf paid_by d -> capacity d ->
  select (fun r => String.eqb (o_no r) (j_orderNo j)) (d_orders d) = [order] ->
  select (fun r => String.eqb (p_order r) (j_orderNo j) && String.eqb (p_no r) (j_paymentNo j)) (d_payments d)
    = [payment] ->
  parseAmountToFen (o_amount order) = Some (j_totalFen j) -> 0 < j_refundFen j <= j_totalFen j ->
  decided (inserted_verdict j (o_channel order) d) callback s (run (proceedWithInsert channels j callback) s).
Proof.
  intros d Hq Hw Hc Ho Hp Hf Hpos.
  assert (Hin : In order (d_orders d) /\ o_no order = j_orderNo j).
  { assert (H : In order (select (fun r => String.eqb (o_no r) (j_orderNo j)) (d_orders d))) by (rewrite Ho; by left).
    apply filter_In in H as [H E]. by apply String.eqb_eq in E. }
  destruct (live_sum_parses d j order) as [Hsum Hwrap]; try tauto.
  set (s1 := moved d (TxOpen []) s).
  assert (E : run (proceedWithInsert channels j callback) s =
              run (do a <- Io (Sql Txn (LockPayment (j_orderNo j) (j_paymentNo j))); onPaymentLocked channels j callback a) s1).
  { clear -Hq. subst s1 d. unfold quiet in Hq. destruct s as [[d x rs now u ns fs] sc cs ans cl]. simpl in Hq. by subst fs. }
  rewrite E. rewrite (run_txn _ _ _ s1 [payment] (fun d => d) []);
    [|done | done | done | by cbn -[select]; fold d; rewrite Hp].
  cbn [onPaymentLocked]. set (s2 := moved _ _ s1).
  rewrite (run_txn _ _ _ s2 [sum_text (map r_amount (live_refunds (j_orderNo j) (d_refunds d)))] (fun d => d) [fun d => d]);
    [|done | done | done | done].
  cbn [onLiveSum refund_sum_fen]. rewrite Hsum, Hwrap. unfold inserted_verdict.
  destruct (j_totalFen j <? live d (j_orderNo j) + j_refundFen j) eqn:Efull.
  { exists TxAborted. split; [by right | done]. }
  set (s3 := moved _ _ s2).
  destruct (existsb (fun r => String.eqb (r_no r) (j_refundNo j)) (d_refunds d)) eqn:Edup.
  - exists TxAborted. split; [by right |]. subst s3 s2 s1. clear -Hq Edup. unfold quiet in Hq. subst d.
    destruct s as [[d x rs now u ns fs] sc cs ans cl]. simpl in Hq. subst fs. simpl in Edup.
    cbn -[existsb]. unfold sql, sql_txn. cbn -[existsb]. by rewrite Edup.
  - rewrite (run_txn _ _ _ s3 tt (with_refunds (fun rs => rs ++ [new_row server_now j rs])%list)
               [fun d => d; fun d => d]); [|done | done | done |].
    2: { cbn -[existsb]. fold d. by rewrite Edup. }
    cbn [onRefundInserted]. set (s4 := moved _ _ s3).
    rewrite (run_txn _ _ _ s4 order (fun d => d)
               [fun d => d; fun d => d; with_refunds (fun rs => rs ++ [new_row server_now j rs])%list]);
      [|done | done | done |].
    2: { cbn -[select]. fold d. by rewrite Ho. }
    cbn [onChannelLookup decided]. subst s4 s3 s2 s1. clear -Hq. subst d. unfold quiet in Hq.
    destruct s as [[d x rs now u ns fs] sc cs ans cl]. simpl in Hq. by subst fs.
Qed.

(** *** The checks before it *)

Lemma stay s : moved (w_main (dp_world s)) (w_txn (dp_world s)) s = s.
Proof. apply moved_self. Qed.

Lemma the_row_inl {A} (rows : list A) r : the_row rows = inl r -> rows = [r].
Proof. destruct rows as [|x [|]]; simpl; congruence. Qed.

Lemma count_positive {A} (c : A -> bool) rows : (0 <? count c rows) = existsb c rows.
Proof.
  unfold count, select. induction rows as [|r rows IH]; simpl; [done |]. destruct (c r); simpl; [|done].
  apply Z.ltb_lt. lia.
Qed.

Lemma job_runs j order payment callback s :
  let d := w_main (dp_world s) in
  quiet s -> wf paid_by d -> capacity d ->
  select (fun r => String.eqb (o_no r) (j_orderNo j)) (d_orders d) = [order] ->
  select (fun r => String.eqb (p_order r) (j_orderNo j) && String.eqb (p_no r) (j_paymentNo j)) (d_payments d)
    = [payment] ->
  parseAmountToFen (o_amount order) = Some (j_totalFen j) -> 0 < j_refundFen j <= j_totalFen j ->
  decided (verdict_on_job j (o_channel order) d) callback s (run (proceedWithAmountCheck channels j callback) s).
Proof.
  intros d Hq Hw Hc Ho Hp Hf Hpos. unfold proceedWithAmountCheck, verdict_on_job, settled_same.
  destruct (latest _) as [row|] eqn:El.
  - rewrite (run_main _ _ _ s (Ok [row]) (fun d => d)); [|done | by cbn -[latest select]; fold d; rewrite El].
    rewrite stay. done.
  - rewrite (run_main _ _ _ s (Ok []) (fun d => d)); [|done | by cbn -[latest select]; fold d; rewrite El].
    rewrite stay. unfold proceedWithInProgressCheck, open_same.
    rewrite (run_main _ _ _ s (Ok (count (fun r => refund_of (j_orderNo j) (j_paymentNo j) (j_amount j) r && refund_open r)
               (d_refunds d))) (fun d => d)); [|done | done].
    rewrite stay. cbv beta iota. rewrite count_positive. destruct (existsb (fun r => refund_of _ _ _ r && _) _).
    { exists (w_txn (dp_world s)). split; [by left | by rewrite stay]. }
    by eapply insert_runs.
Qed.

Lemma order_runs request refundNo payment callback s :
  let d := w_main (dp_world s) in
  quiet s -> wf paid_by d -> capacity d ->
  select (fun r => String.eqb (p_order r) (rq_orderNo request) && String.eqb (p_no r) (rq_paymentNo request)) (d_payments d)
    = [payment] ->
  decided (verdict_on_order request refundNo d) callback s
    (run (proceedOrderFlow channels request refundNo callback) s).
Proof.
  intros d Hq Hw Hc Hp. unfold proceedOrderFlow, verdict_on_order.
  destruct (the_row (select _ (d_orders d))) as [order|e] eqn:Er.
  - rewrite (run_main _ _ _ s (Ok order) (fun d => d)); [|done | by cbn -[select]; rewrite exactly_row; fold d; rewrite Er].
    rewrite stay. unfold onOrder. apply the_row_inl in Er.
    destruct (negb (String.eqb (o_status order) "PAID")); [exists (w_txn (dp_world s)); split; [by left | by rewrite stay] |].
    destruct (parseAmountToFen (rq_amount request)) as [f|]; [|exists (w_txn (dp_world s)); split; [by left | by rewrite stay]].
    destruct (parseAmountToFen (o_amount order)) as [t|] eqn:Et; [|exists (w_txn (dp_world s)); split; [by left | by rewrite stay]].
    replace ((f <=? 0) || (t <? f)) with (negb ((0 <? f) && (f <=? t))) by (zcases; simpl; try done; lia).
    destruct ((0 <? f) && (f <=? t)) eqn:E; simpl negb; cbv iota; [|exists (w_txn (dp_world s)); split; [by left | by rewrite stay]].
    eapply job_runs; try done. simpl. breflect. tauto.
  - rewrite (run_main _ _ _ s (Exc (UnexpectedRows e)) (fun d => d));
      [|done | by cbn -[select]; rewrite exactly_row; fold d; rewrite Er].
    exists (w_txn (dp_world s)). split; [by left | by rewrite stay].
Qed.

Lemma select_ext {A} (c c' : A -> bool) rows : (forall r, c r = c' r) -> select c rows = select c' rows.
Proof. intros H. unfold select. induction rows as [|r rows IH]; simpl; [done |]. by rewrite H, IH. Qed.

Lemma payment_runs request refundNo callback s :
  let d := w_main (dp_world s) in
  quiet s -> wf paid_by d -> capacity d ->
  decided (verdict_of request refundNo d) callback s
    (run (proceedWithPayment channels request refundNo callback) s).
Proof.
  intros d Hq Hw Hc. unfold proceedWithPayment, verdict_of.
  destruct (the_row (select _ (d_payments d))) as [payment|e] eqn:Er.
  - rewrite (run_main _ _ _ s (Ok payment) (fun d => d)); [|done | by cbn -[select]; rewrite exactly_row; fold d; rewrite Er].
    rewrite stay. cbv beta iota. apply the_row_inl in Er.
    destruct (negb (String.eqb (p_status payment) "SUCCESS")); [exists (w_txn (dp_world s)); split; [by left | by rewrite stay] |].
    eapply order_runs; try done. rewrite <- Er. apply select_ext. intros r. apply andb_comm.
  - rewrite (run_main _ _ _ s (Exc (UnexpectedRows e)) (fun d => d));
      [|done | by cbn -[select]; rewrite exactly_row; fold d; rewrite Er].
    exists (w_txn (dp_world s)). split; [by left | by rewrite stay].
Qed.
End Run.

(** ** Theorem *)

(** The number of the refund: the request's, or a new UUID. *)
Definition refund_number `{J : JsonLib} (request : refund_request) (s : deployment) : string :=
  if is_empty (rq_refundNo request) then w_uuid (dp_world s) else rq_refundNo request.

Section Claims.
Context `{J : JsonLib} (channels : list string).
Context (sum_text : list string -> string) (server_now : Z) (paid_by : string -> string).

(** On tables that keep the invariant, and while no database call fails, the chain of
    callbacks of a refund request that names its payment refines one decision
    ([verdict_of]): it is refused with the code and message of the first reason that
    applies and the tables are untouched, or answered with the earlier refund of the
    same amount, or its row is inserted and committed and then, and only then, the
    channel of the order is asked. *)
Lemma refund_request_refines_verdict depth request callback s :
  sums_amounts sum_text -> w_faults (dp_world s) = [] ->
  wf paid_by (w_main (dp_world s)) -> capacity (w_main (dp_world s)) ->
  rq_paymentNo request <> "" ->
  decided channels sum_text server_now
    (match refundProblem request with
     | Some m => Refuse 1400 m
     | None => verdict_of request (refund_number request s) (w_main (dp_world s))
     end) callback s
    (run (handle_svc sum_text server_now) (proceedRefund channels depth request callback) s).
Proof.
  intros Hsums Hq Hw Hc Hp.
  assert (H : forall refundNo, decided channels sum_text server_now (verdict_of request refundNo (w_main (dp_world s)))
    callback s (run (handle_svc sum_text server_now) (if is_empty (rq_paymentNo request) then Escape
      else proceedWithPayment channels request refundNo callback) s)).
  { intros refundNo. destruct (is_empty (rq_paymentNo request)) eqn:E; [by apply is_empty_true in E |].
    by eapply payment_runs. }
  destruct depth; simpl; (destruct (refundProblem request); [exists (w_txn (dp_world s)); split; [by left | by rewrite moved_self] |]);
    specialize (H (refund_number request s)); revert H; unfold refundNumber, refund_number;
    (destruct (is_empty (rq_paymentNo request)) eqn:E; [by apply is_empty_true in E |]);
    (destruct (is_empty (rq_refundNo request)); [|done]); by destruct s.
Qed.
End Claims.
