(* ===== verification/RefundEnds.v ===== *)
(** * Where a refund request ends on the reference database: from the request, with or
    without the number of its payment and an idempotency key, over the channel's
    answer, to the rows, the stored answer and the answer of the caller. *)
From S2P Require Import Prelude Cxx Json Effects Store Amount NotifyUrl RefDb RefDbFacts Idempotency Service RefundService Scenario RefundPool RefundRun.
Import RefundService.Refunds.

(** ** The specification *)

Section Spec.
Context `{J : JsonLib} (channels : list string) (server_now : Z).

(** The newest attempt of an order in one of some states. *)
Definition newest_in (orderNo : string) (statuses : list string) (d : db) : option payment_row :=
  newest (select (fun r => String.eqb (p_order r) orderNo && one_of (p_status r) statuses) (d_payments d)).

(** The payment a request is about: the one it names, else the newest settled attempt of
    the order, else the newest open one. *)
Definition chosen_payment (request : refund_request) (d : db) : option string :=
  if negb (is_empty (rq_paymentNo request)) then Some (rq_paymentNo request)
  else
    match newest_in (rq_orderNo request) ["SUCCESS"; "REFUNDED"] d with
    | Some p => Some (p_no p)
    | None => p_no <$> newest_in (rq_orderNo request) ["INIT"; "PROCESSING"] d
    end.

(** What is wrong with a request, in the order of the answers. *)
Definition request_problems (request : refund_request) : list (option string) :=
  let when (b : bool) (m : string) := if b then Some m else None in
  [when (80 <? slen (rq_reason request)) "reason too long (max 80 characters)";
   when (negb ((0 <? slen (rq_orderNo request)) && (slen (rq_orderNo request) <=? 64))) "invalid order_no format";
   when (String.eqb (rq_amount request) "") "amount cannot be empty";
   when (negb (one_of (rq_fundsAccount request) [""; "AVAILABLE"; "UNSETTLED"]))
     "invalid funds_account (must be AVAILABLE or UNSETTLED)";
   if String.eqb (rq_notifyUrl request) "" then None else validateNotifyUrl (rq_notifyUrl request)].

Definition first_problem (problems : list (option string)) : option string := head (omap id problems).

Definition full_verdict (request : refund_request) (refundNo : string) (d : db) : verdict :=
  match first_problem (request_problems request) with
  | Some m => Refuse 1400 m
  | None =>
      match chosen_payment request d with
      | None => Refuse 1404 "Payment not found"
      | Some no => verdict_of (with_paymentNo no request) refundNo d
      end
  end.

(** What is written about the channel's answer, and what the request is answered; without
    an answer an exception left the callback. *)
Inductive booked :=
| Advanced (status id : string) (result : json)
| Failed (payload : json)
| Unchanged.

Definition fate : Type := booked * option (json * Z).
Definition lost : fate := (Unchanged, None).

Definition settled_json (j : refund_job) (status id : string) (result : json) : json :=
  of_object [("code", of_int 0); ("message", of_string "Refund created successfully");
    ("data", of_object [("refund_no", of_string (j_refundNo j)); ("order_no", of_string (j_orderNo j));
       ("payment_no", of_string (j_paymentNo j)); ("refund_amount", of_string (j_amount j));
       ("status", of_string status); ("channel_refund_no", of_string id); ("wechat_response", result)])].

Definition advanced (j : refund_job) (status id : string) (result : json) : fate :=
  (Advanced status id result, Some (settled_json j status id result, 0)).

(** The answer of a refund that is booked but has not succeeded. *)
Definition failure (j : refund_job) (code : Z) (text key status : string) (more : list (string * json)) : option (json * Z) :=
  Some (of_object [("code", of_int code); ("message", of_string text);
    ("data", of_object ([("refund_no", of_string (j_refundNo j)); ("order_no", of_string (j_orderNo j));
       ("payment_no", of_string (j_paymentNo j)); (key, of_string (j_amount j)); ("status", of_string status)] ++ more)%list)],
    code).

(** A member that is left out when its text is empty. *)
Definition optional (key text : string) : list (string * json) :=
  if String.eqb text "" then [] else [(key, of_string text)].

Definition alipay_request (j : refund_job) : json :=
  of_object ([("out_trade_no", of_string (j_orderNo j)); ("refund_amount", of_string (j_amount j))]
    ++ optional "refund_reason" (rq_reason (j_request j)))%list.

Definition wechat_request (j : refund_job) : json :=
  of_object ([("out_trade_no", of_string (j_orderNo j)); ("out_refund_no", of_string (j_refundNo j))]
    ++ optional "reason" (rq_reason (j_request j)) ++ optional "notify_url" (rq_notifyUrl (j_request j))
    ++ optional "funds_account" (rq_fundsAccount (j_request j))
    ++ [("amount", of_object [("refund", of_int (j_refundFen j)); ("total", of_int (j_totalFen j));
                              ("currency", of_string (j_currency j))])])%list.

(** The status a WeChat state stands for; [""] for one it does not know. *)
Definition wechat_status (state : string) : string :=
  if String.eqb state "SUCCESS" then "REFUND_SUCCESS"
  else if String.eqb state "PROCESSING" then "REFUNDING"
  else if one_of state ["CLOSED"; "ABNORMAL"] then "REFUND_FAIL" else "".

(** Every error of Alipay, and every code but 10000, counts as a failed refund. *)
Definition alipay_fate (j : refund_job) (result : json) (error : string) : fate :=
  if negb (is_empty error) then
    let text := "Alipay error: " +:+ error in
    let payload := of_object [("error", of_string text)] in
    (Failed payload, failure j 1502 text "refund_amount" "REFUND_FAIL"
                       [("error", of_string text); ("alipay_response", payload)])
  else
    match get_string result "code" with
    | None => lost
    | Some code =>
        if String.eqb code "10000"
        then match get_string result "refund_id" with
             | Some id => advanced j "REFUND_SUCCESS" id result
             | None => lost
             end
        else match get_string result "msg" with
             | Some msg => (Failed result, failure j 1502 ("Alipay refund failed: " +:+ msg) "refund_amount" "REFUND_FAIL" [])
             | None => lost
             end
    end.

(** A refund that did not succeed, failed only when that is certain; the reading of an
    error text, [refundCertainlyDidNotHappen], is proved exact in [WechatRefund.v]. *)
Definition wechat_open (j : refund_job) (certain : bool) (text : string) : fate :=
  let payload := of_object [("error", of_string text)] in
  (if certain then Failed payload else Unchanged,
   failure j 1502 text "amount" (if certain then "REFUND_FAIL" else "REFUNDING")
     [("error", of_string text); ("wechat_response", payload)]).

Definition wechat_fate (j : refund_job) (result : json) (error : string) : fate :=
  if negb (is_empty error) then wechat_open j (refundCertainlyDidNotHappen error) ("WeChat error: " +:+ error)
  else
    match get_string result "status", get_string result "refund_id" with
    | Some state, Some id =>
        let status := wechat_status state in
        if String.eqb status "REFUND_SUCCESS" || String.eqb status "REFUNDING" then advanced j status id result
        else
          let text := if is_empty status then "WeChat refund response has no usable status"
                      else "WeChat reported refund status " +:+ state in
          match get_string result "code" with
          | None => lost
          | Some code =>
              if is_empty code then wechat_open j (negb (is_empty status)) text
              else match get_string result "message" with
                   | Some m => wechat_open j true (text +:+ ": " +:+ code +:+ " " +:+ m)
                   | None => lost
                   end
          end
    | _, _ => lost
    end.

(** The call of the order's channel, if it has a client, and its fate. *)
Definition channel_fate (j : refund_job) (channel : string) (script : list channel_answer) :
    option (string * channel_op) * fate :=
  let fate_of (op : json) (f : json -> string -> fate) :=
    (Some (channel, ChRefund op),
     match fst (next_answer script) with Answered result error => f result error | ChannelThrew => lost end) in
  if String.eqb channel "alipay" then
    if findChannel channels channel then fate_of (alipay_request j) (alipay_fate j)
    else (None, (Unchanged, failure j 1501 "Alipay client not ready" "refund_amount" "REFUND_FAIL" []))
  else if String.eqb channel "wechat" then
    if findChannel channels channel then fate_of (wechat_request j) (wechat_fate j)
    else (None, (Failed (of_object [("error", of_string "wechat client not ready")]),
                 failure j 1501 "WeChat refund client not configured" "amount" "REFUND_FAIL"
                   [("error", of_string "wechat client not ready")]))
  else (None, (Unchanged, failure j 1500 ("Unknown payment channel: " +:+ channel) "refund_amount" "REFUND_FAIL" [])).

(** The fen of an order's refunds that happened. *)
Definition settled_refunds (o : string) (rs : list refund_row) : list refund_row :=
  select (fun r => String.eqb (r_order r) o && String.eqb (r_status r) "REFUND_SUCCESS") rs.
Definition settled (d : db) (o : string) : Z :=
  sumz (map fen_or_zero (map r_amount (settled_refunds o (d_refunds d)))).

Definition row_after (j : refund_job) (b : booked) (rs : list refund_row) : refund_row :=
  let row := new_row server_now j rs in
  match b with
  | Advanced status id result => advance_refund_row server_now status id (toJsonString result) row
  | Failed payload => fail_refund_row server_now "REFUND_FAIL" (toJsonString payload) row
  | Unchanged => row
  end.

Definition succeeded (b : booked) : bool :=
  match b with Advanced status _ _ => String.eqb status "REFUND_SUCCESS" | _ => false end.

(** One row more; the paid order is REFUNDED once the refunds that happened cover it. *)
Definition tables_after (j : refund_job) (b : booked) (d : db) : db :=
  let d' := with_refunds (fun rs => rs ++ [row_after j b rs])%list d in
  if succeeded b && (j_totalFen j <=? settled d (j_orderNo j) + j_refundFen j)
  then with_orders (update_where (fun r => String.eqb (o_no r) (j_orderNo j) && String.eqb (o_status r) "PAID")
                      (set_order_status "REFUNDED")) d'
  else d'.
End Spec.

(** ** Running *)

Section Run.
Context `{J : JsonLib} (channels : list string).
Context (sum_text : list string -> string) (server_now : Z) (paid_by : string -> string).
Abbreviation exec := (exec sum_text server_now).
Abbreviation run := (run (handle_svc sum_text server_now)).
Abbreviation RefundCallback := (json -> Z -> prog svc).

(** The callback is given the answer, or an exception left it. *)
Definition delivered (callback : RefundCallback) (a : option (json * Z)) (s : deployment) : outcome * deployment :=
  match a with Some (r, c) => run (callback r c) s | None => (Escaped, s) end.

Definition called (call : option (string * channel_op)) (s : deployment) : deployment :=
  match call with Some (c, op) => after_call c op s | None => s end.

(** *** The specification is what the code computes *)

Lemma problems_spec request : refundProblem request = first_problem (request_problems request).
Proof.
  unfold refundProblem, first_problem, request_problems, one_of. cbn [existsb].
  rewrite orb_false_r, negb_orb.
  assert (He : forall t, is_empty t = String.eqb t "") by (by intros []).
  assert (Hs : negb ((0 <? slen (rq_orderNo request)) && (slen (rq_orderNo request) <=? 64)) =
    is_empty (rq_orderNo request) || (64 <? slen (rq_orderNo request))).
  { destruct (rq_orderNo request) as [|c t]; [done |]. rewrite slen_cons. pose proof (slen_nonneg t). zcases; simpl; lia || done. }
  rewrite Hs, <- !He, negb_orb, andb_assoc. repeat (split_goal; simpl; try done).
Qed.

Lemma alipay_request_spec j : alipayPayload j = alipay_request j.
Proof. unfold alipayPayload, alipay_request, optional, j_reason. by destruct (rq_reason (j_request j)). Qed.

Lemma wechat_request_spec j : wechatPayload j = wechat_request j.
Proof.
  unfold wechatPayload, wechat_request, optional, j_reason.
  by destruct (rq_reason (j_request j)), (rq_notifyUrl (j_request j)), (rq_fundsAccount (j_request j)).
Qed.

Lemma wechat_status_spec state : mapRefundStatus state = wechat_status state.
Proof.
  unfold mapRefundStatus, wechat_status, one_of. cbn [existsb].
  destruct (String.eqb_spec state "CLOSED") as [->|]; [done |]. destruct (String.eqb_spec state "ABNORMAL") as [->|]; [done |].
  done.
Qed.

(** *** The payment *)

Lemma newest_in_some o ss d p : newest_in o ss d = Some p -> In p (d_payments d).
Proof.
  unfold newest_in. set (c := fun r => _). intros H.
  assert (Hn : forall rs q, newest rs = Some q -> In q rs).
  { clear. induction rs as [|r rs IH]; intros q; simpl; [done |]. destruct (newest rs) as [r'|].
    - destruct (_ <? _); intros [= <-]; [right; by apply IH | by left].
    - intros [= <-]. by left. }
  apply Hn in H. by apply filter_In in H as [H _].
Qed.

Lemma attempt_runs o ss callback thenEmpty proceedWith s :
  quiet s ->
  run (findAttempt o ss callback thenEmpty proceedWith) s =
  match newest_in o ss (w_main (dp_world s)) with
  | Some p => run (proceedWith (p_no p)) s
  | None => run thenEmpty s
  end.
Proof.
  intros Hq. unfold findAttempt, newest_in.
  rewrite (run_main sum_text server_now _ (NewestAttempt o ss) _ s _ (fun d => d) Hq eq_refl), moved_self.
  by destruct (newest _).
Qed.

Lemma numbered_runs request (k : string -> prog svc) s :
  run (refundNumber request k) s = run (k (refund_number request s)) s.
Proof. unfold refundNumber, refund_number. destruct (is_empty (rq_refundNo request)); [|done]. by destruct s as [[]]. Qed.

Lemma full_runs request callback s :
  sums_amounts sum_text -> quiet s -> wf paid_by (w_main (dp_world s)) -> capacity (w_main (dp_world s)) ->
  (forall p, In p (d_payments (w_main (dp_world s))) -> p_no p <> "") ->
  decided channels sum_text server_now (full_verdict request (refund_number request s) (w_main (dp_world s))) callback s
    (run (proceedRefund channels depth request callback) s).
Proof.
  intros Hsums Hq Hw Hc Hnos. unfold full_verdict, chosen_payment. rewrite <- problems_spec.
  destruct (is_empty (rq_paymentNo request)) eqn:Ee; simpl negb; cbv iota.
  - cbn [depth proceedRefund]. destruct (refundProblem request) as [m|] eqn:Hp.
    { exists (w_txn (dp_world s)). split; [by left | by rewrite moved_self]. }
    rewrite numbered_runs, Ee.
    assert (Hgo : forall p, In p (d_payments (w_main (dp_world s))) ->
      decided channels sum_text server_now
        (verdict_of (with_paymentNo (p_no p) request) (refund_number request s) (w_main (dp_world s))) callback s
        (run (proceedRefund channels 0 (with_paymentNo (p_no p) request) callback) s)).
    { intros p Hin.
      pose proof (refund_request_refines_verdict channels sum_text server_now paid_by 0 (with_paymentNo (p_no p) request)
        callback s Hsums Hq Hw Hc (Hnos p Hin)) as H.
      change (refundProblem (with_paymentNo (p_no p) request)) with (refundProblem request) in H. by rewrite Hp in H. }
    rewrite attempt_runs by done. destruct (newest_in _ ["SUCCESS"; _] _) as [p|] eqn:E1; [apply newest_in_some in E1; by apply Hgo |].
    rewrite attempt_runs by done. destruct (newest_in _ ["INIT"; _] _) as [p|] eqn:E2; [apply newest_in_some in E2; by apply Hgo |].
    exists (w_txn (dp_world s)). split; [by left | by rewrite moved_self].
  - assert (Hne : rq_paymentNo request <> "") by (by intros E; rewrite E in Ee).
    pose proof (refund_request_refines_verdict channels sum_text server_now paid_by depth request callback s Hsums Hq Hw Hc Hne) as H.
    replace (with_paymentNo (rq_paymentNo request) request) with request by (by destruct request). exact H.
Qed.
(** *** The booked refund *)

(** What a decision to book knows. *)
Record bookable (j : refund_job) (d : db) : Prop := Bookable {
  bk_order : exists order, In order (d_orders d) /\ o_no order = j_orderNo j /\
    parseAmountToFen (o_amount order) = Some (j_totalFen j);
  bk_amount : parseAmountToFen (j_amount j) = Some (j_refundFen j);
  bk_positive : 0 < j_refundFen j <= j_totalFen j;
  bk_room : live d (j_orderNo j) + j_refundFen j <= j_totalFen j;
  bk_fresh : existsb (fun r => String.eqb (r_no r) (j_refundNo j)) (d_refunds d) = false
}.

Lemma verdict_bookable request refundNo d j channel : verdict_of request refundNo d = Book j channel -> bookable j d.
Proof.
  unfold verdict_of, verdict_on_order, verdict_on_job.
  destruct (the_row (select _ (d_payments d))) as [payment|]; [|done]. destruct (negb _); [done |].
  destruct (the_row (select _ (d_orders d))) as [order|] eqn:Eo; [|done]. destruct (negb _); [done |].
  destruct (parseAmountToFen (rq_amount request)) as [f|] eqn:Ef; [|done].
  destruct (parseAmountToFen (o_amount order)) as [t|] eqn:Et; [|done].
  destruct ((0 <? f) && (f <=? t)) eqn:Ep; [|done]. destruct (latest _); [done |]. destruct (existsb _ _); [done |].
  cbn [j_totalFen j_refundFen j_orderNo j_request j_refundNo].
  destruct (t <? _) eqn:Er; [done |]. destruct (existsb _ _) eqn:Ex; [done |]. intros [= <- <-].
  apply the_row_inl in Eo.
  assert (Hin : In order (select (fun r => String.eqb (o_no r) (rq_orderNo request)) (d_orders d))) by (rewrite Eo; by left).
  apply filter_In in Hin as [Hin Hno]. breflect. split; simpl; first [by exists order | done | lia].
Qed.

Lemma full_bookable request refundNo d j channel : full_verdict request refundNo d = Book j channel -> bookable j d.
Proof.
  unfold full_verdict. destruct (first_problem _); [done |]. destruct (chosen_payment request d); [|done].
  apply verdict_bookable.
Qed.

(** The refunds that happened are among the live ones. *)
Lemma settled_le_live d o : settled d o <= live d o.
Proof.
  unfold settled, live, settled_refunds, live_refunds, select. induction (d_refunds d) as [|r rs IH]; simpl; [lia |].
  pose proof (fen_nonneg (r_amount r)). unfold refund_live at 1.
  destruct (String.eqb (r_order r) o), (String.eqb (r_status r) "REFUND_SUCCESS"), (refund_open r); simpl; lia.
Qed.

Lemma row_no j b rs : r_no (row_after server_now j b rs) = j_refundNo j /\
  r_order (row_after server_now j b rs) = j_orderNo j /\ r_amount (row_after server_now j b rs) = j_amount j.
Proof. by destruct b. Qed.

(** A statement whose outcome is only logged. *)
Lemma post_main R (q : stmt R) k s r f :
  quiet s -> exec q (w_main (dp_world s)) = (Ok r, f) ->
  run (Vis (Post q) k) s = run (k tt) (moved (f (w_main (dp_world s))) (w_txn (dp_world s)) s).
Proof.
  unfold quiet. destruct s as [[d x rs now u ns fs] sc cs ans cl]. cbn -[RefDb.exec]. intros -> He.
  unfold sql, sql_main. cbn -[RefDb.exec]. by rewrite He.
Qed.

Section Booked.
Context (Hsums : sums_amounts sum_text).
Context (j : refund_job) (d : db) (Hw : wf paid_by d) (Hb : bookable j d).

(** The deployment once the refund is booked and [b] is written about it. *)
Definition after (b : booked) (s : deployment) : deployment :=
  moved (with_refunds (fun rs => rs ++ [row_after server_now j b rs])%list d) TxNone s.

Lemma settleable_new_refund : existsb (refund_settleable (j_refundNo j)) (d_refunds d) = false.
Proof. eapply existsb_weaken; [|exact (bk_fresh _ _ Hb)]. intros r H. by apply andb_true_iff in H as [H _]. Qed.

Lemma write_new (f : refund_row -> refund_row) b :
  f (new_row server_now j (d_refunds d)) = row_after server_now j b (d_refunds d) ->
  with_refunds (update_where (refund_settleable (j_refundNo j)) f)
    (with_refunds (fun rs => rs ++ [row_after server_now j Unchanged rs])%list d) =
  with_refunds (fun rs => rs ++ [row_after server_now j b rs])%list d.
Proof.
  intros Hf. unfold with_refunds. simpl. f_equal. rewrite update_appended; [by rewrite Hf | apply settleable_new_refund |].
  unfold refund_settleable. simpl. by rewrite String.eqb_refl.
Qed.

Lemma failed_runs payload next s :
  quiet s -> run (updateRefundWithError (j_refundNo j) payload next) (after Unchanged s) = run next (after (Failed payload) s).
Proof.
  intros Hq. unfold updateRefundWithError.
  rewrite (post_main _ (FailRefund (j_refundNo j) "REFUND_FAIL" (toJsonString payload)) _ (after Unchanged s) _ _
    (moved_quiet _ _ _ Hq) eq_refl). f_equal. unfold after. rewrite moved_twice. f_equal. by apply (write_new _ (Failed payload)).
Qed.

(** The sum the settlement reads. *)
Lemma settled_sum b :
  succeeded b = true ->
  parseAmountToFen (sum_text (map r_amount (settled_refunds (j_orderNo j)
     (d_refunds d ++ [row_after server_now j b (d_refunds d)])))) = Some (settled d (j_orderNo j) + j_refundFen j).
Proof.
  intros Hok. pose proof (bk_room _ _ Hb). pose proof (settled_le_live d (j_orderNo j)).
  destruct (bk_order _ _ Hb) as (order & Hin & Hno & Ht). pose proof (wf_total _ _ Hw _ _ Hin Ht).
  assert (Hnew : settled_refunds (j_orderNo j) (d_refunds d ++ [row_after server_now j b (d_refunds d)]) =
    (settled_refunds (j_orderNo j) (d_refunds d) ++ [row_after server_now j b (d_refunds d)])%list).
  { unfold settled_refunds, select. rewrite List.filter_app. f_equal. destruct b as [status id result|payload|]; try done.
    simpl in *. by rewrite String.eqb_refl, Hok. }
  assert (Hfen : fen_or_zero (j_amount j) = j_refundFen j) by (unfold fen_or_zero; by rewrite (bk_amount _ _ Hb)).
  assert (Hsum : sumz (map fen_or_zero (map r_amount (settled_refunds (j_orderNo j)
     (d_refunds d ++ [row_after server_now j b (d_refunds d)])))) = settled d (j_orderNo j) + j_refundFen j).
  { rewrite Hnew, !map_app, sumz_app. unfold settled. simpl. rewrite (proj2 (proj2 (row_no j b _))), Hfen. lia. }
  rewrite <- Hsum. apply Hsums; [|rewrite Hsum; lia]. rewrite Hnew, map_app. apply Forall_app. split.
  - apply Forall_forall. intros a Ha. apply list_elem_of_In, in_map_iff in Ha as (r & <- & Hr).
    apply filter_In in Hr as [Hr E]. apply andb_true_iff in E as [_ E]. apply (wf_refunds _ _ Hw _ Hr).
    unfold refund_live. by rewrite E, orb_true_r.
  - constructor; [|constructor]. rewrite (proj2 (proj2 (row_no j b _))), (bk_amount _ _ Hb). done.
Qed.

Lemma advanced_runs status id result callback s :
  quiet s ->
  run (updateRefundWithSuccess (settlement_of j status id result) callback) (after Unchanged s) =
  run (callback (settled_json j status id result) 0) (moved (tables_after server_now j (Advanced status id result) d) TxNone s).
Proof.
  intros Hq. set (b := Advanced status id result). unfold updateRefundWithSuccess.
  rewrite (run_main sum_text server_now _ (AdvanceRefund (j_refundNo j) status id (toJsonString result)) _ (after Unchanged s) _ _
    (moved_quiet _ _ _ Hq) eq_refl). cbv beta iota.
  set (s1 := moved _ _ _). replace s1 with (after b s).
  2: { subst s1. unfold after. rewrite moved_twice. f_equal. symmetry. by apply write_new. }
  unfold settleOrder. cbn [st_status settlement_of]. unfold tables_after. cbn [succeeded b].
  destruct (String.eqb status "REFUND_SUCCESS") eqn:Es; simpl negb; cbv iota; [|done]. rewrite andb_true_l.
  rewrite (run_main sum_text server_now _ (SumRefunds (st_order (settlement_of j status id result)) "REFUND_SUCCESS") _ (after b s)
    _ _ (moved_quiet _ _ _ Hq) eq_refl). cbv beta iota.
  cbn [refund_sum_fen]. change (d_refunds (w_main (dp_world (after b s)))) with (d_refunds d ++ [row_after server_now j b (d_refunds d)])%list.
  fold (settled_refunds (st_order (settlement_of j status id result)) (d_refunds d ++ [row_after server_now j b (d_refunds d)])).
  cbn [st_order st_total settlement_of]. rewrite settled_sum by exact Es.
  set (s2 := moved _ _ (after b s)). replace s2 with (after b s) by (subst s2; by rewrite moved_self).
  pose proof (bk_positive _ _ Hb). unfold refundsCoverOrderAmount.
  replace (0 <? j_totalFen j) with true by (symmetry; apply Z.ltb_lt; lia). rewrite andb_true_l.
  destruct (j_totalFen j <=? _); simpl negb; cbv iota; [|done]. unfold writeRefundedOrder.
  by rewrite (run_main sum_text server_now _ (RefundOrder (j_orderNo j) "REFUNDED") _ (after b s) _ _ (moved_quiet _ _ _ Hq) eq_refl).
Qed.

(** *** The channel *)

Lemma written_runs b a callback s :
  succeeded b = false ->
  delivered callback a (after b s) = delivered callback a (moved (tables_after server_now j b d) TxNone s).
Proof. intros H. unfold tables_after. by rewrite H. Qed.

Lemma alipay_runs result error callback s :
  quiet s ->
  run (onAlipayAnswer j callback result error) (after Unchanged s) =
  delivered callback (snd (alipay_fate j result error))
    (moved (tables_after server_now j (fst (alipay_fate j result error)) d) TxNone s).
Proof.
  intros Hq. unfold onAlipayAnswer, alipay_fate.
  destruct (is_empty error); simpl negb; cbv iota; [|by rewrite failed_runs].
  destruct (get_string result "code") as [code|]; simpl try_; [|done].
  destruct (String.eqb code "10000"); simpl negb; cbv iota.
  - destruct (get_string result "refund_id") as [id|]; simpl try_; [|done]. by rewrite advanced_runs.
  - destruct (get_string result "msg") as [msg|]; simpl try_; [|done]. by rewrite failed_runs.
Qed.

Lemma open_runs certain text callback s :
  quiet s ->
  run (wechatUnsettled j callback certain text) (after Unchanged s) =
  delivered callback (snd (wechat_open j certain text))
    (moved (tables_after server_now j (fst (wechat_open j certain text)) d) TxNone s).
Proof. intros Hq. unfold wechatUnsettled, wechat_open. destruct certain; [by rewrite failed_runs | done]. Qed.

Lemma wechat_runs result error callback s :
  quiet s ->
  run (onWechatAnswer j callback result error) (after Unchanged s) =
  delivered callback (snd (wechat_fate j result error))
    (moved (tables_after server_now j (fst (wechat_fate j result error)) d) TxNone s).
Proof.
  intros Hq. unfold onWechatAnswer, wechat_fate.
  destruct (is_empty error); simpl negb; cbv iota; [|by apply open_runs].
  destruct (get_string result "status") as [state|]; simpl try_; [|done].
  destruct (get_string result "refund_id") as [id|]; simpl try_; [|done].
  rewrite wechat_status_spec.
  assert (Hm : is_empty (wechat_status state) || String.eqb (wechat_status state) "REFUND_FAIL" =
    negb (String.eqb (wechat_status state) "REFUND_SUCCESS" || String.eqb (wechat_status state) "REFUNDING"))
    by (unfold wechat_status; repeat split_goal; done).
  rewrite Hm. destruct (_ || String.eqb _ "REFUNDING"); simpl negb; cbv iota; [by rewrite advanced_runs |].
  destruct (get_string result "code") as [code|]; simpl try_; [|done].
  destruct (is_empty code); simpl negb; cbv iota; [rewrite orb_false_r; by apply open_runs |].
  destruct (get_string result "message") as [m|]; simpl try_; [|done]. rewrite orb_true_r. by apply open_runs.
Qed.

Lemma refund_call_runs channel op (k : channel_answer -> prog svc) s :
  run (Vis (Call channel op) k) (after Unchanged s) =
  run (k (fst (next_answer (dp_script s)))) (after Unchanged (after_call channel op s)).
Proof. destruct s as [w sc cs ans cl]. simpl. by destruct sc. Qed.

Lemma invoke_runs channel callback s :
  quiet s ->
  let '(call, (b, a)) := channel_fate channels j channel (dp_script s) in
  run (invokeRefundChannel channels j channel callback) (after Unchanged s) =
  delivered callback a (moved (tables_after server_now j b d) TxNone (called call s)).
Proof.
  intros Hq. unfold invokeRefundChannel, channel_fate. rewrite <- alipay_request_spec, <- wechat_request_spec.
  assert (Hq' : forall op, quiet (after_call channel op s)) by done.
  destruct (String.eqb channel "alipay").
  - destruct (findChannel channels channel); simpl negb; cbv iota; [|done]. rewrite refund_call_runs.
    destruct (fst (next_answer (dp_script s))) as [result error|]; [|done].
    rewrite alipay_runs by done. by destruct (alipay_fate j result error).
  - destruct (String.eqb channel "wechat"); [|done].
    destruct (findChannel channels channel); simpl negb; cbv iota; [|by rewrite failed_runs]. rewrite refund_call_runs.
    destruct (fst (next_answer (dp_script s))) as [result error|]; [|done].
    rewrite wechat_runs by done. by destruct (wechat_fate j result error).
Qed.
End Booked.

(** *** The request, with what it is answered *)

Definition already_json (j : refund_job) (row : refund_row) : json :=
  of_object [("code", of_int 0); ("message", of_string "Refund already successful");
    ("data", of_object ([("refund_no", of_string (r_no row)); ("order_no", of_string (r_order row));
       ("payment_no", of_string (j_paymentNo j)); ("refund_amount", of_string (j_amount j));
       ("status", of_string (r_status row))]
       ++ match r_channel_no row with Some no => [("channel_refund_no", of_string no)] | None => [] end)%list)].

(** The tables at the end, the call of a channel, the answer. *)
Record ending := Ending {
  en_tables : db;
  en_call : option (string * channel_op);
  en_answer : option (json * Z)
}.

Definition request_ending (request : refund_request) (refundNo : string) (d : db) (script : list channel_answer) : ending :=
  match full_verdict request refundNo d with
  | Refuse code m => Ending d None (Some (error_json code m, code))
  | Already j row => Ending d None (Some (already_json j row, 0))
  | Book j channel =>
      let '(call, (b, a)) := channel_fate channels j channel script in
      Ending (tables_after server_now j b d) call a
  end.

(** No write is left pending by the request. *)
Definition ended (callback : RefundCallback) (e : ending) (s : deployment) (o : outcome * deployment) : Prop :=
  exists x, (x = w_txn (dp_world s) \/ x = TxNone \/ x = TxAborted) /\
    o = delivered callback (en_answer e) (moved (en_tables e) x (called (en_call e) s)).

Lemma proceed_runs request callback s :
  sums_amounts sum_text -> quiet s -> wf paid_by (w_main (dp_world s)) -> capacity (w_main (dp_world s)) ->
  (forall p, In p (d_payments (w_main (dp_world s))) -> p_no p <> "") ->
  ended callback (request_ending request (refund_number request s) (w_main (dp_world s)) (dp_script s)) s
    (run (proceedRefund channels depth request callback) s).
Proof.
  intros Hsums Hq Hw Hc Hnos. pose proof (full_runs request callback s Hsums Hq Hw Hc Hnos) as H. unfold request_ending.
  destruct (full_verdict _ _ _) as [code m|j row|j channel] eqn:Ev; cbn [decided] in H.
  - destruct H as (x & Hx & ->). exists x. split; [tauto | done].
  - rewrite H. exists (w_txn (dp_world s)). split; [by left |]. simpl. by rewrite moved_self.
  - rewrite H. pose proof (invoke_runs Hsums j _ Hw (full_bookable _ _ _ _ _ Ev) channel callback s Hq) as Hi.
    destruct (channel_fate channels j channel (dp_script s)) as [call [b a]]. exists TxNone. split; [tauto | exact Hi].
Qed.

(** An answer carries data, or is a refusal. *)
Definition has_data (r : json) : bool := match isMember r "data" with Some b => b | None => false end.

Lemma refusal_code request refundNo d code m : full_verdict request refundNo d = Refuse code m -> code <> 0.
Proof.
  unfold full_verdict, verdict_of, verdict_on_order, verdict_on_job. repeat split_goal; congruence.
Qed.

Definition shaped (a : option (json * Z)) : Prop :=
  forall r c, a = Some (r, c) -> isMember r "data" = Some (has_data r) /\ (has_data r = true \/ c <> 0).

Lemma shaped_data {L : JsonLaws J} kvs c :
  existsb (fun kv => String.eqb (fst kv) "data") kvs = true -> shaped (Some (of_object kvs, c)).
Proof.
  intros H r c' [= <- <-]. unfold has_data, isMember. rewrite jfind_of_object. simpl.
  destruct (List.find _ kvs) as [[k v]|] eqn:E; [by auto |]. exfalso.
  apply existsb_exists in H as (kv & Hin & Hk). apply List.find_none with (x := kv) in E; [congruence | done].
Qed.

Lemma shaped_none : shaped None.
Proof. done. Qed.

Lemma fate_shaped {L : JsonLaws J} j channel script : shaped (snd (snd (channel_fate channels j channel script))).
Proof.
  unfold channel_fate, alipay_fate, wechat_fate, wechat_open, advanced, lost.
  repeat split_goal; simpl; first [apply shaped_none | by apply shaped_data].
Qed.

Lemma answer_shape {L : JsonLaws J} request refundNo d script :
  shaped (en_answer (request_ending request refundNo d script)).
Proof.
  unfold request_ending. destruct (full_verdict request refundNo d) as [code m|j row|j channel] eqn:Ev; simpl.
  - intros r c [= <- <-]. unfold has_data, isMember, error_json. rewrite jfind_of_object. simpl.
    split; [done |]. right. by eapply refusal_code.
  - by apply shaped_data.
  - pose proof (fate_shaped j channel script) as H. by destruct (channel_fate channels j channel script) as [call [b a]].
Qed.

(** The idempotency rows play no part in the decision. *)
Lemma request_ending_idemps f request refundNo d script :
  request_ending request refundNo (with_idemps f d) script =
  let e := request_ending request refundNo d script in Ending (with_idemps f (en_tables e)) (en_call e) (en_answer e).
Proof.
  unfold request_ending. change (full_verdict request refundNo (with_idemps f d)) with (full_verdict request refundNo d).
  destruct (full_verdict request refundNo d) as [| |j channel]; [done | done |].
  destruct (channel_fate channels j channel script) as [call [b a]]. simpl. f_equal. unfold tables_after.
  change (settled (with_idemps f d)) with (settled d). by destruct (succeeded b && _).
Qed.

Lemma request_keeps_idemps request refundNo d script :
  d_idemps (en_tables (request_ending request refundNo d script)) = d_idemps d.
Proof.
  unfold request_ending. destruct (full_verdict request refundNo d) as [| |j channel]; [done | done |].
  destruct (channel_fate channels j channel script) as [call [b a]]. simpl. unfold tables_after. by destruct (succeeded b && _).
Qed.
End Run.

(** ** The request under its key *)

Section Keyed.
Context `{J : JsonLib} (sha256 : string -> string).
Context (channels : list string) (redis : bool) (ttlSeconds : Z).
Context (sum_text : list string -> string) (server_now : Z) (paid_by : string -> string).
Abbreviation run := (run (handle_svc sum_text server_now)).
Abbreviation RefundCallback := (json -> Z -> prog svc).
Abbreviation delivered := (delivered sum_text server_now).
Abbreviation ended := (ended sum_text server_now).
Abbreviation ending_of := (request_ending channels server_now).

(** What a key is bound to, and the document stored under it. *)
Definition identity (request : refund_request) : string :=
  sha256 (toJsonString (of_object [("order_no", of_string (rq_orderNo request)); ("amount", of_string (rq_amount request));
                                   ("reason", of_string (rq_reason request))])).
Definition stored (hash : string) (r : json) : string :=
  toJsonString (of_object [("request_hash", of_string hash); ("response", r)]).

(** The row of a key that was free: it holds an answer with data, is removed for a
    refusal, and stays taken when the request ended in an exception. *)
Definition key_rows (key hash : string) (now : Z) (a : option (json * Z)) : list idemp_row :=
  match a with
  | Some (r, _) => if has_data r then [set_snapshot (stored hash r) (reservation ttlSeconds key hash now)] else []
  | None => [reservation ttlSeconds key hash now]
  end.

Definition same_request (key hash : string) (r : idemp_row) : bool := key_is key r && hash_is hash r.

(** A taken key: the stored answer again, or a refusal. *)
Definition taken_ending (key hash : string) (now : Z) (row : idemp_row) (d : db) : ending :=
  match contract hash now row with
  | None => Ending d None None
  | Some r =>
      match status r with
      | Replay =>
          match isMember (cachedResult r) "data" with
          | None => Ending d None None
          | Some data =>
              Ending (if data : bool then with_idemps (update_where (same_request key hash) (set_snapshot (stored hash (cachedResult r)))) d
                      else d)
                None (Some (cachedResult r, 0))
          end
      | _ => Ending d None (Some (error_json 1409 "Idempotency conflict: different parameters for same key", 1409))
      end
  end.

Definition keyed_ending (request : refund_request) (key : string) (s : deployment) : ending :=
  let d := w_main (dp_world s) in
  let now := w_now (dp_world s) in
  let hash := identity request in
  let e := ending_of request (refund_number request s) d (dp_script s) in
  if is_empty key then e
  else
    match row_of key (d_idemps d) with
    | Some row => taken_ending key hash now row d
    | None =>
        Ending (with_idemps (fun rs => rs ++ key_rows key hash now (en_answer e))%list (en_tables e)) (en_call e) (en_answer e)
    end.

(** *** The service inside the deployment *)

Lemma svc_hosted R (e : io R) s :
  handle_svc sum_text server_now R (host e) s =
  let '(r, w) := handle sum_text server_now R e (dp_world s) in (r, with_world w s).
Proof. done. Qed.

Lemma world_same s : with_world (dp_world s) s = s.
Proof. by destruct s. Qed.

Lemma check_runs key hash callback s :
  quiet s -> keys_unique (d_idemps (w_main (dp_world s))) -> key <> "" ->
  run (checkDatabase ttlSeconds key hash callback) s =
    match row_of key (d_idemps (w_main (dp_world s))) with
    | None => run (callback (result Started "")) (with_world (reserve ttlSeconds key hash (dp_world s)) s)
    | Some row =>
        match contract hash (w_now (dp_world s)) row with
        | Some r => run (callback r) s
        | None => (Escaped, s)
        end
    end.
Proof. exact (run_check_in ttlSeconds sum_text server_now _ dp_world with_world svc_hosted world_same key hash callback s). Qed.

Lemma store_runs key hash response callback s :
  quiet s ->
  run (updateResult redis ttlSeconds key hash response false callback) s =
    run (callback (existsb (same_request key hash) (d_idemps (w_main (dp_world s)))))
      (moved (with_idemps (update_where (same_request key hash) (set_snapshot (stored hash response))) (w_main (dp_world s)))
         (w_txn (dp_world s)) s).
Proof.
  intros Hq. rewrite (run_update_in redis ttlSeconds sum_text server_now _ dp_world with_world svc_hosted world_same
    key hash response callback s Hq). done.
Qed.

Lemma clear_runs key hash callback s :
  quiet s -> key <> "" ->
  run (clearReservation key hash callback) s =
    run (callback true)
      (moved (with_idemps (delete_where (fun r => key_is key r && hash_is hash r && unfinalized r)) (w_main (dp_world s)))
         (w_txn (dp_world s)) s).
Proof.
  intros Hq Hk. rewrite (run_clear_in sum_text server_now _ dp_world with_world svc_hosted key hash callback s Hq Hk). done.
Qed.

(** *** The wrapped callbacks *)

Lemma wrapped_unkeyed hash callback r c s :
  isMember r "data" = Some (has_data r) ->
  run (wrappedCallback redis ttlSeconds "" hash callback r c) s = run (callback r c) s.
Proof. intros H. unfold wrappedCallback. by rewrite H. Qed.

Lemma reserved_same key hash now rows :
  row_of key rows = None ->
  existsb (same_request key hash) rows = false /\ same_request key hash (reservation ttlSeconds key hash now) = true.
Proof.
  intros Hn. apply row_of_none in Hn. split.
  - eapply existsb_weaken; [|exact Hn]. intros r H. by apply andb_true_iff in H as [H _].
  - unfold same_request, key_is, hash_is. simpl. by rewrite !String.eqb_refl.
Qed.

(** The answer of a request that took its key. *)
Lemma answered_keyed key hash now callback r c D rows x s :
  key <> "" -> isMember r "data" = Some (has_data r) -> has_data r = true \/ c <> 0 ->
  quiet s -> row_of key rows = None -> d_idemps D = rows ->
  run (proceedCb key hash (wrappedCallback redis ttlSeconds key hash callback) r c)
    (moved (with_idemps (fun rs => rs ++ [reservation ttlSeconds key hash now])%list D) x s) =
  run (callback r c) (moved (with_idemps (fun rs => rs ++ key_rows key hash now (Some (r, c)))%list D) x s).
Proof.
  intros Hk Hm Hshape Hq Hn HD. unfold proceedCb, wrappedCallback. rewrite Hm. simpl try_.
  destruct (is_empty key) eqn:Ek; [by apply is_empty_true in Ek |]. simpl negb. cbv iota.
  destruct (reserved_same key hash now rows Hn) as [Hrest Hnew]. unfold key_rows.
  destruct (has_data r); simpl negb; rewrite ?andb_false_r, ?andb_true_r; cbv iota.
  - rewrite store_runs by done.
    replace (existsb _ _) with true.
    2: { symmetry. apply existsb_exists. eexists. split; [|exact Hnew]. apply in_or_app. right. by left. }
    f_equal. rewrite moved_twice. f_equal. destruct D as [ids ps os rs cs ls]. simpl in HD. subst ids.
    unfold with_idemps. simpl. by rewrite update_appended.
  - destruct (Z.eqb_spec c 0) as [->|Hc]; [by destruct Hshape |]. simpl negb. simpl andb. cbv iota.
    rewrite clear_runs by done. f_equal. rewrite moved_twice. f_equal.
    destruct D as [ids ps os rs cs ls]. simpl in HD. subst ids. unfold with_idemps. simpl.
    by rewrite delete_reserved, app_nil_r.
Qed.

(** The answer of a key that was taken. *)
Lemma replayed_runs key hash callback row resp s :
  key <> "" -> quiet s -> row_of key (d_idemps (w_main (dp_world s))) = Some row -> hash_is hash row = true ->
  run (wrappedCallback redis ttlSeconds key hash callback resp 0) s =
  match isMember resp "data" with
  | None => (Escaped, s)
  | Some data =>
      run (callback resp 0)
        (moved (if data : bool then with_idemps (update_where (same_request key hash) (set_snapshot (stored hash resp))) (w_main (dp_world s))
                else w_main (dp_world s)) (w_txn (dp_world s)) s)
  end.
Proof.
  intros Hk Hq Hrow Hh. unfold wrappedCallback. destruct (is_empty key) eqn:Ek; [by apply is_empty_true in Ek |].
  destruct (isMember resp "data") as [[]|]; simpl try_; simpl andb; cbv iota; [| by rewrite moved_self |done].
  rewrite store_runs by done. replace (existsb _ _) with true; [done |]. symmetry. apply existsb_exists. exists row.
  apply List.find_some in Hrow as [Hin Hkey]. split; [done |]. unfold same_request. by rewrite Hkey, Hh.
Qed.

Lemma taken_runs key hash callback (start : prog svc) row s :
  key <> "" -> quiet s -> row_of key (d_idemps (w_main (dp_world s))) = Some row ->
  let wrapped := wrappedCallback redis ttlSeconds key hash callback in
  (forall m r, isMember (error_json m r) "data" = Some false) -> isNull jnull = true ->
  keys_unique (d_idemps (w_main (dp_world s))) ->
  ended callback (taken_ending key hash (w_now (dp_world s)) row (w_main (dp_world s))) s
    (run (checkAndSet ttlSeconds key hash (fun canProceed cachedResult =>
       if negb canProceed
       then refuse wrapped 1409 "Idempotency conflict: different parameters for same key"
       else if negb (isNull cachedResult) then wrapped cachedResult 0 else start)) s).
Proof.
  intros Hk Hq Hrow wrapped Herr Hnull Hu. exists (w_txn (dp_world s)). split; [by left |].
  unfold checkAndSet, checkAndSetStatus. rewrite check_runs, Hrow by done. unfold taken_ending.
  assert (Hrefused : run (refuse wrapped 1409 "Idempotency conflict: different parameters for same key") s =
    run (callback (error_json 1409 "Idempotency conflict: different parameters for same key") 1409) s).
  { unfold refuse, wrapped, wrappedCallback. rewrite Herr. simpl try_. by rewrite andb_false_r. }
  unfold contract. destruct (RefDb.live _ row); simpl negb; cbv iota; [|simpl; by rewrite moved_self].
  destruct (hash_is hash row) eqn:Hh; simpl negb; cbv iota; [|simpl; by rewrite moved_self].
  destruct (i_snapshot row) as [t|]; [|simpl; by rewrite moved_self].
  destruct (jparse t) as [doc|]; [|simpl; by rewrite moved_self].
  destruct (index doc "response") as [resp|]; [|simpl; by rewrite moved_self].
  simpl. destruct (isNull resp) eqn:Hr; simpl; [by rewrite moved_self |]. rewrite Hr. simpl negb. cbv iota.
  unfold wrapped. rewrite (replayed_runs _ _ _ row) by done.
  destruct (isMember resp "data") as [[]|]; simpl; [done | done | by rewrite moved_self].
Qed.
End Keyed.

(** ** Theorem *)


(** ** Witness and a case *)

(** The whole order, its payment not named. *)
Definition refund_of_all : refund_request := RefundRequest "O1" "" "R1" "12.50" "" "" "".

Definition ending_under_key (answer : @channel_answer lib0) : @ending lib0 :=
  @keyed_ending lib0 shop_md5 ["wechat"] 60 shop_time refund_of_all "k"
    (@Deployment lib0 (World open_db TxNone [] shop_time "u" [] []) [answer] [] [] false).


(** An answer that is no object: the exception leaves the refund open and its key taken. *)
Example odd_answer_leaves_key_taken :
  let e := ending_under_key (@Answered lib0 (Tree.TInt 1) "") in
  map r_status (d_refunds (en_tables e)) = ["REFUND_INIT"] /\ map i_snapshot (d_idemps (en_tables e)) = [None] /\
  en_answer e = None.
Proof. vm_compute. repeat split. Qed.
