(* ===== verification/RefundCases.v ===== *)
(** * Refund requests: computed cases.

    Concrete deployments of RefundService.v that show behaviours worth knowing:
    each is the tables after one run. *)
From S2P Require Import Prelude Cxx Json Effects Store RefDb Idempotency Service RefundService Scenario.
Import RefundService.Refunds.

Definition order_via (channel : string) : order_row := OrderRow 7 "O1" 42 "12.50" "CNY" "PAID" channel "" 1 None.

Definition shop_with (channel : string) (refunds : list refund_row) (ledger : list ledger_row) : db :=
  Db [] [PaymentRow "P1" "O1" "SUCCESS" "12.50" None (Some "T1") 1 None] [order_via channel] refunds [] ledger.

(** A program on these tables, with one answer of the channel. *)
Definition end_of (p : prog (@svc lib0)) (d : db) (answers : list (@channel_answer lib0)) : @deployment lib0 :=
  @serve_svc lib0 shop_sum shop_time p
    (@Deployment lib0 (World d TxNone [] shop_time "u" [] []) answers [] [] false).

Definition refund_states (s : @deployment lib0) : list (string * string) :=
  map (fun r => (r_no r, r_status r)) (d_refunds (w_main (dp_world s))).

Definition ledger_entries (s : @deployment lib0) : list (string * string) :=
  map (fun l => (l_type l, l_amount l)) (d_ledgers (w_main (dp_world s))).

Definition answer_codes (s : @deployment lib0) : list Z := map snd (dp_answers s).

Definition ask (channels : list string) (request : refund_request) : prog (@svc lib0) :=
  @createRefund lib0 shop_md5 channels false 60 request "" (@answerCaller lib0).

(** No answer of Alipay is booked as a failed refund. *)
Example alipay_silence_is_booked_failed :
  refund_states (end_of (ask ["alipay"] refund_of_8) (shop_with "alipay" [] [])
    [@Answered lib0 Tree.TNull "No response from Alipay server"]) = [("R1", "REFUND_FAIL")].
Proof. vm_compute. reflexivity. Qed.

(** Without a channel the caller reads REFUND_FAIL, but the row stays REFUND_INIT, and
    the same refund asked again is refused as in progress. *)
Example unroutable_refund_stays_open :
  let s := end_of (ask [] refund_of_8) (shop_with "alipay" [] []) [] in
  refund_states s = [("R1", "REFUND_INIT")] /\ answer_codes s = [1501] /\
  answer_codes (end_of (ask ["alipay"] (RefundRequest "O1" "P1" "R2" "8.00" "" "" ""))
                  (w_main (dp_world s)) []) = [1409].
Proof. vm_compute. by repeat split. Qed.

(** A second refund of an amount that was refunded before is answered as the first
    one: nothing is booked. *)
Example equal_partial_refund_is_the_first :
  let settled := RefundRow 1 "R0" "O1" "P1" "REFUND_SUCCESS" "5.00" None None 0 in
  let s := end_of (ask ["wechat"] (RefundRequest "O1" "P1" "R1" "5.00" "" "" "")) (shop_with "wechat" [settled] []) [] in
  refund_states s = [("R0", "REFUND_SUCCESS")] /\ answer_codes s = [0].
Proof. vm_compute. by repeat split. Qed.

Definition queried (no wechatStatus : string) (d : db) : @deployment lib0 :=
  end_of (@queryRefund lib0 ["wechat"] no) d
    [@Answered lib0 (Tree.TObject [("status", Tree.TString wechatStatus); ("refund_id", Tree.TString "RF")]) ""].

(** A query that settles the second partial refund of a payment finds the REFUND
    entry of the first and writes none. *)
Example second_partial_refund_has_no_ledger_entry :
  let rows := [RefundRow 1 "R0" "O1" "P1" "REFUND_SUCCESS" "5.00" None None 0;
               RefundRow 2 "R1" "O1" "P1" "REFUNDING" "4.00" None None 0] in
  let s := queried "R1" "SUCCESS" (shop_with "wechat" rows [LedgerRow 42 "O1" "P1" "REFUND" "5.00" 0]) in
  refund_states s = [("R0", "REFUND_SUCCESS"); ("R1", "REFUND_SUCCESS")] /\
  ledger_entries s = [("REFUND", "5.00")].
Proof. vm_compute. by repeat split. Qed.

(** The synchronous success of a refund writes no ledger entry at all. *)
Example refund_success_has_no_ledger_entry :
  let s := end_of (ask ["wechat"] refund_of_8) (shop_with "wechat" [] []) [accepted] in
  refund_states s = [("R1", "REFUND_SUCCESS")] /\ ledger_entries s = [].
Proof. vm_compute. by repeat split. Qed.

(** A query can bring a failed refund back beside the refund that replaced it: the
    live refunds exceed the order. *)
Example query_reopens_a_failed_refund :
  let rows := [RefundRow 1 "R0" "O1" "P1" "REFUND_FAIL" "12.50" None None 0;
               RefundRow 2 "R1" "O1" "P1" "REFUND_SUCCESS" "12.50" None None 0] in
  refund_states (queried "R0" "PROCESSING" (shop_with "wechat" rows [])) =
    [("R0", "REFUNDING"); ("R1", "REFUND_SUCCESS")].
Proof. vm_compute. reflexivity. Qed.
