(* ===== verification/CreateGuard.v ===== *)
(** * Creating a payment: what it does whatever the database and the channels
    answer. *)
From S2P Require Import Prelude Cxx Json Effects Store Amount NotifyUrl Rfc3339 RefDb Idempotency Service PaymentService PaymentCreate.
From S2P Require Import RefundGuard KeyedGuard Scenario.
Import PaymentService.Payments PaymentCreate.Creates.

Section Guarantee.
Context `{J : JsonLib} (sha256 : string -> string).
Context (channels : list string) (utc_offset : Z -> Z) (buyerIdEnv : option string).
(** the request that is served, and its idempotency key *)
Context (request : create_request) (key : string).
Abbreviation trace := (list (event svc)).

(** ** The course of a creation *)

(** The payment number is a new one. *)
Definition generated (no : string) (h : trace) : Prop :=
  exists now drawn, In (Event (Io Now) now) h /\ In (Event (Draw 99999999) drawn) h /\
    no = paymentNumber utc_offset now drawn.

(** The deadline, if any, was in the channel's window. *)
Definition timely (h : trace) : Prop :=
  cr_timeExpire request = "" \/
  exists now, In (Event (Io Now) now) h /\
    validateTimeExpire (cr_timeExpire request) (cr_channel request) (Z.quot now 1000000) = None.

(** Every check of the request passed, for a payment of [fen]. *)
Definition create_checked (no : string) (fen : Z) (h : trace) : Prop :=
  generated no h /\ timely h /\ parseAmountToFen (cr_amount request) = Some fen /\
  validateNotifyUrl (cr_notifyUrl request) = None /\ wechatFieldError request = None.

(** The steps of the transaction, each on top of the one before. *)
Definition create_opened (no : string) (fen : Z) (h : trace) : Prop :=
  exists h', h = begun :: h' /\ create_checked no fen h'.

Definition order_insertion (createdAt : Z) : stmt unit :=
  InsertOrder (cr_orderNo request) (cr_userId request) (cr_amount request) (cr_currency request) "CREATED"
    (cr_channel request) (cr_description request) (Some createdAt) (expireAt (cr_timeExpire request)).

Definition order_booked (no : string) (fen : Z) (h : trace) : Prop :=
  exists createdAt h', h = in_txn (order_insertion createdAt) (Ok tt) :: h' /\ create_opened no fen h'.

Definition attempt_insertion (no : string) (fen createdAt : Z) : stmt unit :=
  InsertPayment no (cr_orderNo request) "INIT" (cr_amount request)
    (toJsonString (createPayload buyerIdEnv request fen)) createdAt.

Definition attempt_booked (no : string) (fen : Z) (h : trace) : Prop :=
  exists createdAt h', h = in_txn (attempt_insertion no fen createdAt) (Ok tt) :: Event (Io Now) createdAt :: h' /\
    order_booked no fen h'.

(** The order and its attempt are durable. *)
Definition create_committed (no : string) (fen : Z) (h : trace) : Prop :=
  exists h', h = in_txn Commit (Ok tt) :: h' /\ attempt_booked no fen h'.

(** What the callback of the channel was given; without a channel, by the service. *)
Definition channel_said (no : string) (result : json) (transportError : string) (h : trace) : Prop :=
  earlier (fun h' => exists fen,
    (exists h2, h' = Event (Call (cr_channel request) (ChCreateQr (createPayload buyerIdEnv request fen)))
                       (Answered result transportError) :: h2 /\ create_committed no fen h2) \/
    (findChannel channels (cr_channel request) = false /\ create_committed no fen h' /\ result = jnull /\
     transportError = "CHANNEL_NOT_AVAILABLE: " +:+ cr_channel request)) h.

(** The channel accepted the attempt. *)
Definition attempt_accepted (no : string) (result : json) (h : trace) : Prop :=
  channel_said no result "" h /\ channelResultError (cr_channel request) result = Some "".

(** It failed in a way that is read as a proof that nothing was created. *)
Definition proved_refused (no : string) (h : trace) : Prop :=
  exists result transportError error, channel_said no result transportError h /\
    (if is_empty transportError then channelResultError (cr_channel request) result else Some transportError)
      = Some error /\
    error <> "" /\ attemptCertainlyNotCreated error = true.

(** ** What may be done after a history *)

Definition create_txn_allowed (h : trace) {R} (q : stmt R) : Prop :=
  match q with
  | InsertOrder no user amount currency status channel title created expire =>
      exists no' fen createdAt, create_opened no' fen h /\
        InsertOrder no user amount currency status channel title created expire = order_insertion createdAt
  | InsertPayment no order status amount payload created =>
      exists fen h', h = Event (Io Now) created :: h' /\ order_booked no fen h' /\
        InsertPayment no order status amount payload created = attempt_insertion no fen created
  | Commit => exists no fen, attempt_booked no fen h
  | _ => False
  end.

Definition create_main_allowed (h : trace) {R} (q : stmt R) : Prop :=
  match q with
  | AdvancePayment no st payload =>
      st = "PROCESSING" /\ exists result, attempt_accepted no result h /\ payload = toJsonString result
  | AdvanceOrder o st =>
      o = cr_orderNo request /\ st = "PAYING" /\ exists no payload n,
        In (main (AdvancePayment no "PROCESSING" payload) (Ok n)) h /\ n <> 0
  | UpdatePayment n st _ =>
      st = "FAIL" /\ exists no row, proved_refused no h /\ In (main (FindAttempt no) (Ok row)) h /\ n = p_no row
  | UpdateOrderStatus id st =>
      st = "FAILED" /\ exists no row, proved_refused no h /\
        In (main (FindOrder (cr_orderNo request)) (Ok row)) h /\ id = o_id row
  | FindAttempt _ | FindOrder _ => True
  | q => keyed key q
  end.

(** A success is an accepted attempt, or a replay. *)
Definition create_answer (h : trace) (r : json) (c : Z) : Prop :=
  answers_of h = [] /\ (c = 0 -> (exists no result, attempt_accepted no result h) \/ replayed key (requestHash sha256 request) r h).

Definition create_guarantee (h : trace) (ev : event svc) : Prop :=
  match ev with
  | Event e _ =>
      match e with
      | Io (Sql Txn q) => create_txn_allowed h q
      | Io (Sql Main q) => create_main_allowed h q
      | Io (Begin | Step _ | Respond _) => False
      | Io BeginOrNull => calls_of h = []
      | Io _ => True
      | Call channel op =>
          calls_of h = [] /\ exists no fen, create_committed no fen h /\ channel = cr_channel request /\
            op = ChCreateQr (createPayload buyerIdEnv request fen)
      | Post _ => False
      | Claim => False
      | Answer r c => create_answer h r c
      | Draw _ => True
      end
  end.

(** ** Facts that histories keep *)

Lemma said_cons no result e ev h : channel_said no result e h -> channel_said no result e (ev :: h).
Proof. apply earlier_cons. Qed.

Lemma attempt_accepted_cons no result ev h : attempt_accepted no result h -> attempt_accepted no result (ev :: h).
Proof. intros [H ?]. split; [by apply said_cons | done]. Qed.

Lemma refused_cons no ev h : proved_refused no h -> proved_refused no (ev :: h).
Proof. intros (r & t & e & H & ?). exists r, t, e. split; [by apply said_cons | done]. Qed.

Lemma checked_cons no fen ev h : create_checked no fen h -> create_checked no fen (ev :: h).
Proof.
  intros ((now & drawn & ? & ? & ?) & Ht & ?). split; [exists now, drawn; repeat split; auto; by right |].
  split; [|done]. destruct Ht as [|(n & ? & ?)]; [by left |]. right. exists n. split; [by right | done].
Qed.

Lemma create_answer_cons h r c R (e : io R) a : create_answer h r c -> create_answer (Event (Io e) a :: h) r c.
Proof.
  intros [Ha Hs]. split; [done |]. intros Hc.
  destruct (Hs Hc) as [(no & result & H)|H]; [left; exists no, result; by apply attempt_accepted_cons | right].
  by apply replayed_cons.
Qed.

Lemma failure_answer h r c : answers_of h = [] -> c <> 0 -> create_answer h r c.
Proof. by split. Qed.

End Guarantee.

Create HintDb create discriminated.
#[export] Hint Resolve attempt_accepted_cons refused_cons checked_cons create_answer_cons failure_answer : create.

(** ** The guarantee, method by method *)

Section Walk.
Context `{J : JsonLib} (sha256 : string -> string).
Context (channels : list string) (redis : bool) (ttlSeconds : Z) (utc_offset : Z -> Z) (buyerIdEnv : option string).
Context (request : create_request) (key : string).
Abbreviation trace := (list (event svc)).
Abbreviation guarantee := (create_guarantee sha256 channels utc_offset buyerIdEnv request key).
Abbreviation ok := (safe any_answer guarantee answered_once).
Abbreviation may_answer := (create_answer sha256 channels utc_offset buyerIdEnv request key).
Abbreviation acc := (attempt_accepted channels utc_offset buyerIdEnv request).
Abbreviation hash := (requestHash sha256 request).

(** A callback that may be given an answer that may be sent. *)
Definition takes (callback : json -> Z -> prog svc) : Prop :=
  forall r c h, may_answer h r c -> ok (callback r c) h.

Ltac step := intros ? _; split; [| simpl].

Lemma answer_takes : takes answerCaller.
Proof. intros r c h [Ha Hs]. step; [by split | by rewrite Ha]. Qed.

Section Methods.
Context (callback : json -> Z -> prog svc) (Hcb : takes callback).
Context (no : string).

Lemma refuse_takes code m h : answers_of h = [] -> code <> 0 -> ok (refuse callback code m) h.
Proof. intros. by apply Hcb, failure_answer. Qed.

Lemma mapper_takes w h : answers_of h = [] -> ok (mapperFailure callback w) h.
Proof. intros. by apply Hcb, failure_answer. Qed.

(** *** The channel's answer *)

Lemma answerChannelError_ok e h : answers_of h = [] -> ok (answerChannelError request callback e) h.
Proof. intros. by apply refuse_takes. Qed.

Lemma bookRefusedAttempt_ok payload (done_ : prog svc) h :
  proved_refused channels utc_offset buyerIdEnv request no h -> answers_of h = [] ->
  (forall h, answers_of h = [] -> ok done_ h) ->
  ok (bookRefusedAttempt true no (cr_orderNo request) payload done_) h.
Proof.
  intros Hr Ha Hd a _. split; [done |]. destruct a as [payment|e|w]; [|by apply Hd..].
  apply (refused_cons _ _ _ _ _ (main (FindAttempt no) (Ok payment))) in Hr.
  intros b _. split; [split; [done |]; exists no, payment; repeat split; [done | by left] |].
  destruct b as [n|e|w]; [|by apply Hd..]. apply (refused_cons _ _ _ _ _
    (main (UpdatePayment (p_no payment) "FAIL" payload) (Ok n))) in Hr.
  intros c _. split; [done |]. destruct c as [order|e|w]; [|by apply Hd..].
  apply (refused_cons _ _ _ _ _ (main (FindOrder (cr_orderNo request)) (Ok order))) in Hr.
  intros d _. split; [split; [done |]; exists no, order; repeat split; [done | by left] |].
  destruct d; by apply Hd.
Qed.

Lemma onChannelError_ok result transportError e h :
  channel_said channels utc_offset buyerIdEnv request no result transportError h ->
  (if is_empty transportError then channelResultError (cr_channel request) result else Some transportError) = Some e ->
  e <> "" -> answers_of h = [] -> ok (onChannelError request no callback e) h.
Proof.
  intros Hs He Hne Ha. unfold onChannelError. destruct (attemptCertainlyNotCreated e) eqn:Ec;
    [|by apply answerChannelError_ok].
  apply bookRefusedAttempt_ok; [|done | intros; by apply answerChannelError_ok].
  by exists result, transportError, e.
Qed.

Lemma answerCreated_ok result h :
  acc no result h -> answers_of h = [] -> ok (answerCreated request no callback result) h.
Proof.
  intros Hacc Ha. unfold answerCreated. destruct (payable request result) as [ms|]; [|done].
  apply Hcb. split; [done |]. intros _. left. by exists no, result.
Qed.

Lemma promoteOrder_ok result payload n h :
  acc no result h -> In (main (AdvancePayment no "PROCESSING" payload) (Ok n)) h -> n <> 0 ->
  answers_of h = [] -> ok (promoteOrder request no callback result) h.
Proof.
  intros Hacc Hi Hn Ha a _. split; [repeat split; by exists no, payload, n |].
  destruct a; apply answerCreated_ok; eauto with create.
Qed.

Lemma promotePayment_ok result h :
  acc no result h -> answers_of h = [] -> ok (promotePayment request no callback result) h.
Proof.
  intros Hacc Ha a _. split; [split; [done |]; by exists result |].
  destruct a as [n|e|w]; [|by apply refuse_takes | by apply mapper_takes].
  destruct (Z.eqb_spec n 0) as [->|Hn]; [apply answerCreated_ok; eauto with create |].
  eapply promoteOrder_ok; [eauto with create | by left | done..].
Qed.

Lemma paymentCallback_ok result transportError h :
  channel_said channels utc_offset buyerIdEnv request no result transportError h -> answers_of h = [] ->
  ok (paymentCallback request no callback result transportError) h.
Proof.
  intros Hs Ha. unfold paymentCallback.
  destruct (if is_empty transportError then _ else _) as [e|] eqn:He; [|done]. simpl try_.
  destruct (is_empty e) eqn:Ee; simpl negb; cbv iota.
  - apply is_empty_true in Ee as ->. destruct (is_empty transportError) eqn:Et; [|by injection He as ->].
    apply is_empty_true in Et as ->. by apply promotePayment_ok.
  - eapply onChannelError_ok; [done | done | by intros -> | done].
Qed.

Lemma callChannel_ok fen h :
  create_committed utc_offset buyerIdEnv request no fen h -> silent h ->
  ok (callChannel channels request no callback (createPayload buyerIdEnv request fen)) h.
Proof.
  intros Hc [Ha Hq]. unfold callChannel. destruct (findChannel channels (cr_channel request)) eqn:Ef; simpl negb; cbv iota.
  - intros a _. split; [split; [done |]; by exists no, fen |]. destruct a as [result te|]; [|done].
    apply paymentCallback_ok; [|done]. apply earlier_now. exists fen. left. by exists h.
  - apply paymentCallback_ok; [|done]. apply earlier_now. exists fen. by right.
Qed.

(** *** The transaction *)

Lemma failDbTxn_ok e h : answers_of h = [] -> ok (failDbTxn callback e) h.
Proof. intros Ha. step; [done | by apply refuse_takes]. Qed.

Lemma mapperFailedInTxn_takes w h : answers_of h = [] -> ok (mapperFailedInTxn callback w) h.
Proof. intros Ha. step; [done | by apply mapper_takes]. Qed.

Lemma onPaymentInserted_ok fen a createdAt h :
  order_booked utc_offset request no fen h -> silent h ->
  ok (onPaymentInserted channels request no callback (createPayload buyerIdEnv request fen) a)
    (in_txn (attempt_insertion buyerIdEnv request no fen createdAt) a :: Event (Io Now) createdAt :: h).
Proof.
  intros Hb [Ha Hq]. destruct a as [[]|e|w]; [|by apply failDbTxn_ok | by apply mapperFailedInTxn_takes].
  intros b _. split; [exists no, fen, createdAt, h; by split |].
  destruct b as [[]|e|w]; [|by apply refuse_takes | done].
  apply callChannel_ok; [|done]. eexists. split; [done |]. exists createdAt, h. by split.
Qed.

Lemma onOrderInserted_ok fen a createdAt h :
  create_opened utc_offset request no fen h -> silent h ->
  ok (onOrderInserted channels request no callback (createPayload buyerIdEnv request fen) a)
    (in_txn (order_insertion request createdAt) a :: h).
Proof.
  intros Ho [Ha Hq]. destruct a as [[]|e|w]; [|by apply failDbTxn_ok | by apply mapperFailedInTxn_takes].
  assert (Hb : order_booked utc_offset request no fen (in_txn (order_insertion request createdAt) (Ok tt) :: h))
    by (exists createdAt, h; by split).
  intros now _. split; [done |]. intros b _. split; [|by apply onPaymentInserted_ok].
  exists fen. eexists. by repeat split.
Qed.

Lemma proceedCreatePayment_ok fen h :
  create_checked utc_offset request no fen h -> silent h ->
  ok (proceedCreatePayment channels buyerIdEnv request no callback fen) h.
Proof.
  intros Hc [Ha Hq]. intros thrown _. split; [done |]. destruct thrown as [w|]; [by apply Hcb, failure_answer |].
  intros createdAt _. split; [done |]. intros created _. split; [done |].
  destruct created; simpl negb; cbv iota; [|by apply refuse_takes].
  assert (Ho : create_opened utc_offset request no fen
                 (begun :: Event (Io Now) createdAt :: Event (Io Construct) None :: h)).
  { eexists. split; [done |]. by do 2 apply checked_cons. }
  intros a _. split; [by exists no, fen, createdAt |]. by apply onOrderInserted_ok.
Qed.
End Methods.

(** *** The request *)

Section Keyed.
Context (callback : json -> Z -> prog svc) (Hcb : takes callback).

Lemma keyed_allowed h R (q : stmt R) a : keyed key q -> guarantee h (main q a).
Proof. by destruct q. Qed.

Lemma releasing_takes code m h :
  answers_of h = [] -> code <> 0 -> ok (releasing key hash (refuse callback code m)) h.
Proof.
  intros Ha Hc. unfold releasing. destruct (negb (is_empty key)); [|by apply refuse_takes].
  eapply clearing with (may := may_answer);
    [exact keyed_allowed | intros; by apply create_answer_cons | exact Hcb | by apply failure_answer].
Qed.

Lemma wrappedCb_takes : takes (wrappedCb redis ttlSeconds key hash callback).
Proof.
  intros r c h Ha. unfold wrappedCb.
  destruct (if _ && (c =? 0) then _ else _) as [stores|]; [|by destruct Ha]. simpl try_.
  destruct stores.
  - eapply storing with (may := may_answer);
      [exact keyed_allowed | done | intros; by apply create_answer_cons | exact Hcb | done].
  - destruct (_ && _); [|by apply Hcb]. eapply clearing with (may := may_answer);
      [exact keyed_allowed | intros; by apply create_answer_cons | exact Hcb | done].
Qed.

Lemma checkTimeExpire_ok k h :
  (forall h', answers_of h' = answers_of h -> calls_of h' = calls_of h ->
     (exists h1, h' = (h1 ++ h)%list) -> timely request h' -> ok (k None) h') ->
  (forall e h', answers_of h' = answers_of h -> ok (k (Some e)) h') ->
  ok (checkTimeExpire (cr_timeExpire request) (cr_channel request) k) h.
Proof.
  intros Hn Hs. unfold checkTimeExpire. destruct (is_empty (cr_timeExpire request)) eqn:Ee.
  - apply is_empty_true in Ee. apply Hn; [done.. | by exists [] | by left].
  - intros now _. split; [done |].
    destruct (validateTimeExpire _ _ _) as [e|] eqn:Ev; [by apply Hs |].
    apply Hn; [done.. | by exists [Event (Io Now) now] |]. right. exists now. split; [by left | done].
Qed.

Lemma startCreate_ok h :
  silent h -> ok (startCreate channels redis ttlSeconds utc_offset buyerIdEnv request key hash callback) h.
Proof.
  intros [Ha Hq]. intros now _. split; [done |]. intros drawn _. split; [done |].
  set (h0 := Event (Draw 99999999) drawn :: Event (Io Now) now :: h).
  assert (Hg : generated utc_offset (paymentNumber utc_offset now drawn) h0)
    by (exists now, drawn; split; [right; by left | split; [by left | done]]).
  destruct (parseAmountToFen (cr_amount request)) as [fen|] eqn:Ep; [|by apply releasing_takes].
  destruct (validateNotifyUrl (cr_notifyUrl request)) as [e|] eqn:Eu; [by apply releasing_takes |].
  apply checkTimeExpire_ok; [|intros e h' H; apply releasing_takes; [by rewrite H | done]].
  intros h' Ha' Hq' [h1 ->] Ht. destruct (wechatFieldError request) as [e|] eqn:Ef; [by apply releasing_takes; [rewrite Ha' |] |].
  apply proceedCreatePayment_ok; [by apply wrappedCb_takes | | by split; [rewrite Ha' | rewrite Hq']].
  destruct Hg as (n & d & Hn & Hd & E). repeat split; try done.
  exists n, d. repeat split; [by apply in_or_app; right.. | done].
Qed.

Lemma createPayment_takes :
  ok (createPayment sha256 channels redis ttlSeconds utc_offset buyerIdEnv request key callback) [].
Proof.
  apply checking; [exact keyed_allowed | done | done | |].
  - intros r h [Ha Hq] Hr. destruct (status r); [by apply startCreate_ok | done | by apply refuse_takes..].
  - intros r h [Ha Hq] -> Hr. apply Hcb. split; [done |]. intros _. by right.
Qed.
End Keyed.
End Walk.

(** ** Theorems *)

Section Claims.
Context `{J : JsonLib} (sha256 : string -> string).
Context (channels : list string) (redis : bool) (ttlSeconds : Z) (utc_offset : Z -> Z) (buyerIdEnv : option string).
Abbreviation execution request key :=
  (runs (logs any_answer) (createPayment sha256 channels redis ttlSeconds utc_offset buyerIdEnv request key answerCaller) []).
Abbreviation guarantee := (create_guarantee sha256 channels utc_offset buyerIdEnv).

Lemma create_guaranteed request key o h :
  execution request key o h ->
  guaranteed (guarantee request key) h /\ answered_once o h.
Proof.
  intros Hr. apply safe_sound with (Guar := guarantee request key) (Fin := answered_once) in Hr as [Hg He];
    [|by apply createPayment_takes, answer_takes].
  split; [done |]. by destruct o.
Qed.

Lemma create_calls_once request key h :
  guaranteed (guarantee request key) h -> (List.length (calls_of h) <= 1)%nat.
Proof.
  induction h as [|[R e r] h IH]; simpl; [lia |]. intros [Hg Hh]. specialize (IH Hh).
  destruct e; try done. destruct Hg as [E _]. simpl. by rewrite E.
Qed.

(** C12. Whatever the database and the channels answer, a creation asks a channel at
    most once, and only its own channel for exactly the payload of the request,
    after every check of the request passed and a transaction that inserted the
    CREATED order and its INIT attempt under a new payment number was committed;
    and an execution that returns has answered exactly once. *)
Theorem create_called_after_commit request key o h :
  execution request key o h ->
  (List.length (calls_of h) <= 1)%nat /\ answered_once o h /\
  forall h1 channel op a h2, h = (h1 ++ Event (Call channel op) a :: h2)%list ->
    exists no fen, create_committed utc_offset buyerIdEnv request no fen h2 /\
      channel = cr_channel request /\ op = ChCreateQr (createPayload buyerIdEnv request fen).
Proof.
  intros Hr. apply create_guaranteed in Hr as [Hg He].
  split; [by eapply create_calls_once | split; [done |]]. intros h1 channel op a h2 ->.
  by apply guaranteed_at in Hg as [_ Hc].
Qed.

(** What a creation books about the channel's answer is what the channel said:
    PROCESSING and PAYING only for an accepted attempt, FAIL and FAILED only on an
    error text read as a proof that nothing was created; and it answers success only
    for an accepted attempt or as the replay of the answer stored for the same
    request under the key. *)
Lemma create_outcome_justified request key o h :
  execution request key o h ->
  (forall h1 R (q : stmt R) a h2, h = (h1 ++ main q a :: h2)%list ->
     create_main_allowed channels utc_offset buyerIdEnv request key h2 q) /\
  (forall h1 r c h2, h = (h1 ++ Event (Answer r c) tt :: h2)%list ->
     create_answer sha256 channels utc_offset buyerIdEnv request key h2 r c).
Proof.
  intros Hr. apply create_guaranteed in Hr as [Hg _]. by split; intros; subst h; apply guaranteed_at in Hg.
Qed.
End Claims.

(** ** Witnesses: a shop without orders whose WeChat channel accepts the attempt *)

Definition qr_accepted : @channel_answer lib0 :=
  @Answered lib0 (Tree.TObject [("code_url", Tree.TString "weixin://pay")]) "".

Definition empty_shop (answers : list (@channel_answer lib0)) (faults : list bool) : @deployment lib0 :=
  @Deployment lib0 (World (Db [] [] [] [] [] []) TxNone [] shop_time "u" [] faults) answers [] [] false.

Definition new_order : @create_request lib0 :=
  @CreateRequest lib0 "ORD001" "12.50" "CNY" "a book" "" 42 Tree.TNull "wechat" "2024-01-02T00:00:00Z" "".

Definition create_run (answers : list (@channel_answer lib0)) (faults : list bool) :
    outcome * (list (event (@svc lib0)) * @deployment lib0) :=
  run (recording (@handle_svc lib0 shop_sum shop_time))
    (@createPayment lib0 shop_md5 ["wechat"] false 60 (fun _ => 28800) None new_order "K" (@answerCaller lib0))
    ([], empty_shop answers faults).

Definition create_history (answers : list (@channel_answer lib0)) (faults : list bool) :
    list (event (@svc lib0)) := fst (snd (create_run answers faults)).

Lemma create_runs answers faults :
  runs (logs any_answer)
    (@createPayment lib0 shop_md5 ["wechat"] false 60 (fun _ => 28800) None new_order "K" (@answerCaller lib0)) []
    (fst (create_run answers faults)) (create_history answers faults).
Proof. exact (recorded_runs _ _ _ _ _ (every_answer _)). Qed.

Lemma create_called_after_commit_witness :
  calls_of (create_history [qr_accepted] []) <> [] /\
  (List.length (calls_of (create_history [qr_accepted] [])) <= 1)%nat /\
  answered_once (fst (create_run [qr_accepted] [])) (create_history [qr_accepted] []) /\
  forall h1 channel op a h2, create_history [qr_accepted] [] = (h1 ++ Event (Call channel op) a :: h2)%list ->
    exists no fen, create_committed (fun _ => 28800) None new_order no fen h2 /\
      channel = cr_channel new_order /\ op = ChCreateQr (createPayload None new_order fen).
Proof.
  split; [by vm_compute |].
  exact (create_called_after_commit shop_md5 ["wechat"] false 60 (fun _ => 28800) None new_order "K" _ _
           (create_runs [qr_accepted] [])).
Defined.

Lemma create_outcome_justified_witness :
  map snd (answers_of (create_history [qr_accepted] [])) = [0] /\
  (forall h1 R (q : stmt R) a h2, create_history [qr_accepted] [] = (h1 ++ main q a :: h2)%list ->
     create_main_allowed ["wechat"] (fun _ => 28800) None new_order "K" h2 q) /\
  (forall h1 r c h2, create_history [qr_accepted] [] = (h1 ++ Event (Answer r c) tt :: h2)%list ->
     create_answer shop_md5 ["wechat"] (fun _ => 28800) None new_order "K" h2 r c).
Proof.
  split; [by vm_compute |].
  exact (create_outcome_justified shop_md5 ["wechat"] false 60 (fun _ => 28800) None new_order "K" _ _
           (create_runs [qr_accepted] [])).
Defined.
