(* ===== verification/CreateRun.v ===== *)
(** * Creating a payment on the reference database: where the rows and the answer
    end for each answer of the channel. *)
From S2P Require Import Prelude Cxx Json Effects Store Amount Rfc3339 RefDb RefDbFacts Idempotency Service PaymentService PaymentCreate.
From S2P Require Import RefundRun CreateGuard Scenario.
Import PaymentService.Payments PaymentCreate.Creates.

(** ** The specification *)

Section Spec.
Context `{J : JsonLib}.

(** How an attempt ends. *)
Inductive fate :=
| Accepted (result : json)
| Refused (error : string)      (* proved: nothing was created *)
| Unsettled (error : string)    (* the trade may exist *)
| Lost.                         (* an exception left the callback *)

Definition fate_of (channel : string) (a : channel_answer) : fate :=
  match a with
  | ChannelThrew => Lost
  | Answered result transportError =>
      match (if is_empty transportError then channelResultError channel result else Some transportError) with
      | None => Lost
      | Some error =>
          if is_empty error then Accepted result
          else if attemptCertainlyNotCreated error then Refused error else Unsettled error
      end
  end.

Definition order_status (f : fate) : string :=
  match f with Accepted _ => "PAYING" | Refused _ => "FAILED" | _ => "CREATED" end.
Definition payment_status (f : fate) : string :=
  match f with Accepted _ => "PROCESSING" | Refused _ => "FAIL" | _ => "INIT" end.
Definition response_of (f : fate) : option string :=
  match f with
  | Accepted result => Some (toJsonString result)
  | Refused error => Some (toJsonString (of_object [("error", of_string error)]))
  | _ => None
  end.

Context (buyerIdEnv : option string) (server_now : Z).

(** The rows of the request, [now] being the time they were booked. *)
Definition order_row_of (request : create_request) (now : Z) (f : fate) (rows : list order_row) : order_row :=
  OrderRow (1 + fold_right Z.max 0 (map o_id rows)) (cr_orderNo request) (cr_userId request) (cr_amount request)
    (cr_currency request) (order_status f) (cr_channel request) (cr_description request) now
    (expireAt (cr_timeExpire request)).

Definition payment_row_of (request : create_request) (no : string) (fen now : Z) (f : fate) : payment_row :=
  PaymentRow no (cr_orderNo request) (payment_status f) (cr_amount request) (response_of f) None now
    (Some (toJsonString (createPayload buyerIdEnv request fen))).

Definition tables_after (request : create_request) (no : string) (fen now : Z) (f : fate) (d : db) : db :=
  Db (d_idemps d) (d_payments d ++ [payment_row_of request no fen now f])
     (d_orders d ++ [order_row_of request now f (d_orders d)]) (d_refunds d) (d_callbacks d) (d_ledgers d).

(** The answer; [None]: the callback of the channel throws. *)
Definition answer_after (request : create_request) (no : string) (f : fate) : option (json * Z) :=
  let name := if String.eqb (cr_channel request) "alipay" then "Alipay" else "WeChat Pay" in
  match f with
  | Accepted result =>
      members ← payable request result;
      Some (of_object [("code", of_int 0); ("message", of_string "Payment created successfully");
        ("data", of_object ([("order_no", of_string (cr_orderNo request)); ("payment_no", of_string no);
                             ("status", of_string "PAYING")] ++ members)%list)], 0)
  | Refused e | Unsettled e => Some (error_json 1002 (name +:+ " error: " +:+ e), 1002)
  | Lost => None
  end.
End Spec.

(** A new value of the sequence is not in use. *)
Lemma fresh_order_id rows : existsb (fun r => o_id r =? 1 + fold_right Z.max 0 (map o_id rows)) rows = false.
Proof.
  assert (H : forall r, In r rows -> o_id r <= fold_right Z.max 0 (map o_id rows)).
  { induction rows as [|x xs IH]; intros r; [done |]. intros [->|Hin]; simpl; [lia |]. specialize (IH r Hin). lia. }
  destruct (existsb _ rows) eqn:E; [|done]. apply existsb_exists in E as (r & Hin & E). specialize (H r Hin).
  breflect. lia.
Qed.

(** ** Running *)

Section Run.
Context `{J : JsonLib} (channels : list string) (buyerIdEnv : option string).
Context (sum_text : list string -> string) (server_now : Z).
Abbreviation exec := (exec sum_text server_now).
Abbreviation run := (run (handle_svc sum_text server_now)).

Context (request : create_request) (no : string) (callback : json -> Z -> prog svc) (fen : Z).

(** What the deployment comes to. *)
Definition ends (f : fate) (now : Z) (d : db) (x : txn) (s : deployment) : outcome * deployment :=
  let s' := moved (tables_after buyerIdEnv request no fen now f d) x s in
  match answer_after request no f with
  | Some (r, c) => run (callback r c) s'
  | None => (Escaped, s')
  end.

Context (now : Z) (d : db).
Context (Horder : existsb (order_named (cr_orderNo request)) (d_orders d) = false).
Context (Hno : existsb (fun r => String.eqb (p_no r) no) (d_payments d) = false).

Abbreviation rows f := (tables_after buyerIdEnv request no fen now f d).

Lemma settleable_new : existsb (settleable no) (d_payments d) = false.
Proof. eapply existsb_weaken; [|exact Hno]. intros r H. by apply andb_true_iff in H as [H _]. Qed.

Lemma order_open_new : existsb (order_open (cr_orderNo request)) (d_orders d) = false.
Proof. eapply existsb_weaken; [|exact Horder]. intros r H. by apply andb_true_iff in H as [H _]. Qed.

Lemma settled_at f x s :
  quiet s -> w_main (dp_world s) = rows Lost -> w_txn (dp_world s) = x ->
  forall r c, answer_after request no f = Some (r, c) ->
  order_status f = "CREATED" -> payment_status f = "INIT" -> response_of f = None ->
  run (callback r c) s = ends f now d x s.
Proof.
  intros Hq Hm Hx r c Ha Ho Hp Hr. unfold ends. rewrite Ha.
  replace (rows f) with (rows Lost); [by rewrite <- Hm, <- Hx, moved_self |].
  unfold tables_after, payment_row_of, order_row_of. by rewrite Ho, Hp, Hr.
Qed.

(** Two statements promote the rows. *)
Lemma promote_runs result s x :
  quiet s -> w_main (dp_world s) = rows Lost -> w_txn (dp_world s) = x ->
  run (promotePayment request no callback result) s = ends (Accepted result) now d x s.
Proof.
  intros Hq Hm Hx. unfold promotePayment.
  rewrite (run_main sum_text server_now _ _ _ s _ _ Hq (surjective_pairing _)). cbn [RefDb.exec fst snd].
  rewrite Hm. cbn [tables_after d_payments with_payments].
  rewrite count_appended by (apply settleable_new || (unfold settleable; simpl; by rewrite String.eqb_refl)).
  cbn [Z.eqb]. unfold promoteOrder.
  rewrite (run_main sum_text server_now _ _ _ _ _ _ (moved_quiet _ _ _ Hq) (surjective_pairing _)). cbn [RefDb.exec fst snd].
  rewrite moved_twice. unfold ends. cbn [answer_after].
  set (s' := moved _ _ s). set (s'' := moved (rows (Accepted result)) x s).
  replace s' with s''.
  - unfold answerCreated. by destruct (payable request result).
  - subst s' s''. rewrite Hx. f_equal. unfold moved, with_world, set_txn, set_main. simpl.
    unfold with_orders, with_payments, tables_after. simpl.
    rewrite (update_appended (settleable no)) by (apply settleable_new || (unfold settleable; simpl; by rewrite String.eqb_refl)).
    rewrite (update_appended (order_open (cr_orderNo request)))
      by (apply order_open_new || (unfold order_open; simpl; by rewrite String.eqb_refl)).
    done.
Qed.

(** Four statements close them. *)
Lemma refuse_runs error s x :
  quiet s -> w_main (dp_world s) = rows Lost -> w_txn (dp_world s) = x ->
  run (bookRefusedAttempt true no (cr_orderNo request) (toJsonString (of_object [("error", of_string error)]))
         (answerChannelError request callback error)) s = ends (Refused error) now d x s.
Proof.
  intros Hq Hm Hx. unfold bookRefusedAttempt. simpl negb. cbv iota.
  set (payment := payment_row_of buyerIdEnv request no fen now Lost).
  set (order := order_row_of request now Lost (d_orders d)).
  rewrite (run_main sum_text server_now _ (FindAttempt no) _ s (Ok payment) (fun d => d) Hq).
  2: { simpl. rewrite Hm. simpl. by rewrite select_appended by (done || apply String.eqb_refl). }
  cbn [p_no payment payment_row_of]. rewrite moved_self.
  rewrite (run_main sum_text server_now _ _ _ s _ _ Hq (surjective_pairing _)). cbn [RefDb.exec fst snd].
  set (s1 := moved _ _ s).
  rewrite (run_main sum_text server_now _ (FindOrder (cr_orderNo request)) _ s1 (Ok order) (fun d => d) (moved_quiet _ _ _ Hq)).
  2: { subst s1. simpl. rewrite Hm. simpl. by rewrite select_appended by (done || apply String.eqb_refl). }
  replace (moved (w_main (dp_world s1)) (w_txn (dp_world s1)) s1) with s1 by (by rewrite moved_self).
  rewrite (run_main sum_text server_now _ _ _ s1 _ _ (moved_quiet _ _ _ Hq) (surjective_pairing _)). cbn [RefDb.exec fst snd].
  unfold ends. cbn [answer_after]. unfold answerChannelError, refuse.
  set (s2 := moved _ _ s1). set (s3 := moved (rows (Refused error)) x s). replace s2 with s3; [done |].
  subst s2 s3 s1. rewrite moved_twice, Hx. f_equal. unfold moved, with_world, set_txn, set_main. simpl. rewrite Hm.
  unfold with_orders, with_payments, tables_after. simpl.
  rewrite (update_appended (fun r => String.eqb (p_no r) no)) by (done || apply String.eqb_refl).
  rewrite (update_appended (fun r => o_id r =? o_id order)) by (apply fresh_order_id || apply Z.eqb_refl). done.
Qed.

Lemma answered_runs result transportError s x :
  quiet s -> w_main (dp_world s) = rows Lost -> w_txn (dp_world s) = x ->
  run (paymentCallback request no callback result transportError) s =
  ends (fate_of (cr_channel request) (Answered result transportError)) now d x s.
Proof.
  intros Hq Hm Hx. unfold paymentCallback, fate_of.
  destruct (if is_empty transportError then _ else _) as [error|]; simpl try_.
  2: { unfold ends. simpl. by rewrite <- Hm, <- Hx, moved_self. }
  destruct (is_empty error); simpl negb; cbv iota; [by apply promote_runs |]. unfold onChannelError.
  destruct (attemptCertainlyNotCreated error); [by apply refuse_runs | by apply settled_at].
Qed.

(** What the channel makes of the attempt, and the deployment after it. *)
Definition channel_outcome (s : deployment) : fate * deployment :=
  let channel := cr_channel request in
  if findChannel channels channel
  then (fate_of channel (fst (next_answer (dp_script s))),
        after_call channel (ChCreateQr (createPayload buyerIdEnv request fen)) s)
  else (fate_of channel (Answered jnull ("CHANNEL_NOT_AVAILABLE: " +:+ channel)), s).

Lemma called_runs s :
  quiet s ->
  run (callChannel channels request no callback (createPayload buyerIdEnv request fen)) (moved (rows Lost) TxNone s) =
  ends (fst (channel_outcome s)) now d TxNone (snd (channel_outcome s)).
Proof.
  intros Hq. unfold callChannel, channel_outcome.
  destruct (findChannel channels (cr_channel request)); simpl negb; cbv iota.
  - destruct s as [w [|[result te|] script] cs ans cl]; simpl; [done | | done].
    rewrite answered_runs with (x := TxNone) by done. done.
  - rewrite answered_runs with (x := TxNone) by done. done.
Qed.

Definition create_taken : bool :=
  existsb (order_named (cr_orderNo request)) (d_orders d) || existsb (fun r => String.eqb (p_no r) no) (d_payments d).
End Run.

(** ** The transaction *)

Section Booking.
Context `{J : JsonLib} (channels : list string) (buyerIdEnv : option string).
Context (sum_text : list string -> string) (server_now : Z).
Abbreviation run := (run (handle_svc sum_text server_now)).
Context (request : create_request) (no : string) (callback : json -> Z -> prog svc) (fen : Z).

Definition add_order (now : Z) : db -> db := with_orders (fun rs => rs ++ [order_row_of request now Lost rs])%list.
Definition add_attempt (now : Z) : db -> db :=
  with_payments (fun rs => rs ++ [payment_row_of buyerIdEnv request no fen now Lost])%list.

Lemma duplicate_runs R (q : stmt R) s ws k (f : db -> db) :
  quiet s -> w_txn (dp_world s) = TxOpen ws -> is_commit q = false ->
  exec sum_text server_now q (apply_writes ws (w_main (dp_world s))) = (Exc (DbFailure "duplicate key"), f) ->
  run (Vis (Io (Sql Txn q)) k) s =
  run (k (Exc (DbFailure "duplicate key"))) (moved (w_main (dp_world s)) TxAborted s).
Proof.
  unfold quiet. destruct s as [[d x rs now u ns fs] sc cs ans cl]. cbn -[RefDb.exec]. intros -> -> Hc He.
  unfold sql, sql_txn. cbn -[RefDb.exec]. by rewrite He.
Qed.

Lemma booked_runs s :
  quiet s -> let d := w_main (dp_world s) in let now := w_now (dp_world s) in
  run (proceedCreatePayment channels buyerIdEnv request no callback fen) s =
  if create_taken request no d
  then run (refuse callback 1003 "Database error: duplicate key") (moved d TxAborted s)
  else ends buyerIdEnv sum_text server_now request no callback fen (fst (channel_outcome channels buyerIdEnv request fen s))
         now d TxNone (snd (channel_outcome channels buyerIdEnv request fen s)).
Proof.
  intros Hq d now. set (s1 := moved d (TxOpen []) s).
  assert (E : run (proceedCreatePayment channels buyerIdEnv request no callback fen) s =
    run (do a <- Io (Sql Txn (order_insertion request now));
         onOrderInserted channels request no callback (createPayload buyerIdEnv request fen) a) s1).
  { clear -Hq. subst s1 d now. unfold quiet in Hq. destruct s as [[d x rs now u ns fs] sc cs ans cl]. simpl in Hq. by subst fs. }
  rewrite E. unfold create_taken. destruct (existsb (order_named (cr_orderNo request)) (d_orders d)) eqn:Eo.
  { rewrite (duplicate_runs _ _ s1 [] _ (fun d => d)); [done.. |]. simpl. fold d. by rewrite Eo. }
  rewrite (run_txn sum_text server_now _ _ _ s1 tt (add_order now) []); [| done.. |]; [|by simpl; fold d; rewrite Eo].
  cbn [onOrderInserted orb app]. set (s2 := moved _ _ s1).
  assert (E2 : forall k, run (Vis (Io Now) k) s2 = run (k now) s2) by (intros; by destruct s as [[]]).
  rewrite E2. destruct (existsb (fun r => String.eqb (p_no r) no) (d_payments d)) eqn:Ep.
  { rewrite (duplicate_runs _ _ s2 [add_order now] _ (fun d => d)); [done.. |]. simpl. fold d. by rewrite Ep. }
  rewrite (run_txn sum_text server_now _ _ _ s2 tt (add_attempt now) [add_order now]); [| done.. |];
    [|by simpl; fold d; rewrite Ep].
  cbn [onPaymentInserted app]. set (s3 := moved _ _ s2).
  assert (E3 : forall k, run (Vis (Io (Sql Txn Commit)) k) s3 =
    run (k (Ok tt)) (moved (tables_after buyerIdEnv request no fen now Lost d) TxNone s)).
  { intros k. subst s3 s2 s1. clear -Hq. subst d now. unfold quiet in Hq.
    destruct s as [[d x rs now u ns fs] sc cs ans cl]. simpl in Hq. by subst fs. }
  rewrite E3. by apply called_runs.
Qed.
End Booking.

(** ** Theorem *)

Section Claims.
Context `{J : JsonLib} (channels : list string) (buyerIdEnv : option string).
Context (sum_text : list string -> string) (server_now : Z).
Abbreviation run := (run (handle_svc sum_text server_now)).

(** C14. On the reference tables, while no database call fails, booking and offering a
    payment ends exactly as the channel answers: both rows are durable, PROCESSING
    and PAYING with the channel's answer when it accepted, FAIL and FAILED with the
    error when it proved that nothing was created, INIT and CREATED otherwise; the
    answer of the request says the same; and an order or payment number that is
    taken is refused with the tables unchanged and the channel not asked. *)
Theorem create_ends_as_answered request no callback fen s :
  w_faults (dp_world s) = [] ->
  let d := w_main (dp_world s) in
  let '(f, s') := channel_outcome channels buyerIdEnv request fen s in
  let after := moved (tables_after buyerIdEnv request no fen (w_now (dp_world s)) f d) TxNone s' in
  run (proceedCreatePayment channels buyerIdEnv request no callback fen) s =
  if create_taken request no d
  then run (callback (error_json 1003 "Database error: duplicate key") 1003) (moved d TxAborted s)
  else
    match answer_after request no f with
    | Some (r, c) => run (callback r c) after
    | None => (Escaped, after)
    end.
Proof.
  intros Hq d. pose proof (booked_runs channels buyerIdEnv sum_text server_now request no callback fen s Hq) as H.
  simpl in H. destruct (channel_outcome _ _ _ _ _) as [f s']. exact H.
Qed.
End Claims.

(** ** Witness and cases *)

Definition proceed (answers : list (@channel_answer lib0)) : outcome * @deployment lib0 :=
  run (@handle_svc lib0 shop_sum shop_time)
    (@proceedCreatePayment lib0 ["wechat"] None new_order "PAY1" (@answerCaller lib0) 1250) (empty_shop answers []).

Lemma create_ends_as_answered_witness :
  fate_of (J := lib0) "wechat" qr_accepted = Accepted (J := lib0) (Tree.TObject [("code_url", Tree.TString "weixin://pay")]) /\
  map p_status (d_payments (w_main (dp_world (snd (proceed [qr_accepted]))))) = ["PROCESSING"].
Proof.
  split; [reflexivity |]. unfold proceed.
  rewrite (create_ends_as_answered (J := lib0) ["wechat"] None shop_sum shop_time new_order "PAY1" (@answerCaller lib0)
             1250 (empty_shop [qr_accepted] []) eq_refl). vm_compute. reflexivity.
Defined.

(** The tables and the answer codes after a request without a key on tables [d]. *)
Definition create_on (d : db) (request : @create_request lib0) (answers : list (@channel_answer lib0)) :
    db * list Z :=
  let s := @serve_svc lib0 shop_sum shop_time
    (@createPayment lib0 shop_md5 ["wechat"] false 60 (fun _ => 28800) None request "" (@answerCaller lib0))
    (@Deployment lib0 (World d TxNone [] shop_time "u" [] []) answers [] [] false) in
  (w_main (dp_world s), map snd (dp_answers s)).

(** A refused attempt blocks its order: the same request again, after the channel
    recovered, fails on the unique order number, although the first one released its
    key for a retry. *)
Example refused_order_cannot_be_retried :
  let no_money : @channel_answer lib0 := @Answered lib0 Tree.TNull "HTTP 400: PARAM_ERROR" in
  let '(d, codes) := create_on (Db [] [] [] [] [] []) new_order [no_money] in
  map o_status (d_orders d) = ["FAILED"] /\ codes = [1002] /\
  create_on d new_order [qr_accepted] = (d, [1003]).
Proof. vm_compute. repeat split. Qed.

(** The hash a key is bound to leaves out the user, the channel and the addresses: a
    second request that differs in those is answered with the first one's payment. *)
Example key_ignores_the_rest `{J : JsonLib} sha256 orderNo amount currency description url user scene channel expire
    attach url' user' scene' channel' expire' attach' :
  requestHash sha256 (CreateRequest _ orderNo amount currency description url user scene channel expire attach) =
  requestHash sha256 (CreateRequest _ orderNo amount currency description url' user' scene' channel' expire' attach').
Proof. reflexivity. Qed.
