(* ===== verification/QrGuard.v ===== *)
(** * Offering a QR code: what it does whatever the database and the channels
    answer. *)
From S2P Require Import Prelude Cxx Json Effects Store Amount NotifyUrl Rfc3339 RefDb Idempotency Service PaymentService PaymentCreate QrPayment.
From S2P Require Import RefundGuard KeyedGuard CreateGuard CreateRun Scenario.
Import PaymentService.Payments PaymentCreate.Creates QrPayment.Qr.

(** What a request asks for: everything it names, when nothing essential is missing. *)
Definition qr_of `{J : JsonLib} (request : json) : option qr_request :=
  orderNo ← get_string request "order_no";
  amount ← get_string request "amount";
  channel ← get_text request "channel" "alipay";
  subject ← get_text request "subject" "Payment";
  timeExpire ← get_string request "time_expire";
  userId ← qrUserId request;
  if is_empty orderNo || is_empty amount || (userId <=? 0) then None
  else readQrRequest request orderNo amount channel subject timeExpire userId.

Section Guarantee.
Context `{J : JsonLib} (sha256 : string -> string).
Context (channels : list string) (utc_offset : Z -> Z).
Context (q : qr_request).
Abbreviation trace := (list (event svc)).

(** ** The course of a request *)

(** The order row of an earlier attempt describes this charge, and no money is on it. *)
Record same_charge (currency : string) (existing : order_row) : Prop := {
  sc_unpaid : o_status existing <> "PAID" /\ o_status existing <> "SUCCESS" /\ o_status existing <> "REFUNDED";
  sc_amount : sameAmount (o_amount existing) (q_amount q) = true;
  sc_currency : o_currency existing = currency;
  sc_channel : o_channel existing = q_channel q;
  sc_user : o_user existing = q_userId q
}.

Definition qr_order_insertion (currency : string) : stmt unit :=
  InsertOrder (q_orderNo q) (q_userId q) (q_amount q) currency "CREATED" (q_channel q) (q_subject q) None
    (expireAt (q_timeExpire q)).

(** The order row [booked] is a new one, or that of the same charge without a settled
    payment. *)
Definition qr_order (currency booked : string) (h : trace) : Prop :=
  (booked = q_orderNo q /\ exists h',
     h = main (qr_order_insertion currency) (Ok tt) :: main (FindOrders (q_orderNo q)) (Ok []) :: h') \/
  (exists existing rows h', booked = o_no existing /\ same_charge currency existing /\
     h = main (FindAttempts (q_orderNo q) ["SUCCESS"; "REFUNDED"]) (Ok [])
           :: main (FindOrders (q_orderNo q)) (Ok (existing :: rows)) :: h').

Definition qr_insertion (no : string) (payload : json) (createdAt : Z) : stmt unit :=
  InsertPayment no (q_orderNo q) "INIT" (q_amount q) (toJsonString payload) createdAt.

(** Every check passed, for [payload]; the order and the attempt have rows. *)
Definition qr_booked (currency no booked : string) (payload : json) (h : trace) : Prop :=
  normalizeQrCurrency (q_requestedCurrency q) = Some currency /\ qrPayload q currency = inr payload /\
  exists createdAt h', h = main (qr_insertion no payload createdAt) (Ok tt) :: Event (Io Now) createdAt :: h' /\
    qr_order currency booked h' /\ earlier (generated utc_offset no) h'.

(** What the channel said of the attempt. *)
Definition qr_said (no booked : string) (result : json) (error : string) (h : trace) : Prop :=
  earlier (fun h' => exists currency payload h2,
    h' = Event (Call (q_channel q) (ChCreateQr payload)) (Answered result error) :: h2 /\
    qr_booked currency no booked payload h2) h.

Definition qr_taken (no booked : string) (result : json) (h : trace) : Prop :=
  qr_said no booked result "" h /\ channelResultError (q_channel q) result = Some "".

(** It failed in a way that is read as a proof that nothing was created. *)
Definition qr_refused (no : string) (h : trace) : Prop :=
  exists booked result transportError error, qr_said no booked result transportError h /\
    (if is_empty transportError then channelResultError (q_channel q) result else Some transportError)
      = Some error /\
    error <> "" /\ attemptCertainlyNotCreated error = true.

(** ** What may be done after a history *)

Definition qr_main_allowed (h : trace) {R} (s : stmt R) : Prop :=
  match s with
  | FindOrders _ | FindAttempts _ _ => True
  | InsertOrder no user amount currency status channel title created expire =>
      exists cur h', h = main (FindOrders (q_orderNo q)) (Ok []) :: h' /\
        InsertOrder no user amount currency status channel title created expire = qr_order_insertion cur
  | InsertPayment no order status amount payload created =>
      exists cur booked doc h', h = Event (Io Now) created :: h' /\ qr_order cur booked h' /\
        InsertPayment no order status amount payload created = qr_insertion no doc created
  | AdvancePayment no st payload =>
      (st = "PROCESSING" /\ exists booked result, qr_taken no booked result h) \/ (st = "FAIL" /\ qr_refused no h)
  | AdvanceOrder o st =>
      st = "PAYING" /\ exists no result payload n, qr_taken no o result h /\
        In (main (AdvancePayment no "PROCESSING" payload) (Ok n)) h /\ n <> 0
  | s => keyed (q_key q) s
  end.

(** A success is an accepted attempt, or a replay. *)
Definition qr_answer (h : trace) (r : json) (c : Z) : Prop :=
  answers_of h = [] /\
  (c = 0 -> (exists no booked result, qr_taken no booked result h) \/ replayed (q_key q) (qrHash sha256 q) r h).

Definition qr_guarantee (h : trace) (ev : event svc) : Prop :=
  match ev with
  | Event e _ =>
      match e with
      | Io (Sql Main s) => qr_main_allowed h s
      | Io (Now | RedisSetEx _ _ _) => True
      | Io _ => False
      | Call channel op =>
          calls_of h = [] /\ findChannel channels channel = true /\ channel = q_channel q /\
          exists currency no booked payload, qr_booked currency no booked payload h /\ op = ChCreateQr payload
      | Post s => keyed (q_key q) s
      | Claim => False
      | Answer r c => qr_answer h r c
      | Draw _ => True
      end
  end.

(** ** Facts that histories keep *)

Lemma qr_taken_cons no booked result ev h : qr_taken no booked result h -> qr_taken no booked result (ev :: h).
Proof. intros [H ?]. split; [by apply earlier_cons | done]. Qed.

Lemma qr_refused_cons no ev h : qr_refused no h -> qr_refused no (ev :: h).
Proof. intros (b & r & t & e & H & ?). exists b, r, t, e. split; [by apply earlier_cons | done]. Qed.

Lemma qr_answer_cons h r c R (e : io R) a : qr_answer h r c -> qr_answer (Event (Io e) a :: h) r c.
Proof.
  intros [Ha Hs]. split; [done |]. intros Hc.
  destruct (Hs Hc) as [(no & b & result & H)|H]; [left; exists no, b, result; by apply qr_taken_cons | right].
  by apply replayed_cons.
Qed.

Lemma qr_failure h r c : answers_of h = [] -> c <> 0 -> qr_answer h r c.
Proof. by split. Qed.

Lemma reuse_same currency existing : reuseProblem q currency existing = None -> same_charge currency existing.
Proof.
  unfold reuseProblem. intros H.
  destruct (_ || _) eqn:E1; [done |]. destruct (sameAmount _ _) eqn:E2; [|done].
  destruct (String.eqb (o_currency _) _) eqn:E3; [|done]. destruct (String.eqb (o_channel _) _) eqn:E4; [|done].
  destruct (o_user existing =? _) eqn:E5; [|done]. breflect. destruct E1 as [[? ?] ?]. by split.
Qed.
End Guarantee.

(** ** The guarantee, method by method *)

Section Walk.
Context `{J : JsonLib} (sha256 : string -> string).
Context (channels : list string) (redis : bool) (ttlSeconds : Z) (utc_offset : Z -> Z).
Context (q : qr_request).
Abbreviation trace := (list (event svc)).
Abbreviation guarantee := (qr_guarantee sha256 channels utc_offset q).
Abbreviation ok := (safe any_answer guarantee answered_once).
Abbreviation may_answer := (qr_answer sha256 utc_offset q).
Abbreviation taken := (qr_taken utc_offset q).
Abbreviation said := (qr_said utc_offset q).
Context (callback : json -> Z -> prog svc) (Hcb : forall r c h, may_answer h r c -> ok (callback r c) h).

Lemma qr_keyed h R (s : stmt R) a : keyed (q_key q) s -> guarantee h (main s a).
Proof. by destruct s. Qed.

Lemma qr_refuse_ok code m h : answers_of h = [] -> code <> 0 -> ok (refuse callback code m) h.
Proof. intros. by apply Hcb, qr_failure. Qed.

Lemma dropAndRefuse_ok code m h :
  answers_of h = [] -> code <> 0 -> ok (dropAndRefuse sha256 q callback code m) h.
Proof.
  intros Ha Hc. unfold dropAndRefuse. destruct (is_empty (q_key q)); [by apply qr_refuse_ok |].
  intros a _. split; [done |]. by apply qr_refuse_ok.
Qed.

Lemma failQr_ok code m extra h :
  answers_of h = [] -> code <> 0 -> ok (failQr sha256 q callback code m extra) h.
Proof.
  intros Ha Hc. unfold failQr. eapply clearing with (may := may_answer);
    [exact qr_keyed | intros; by apply qr_answer_cons | exact Hcb |].
  apply qr_failure; [done |]. by destruct (_ && _).
Qed.

Section Offer.
Context (no booked : string).

Lemma respondQr_ok result data h :
  taken no booked result h -> answers_of h = [] -> ok (respondQr sha256 redis ttlSeconds q callback data) h.
Proof.
  intros Ht Ha. eapply storing with (may := may_answer);
    [exact qr_keyed | done | intros; by apply qr_answer_cons | exact Hcb |].
  split; [done |]. intros _. left. by exists no, booked, result.
Qed.

Lemma promoteQrOrder_ok result payload n data h :
  taken no booked result h -> In (main (AdvancePayment no "PROCESSING" payload) (Ok n)) h -> n <> 0 ->
  answers_of h = [] -> ok (promoteQrOrder sha256 redis ttlSeconds q callback booked data) h.
Proof.
  intros Ht Hi Hn Ha a _. split; [split; [done |]; by exists no, result, payload, n |].
  destruct a; apply (respondQr_ok result); (done || by apply qr_taken_cons).
Qed.

Lemma promoteQrRows_ok result data h :
  taken no booked result h -> answers_of h = [] ->
  ok (promoteQrRows sha256 redis ttlSeconds q callback no booked result data) h.
Proof.
  intros Ht Ha a _. split; [left; split; [done |]; by exists booked, result |].
  destruct a as [n|e|w]; try (apply (respondQr_ok result); (done || by apply qr_taken_cons)).
  destruct (Z.eqb_spec n 0) as [->|Hn]; [apply (respondQr_ok result); (done || by apply qr_taken_cons) |].
  eapply promoteQrOrder_ok; [by apply qr_taken_cons | by left | done..].
Qed.

Lemma failAttempt_ok result transportError error m extra h :
  said no booked result transportError h ->
  (if is_empty transportError then channelResultError (q_channel q) result else Some transportError) = Some error ->
  error <> "" -> answers_of h = [] -> ok (failAttempt sha256 q callback no error m extra) h.
Proof.
  intros Hs He Hne Ha. unfold failAttempt. destruct (attemptCertainlyNotCreated error) eqn:Ec; [|by apply failQr_ok].
  intros a _. split; [right; split; [done |]; by exists booked, result, transportError, error |].
  destruct a; by apply failQr_ok.
Qed.

Lemma onQrAnswer_ok result error h :
  said no booked result error h -> answers_of h = [] ->
  ok (onQrAnswer sha256 redis ttlSeconds q callback no booked result error) h.
Proof.
  intros Hs Ha. unfold onQrAnswer. destruct (is_empty error) eqn:Ee; simpl negb; cbv iota.
  2: { eapply failAttempt_ok; [done | by rewrite Ee | by intros -> | done]. }
  apply is_empty_true in Ee as ->. destruct (channelResultError (q_channel q) result) as [e|] eqn:Ec; [|done].
  simpl try_. destruct (is_empty e) eqn:Ee; simpl negb; cbv iota.
  - apply is_empty_true in Ee as ->. destruct (qrData q result); [|done]. by apply promoteQrRows_ok.
  - destruct (errorCodes q result); [|done]. eapply failAttempt_ok; [done | done | by intros -> | done].
Qed.

Lemma offerQrChannel_ok currency payload h :
  findChannel channels (q_channel q) = true -> qr_booked utc_offset q currency no booked payload h -> silent h ->
  ok (offerQrChannel sha256 redis ttlSeconds q callback payload no booked) h.
Proof.
  intros Hf Hb [Ha Hq] a _. split; [split; [done | split; [done | split; [done |]]]; by exists currency, no, booked, payload |].
  destruct a as [result error|]; [|done]. apply onQrAnswer_ok; [|done].
  apply earlier_now. by exists currency, payload, h.
Qed.

(** *** Booking *)

Lemma bookQrPayment_ok currency payload h :
  findChannel channels (q_channel q) = true -> normalizeQrCurrency (q_requestedCurrency q) = Some currency ->
  qrPayload q currency = inr payload -> qr_order q currency booked h -> earlier (generated utc_offset no) h ->
  silent h -> ok (bookQrPayment sha256 redis ttlSeconds q callback payload no booked) h.
Proof.
  intros Hf Hn Hp Ho Hg [Ha Hq] now _. split; [done |]. intros a _. split.
  - exists currency, booked, payload, h. by repeat split.
  - destruct a as [[]|e|w]; [|by apply failQr_ok..]. apply (offerQrChannel_ok currency); [done | | done].
    split; [done | split; [done |]]. exists now, h. by repeat split.
Qed.
End Offer.

Lemma probeQrOrder_ok no currency payload h :
  findChannel channels (q_channel q) = true -> normalizeQrCurrency (q_requestedCurrency q) = Some currency ->
  qrPayload q currency = inr payload -> generated utc_offset no h -> silent h ->
  ok (probeQrOrder sha256 redis ttlSeconds q callback currency payload no) h.
Proof.
  intros Hf Hn Hp Hg [Ha Hq] a _. split; [done |].
  destruct a as [[|existing rows]|e|w]; [| |by apply failQr_ok..].
  - intros b _. split; [by exists currency, h |]. destruct b as [[]|e|w]; [|by apply failQr_ok..].
    eapply bookQrPayment_ok; [done | done | done | | by do 2 apply earlier_cons; apply earlier_now | done].
    left. split; [done |]. by exists h.
  - destruct (reuseProblem q currency existing) as [m|] eqn:Er; [by apply failQr_ok |].
    intros b _. split; [done |]. destruct b as [[|row more]|e|w]; [|by apply failQr_ok..].
    eapply bookQrPayment_ok; [done | done | done | | by do 2 apply earlier_cons; apply earlier_now | done].
    right. exists existing, rows, h. split; [done |]. split; [by apply reuse_same | done].
Qed.

(** *** The request *)

Lemma startQr_ok h : silent h -> ok (startQr sha256 channels redis ttlSeconds utc_offset q callback) h.
Proof.
  intros Hs. pose proof Hs as [Ha Hq]. unfold startQr.
  destruct (normalizeQrCurrency (q_requestedCurrency q)) as [currency|] eqn:En; [|by apply dropAndRefuse_ok].
  assert (Hk : forall h', silent h' -> ok
    (match qrPayload q currency with
     | inl message => dropAndRefuse sha256 q callback 400 message
     | inr payload =>
         if negb (findChannel channels (q_channel q))
         then dropAndRefuse sha256 q callback 1005 ("CHANNEL_NOT_AVAILABLE: " +:+ q_channel q)
         else generatePaymentNoValue utc_offset (fun no =>
                probeQrOrder sha256 redis ttlSeconds q callback currency payload no)
     end) h').
  { intros h' [Ha' Hq']. destruct (qrPayload q currency) as [m|payload] eqn:Ep; [by apply dropAndRefuse_ok |].
    destruct (findChannel channels (q_channel q)) eqn:Ef; simpl negb; cbv iota; [|by apply dropAndRefuse_ok].
    intros now _. split; [done |]. intros drawn _. split; [done |].
    apply probeQrOrder_ok; [done.. | | done].
    exists now, drawn. split; [right; by left | split; [by left | done]]. }
  unfold checkTimeExpire. destruct (is_empty (q_timeExpire q)); [by apply Hk |].
  intros now _. split; [done |]. destruct (validateTimeExpire _ _ _); [by apply dropAndRefuse_ok | by apply Hk].
Qed.

Lemma serveQr_ok h : silent h -> ok (serveQr sha256 channels redis ttlSeconds utc_offset q callback) h.
Proof.
  intros Hs. apply checking; [exact qr_keyed | done | done | |].
  - intros r h' [Ha Hq] Hr. destruct (status r); [by apply startQr_ok | done | by apply qr_refuse_ok..].
  - intros r h' [Ha Hq] -> Hr. apply Hcb. split; [done |]. intros _. by right.
Qed.
End Walk.

(** ** Theorems *)

Section Claims.
Context `{J : JsonLib} (sha256 : string -> string).
Context (channels : list string) (redis : bool) (ttlSeconds : Z) (utc_offset : Z -> Z).

(** A refusal before the request is known, or what [qr_guarantee] says of it. *)
Definition request_guarantee (request : json) (h : list (event svc)) (ev : event svc) : Prop :=
  (exists q, qr_of request = Some q /\ qr_guarantee sha256 channels utc_offset q h ev) \/
  (exists r c, ev = Event (Answer r c) tt /\ c <> 0 /\ answers_of h = []).

Abbreviation ok request := (safe any_answer (request_guarantee request) answered_once).

Lemma early_refusal request code m h :
  answers_of h = [] -> code <> 0 -> ok request (refuse answerCaller code m) h.
Proof. intros Ha Hc [] _. split; [right; by repeat eexists | simpl; by rewrite Ha]. Qed.

Lemma createQRPayment_ok dbClient request :
  ok request (createQRPayment sha256 channels redis ttlSeconds utc_offset dbClient request answerCaller) [].
Proof.
  unfold createQRPayment. destruct dbClient; simpl negb; cbv iota; [|by apply early_refusal].
  destruct (get_string request "order_no") as [no|] eqn:E1; [|done]. simpl try_.
  destruct (get_string request "amount") as [amount|] eqn:E2; [|done]. simpl try_.
  destruct (get_text request "channel" "alipay") as [channel|] eqn:E3; [|done]. simpl try_.
  destruct (get_text request "subject" "Payment") as [subject|] eqn:E4; [|done]. simpl try_.
  destruct (get_string request "time_expire") as [expire|] eqn:E5; [|done]. simpl try_.
  destruct (is_empty no || is_empty amount) eqn:Ee; [by apply early_refusal |].
  destruct (qrUserId request) as [user|] eqn:E6; [|done]. simpl try_.
  destruct (user <=? 0) eqn:Eu; [by apply early_refusal |].
  destruct (readQrRequest request no amount channel subject expire user) as [q|] eqn:Eq; [|done]. simpl try_.
  apply (safe_mono any_answer (fun _ => True) (qr_guarantee sha256 channels utc_offset q)); [done | | done |].
  - intros h ev _ Hg. left. exists q. split; [|done].
    unfold qr_of. rewrite E1. simpl. rewrite E2. simpl. rewrite E3. simpl. rewrite E4. simpl. rewrite E5. simpl.
    rewrite E6. simpl. by rewrite Ee, Eu.
  - apply serveQr_ok; [|done]. intros r c h [Ha Hs] x _. split; [by split | simpl; by rewrite Ha].
Qed.

Abbreviation execution dbClient request :=
  (runs (logs any_answer) (createQRPayment sha256 channels redis ttlSeconds utc_offset dbClient request answerCaller) []).

Lemma qr_guaranteed dbClient request o h :
  execution dbClient request o h -> guaranteed (request_guarantee request) h /\ answered_once o h.
Proof.
  intros Hr. apply safe_sound with (Guar := request_guarantee request) (Fin := answered_once) in Hr as [Hg He];
    [|by apply createQRPayment_ok].
  split; [done |]. by destruct o.
Qed.

Lemma qr_calls_once request h :
  guaranteed (request_guarantee request) h -> (List.length (calls_of h) <= 1)%nat.
Proof.
  induction h as [|[R e r] h IH]; simpl; [lia |]. intros [Hg Hh]. specialize (IH Hh).
  destruct e; try done. destruct Hg as [(q & _ & E & _)|(r' & c & [=] & _)]. simpl. by rewrite E.
Qed.

(** C13. Whatever the database and the channels answer, a QR request asks a channel at
    most once, and only the channel it names, for the payload of a request that
    passed every check, after the INIT attempt was inserted under a new payment
    number for an order row that is new, or that was read unpaid with the same
    amount, currency, channel and owner and without a settled payment; and an
    execution that returns has answered exactly once. *)
Theorem qr_called_after_booking dbClient request o h :
  execution dbClient request o h ->
  (List.length (calls_of h) <= 1)%nat /\ answered_once o h /\
  forall h1 channel op a h2, h = (h1 ++ Event (Call channel op) a :: h2)%list ->
    exists q currency no booked payload, qr_of request = Some q /\ channel = q_channel q /\
      op = ChCreateQr payload /\ qr_booked utc_offset q currency no booked payload h2.
Proof.
  intros Hr. apply qr_guaranteed in Hr as [Hg He]. split; [by eapply qr_calls_once | split; [done |]].
  intros h1 channel op a h2 ->. apply guaranteed_at in Hg as [(q & Hq & _ & _ & -> & c & n & b & p & Hb & ->)|(r & c & [=] & _)].
  by exists q, c, n, b, p.
Qed.

(** C32. What a QR request books about the channel's answer is what the channel said:
    PROCESSING and PAYING only for an accepted attempt, FAIL only on an error text
    read as a proof that nothing was created, and no order is failed; a code is
    handed out only for an accepted attempt or as the replay of the answer stored
    for the same request. *)
Theorem qr_outcome_justified dbClient request o h :
  execution dbClient request o h ->
  (forall h1 R (s : stmt R) a h2, h = (h1 ++ main s a :: h2)%list ->
     exists q, qr_of request = Some q /\ qr_main_allowed utc_offset q h2 s) /\
  (forall h1 r h2, h = (h1 ++ Event (Answer r 0) tt :: h2)%list ->
     exists q, qr_of request = Some q /\ qr_answer sha256 utc_offset q h2 r 0).
Proof.
  intros Hr. apply qr_guaranteed in Hr as [Hg _]. split; intros; subst h.
  - apply guaranteed_at in Hg as [(q & Hq & Hg)|(r & c & [=] & _)]. by exists q.
  - apply guaranteed_at in Hg as [(q & Hq & Hg)|(r' & c & E & Hc & _)]; [by exists q |].
    by injection E as _ <-.
Qed.
End Claims.

(** ** Witnesses: the order of a refused creation, offered again *)

Definition qr_body : @json lib0 :=
  Tree.TObject [("order_no", Tree.TString "O1"); ("amount", Tree.TString "12.5"); ("user_id", Tree.TInt 42);
    ("channel", Tree.TString "wechat")].

Definition with_order_no (no : string) (request : @json lib0) : @json lib0 :=
  match request with
  | Tree.TObject members => Tree.TObject (Tree.set_member members "order_no" (Tree.TString no))
  | _ => request
  end.

Definition again : @json lib0 := with_order_no "ORD001" qr_body.

(** The shop with the order of a refused creation. *)
Definition refused_shop : db := fst (CreateRun.create_on (Db [] [] [] [] [] []) new_order
  [@Answered lib0 Tree.TNull "HTTP 400: PARAM_ERROR"]).

Definition qr_program : prog (@svc lib0) :=
  @createQRPayment lib0 shop_md5 ["wechat"] false 60 (fun _ => 28800) true again (@answerCaller lib0).

Definition qr_run : outcome * (list (event (@svc lib0)) * @deployment lib0) :=
  run (recording (@handle_svc lib0 shop_sum shop_time)) qr_program
    ([], @Deployment lib0 (World refused_shop TxNone [] (shop_time + 1000000) "u" [] []) [qr_accepted] [] [] false).

Definition qr_history : list (event (@svc lib0)) := fst (snd qr_run).

Lemma qr_runs : runs (logs any_answer) qr_program [] (fst qr_run) qr_history.
Proof. exact (recorded_runs _ _ _ _ _ (every_answer _)). Qed.

Lemma qr_called_after_booking_witness :
  calls_of qr_history <> [] /\
  (List.length (calls_of qr_history) <= 1)%nat /\ answered_once (fst qr_run) qr_history /\
  forall h1 channel op a h2, qr_history = (h1 ++ Event (Call channel op) a :: h2)%list ->
    exists q currency no booked payload, qr_of again = Some q /\ channel = q_channel q /\
      op = ChCreateQr payload /\ qr_booked (fun _ => 28800) q currency no booked payload h2.
Proof.
  split; [by vm_compute |].
  exact (qr_called_after_booking shop_md5 ["wechat"] false 60 (fun _ => 28800) true again _ _ qr_runs).
Defined.

Lemma qr_outcome_justified_witness :
  map snd (answers_of qr_history) = [0] /\
  (forall h1 R (s : stmt R) a h2, qr_history = (h1 ++ main s a :: h2)%list ->
     exists q, qr_of again = Some q /\ qr_main_allowed (fun _ => 28800) q h2 s) /\
  (forall h1 r h2, qr_history = (h1 ++ Event (Answer r 0) tt :: h2)%list ->
     exists q, qr_of again = Some q /\ qr_answer shop_md5 (fun _ => 28800) q h2 r 0).
Proof.
  split; [by vm_compute |].
  exact (qr_outcome_justified shop_md5 ["wechat"] false 60 (fun _ => 28800) true again _ _ qr_runs).
Defined.

(** A code is offered again on the order of the refused creation: the attempt is
    PROCESSING, but the order stays FAILED. *)
Example offered_order_stays_failed :
  let d := w_main (dp_world (snd (snd qr_run))) in
  map p_status (d_payments d) = ["FAIL"; "PROCESSING"] /\ map o_status (d_orders d) = ["FAILED"].
Proof. vm_compute. split; reflexivity. Qed.
