(* ===== verification/WechatChannel.v ===== *)
(** * The WeChat channel (src/libs/drogon-pay/src/channels/WechatChannel.cc):
    configuration, signed requests, the reading of answers, platform certificates,
    notifications.

    OpenSSL, the file system and the HTTP client are parameters ([Crypto], and the
    [http_result] a request is answered with).  What depends on the moment takes
    [now], the wall clock in seconds.  A function that reports an error text returns
    it in a sum. *)
From stdpp Require Import gmap.
From S2P Require Import Prelude Cxx Json ChannelFields.

(** ** What the channel uses of OpenSSL and the file system *)

(** Where signing fails. *)
Inductive sign_stage := NoBio | NoKey | NoContext | InitFailed | UpdateFailed | SizeFailed | FinalFailed.

(** Where the check of a signature fails. *)
Inductive verify_stage := VNoContext | VInitFailed | VUpdateFailed | VMismatch.

(** Where opening an AES-GCM ciphertext fails. *)
Inductive gcm_stage := GNoContext | GInitFailed | GIvLen | GKeyIv | GAad | GUpdate | GTag | GFinal.

Class Crypto := {
  read_file : Z -> string -> option string;
  base64Encode : string -> string;
  base64Decode : string -> string;
  sign : string -> string -> sign_stage + string;             (* key content, message *)
  x509 : Type;
  read_x509 : string -> option x509;                          (* PEM_read_bio_X509 *)
  cmp_not_before : Z -> x509 -> Z;                            (* X509_cmp_current_time *)
  cmp_not_after : Z -> x509 -> Z;
  serial_text : x509 -> option string;                        (* i2s_ASN1_INTEGER *)
  public_key : Type;
  get_pubkey : x509 -> option public_key;
  digest_verify : public_key -> string -> string -> option verify_stage;  (* message, signature *)
  gcm_open : string -> string -> string -> string -> string -> gcm_stage + string;
    (* key, iv, associated data, text, tag *)
  anchors_in : string -> option nat;    (* the certificates a CA file adds to a new store; None: no store *)
  chain_check : Z -> string -> x509 -> option string  (* CA file, leaf: the objection of X509_verify_cert *)
}.

(** ** Helpers *)

Definition to_upper_char (c : ascii) : ascii :=
  if (97 <=? code c) && (code c <=? 122) then ascii_of_N (Z.to_N (code c - 32)) else c.

Fixpoint drop_zeros (s : string) : string :=
  match s with
  | EmptyString => EmptyString
  | String c s' => if Ascii.eqb c "0" then drop_zeros s' else s
  end.

Definition normalizeSerialHex (raw : string) : string :=
  let stripped := drop_zeros (map_string to_upper_char raw) in
  if is_empty stripped then "0" else stripped.

Definition is_newline (c : ascii) : bool := mem_char (String "010" (String "013" "")) c.

(** Without the newlines at the end. *)
Fixpoint trim_newlines (s : string) : string :=
  match s with
  | EmptyString => EmptyString
  | String c s' => let t := trim_newlines s' in if is_empty t && is_newline c then "" else String c t
  end.

Definition kMaxDetail : nat := 200.

Definition httpFailureText (status : Z) (detail : string) : string :=
  let trimmed :=
    if (kMaxDetail <? String.length detail)%nat then String.substring 0 kMaxDetail detail +:+ "..." else detail in
  "HTTP " +:+ to_string status +:+ ": " +:+ trim_newlines trimmed.

Definition isPlaceholder (value : string) : bool := is_empty value || String.prefix "__env_var:" value.

(** ** Configuration *)

Record wechat_config := WechatConfig {
  w_appId : string;
  w_mchId : string;
  w_serialNo : string;
  w_apiV3Key : string;
  w_privateKeyPath : string;
  w_platformCertPath : string;
  w_platformCaCertPath : string;
  w_apiBase : string;
  w_notifyUrl : string;
  w_certInterval : Z;       (* certDownloadMinIntervalSeconds_ *)
  w_timeoutMs : Z
}.

Definition isConfigured (c : wechat_config) : bool :=
  negb (isPlaceholder (w_appId c) || isPlaceholder (w_mchId c) || isPlaceholder (w_serialNo c)
        || isPlaceholder (w_apiV3Key c) || isPlaceholder (w_privateKeyPath c)).

(** ** Requests and answers *)

Record http_request := HttpRequest {
  hr_method : string;
  hr_path : string;
  hr_body : string;
  hr_auth : string
}.

Record http_response := HttpResponse {
  hs_status : Z;
  hs_header : string -> string;
  hs_body : string
}.

(** What drogon's client answers: a timeout, no usable response, or one. *)
Inductive http_result := TimedOut | NoResponse | Received (r : http_response).

(** [platformCerts_]: PEM texts by normalized serial. *)
Abbreviation cert_cache := (gmap string string).

Section Channel.
Context `{J : JsonLib} `{C : Crypto}.

Definition get_or (j : json) (key fallback : string) : option string :=
  v ← get j key (of_string fallback); asString v.

(** [asInt]: throws outside of [int]. *)
Definition get_int (j : json) (key : string) (fallback : Z) : option Z :=
  v ← get j key (of_int fallback);
  z ← asInt64 v;
  if (- 2 ^ 31 <=? z) && (z <? 2 ^ 31) then Some z else None.

(** The constructor; [None] when an accessor throws. *)
Definition configure (config : json) : option wechat_config :=
  appId ← get_string config "app_id";
  mchId ← get_string config "mch_id";
  serialNo ← get_string config "serial_no";
  apiV3Key ← get_string config "api_v3_key";
  privateKeyPath ← get_string config "private_key_path";
  platformCertPath ← get_string config "platform_cert_path";
  platformCaCertPath ← get_string config "platform_ca_cert_path";
  apiBase ← get_or config "api_base" "https://api.mch.weixin.qq.com";
  notifyUrl ← get_string config "notify_url";
  interval ← get_int config "cert_download_min_interval_seconds" 300;
  timeoutMs ← get_int config "timeout_ms" 5000;
  Some (WechatConfig appId mchId serialNo apiV3Key privateKeyPath platformCertPath platformCaCertPath
          apiBase notifyUrl (if interval <? 1 then 1 else interval) (if timeoutMs <? 0 then 0 else timeoutMs)).

(** ** Signing *)

Definition sign_text (stage : sign_stage) : string :=
  match stage with
  | NoBio => "failed to create BIO for private key"
  | NoKey => "failed to load private key"
  | NoContext => "failed to create EVP_MD_CTX"
  | InitFailed => "EVP_DigestSignInit failed"
  | UpdateFailed => "EVP_DigestSignUpdate failed"
  | SizeFailed => "EVP_DigestSignFinal size failed"
  | FinalFailed => "EVP_DigestSignFinal failed"
  end.

Definition readFile (now : Z) (path : string) : string + string :=
  match read_file now path with
  | None => inl ("failed to open file: " +:+ path)
  | Some content => inr content
  end.

Definition signMessage (now : Z) (message privateKeyPath : string) : string + string :=
  match readFile now privateKeyPath with
  | inl e => inl e
  | inr keyContent =>
      match sign keyContent message with
      | inl stage => inl (sign_text stage)
      | inr signature => inr (base64Encode signature)
      end
  end.

Definition newline : string := String "010" "".
Definition quote : string := String "034" "".

Definition buildAuthorizationHeader (c : wechat_config) (now : Z) (method url body nonce : string) :
    string + string :=
  if is_empty (w_mchId c) || is_empty (w_serialNo c) || is_empty (w_privateKeyPath c)
  then inl "wechat pay config missing mch_id/serial_no/private_key_path"
  else
    let timestamp := to_string now in
    let message := method +:+ newline +:+ url +:+ newline +:+ timestamp +:+ newline +:+ nonce +:+ newline
                     +:+ body +:+ newline in
    match signMessage now message (w_privateKeyPath c) with
    | inl e => inl e
    | inr signatureB64 =>
        inr ("WECHATPAY2-SHA256-RSA2048 mchid=" +:+ quote +:+ w_mchId c +:+ quote +:+ ",nonce_str=" +:+ quote
               +:+ nonce +:+ quote +:+ ",timestamp=" +:+ quote +:+ timestamp +:+ quote +:+ ",serial_no=" +:+ quote
               +:+ w_serialNo c +:+ quote +:+ ",signature=" +:+ quote +:+ signatureB64 +:+ quote)
    end.

(** Sign and send. *)
Definition signed (c : wechat_config) (now : Z) (method path body nonce : string) : string + http_request :=
  match buildAuthorizationHeader c now method path body nonce with
  | inl e => inl e
  | inr auth => inr (HttpRequest method path body auth)
  end.

(** ** The requests

    [None]: an accessor of the payload throws; [inl e]: the callback gets the error
    [e] and nothing is sent. *)

(** [if (request.get(key, "").asString().empty()) request[key] = value] *)
Definition set_default (request : json) (key value : string) : option json :=
  current ← get_string request key;
  if is_empty current then jset request key (of_string value) else Some request.

Definition createTransactionNative (c : wechat_config) (payload : json) (now : Z) (nonce : string) :
    option (string + http_request) :=
  request ← set_default payload "appid" (w_appId c);
  request ← set_default request "mchid" (w_mchId c);
  request ← set_default request "notify_url" (w_notifyUrl c);
  appid ← get_string request "appid";
  mchid ← get_string request "mchid";
  notifyUrl ← get_string request "notify_url";
  Some (if is_empty appid || is_empty mchid || is_empty notifyUrl
        then inl "missing appid/mchid/notify_url"
        else signed c now "POST" "/v3/pay/transactions/native" (toJsonString request) nonce).

Definition queryTransaction (c : wechat_config) (orderNo : string) (now : Z) (nonce : string) : string + http_request :=
  if is_empty orderNo then inl "missing orderNo"
  else if is_empty (w_mchId c) then inl "missing mch_id"
  else
    signed c now "GET" ("/v3/pay/transactions/out-trade-no/" +:+ urlEncodePathSegment orderNo +:+ "?mchid="
                      +:+ urlEncodePathSegment (w_mchId c)) "" nonce.

Definition closeTransaction (c : wechat_config) (orderNo : string) (now : Z) (nonce : string) : string + http_request :=
  if is_empty orderNo then inl "missing orderNo"
  else if is_empty (w_mchId c) then inl "missing mch_id"
  else
    signed c now "POST" ("/v3/pay/transactions/out-trade-no/" +:+ urlEncodePathSegment orderNo +:+ "/close")
      (toJsonString (of_object [("mchid", of_string (w_mchId c))])) nonce.

Definition refund (c : wechat_config) (payload : json) (now : Z) (nonce : string) : option (string + http_request) :=
  request ← set_default payload "notify_url" (w_notifyUrl c);
  Some (signed c now "POST" "/v3/refund/domestic/refunds" (toJsonString request) nonce).

Definition queryRefund (c : wechat_config) (refundNo : string) (now : Z) (nonce : string) : string + http_request :=
  if is_empty refundNo then inl "missing refundNo"
  else signed c now "GET" ("/v3/refund/domestic/refunds/" +:+ urlEncodePathSegment refundNo) "" nonce.

(** ** The answers

    What [sendWechatRequest] passes to the callback: a result and an error text;
    [verify] is the answer verifier, [Some e] its objection; [leftover] is what a
    failed parse leaves in the value. *)
Definition onAnswer (leftover : string -> json) (verify : option (http_response -> option string))
    (timeoutMs : Z) (result : http_result) :
    option (json * string) :=
  match result with
  | TimedOut => Some (jnull, "http request timed out after " +:+ to_string timeoutMs +:+ "ms")
  | NoResponse => Some (jnull, "http request failed")
  | Received resp =>
      match match verify with Some v => v resp | None => None end with
      | Some verifyError => Some (jnull, "response signature verification failed: " +:+ verifyError)
      | None =>
          let status := hs_status resp in
          if status =? 204 then Some (of_object [], "")
          else if (status <? 200) || (300 <=? status) then
            match jparse (hs_body resp) with
            | None => Some (leftover (hs_body resp), httpFailureText status "no error envelope")
            | Some bodyJson =>
                code ← get_string bodyJson "code";
                message ← get_string bodyJson "message";
                let detail := code +:+ " " +:+ message in
                Some (bodyJson, httpFailureText status
                        (if is_empty detail || String.eqb detail " " then "no error envelope" else detail))
            end
          else
            match jparse (hs_body resp) with
            | None => Some (leftover (hs_body resp), "invalid json response")
            | Some bodyJson => Some (bodyJson, "")
            end
      end
  end.

(** ** Platform certificates *)

Definition parseCert (content : string) : option x509 :=
  if is_empty content then None else read_x509 content.

Definition certificateSerialHex (content : string) : string :=
  match parseCert content with
  | None => ""
  | Some cert => match serial_text cert with None => "" | Some hex => normalizeSerialHex hex end
  end.

(** [Some e]: the certificate is not valid now. *)
Definition validityError (now : Z) (cert : x509) : option string :=
  if 0 <=? cmp_not_before now cert then Some "certificate not yet valid"
  else if cmp_not_after now cert <=? 0 then Some "certificate has expired"
  else None.

Definition verify_text (stage : verify_stage) : string :=
  match stage with
  | VNoContext => "failed to create EVP_MD_CTX"
  | VInitFailed => "EVP_DigestVerifyInit failed"
  | VUpdateFailed => "EVP_DigestVerifyUpdate failed"
  | VMismatch => "signature verify failed"
  end.

(** [None]: the signature is good. *)
Definition verifyMessageWithCert (now : Z) (message signatureB64 certContent : string) : option string :=
  if is_empty certContent then Some "empty certificate content"
  else
    match parseCert certContent with
    | None => Some "failed to load platform cert from content"
    | Some cert =>
        match validityError now cert with
        | Some e => Some ("platform cert " +:+ e)
        | None =>
            match get_pubkey cert with
            | None => Some "failed to extract public key"
            | Some pkey =>
                let signature := base64Decode signatureB64 in
                if is_empty signature then Some "failed to decode signature"
                else verify_text <$> digest_verify pkey message signature
            end
        end
    end.

(** [Some e]: the certificate is not anchored. *)
Definition chainsToConfiguredAnchors (now : Z) (certPem caPath : string) : option string :=
  if is_empty caPath then None
  else
    match readFile now caPath with
    | inl e => Some ("cannot read platform_ca_cert_path: " +:+ e)
    | inr caPem =>
        match anchors_in caPem with
        | None => Some "failed to create X509_STORE"
        | Some O => Some "platform_ca_cert_path holds no readable certificate"
        | Some (S _) =>
            match parseCert certPem with
            | None => Some "platform cert does not parse"
            | Some leaf => chain_check now caPem leaf
            end
        end
    end.

Definition getPlatformCert (cache : cert_cache) (serialNo : string) : string :=
  default "" (cache !! normalizeSerialHex serialNo).

(** Whether the certificate was cached, and the cache. *)
Definition setPlatformCert (c : wechat_config) (now : Z) (cache : cert_cache) (serialNo certContent : string) :
    bool * cert_cache :=
  if is_empty serialNo then (false, cache)
  else
    match parseCert certContent with
    | None => (false, cache)
    | Some cert =>
        let actualSerial := match serial_text cert with Some raw => normalizeSerialHex raw | None => "" end in
        match validityError now cert with
        | Some _ => (false, cache)
        | None =>
            if is_empty actualSerial || negb (String.eqb actualSerial (normalizeSerialHex serialNo))
            then (false, cache)
            else
              match chainsToConfiguredAnchors now certContent (w_platformCaCertPath c) with
              | Some _ => (false, cache)
              | None => (true, <[actualSerial := certContent]> cache)
              end
        end
    end.

(** The certificate [serialNo] names, or an error and whether a download of the
    current certificates is started. *)
Definition resolveTrustedPlatformCert (c : wechat_config) (now : Z) (cache : cert_cache) (serialNo : string) :
    (string * bool) + string :=
  if is_empty serialNo then inl ("missing Wechatpay-Serial", false)
  else if 64 <? slen serialNo then inl ("Wechatpay-Serial too long", false)
  else
    let found (certContent : string) :=
      if is_empty certContent then inl ("no trusted platform certificate for serial: " +:+ serialNo, true)
      else inr certContent in
    let certContent := getPlatformCert cache serialNo in
    if is_empty certContent && negb (is_empty (w_platformCertPath c)) then
      match readFile now (w_platformCertPath c) with
      | inl e => inl ("failed to read static cert: " +:+ e, false)
      | inr staticCert =>
          found (if String.eqb (certificateSerialHex staticCert) (normalizeSerialHex serialNo)
                 then staticCert else certContent)
      end
    else found certContent.

Definition signedText (timestamp nonce body : string) : string :=
  timestamp +:+ newline +:+ nonce +:+ newline +:+ body +:+ newline.

(** [None]: the notification is signed; and whether a download is started. *)
Definition verifyCallback (c : wechat_config) (now : Z) (cache : cert_cache)
    (timestamp nonce body signature serialNo : string) : option string * bool :=
  match resolveTrustedPlatformCert c now cache serialNo with
  | inl (e, download) => (Some e, download)
  | inr certContent => (verifyMessageWithCert now (signedText timestamp nonce body) signature certContent, false)
  end.

(** The same for an answer. *)
Definition verifyResponse (c : wechat_config) (now : Z) (cache : cert_cache) (resp : http_response) :
    option string * bool :=
  let timestamp := hs_header resp "Wechatpay-Timestamp" in
  let nonce := hs_header resp "Wechatpay-Nonce" in
  let signature := hs_header resp "Wechatpay-Signature" in
  let serialNo := hs_header resp "Wechatpay-Serial" in
  if is_empty timestamp || is_empty nonce || is_empty signature
  then (Some "missing Wechatpay-Timestamp/Nonce/Signature answer headers", false)
  else
    match resolveTrustedPlatformCert c now cache serialNo with
    | inl (e, download) => (Some e, download)
    | inr certContent =>
        (verifyMessageWithCert now (signedText timestamp nonce (hs_body resp)) signature certContent, false)
    end.

(** The verifier bound to a client: [pinned] when a shared pointer owns it,
    [alive] when it still does. *)
Definition answerVerifier (c : wechat_config) (now : Z) (cache : cert_cache) (pinned alive : bool)
    (resp : http_response) : option string * bool :=
  if pinned && negb alive then (Some "wechat client destroyed before the answer was verified", false)
  else verifyResponse c now cache resp.

(** ** Encrypted resources *)

Definition gcm_text (stage : gcm_stage) : string :=
  match stage with
  | GNoContext => "failed to create cipher ctx"
  | GInitFailed => "EVP_DecryptInit_ex failed"
  | GIvLen => "set iv len failed"
  | GKeyIv => "set key/iv failed"
  | GAad => "set aad failed"
  | GUpdate => "decrypt update failed"
  | GTag => "set tag failed"
  | GFinal => "decrypt final failed"
  end.

Definition decryptAesGcm (ciphertextB64 nonce aad apiV3Key : string) : string + string :=
  if negb (slen apiV3Key =? 32) then inl "api_v3_key must be 32 bytes"
  else
    let ciphertext := base64Decode ciphertextB64 in
    if slen ciphertext <? 16 then inl "ciphertext too short"
    else if negb (slen nonce =? 12) then inl "nonce must be 12 bytes"
    else
      let textLen := (String.length ciphertext - 16)%nat in
      match gcm_open apiV3Key nonce aad (String.substring 0 textLen ciphertext)
              (String.substring textLen 16 ciphertext) with
      | inl stage => inl (gcm_text stage)
      | inr plaintext => inr plaintext
      end.

Definition decryptResource (c : wechat_config) (ciphertext nonce associatedData : string) : string + string :=
  if is_empty (w_apiV3Key c) then inl "api_v3_key is not configured"
  else decryptAesGcm ciphertext nonce associatedData (w_apiV3Key c).

(** ** The refresh of the platform certificates *)

(** What a client keeps: the cache, and the steady clock (in nanoseconds) of the
    last download, 0 when there was none. *)
Record client_state := ClientState {
  cs_cache : cert_cache;
  cs_lastDownload : Z
}.

(** An error for the callback, or the request that is sent; [steady] is
    [steady_clock::now()]. *)
Definition downloadCertificates (c : wechat_config) (now steady : Z) (nonce : string) (s : client_state) :
    (string + http_request) * client_state :=
  match signed c now "GET" "/v3/certificates" "" nonce with
  | inl e => (inl e, s)
  | inr request =>
      if (0 <? w_certInterval c) && negb (cs_lastDownload s =? 0)
         && (Z.quot (steady - cs_lastDownload s) 1000000000 <? w_certInterval c)
      then (inl "certificate download throttled", s)
      else (inr request, if 0 <? w_certInterval c then ClientState (cs_cache s) steady else s)
  end.

(** Decrypt and cache one certificate of the answer: whether it was cached;
    [None] when an accessor throws. *)
Definition installCertificate (c : wechat_config) (now : Z) (cache : cert_cache) (certNode : json) :
    option (bool * cert_cache) :=
  serialNo ← get_string certNode "serial_no";
  encNode ← index certNode "encrypt_certificate";
  if is_empty serialNo || isNull encNode then Some (false, cache)
  else
    ciphertext ← get_string encNode "ciphertext";
    nonceStr ← get_string encNode "nonce";
    associatedData ← get_string encNode "associated_data";
    Some match decryptResource c ciphertext nonceStr associatedData with
         | inl _ => (false, cache)
         | inr plaintext => setPlatformCert c now cache serialNo plaintext
         end.

(** The loop over the answer: the number of certificates cached ([None]: an
    exception ended it) and the cache. *)
Fixpoint installAll (c : wechat_config) (now : Z) (cache : cert_cache) (nodes : list json) (installed : nat) :
    option nat * cert_cache :=
  match nodes with
  | [] => (Some installed, cache)
  | certNode :: nodes' =>
      match installCertificate c now cache certNode with
      | None => (None, cache)
      | Some (ok, cache') => installAll c now cache' nodes' (if ok then S installed else installed)
      end
  end.

(** The callback of the download: the error text it passes on ([None]: an
    exception) and the cache. *)
Definition onCertificates (c : wechat_config) (now : Z) (alive : bool) (cache : cert_cache) (result : json)
    (err : string) : option string * cert_cache :=
  if negb alive then (Some "wechat client destroyed before certificate response", cache)
  else if negb (is_empty err) then (Some err, cache)
  else
    match isMember result "data" with
    | None => (None, cache)
    | Some false => (Some "invalid certificate response format", cache)
    | Some true =>
        match index result "data" with
        | None => (None, cache)
        | Some data =>
            if negb (isArray data) then (Some "invalid certificate response format", cache)
            else
              match installAll c now cache (elements data) 0 with
              | (None, cache') => (None, cache')
              | (Some O, cache') => (Some "no platform certificate passed validation", cache')
              | (Some (S _), cache') => (Some "", cache')
              end
        end
    end.

(** ** The PaymentChannel interface *)

(** [CallbackEvent] (include/drogon_pay/PaymentChannel.h) *)
Record callback_event := CallbackEvent {
  ev_channel : string;
  ev_orderNo : string;
  ev_channelTxnId : string;
  ev_tradeStatus : string;
  ev_paid : bool;
  ev_amountTotal : Z;
  ev_rawPayload : string;
  ev_payload : json
}.

(** [event.amountTotal], which stays 0 without an amount object. *)
Definition resource_total (resource : json) : option Z :=
  hasAmount ← isMember resource "amount";
  if negb hasAmount then Some 0
  else
    amount ← index resource "amount";
    if isObject amount then get_int64 amount "total" else Some 0.

(** The event of a decrypted notification. *)
Definition eventOf (eventType plaintext body : string) (resource bodyJson : json) : option callback_event :=
  orderNo ← get_string resource "out_trade_no";
  channelTxnId ← get_string resource "transaction_id";
  tradeStatus ← get_or resource "trade_state" eventType;
  amountTotal ← resource_total resource;
  payload ← jset (if isNull resource then bodyJson else resource) "event_type" (of_string eventType);
  Some (CallbackEvent "wechat" orderNo channelTxnId tradeStatus (String.eqb eventType "TRANSACTION.SUCCESS")
          amountTotal (if is_empty plaintext then body else plaintext) payload).

(** [verifyCallback(req, event, error)], given the headers and the body; [errors]
    is the text of the parser.  [None] when an accessor throws. *)
Definition readCallback (c : wechat_config) (now : Z) (cache : cert_cache) (header : string -> string)
    (body : string) (errors : string -> string) : option (string + callback_event) :=
  let signature := header "Wechatpay-Signature" in
  let timestamp := header "Wechatpay-Timestamp" in
  let nonce := header "Wechatpay-Nonce" in
  let serialNo := header "Wechatpay-Serial" in
  if is_empty signature || is_empty timestamp || is_empty nonce
  then Some (inl "missing Wechatpay-Signature/Timestamp/Nonce headers")
  else
    match fst (verifyCallback c now cache timestamp nonce body signature serialNo) with
    | Some e => Some (inl e)
    | None =>
        match jparse body with
        | None => Some (inl ("invalid JSON body: " +:+ errors body))
        | Some bodyJson =>
            eventType ← get_string bodyJson "event_type";
            hasResource ← isMember bodyJson "resource";
            res ← (if hasResource : bool then index bodyJson "resource" else Some jnull);
            if negb (hasResource && isObject res)
            then Some (inl "notification body has no resource object")
            else
              ciphertext ← get_string res "ciphertext";
              resNonce ← get_string res "nonce";
              associatedData ← get_string res "associated_data";
              match decryptResource c ciphertext resNonce associatedData with
              | inl e => Some (inl ("resource decrypt failed: " +:+ e))
              | inr plaintext =>
                  match jparse plaintext with
                  | None => Some (inl ("decrypted resource is not valid JSON: " +:+ errors plaintext))
                  | Some resource => inr <$> eventOf eventType plaintext body resource bodyJson
                  end
              end
        end
    end.
End Channel.
