(* ===== verification/WechatTrust.v ===== *)
(** * What the WeChat channel trusts (WechatChannel.v): the certificates of the
    cache, the notifications and answers it accepts, the spacing of its downloads. *)
From stdpp Require Import gmap.
From S2P Require Import Prelude Cxx Json ChannelFields WechatChannel.

Section Trust.
Context `{J : JsonLib} `{C : Crypto} (c : wechat_config).

(** ** The life of a client *)

(** What a step did: it ran [downloadCertificates] at a steady clock, with this
    outcome, or it stored certificates. *)
Inductive client_label := Asked (steady : Z) (r : string + http_request) | Stored.

(** The certificates of an answer are stored one at a time, so that other threads
    interleave; [setPlatformCert] is also public. *)
Inductive client_step : client_state -> client_label -> client_state -> Prop :=
| step_download now steady nonce s r s' :
    downloadCertificates c now steady nonce s = (r, s') -> client_step s (Asked steady r) s'
| step_install now s certNode ok cache :
    installCertificate c now (cs_cache s) certNode = Some (ok, cache) ->
    client_step s Stored (ClientState cache (cs_lastDownload s))
| step_set now s serialNo certContent ok cache :
    setPlatformCert c now (cs_cache s) serialNo certContent = (ok, cache) ->
    client_step s Stored (ClientState cache (cs_lastDownload s)).

(** A new client, and what has happened to it, newest first. *)
Definition new_client : client_state := ClientState ∅ 0.

Inductive client_run : list client_label -> client_state -> Prop :=
| run_new : client_run [] new_client
| run_step h s l s' : client_run h s -> client_step s l s' -> client_run (l :: h) s'.

(** ** Trust *)

Definition anchored (t : Z) (cert : string) : Prop :=
  chainsToConfiguredAnchors t cert (w_platformCaCertPath c) = None.

(** Why a certificate is trusted at [now]: it passed every check when it was stored,
    or it is the configured one. *)
Inductive trusted (now : Z) (cert : string) : Prop :=
| trusted_stored t x :
    parseCert cert = Some x -> validityError t x = None -> anchored t cert -> trusted now cert
| trusted_static :
    w_platformCertPath c <> "" -> readFile now (w_platformCertPath c) = inr cert -> trusted now cert.

(** [signature] signs [text] under a trusted, currently valid certificate that
    carries the serial of the header. *)
Definition genuine (now : Z) (serialNo text signature : string) : Prop :=
  exists cert x key,
    parseCert cert = Some x /\ certificateSerialHex cert = normalizeSerialHex serialNo /\
    trusted now cert /\ validityError now x = None /\ get_pubkey x = Some key /\
    base64Decode signature <> "" /\ digest_verify key text (base64Decode signature) = None.

(** The invariant of the cache. *)
Definition cache_ok (cache : cert_cache) : Prop :=
  forall serial cert, cache !! serial = Some cert ->
    certificateSerialHex cert = serial /\
    exists t x, parseCert cert = Some x /\ validityError t x = None /\ anchored t cert.

(** ** Lemmas *)

Lemma setPlatformCert_ok now cache serialNo cert ok cache' :
  cache_ok cache -> setPlatformCert c now cache serialNo cert = (ok, cache') -> cache_ok cache'.
Proof.
  unfold setPlatformCert. intros Hc.
  destruct (is_empty serialNo); [by intros [= <- <-] |].
  destruct (parseCert cert) as [x|] eqn:Hx; [|by intros [= <- <-]].
  destruct (validityError now x) eqn:Hv; [by intros [= <- <-] |].
  destruct (_ || _); [by intros [= <- <-] |].
  destruct (chainsToConfiguredAnchors _ _ _) eqn:Ha; intros [= <- <-]; [done |].
  intros serial cert'. rewrite lookup_insert_Some. intros [[<- <-] | [_ H]]; [|by apply Hc].
  split; [by unfold certificateSerialHex; rewrite Hx | by exists now, x].
Qed.

Lemma installCertificate_ok now cache certNode ok cache' :
  cache_ok cache -> installCertificate c now cache certNode = Some (ok, cache') -> cache_ok cache'.
Proof.
  unfold installCertificate. intros Hc H.
  apply bind_Some in H as (serialNo & _ & H). apply bind_Some in H as (enc & _ & H).
  destruct (_ || _); [by injection H as <- <- |].
  do 3 apply bind_Some in H as (? & _ & H). injection H as H.
  destruct (decryptResource _ _ _ _); [by injection H as <- <- |]. by eapply setPlatformCert_ok.
Qed.

Lemma installAll_ok now nodes : forall cache n r cache',
  cache_ok cache -> installAll c now cache nodes n = (r, cache') -> cache_ok cache'.
Proof.
  induction nodes as [|node nodes IH]; intros cache n r cache' Hc H; simpl in H; [by injection H as <- <- |].
  destruct (installCertificate c now cache node) as [[ok cache1]|] eqn:Hi; [|by injection H as <- <-].
  eapply IH; [by eapply installCertificate_ok | exact H].
Qed.

Lemma run_cache_ok h s : client_run h s -> cache_ok (cs_cache s).
Proof.
  induction 1 as [|h s l s' _ IH Hs]; [done |].
  destruct Hs as [now steady nonce s r s' H | now s node ok cache H | now s no cert ok cache H]; simpl in *.
  - unfold downloadCertificates in H. destruct (signed _ _ _ _ _ _); [by injection H as <- <- |].
    destruct (_ && _); [by injection H as <- <- |]. injection H as <- <-. by destruct (0 <? _).
  - by eapply installCertificate_ok.
  - by eapply setPlatformCert_ok.
Qed.

Lemma resolve_trusted now cache serialNo cert :
  cache_ok cache -> resolveTrustedPlatformCert c now cache serialNo = inr cert ->
  certificateSerialHex cert = normalizeSerialHex serialNo /\ trusted now cert.
Proof.
  unfold resolveTrustedPlatformCert, getPlatformCert. intros Hc.
  destruct (is_empty serialNo); [done |]. destruct (64 <? _); [done |].
  destruct (is_empty (default _ _)) eqn:He; simpl.
  - destruct (is_empty (w_platformCertPath c)) eqn:Hp; simpl; [done |].
    destruct (readFile now _) as [|static] eqn:Hf; [done |].
    destruct (String.eqb_spec (certificateSerialHex static) (normalizeSerialHex serialNo)) as [Hs|_];
      [|by rewrite He].
    destruct (is_empty static); [done |]. intros [= <-]. split; [done |]. apply trusted_static; [|done].
    intros Hn. by rewrite Hn in Hp.
  - intros [= <-]. destruct (cache !! _) as [cert|] eqn:Hl; [|done]. simpl.
    destruct (Hc _ _ Hl) as (Hs & t & x & Hx & Hv & Ha). split; [done |]. by eapply trusted_stored.
Qed.

Lemma verify_genuine now cache serialNo cert text signature :
  cache_ok cache -> resolveTrustedPlatformCert c now cache serialNo = inr cert ->
  verifyMessageWithCert now text signature cert = None -> genuine now serialNo text signature.
Proof.
  intros Hc Hr. apply resolve_trusted in Hr as [Hs Ht]; [|done]. unfold verifyMessageWithCert.
  destruct (is_empty cert); [done |]. destruct (parseCert cert) as [x|] eqn:Hx; [|done].
  destruct (validityError now x) eqn:Hv; [done |]. destruct (get_pubkey x) as [key|] eqn:Hk; [|done].
  destruct (is_empty (base64Decode signature)) eqn:He; [done |].
  destruct (digest_verify key text _) eqn:Hd; [done |]. intros _. exists cert, x, key.
  repeat split; try done. intros H. by rewrite H in He.
Qed.

Lemma verifyCallback_genuine now cache timestamp nonce body signature serialNo :
  cache_ok cache -> fst (verifyCallback c now cache timestamp nonce body signature serialNo) = None ->
  genuine now serialNo (signedText timestamp nonce body) signature.
Proof.
  unfold verifyCallback. intros Hc.
  destruct (resolveTrustedPlatformCert _ _ _ _) as [[e d]|cert] eqn:Hr; [done |]. simpl.
  by eapply verify_genuine.
Qed.

Lemma verifyResponse_genuine now cache resp :
  cache_ok cache -> fst (verifyResponse c now cache resp) = None ->
  genuine now (hs_header resp "Wechatpay-Serial")
    (signedText (hs_header resp "Wechatpay-Timestamp") (hs_header resp "Wechatpay-Nonce") (hs_body resp))
    (hs_header resp "Wechatpay-Signature").
Proof.
  unfold verifyResponse. intros Hc. destruct (_ || _); [done |].
  destruct (resolveTrustedPlatformCert _ _ _ _) as [[e d]|cert] eqn:Hr; [done |]. simpl.
  by eapply verify_genuine.
Qed.

(** What an accepted notification says: its resource, decrypted under the API key. *)
Definition reports (body : string) (ev : callback_event) : Prop :=
  exists bodyJson eventType res ciphertext nonce aad plaintext resource,
    jparse body = Some bodyJson /\ get_string bodyJson "event_type" = Some eventType /\
    index bodyJson "resource" = Some res /\ get_string res "ciphertext" = Some ciphertext /\
    get_string res "nonce" = Some nonce /\ get_string res "associated_data" = Some aad /\
    decryptResource c ciphertext nonce aad = inr plaintext /\ jparse plaintext = Some resource /\
    get_string resource "out_trade_no" = Some (ev_orderNo ev) /\
    get_string resource "transaction_id" = Some (ev_channelTxnId ev) /\
    resource_total resource = Some (ev_amountTotal ev) /\
    (ev_paid ev = true <-> eventType = "TRANSACTION.SUCCESS").

Lemma eventOf_fields eventType plaintext body resource bodyJson ev :
  eventOf eventType plaintext body resource bodyJson = Some ev ->
  get_string resource "out_trade_no" = Some (ev_orderNo ev) /\
  get_string resource "transaction_id" = Some (ev_channelTxnId ev) /\
  resource_total resource = Some (ev_amountTotal ev) /\
  (ev_paid ev = true <-> eventType = "TRANSACTION.SUCCESS").
Proof.
  unfold eventOf. intros H. apply bind_Some in H as (orderNo & Ho & H). apply bind_Some in H as (txn & Ht & H).
  apply bind_Some in H as (state & _ & H). apply bind_Some in H as (total & Ha & H).
  apply bind_Some in H as (payload & _ & [= <-]). simpl. by rewrite String.eqb_eq.
Qed.

Lemma readCallback_ok now cache header body errors ev :
  readCallback c now cache header body errors = Some (inr ev) ->
  fst (verifyCallback c now cache (header "Wechatpay-Timestamp") (header "Wechatpay-Nonce") body
         (header "Wechatpay-Signature") (header "Wechatpay-Serial")) = None /\ reports body ev.
Proof.
  unfold readCallback. destruct (_ || _); [done |].
  destruct (fst (verifyCallback _ _ _ _ _ _ _ _)); [done |].
  destruct (jparse body) as [bodyJson|] eqn:Hj; [|done]. intros H. split; [done |].
  apply bind_Some in H as (eventType & He & H). apply bind_Some in H as (has & _ & H).
  apply bind_Some in H as (res & Hr & H). destruct has; [|done]. simpl in H.
  destruct (isObject res); [|done]. simpl in H.
  apply bind_Some in H as (ciphertext & Hct & H). apply bind_Some in H as (nonce & Hn & H).
  apply bind_Some in H as (aad & Had & H).
  destruct (decryptResource _ _ _ _) as [|plaintext] eqn:Hd; [done |].
  destruct (jparse plaintext) as [resource|] eqn:Hp; [|done].
  destruct (eventOf _ _ _ _ _) as [ev'|] eqn:Hev; [|done]. injection H as <-.
  apply eventOf_fields in Hev. unfold reports. naive_solver.
Qed.

(** ** The spacing of the downloads *)

(** The steady clocks of the requests sent, newest first. *)
Fixpoint sent (h : list client_label) : list Z :=
  match h with
  | [] => []
  | Asked t (inr _) :: h' => t :: sent h'
  | _ :: h' => sent h'
  end.

(** The steady clock of a running system is positive. *)
Definition clock_positive (l : client_label) : Prop :=
  match l with Asked t _ => 0 < t | Stored => True end.

Lemma window_stamp h s :
  0 < w_certInterval c -> client_run h s -> Forall clock_positive h ->
  cs_lastDownload s = hd 0 (sent h) /\ Forall (fun t => 0 < t <= cs_lastDownload s) (sent h).
Proof.
  intros Hi. induction 1 as [|h s l s' _ IH Hs]; intros Hp; [by split |].
  apply Forall_cons_1 in Hp as [Hl Hp]. specialize (IH Hp) as [Hlast Hall].
  destruct Hs as [now steady nonce s r s' H | |]; [|done..].
  unfold downloadCertificates in H. destruct (signed _ _ _ _ _ _) as [e|req]; [by injection H as <- <- |].
  rewrite (proj2 (Z.ltb_lt _ _) Hi) in H. cbn [andb] in H.
  destruct (negb _ && _) eqn:Hw; injection H as <- <-; [done |]. simpl in *.
  split; [done |]. constructor; [lia |]. destruct (sent h) as [|t ts]; [done |]. simpl in Hlast.
  eapply Forall_impl; [exact Hall |]. cbv beta. intros t' Ht'. breflect. destruct Hw as [Hw|Hw]; [|zlia].
  lia.
Qed.

Lemma quot_mono a b n : a <= b -> 0 < n -> Z.quot a n <= Z.quot b n.
Proof. intros. apply Z.quot_le_mono; lia. Qed.

Lemma window_open s ts t :
  cs_lastDownload s = hd 0 ts -> Forall (fun t' => 0 < t' <= cs_lastDownload s) ts ->
  negb (cs_lastDownload s =? 0) && (Z.quot (t - cs_lastDownload s) 1000000000 <? w_certInterval c) = false <->
  Forall (fun t' => w_certInterval c <= Z.quot (t - t') 1000000000) ts.
Proof.
  intros Hl Hall. rewrite andb_false_iff, negb_false_iff, Z.eqb_eq, Z.ltb_ge.
  destruct ts as [|t0 ts]; simpl in *; [split; [constructor | by left] |].
  apply Forall_cons in Hall as [H0 Hall]. split.
  - intros [Hz|Hq]; [lia |]. constructor; [by rewrite <- Hl |].
    eapply Forall_impl; [exact Hall |]. cbv beta. intros t' Ht'.
    etransitivity; [exact Hq |]. apply quot_mono; lia.
  - intros H%Forall_inv. right. by rewrite Hl.
Qed.

(** ** Theorems *)

(** C16. Whatever certificates were downloaded or set before, and however the steps
    of the threads interleave: a notification is accepted, and an answer passes its
    check, only with a good signature over exactly its timestamp, nonce and body,
    under a currently valid certificate that carries the serial of the header and
    that passed every check when it was stored (window, serial, trust anchors) or
    is the configured one; and the event of a notification reports what its
    resource, decrypted under the API key, says. *)
Theorem accepted_is_genuine h s :
  client_run h s ->
  (forall now header body errors ev,
     readCallback c now (cs_cache s) header body errors = Some (inr ev) ->
     genuine now (header "Wechatpay-Serial")
       (signedText (header "Wechatpay-Timestamp") (header "Wechatpay-Nonce") body)
       (header "Wechatpay-Signature") /\ reports body ev) /\
  (forall now pinned alive resp,
     fst (answerVerifier c now (cs_cache s) pinned alive resp) = None ->
     genuine now (hs_header resp "Wechatpay-Serial")
       (signedText (hs_header resp "Wechatpay-Timestamp") (hs_header resp "Wechatpay-Nonce") (hs_body resp))
       (hs_header resp "Wechatpay-Signature")).
Proof.
  intros Hr%run_cache_ok. split.
  - intros now header body errors ev [Hv Hrep]%readCallback_ok. split; [|done].
    by eapply verifyCallback_genuine.
  - intros now pinned alive resp. unfold answerVerifier. destruct (_ && _); [done |].
    by apply verifyResponse_genuine.
Qed.

(** A download of the certificates that can be signed is sent exactly when
    every request sent before is at least [cert_download_min_interval_seconds] old;
    otherwise it is refused as throttled, and a refused one does not use up the
    window. *)
Lemma download_window h s now steady nonce request :
  0 < w_certInterval c -> client_run h s -> Forall clock_positive h ->
  signed c now "GET" "/v3/certificates" "" nonce = inr request ->
  (fst (downloadCertificates c now steady nonce s) = inr request <->
     Forall (fun t => w_certInterval c <= Z.quot (steady - t) 1000000000) (sent h)) /\
  (fst (downloadCertificates c now steady nonce s) <> inr request ->
     downloadCertificates c now steady nonce s = (inl "certificate download throttled", s)).
Proof.
  intros Hi Hrun Hp Hs. destruct (window_stamp h s Hi Hrun Hp) as [Hl Hall].
  rewrite <- (window_open s (sent h) steady Hl Hall). unfold downloadCertificates. rewrite Hs.
  rewrite (proj2 (Z.ltb_lt _ _) Hi). cbn [andb]. by destruct (negb _ && _).
Qed.
End Trust.

(** ** Witnesses *)

(** A toy OpenSSL: a certificate is the text CERT and its serial, valid until 1000;
    the signature of a text is the text itself; the tag of a ciphertext is fixed. *)
Module Toy.
Definition x509_of (s : string) : option string :=
  if String.prefix "CERT" s then Some (String.substring 4 (String.length s) s) else None.

#[global] Instance crypto : Crypto := {|
  read_file := fun _ path => if String.eqb path "key.pem" then Some "KEY" else None;
  base64Encode := fun s => s;
  base64Decode := fun s => s;
  sign := fun _ m => inr m;
  x509 := string;
  read_x509 := x509_of;
  cmp_not_before := fun _ _ => -1;
  cmp_not_after := fun now _ => if now <? 1000 then 1 else -1;
  serial_text := fun x => Some x;
  public_key := string;
  get_pubkey := fun x => Some x;
  digest_verify := fun _ m sig => if String.eqb m sig then None else Some VMismatch;
  gcm_open := fun _ _ _ text tag => if String.eqb tag "0123456789abcdef" then inr text else inl GFinal;
  anchors_in := fun _ => Some 1%nat;
  chain_check := fun _ _ _ => None
|}.

Definition config : wechat_config :=
  WechatConfig "app" "mch" "merchant" "0123456789abcdef0123456789abcdef" "key.pem" "" ""
    "https://api" "https://shop/notify" 300 5000.

Import Tree.

Definition encrypted (text : string) : tree :=
  TObject [("ciphertext", TString (text +:+ "0123456789abcdef")); ("nonce", TString "0123456789ab")].

Definition docs : list (string * tree) :=
  [("body", TObject [("event_type", TString "TRANSACTION.SUCCESS"); ("resource", encrypted "paid")]);
   ("paid", TObject [("out_trade_no", TString "O1"); ("transaction_id", TString "T1");
                     ("amount", TObject [("total", TInt 800)])]);
   ("refusal", TObject [("code", TString "PARAM_ERROR"); ("message", TString "no such order")])].

#[global] Instance toy_json : JsonLib := lib docs.

Definition certNode : json :=
  TObject [("serial_no", TString "00aB"); ("encrypt_certificate", encrypted "CERTAB")].

(** The client after one download. *)
Definition labels : list client_label :=
  [Stored; Asked 5 (fst (downloadCertificates config 100 5 "n" new_client))].

Definition after : client_state :=
  ClientState (snd (installAll config 100 ∅ [certNode] 0)) 5.

(** The headers WeChat sends with a body. *)
Definition headers (body k : string) : string :=
  if String.eqb k "Wechatpay-Serial" then "ab"
  else if String.eqb k "Wechatpay-Signature" then signedText "ts" "nonce" body
  else if String.eqb k "Wechatpay-Timestamp" then "ts" else "nonce".

Definition event : option (string + callback_event) :=
  readCallback config 200 (cs_cache after) (headers "body") "body" (fun _ => "").

Lemma run : client_run config labels after.
Proof.
  eapply run_step; [eapply run_step; [apply run_new | by eapply (step_download config 100 5 "n")] |].
  change after with (ClientState (cs_cache after) (cs_lastDownload (ClientState ∅ 5))).
  by eapply (step_install config 100 _ certNode true).
Qed.
End Toy.

Lemma accepted_is_genuine_witness :
  exists ev, Toy.event = Some (inr ev) /\ ev_orderNo ev = "O1" /\ ev_amountTotal ev = 800 /\
    ev_paid ev = true /\
    genuine Toy.config 200 "ab" (signedText "ts" "nonce" "body") (signedText "ts" "nonce" "body") /\
    reports Toy.config "body" ev.
Proof.
  eexists. split; [vm_compute; reflexivity |]. do 3 (split; [reflexivity |]).
  apply (proj1 (accepted_is_genuine Toy.config _ _ Toy.run) 200 (Toy.headers "body") "body" (fun _ => "")).
  vm_compute. reflexivity.
Defined.

Lemma download_window_witness :
  (exists request,
     (fst (downloadCertificates Toy.config 100 299999999999 "n" Toy.after) = inr request <->
        Forall (fun t => 300 <= Z.quot (299999999999 - t) 1000000000) (sent Toy.labels))) /\
  fst (downloadCertificates Toy.config 100 299999999999 "n" Toy.after) = inl "certificate download throttled" /\
  (exists request, fst (downloadCertificates Toy.config 100 300000000005 "n" Toy.after) = inr request).
Proof.
  split; [|split; [by vm_compute | eexists; vm_compute; reflexivity]]. eexists.
  apply (download_window Toy.config Toy.labels Toy.after 100 299999999999 "n");
    [done | exact Toy.run | by repeat constructor | vm_compute; reflexivity].
Defined.
