(* ===== verification/WechatRefund.v ===== *)
(** * Refunds over the WeChat channel: RefundService.v composed with
    WechatChannel.v.

    RefundService reads "WeChat refused it" out of the error text of the channel;
    here the texts are the ones the channel writes. *)
From S2P Require Import Prelude Cxx Json Effects Store Amount RefDb Idempotency Service RefundService Scenario RefundGuard Channels WechatChannel WechatTrust.
Import RefundService.Refunds.

(** ** Error texts *)

Lemma prefix_skip a b s : String.prefix (a +:+ b) (a +:+ s) = String.prefix b s.
Proof. induction a as [|c a IH]; simpl; [done |]. by destruct (ascii_dec c c). Qed.

Lemma prefix_nil s : String.prefix "" s = true.
Proof. by destruct s. Qed.

Lemma prefix_head c a s : String.prefix (String c "") (String a s) = Ascii.eqb c a.
Proof.
  simpl. destruct (ascii_dec c a) as [->|Hn]; [by rewrite Ascii.eqb_refl; destruct s |].
  symmetry. by apply Ascii.eqb_neq.
Qed.

Lemma contains_skip c needle a s :
  all_char (fun c' => negb (Ascii.eqb c c')) a = true ->
  contains (String c needle) (a +:+ s) = contains (String c needle) s.
Proof.
  induction a as [|c' a IH]; simpl; [done |]. rewrite andb_true_iff, negb_true_iff. intros [Hc Ha].
  destruct (ascii_dec c c') as [->|_]; [by rewrite Ascii.eqb_refl in Hc |]. by rewrite IH.
Qed.

(** The part of the detail that a failure text shows. *)
Definition shown (detail : string) : string :=
  trim_newlines
    (if (kMaxDetail <? String.length detail)%nat then String.substring 0 kMaxDetail detail +:+ "..." else detail).

Definition status_text_ok (z : Z) : bool :=
  let t := to_string z in
  negb (is_empty t) && all_char (fun c => negb (Ascii.eqb "n" c)) t
  && Bool.eqb (String.prefix "4" (t +:+ ": ")) ((400 <=? z) && (z <? 500)).

Lemma status_text z :
  100 <= z <= 999 ->
  all_char (fun c => negb (Ascii.eqb "n" c)) (to_string z) = true /\
  forall s, String.prefix "4" (to_string z +:+ s) = (400 <=? z) && (z <? 500).
Proof.
  intros Hz. assert (H : (z <? 100) || status_text_ok z = true).
  { apply (forall_below (fun z => (z <? 100) || status_text_ok z) 1000); [by vm_compute | lia]. }
  rewrite (proj2 (Z.ltb_ge _ _)) in H by lia. unfold status_text_ok in H. simpl orb in H.
  apply andb_true_iff in H as [[Hn Hc]%andb_true_iff Hp]. split; [done |]. intros s.
  apply Bool.eqb_prop in Hp as <-. destruct (to_string z) as [|a t]; [done |].
  cbn [String.append]. by rewrite !prefix_head.
Qed.

Lemma certain_http z detail :
  100 <= z <= 999 ->
  refundCertainlyDidNotHappen (httpFailureText z detail) =
  (400 <=? z) && (z <? 500) && negb (contains "no error envelope" (shown detail)).
Proof.
  intros Hz. destruct (status_text z Hz) as [Hc Hp]. unfold refundCertainlyDidNotHappen, httpFailureText.
  fold (shown detail). change "HTTP 4" with ("HTTP " +:+ "4"). rewrite prefix_skip, Hp.
  rewrite (contains_skip _ _ "HTTP ") by done. rewrite contains_skip by done.
  rewrite (contains_skip _ _ ": ") by done.
  destruct (_ && negb _); [done |].
  pose proof (prefix_skip "HTTP " "") as Hh. simpl (_ +:+ "") in Hh. rewrite Hh, prefix_nil. done.
Qed.

(** ** The refund a client is asked for *)

Section Exchange.
Context `{J : JsonLib} `{C : Crypto} (c : wechat_config) (leftover : string -> json).

(** One call of [refund]: when it was made, with which nonce, what the HTTP client
    answered, and the state of the channel's client at that moment. *)
Record exchange := Exchange {
  x_sentAt : Z;
  x_nonce : string;
  x_result : http_result;
  x_now : Z;
  x_client : client_state;
  x_pinned : bool;
  x_alive : bool
}.

Definition x_verify (x : exchange) (resp : http_response) : option string :=
  fst (answerVerifier c (x_now x) (cs_cache (x_client x)) (x_pinned x) (x_alive x) resp).

(** What the callback of an operation gets that makes this request, or fails to. *)
Definition exchanged (request : option (string + http_request)) (x : exchange) : channel_answer :=
  match request with
  | None => ChannelThrew
  | Some (inl e) => Answered jnull e
  | Some (inr _) =>
      match onAnswer leftover (Some (x_verify x)) (w_timeoutMs c) (x_result x) with
      | None => ChannelThrew
      | Some (result, error) => Answered result error
      end
  end.

(** What RefundService's callback gets. *)
Definition refund_exchange (payload : json) (x : exchange) : channel_answer :=
  exchanged (WechatChannel.refund c payload (x_sentAt x) (x_nonce x)) x.

(** HTTP statuses have three digits. *)
Definition status_ok (x : exchange) : Prop :=
  forall resp, x_result x = Received resp -> 100 <= hs_status resp <= 999.

Definition not_sent (payload : json) (x : exchange) : Prop :=
  exists e, WechatChannel.refund c payload (x_sentAt x) (x_nonce x) = Some (inl e).

(** WeChat's error envelope under a 4xx. *)
Definition refuses (resp : http_response) : Prop :=
  400 <= hs_status resp < 500 /\
  exists body code message, jparse (hs_body resp) = Some body /\ get_string body "code" = Some code /\
    get_string body "message" = Some message /\ (code <> "" \/ message <> "") /\
    contains "no error envelope" (shown (code +:+ " " +:+ message)) = false.

Definition refused (x : exchange) : Prop :=
  exists resp, x_result x = Received resp /\ x_verify x resp = None /\ refuses resp.

Lemma signed_certain now method path body nonce e :
  signed c now method path body nonce = inl e -> refundCertainlyDidNotHappen e = true.
Proof.
  unfold signed, buildAuthorizationHeader, signMessage, readFile.
  destruct (_ || _); [by intros [= <-] |]. destruct (read_file _ _); [|by intros [= <-]].
  destruct (WechatChannel.sign _ _) as [stage|]; [|done]. intros [= <-]. by destruct stage.
Qed.

Lemma detail_blank code message :
  is_empty (code +:+ " " +:+ message) || String.eqb (code +:+ " " +:+ message) " " = true <->
  code = "" /\ message = "".
Proof.
  destruct code as [|a code]; simpl; [|split; [|by intros [[=] _]]].
  - destruct message; simpl; [done |]. split; [done | by intros [_ [=]]].
  - destruct (Ascii.eqb_spec a " "); [|done]. subst. destruct code; done.
Qed.

Lemma answer_certain x result error :
  status_ok x ->
  onAnswer leftover (Some (x_verify x)) (w_timeoutMs c) (x_result x) = Some (result, error) -> error <> "" ->
  refundCertainlyDidNotHappen error = true <-> refused x.
Proof.
  intros Hs H He. unfold refused. unfold onAnswer in H. destruct (x_result x) as [| |resp] eqn:Hx.
  1, 2: injection H as <- <-; split; [done | by intros (? & [=] & _)].
  destruct (x_verify x resp) as [ve|] eqn:Hv.
  { injection H as <- <-. split; [done |]. intros (? & [= <-] & E & _). by rewrite Hv in E. }
  specialize (Hs _ Hx).
  assert (Hother : refundCertainlyDidNotHappen error = false -> ~ refuses resp ->
    refundCertainlyDidNotHappen error = true <-> exists r, Received resp = Received r /\ x_verify x r = None /\ refuses r).
  { intros -> Hn. split; [done |]. by intros (? & [= <-] & _ & ?). }
  destruct (Z.eqb_spec (hs_status resp) 204); [by injection H as <- <- |].
  destruct ((hs_status resp <? 200) || (300 <=? hs_status resp)) eqn:Hout.
  - destruct (jparse (hs_body resp)) as [body|] eqn:Hj.
    + apply bind_Some in H as (code & Hc & H). apply bind_Some in H as (message & Hm & H).
      injection H as <- <-. rewrite certain_http by done.
      destruct (_ || String.eqb _ _) eqn:Hb.
      * rewrite andb_false_r. split; [done |]. intros (? & [= <-] & _ & _ & b & c1 & m1 & Hb1 & Hc1 & Hm1 & Hne & _).
        apply detail_blank in Hb as [-> ->]. simplify_eq. by destruct Hne.
      * rewrite !andb_true_iff, negb_true_iff, Z.leb_le, Z.ltb_lt. split.
        -- intros [Hr Hn]. exists resp. repeat split; try tauto. exists body, code, message.
           repeat split; try done. destruct code as [|]; [|by left]. right. intros ->. done.
        -- intros (? & [= <-] & _ & Hr & b & c1 & m1 & Hb1 & Hc1 & Hm1 & _ & Hn). simplify_eq. split; [tauto | done].
    + injection H as <- <-. apply Hother; [|by intros (_ & b & ? & ? & E & _); rewrite Hj in E].
      rewrite certain_http by done. by rewrite andb_false_r.
  - destruct (jparse (hs_body resp)); injection H as <- <-; [done |]. apply Hother; [done |].
    intros [Hr _]. apply orb_false_iff in Hout as [_ H2]. apply Z.leb_gt in H2. lia.
Qed.

(** A 2xx answer that reports the refund as failed. *)
Definition reports_failure (resp : http_response) : Prop :=
  200 <= hs_status resp < 300 /\
  exists body wechatStatus code, jparse (hs_body resp) = Some body /\
    get_string body "status" = Some wechatStatus /\ get_string body "code" = Some code /\
    (mapRefundStatus wechatStatus = "REFUND_FAIL" \/ (mapRefundStatus wechatStatus = "" /\ code <> "")).

(** WeChat signed the answer, and it says that the refund did not happen. *)
Definition signed_refusal (x : exchange) : Prop :=
  exists resp, x_result x = Received resp /\ (refuses resp \/ reports_failure resp) /\
    genuine c (x_now x) (hs_header resp "Wechatpay-Serial")
      (signedText (hs_header resp "Wechatpay-Timestamp") (hs_header resp "Wechatpay-Nonce") (hs_body resp))
      (hs_header resp "Wechatpay-Signature").

Lemma x_verify_genuine labels x resp :
  client_run c labels (x_client x) -> x_verify x resp = None ->
  genuine c (x_now x) (hs_header resp "Wechatpay-Serial")
    (signedText (hs_header resp "Wechatpay-Timestamp") (hs_header resp "Wechatpay-Nonce") (hs_body resp))
    (hs_header resp "Wechatpay-Signature").
Proof.
  intros Hr. unfold x_verify, answerVerifier. destruct (_ && _); [done |].
  apply verifyResponse_genuine. by eapply run_cache_ok.
Qed.

Lemma answer_reports `{!JsonLaws J} x result wechatStatus code :
  onAnswer leftover (Some (x_verify x)) (w_timeoutMs c) (x_result x) = Some (result, "") ->
  get_string result "status" = Some wechatStatus -> get_string result "code" = Some code ->
  mapRefundStatus wechatStatus = "REFUND_FAIL" \/ (mapRefundStatus wechatStatus = "" /\ code <> "") ->
  exists resp, x_result x = Received resp /\ x_verify x resp = None /\ reports_failure resp.
Proof.
  unfold onAnswer. destruct (x_result x) as [| |resp]; [done | done |].
  destruct (x_verify x resp) eqn:Hv; [done |]. intros H Hs Hc Hf. exists resp. split; [done |]. split; [done |].
  destruct (hs_status resp =? 204).
  - injection H as <-. unfold get_string, get in Hs, Hc. rewrite jfind_of_object in Hs, Hc. simpl in Hs, Hc.
    rewrite asString_of_string in Hs, Hc. simplify_eq. by destruct Hf as [Hf | [_ Hf]].
  - destruct ((hs_status resp <? 200) || (300 <=? hs_status resp)) eqn:Hout.
    + destruct (jparse (hs_body resp)) as [body|]; [|done].
      apply bind_Some in H as (? & _ & H). by apply bind_Some in H as (? & _ & [=]).
    + destruct (jparse (hs_body resp)) as [body|] eqn:Hj; [|done]. injection H as <-.
      split; [apply orb_false_iff in Hout; breflect; lia |]. by exists body, wechatStatus, code.
Qed.

Lemma exchange_refusal `{!JsonLaws J} labels payload x result error :
  client_run c labels (x_client x) -> status_ok x ->
  refund_exchange payload x = Answered result error -> refusal "wechat" result error ->
  not_sent payload x \/ signed_refusal x.
Proof.
  unfold refund_exchange, exchanged, not_sent. intros Hrun Hst Hx Hr.
  destruct (WechatChannel.refund _ _ _ _) as [[e|req]|]; [by left; exists e | | done].
  destruct (onAnswer _ _ _ _) as [[result' error']|] eqn:Ho; [|done]. injection Hx as -> ->. right.
  destruct Hr as [[Hne Hc] | [-> (ws & code & Hs & Hcode & Hf)]].
  - apply (answer_certain x result error Hst Ho Hne) in Hc as (resp & Hx & Hv & Hr). exists resp.
    split; [done |]. split; [by left | by eapply x_verify_genuine].
  - eapply answer_reports in Ho as (resp & Hx & Hv & Hr); [|done..]. exists resp.
    split; [done |]. split; [by right | by eapply x_verify_genuine].
Qed.

(** ** Theorems *)

(** RefundService's reading of an error text is exact: it takes the refund as
    certainly not happened if and only if no request was sent, or the answer passed
    the signature check and is a 4xx with WeChat's error envelope (whose shown text
    does not itself say "no error envelope"). *)
Lemma certain_iff_refused payload x result error :
  status_ok x -> refund_exchange payload x = Answered result error -> error <> "" ->
  refundCertainlyDidNotHappen error = true <-> not_sent payload x \/ refused x.
Proof.
  unfold refund_exchange, exchanged, not_sent. intros Hs Hx He. destruct (WechatChannel.refund _ _ _ _) as [[e|req]|] eqn:Hr.
  - injection Hx as <- <-. split; [intros _; left; by exists e | intros _].
    unfold WechatChannel.refund in Hr. apply bind_Some in Hr as (request & _ & Hr). injection Hr as Hr.
    by eapply signed_certain.
  - destruct (onAnswer _ _ _ _) as [[result' error']|] eqn:Ho; [|done]. injection Hx as -> ->.
    rewrite (answer_certain x result error Hs Ho He). naive_solver.
  - done.
Qed.
End Exchange.

(** ** The interface *)

(** The request an operation makes. *)
Definition wechat_request `{J : JsonLib} `{C : Crypto} (c : wechat_config) (op : channel_op) (now : Z) (nonce : string) :
    option (string + http_request) :=
  match op with
  | ChRefund payload => WechatChannel.refund c payload now nonce
  | ChQueryRefund refundNo => Some (WechatChannel.queryRefund c refundNo now nonce)
  | ChQueryPayment orderNo => Some (queryTransaction c orderNo now nonce)
  | ChCreateQr payload => createTransactionNative c payload now nonce
  | ChCloseOrder orderNo => Some (closeTransaction c orderNo now nonce)
  end.

(** The WeChat channel, its client in any state that a sequence of its steps reaches. *)
#[global] Instance wechat `{J : JsonLib} `{C : Crypto} (c : wechat_config) (leftover : string -> json) : PaymentChannel := {|
  name := "wechat";
  encounter := exchange;
  possible x := (exists labels, client_run c labels (x_client x)) /\ status_ok x;
  perform op x := exchanged c leftover (wechat_request c op (x_sentAt x) (x_nonce x)) x;
  not_refunded payload x := not_sent c payload x \/ signed_refusal c x
|}.

#[global] Instance wechat_honest `{J : JsonLib} `{!JsonLaws J} `{C : Crypto} (c : wechat_config)
    (leftover : string -> json) : HonestRefusals (wechat c leftover).
Proof.
  intros payload x result error [[labels Hrun] Hst] Hx Hr.
  exact (exchange_refusal c leftover labels payload x result error Hrun Hst Hx Hr).
Qed.

Section Composition.
Context `{J : JsonLib} `{!JsonLaws J} `{C : Crypto} (c : wechat_config) (leftover : string -> json).
Context (sha256 : string -> string) (channels : list string) (redis : bool) (ttlSeconds : Z).

(** C15. A refund request over the WeChat channel books a WeChat refund as
    REFUND_FAIL only when no channel is configured, when its request was never
    sent, or when WeChat refused it or reported it failed in an answer that WeChat
    signed; a timeout, a lost connection, an unverifiable answer, a 5xx or an
    intermediary's 4xx leave the row open. *)
Theorem refund_fail_needs_refusal request key o h :
  runs (logs any_answer) (createRefund sha256 channels redis ttlSeconds request key answerCaller) [] o h ->
  served (wechat c leftover) h ->
  forall h1 no st payload h2, h = (h1 ++ Event (Post (FailRefund no st payload)) tt :: h2)%list ->
  exists j, no = j_refundNo j /\
    ((exists result error, told j "alipay" result error h2) \/
     (committed j "wechat" h2 /\ findChannel channels "wechat" = false) \/
     (exists x, In (Event (Call "wechat" (ChRefund (wechatPayload j)))
                      (refund_exchange c leftover (wechatPayload j) x)) h2 /\
        (not_sent c (wechatPayload j) x \/ signed_refusal c x))).
Proof.
  intros Hr Hw h1 no st payload h2 E.
  destruct (booked_failure_proved (wechat c leftover) sha256 channels redis ttlSeconds request key o h Hr Hw
    h1 no st payload h2 E) as (j & Hno & [(channel & result & error & Hne & Ht)|[Hn|(p & x & Hask & _ & Hin & Hrf)]]);
    exists j; (split; [done |]).
  - left. exists result, error. pose proof Ht as (op & h3 & h4 & _ & [[-> _]|[-> _]] & _); [exact Ht | done].
  - right. by left.
  - right. right. destruct Hask as [[[=] _]|[_ [= ->]]]. by exists x.
Qed.
End Composition.

(** ** Witnesses *)

(** WeChat refuses the refund, in a signed 400. *)
Definition toy_refusal : http_response := HttpResponse 400 (Toy.headers "refusal") "refusal".

Definition toy_exchange : exchange := Exchange 150 "n" (Received toy_refusal) 200 Toy.after true true.

Definition toy_answer (payload : json) : channel_answer :=
  refund_exchange Toy.config (fun _ => jnull) payload toy_exchange.

Lemma toy_status_ok : status_ok toy_exchange.
Proof. intros resp [= <-]. simpl. lia. Qed.

Definition toy_run : outcome * (list (event svc) * deployment) :=
  run (recording (handle_svc shop_sum shop_time))
    (createRefund shop_md5 ["wechat"] false 60 refund_of_8 "" answerCaller)
    ([], Deployment (World open_db TxNone [] shop_time "u" [] []) [toy_answer jnull] [] [] false).

Definition toy_history : list (event svc) := fst (snd toy_run).

Lemma toy_runs :
  runs (logs any_answer) (createRefund shop_md5 ["wechat"] false 60 refund_of_8 "" answerCaller) []
    (fst toy_run) toy_history.
Proof. exact (recorded_runs _ _ _ _ _ (every_answer _)). Qed.

Lemma certain_iff_refused_witness :
  toy_answer jnull = Answered (Tree.TObject [("code", Tree.TString "PARAM_ERROR"); ("message", Tree.TString "no such order")])
                       "HTTP 400: PARAM_ERROR no such order" /\
  (refundCertainlyDidNotHappen "HTTP 400: PARAM_ERROR no such order" = true <->
     not_sent Toy.config jnull toy_exchange \/ refused Toy.config toy_exchange).
Proof.
  assert (Ha : toy_answer jnull =
    Answered (Tree.TObject [("code", Tree.TString "PARAM_ERROR"); ("message", Tree.TString "no such order")])
      "HTTP 400: PARAM_ERROR no such order") by (vm_compute; reflexivity).
  split; [exact Ha |].
  exact (certain_iff_refused Toy.config (fun _ => jnull) jnull toy_exchange _ _ toy_status_ok Ha ltac:(done)).
Defined.

Lemma refund_fail_needs_refusal_witness :
  fst toy_run = Effects.Returned /\
  exists h1 no st payload h2, toy_history = (h1 ++ Event (Post (FailRefund no st payload)) tt :: h2)%list /\
  exists j, no = j_refundNo j /\
    ((exists result error, told j "alipay" result error h2) \/
     (committed j "wechat" h2 /\ findChannel ["wechat"] "wechat" = false) \/
     (exists x, In (Event (Call "wechat" (ChRefund (wechatPayload j)))
                      (refund_exchange Toy.config (fun _ => jnull) (wechatPayload j) x)) h2 /\
        (not_sent Toy.config (wechatPayload j) x \/ signed_refusal Toy.config x))).
Proof.
  split; [vm_compute; reflexivity |].
  assert (Hs : exists h1 no st payload h2,
    toy_history = (h1 ++ Event (Post (FailRefund no st payload)) tt :: h2)%list).
  { exists (take 1 toy_history), "R1". do 3 eexists. vm_compute. reflexivity. }
  destruct Hs as (h1 & no & st & payload & h2 & He). exists h1, no, st, payload, h2. split; [exact He |].
  eapply (refund_fail_needs_refusal Toy.config (fun _ => jnull) shop_md5 ["wechat"] false 60 refund_of_8 ""
            (fst toy_run) toy_history); [| | exact He].
  - exact toy_runs.
  - assert (Hp : match dialogue (wechat Toy.config (fun _ => jnull)) toy_history with
                 | [(ChRefund p, a)] => a = toy_answer p | _ => False end) by (vm_compute; reflexivity).
    unfold served. destruct (dialogue _ toy_history) as [|[[p| | | |] a] [|]]; try done.
    constructor; [|constructor]. exists toy_exchange.
    split; [split; [exists Toy.labels; exact Toy.run | exact toy_status_ok] | exact Hp].
Defined.
