(* ===== verification/PaymentSync.v ===== *)
(** * Order syncs: what they write whatever the database answers. *)
From S2P Require Import Prelude Cxx Json Effects Store Amount RefDb RefDbFacts Service Queued RefundService PaymentService Scenario.
Import PaymentService.Payments.

Section Sync.
Context `{J : JsonLib}.
Abbreviation trace := (list (event svc)).
Abbreviation csvc := (celled svc).
Context (y : answered).

(** ** Facts of a history *)

Definition stepped {R} (q : stmt R) (a : db_exception + R) : event svc := Event (Io (Step q)) a.

Definition attempt_read (payment : payment_row) (h : trace) : Prop :=
  exists rows, In (Event (Io (Sql Main (NewestAttempt (y_orderNo y) carrying))) (Ok (payment :: rows))) h.

Definition order_read (order : order_row) (h : trace) : Prop :=
  In (stepped (FindOrder (y_orderNo y)) (inr order)) h.

Definition cas (payment : payment_row) : stmt (list unit) :=
  SettlePayment (y_paymentStatus y) (y_transactionId y) (y_payload y) (p_no payment).

(** The payment was SUCCESS when it was read, or this transaction advanced it. *)
Definition taken (payment : payment_row) (h : trace) : Prop :=
  p_status payment = "SUCCESS" \/ exists u us, In (stepped (cas payment) (inr (u :: us))) h.

(** The answer names a positive amount, the one the attempt asks for. *)
Definition names_amount (payment : payment_row) : Prop :=
  parseAmountToFen (p_amount payment) = Some (y_fen y) /\ 0 < y_fen y.

(** The settled refunds of the order, read in the transaction, cover its amount. *)
Definition refunds_cover (order : order_row) (h : trace) : Prop :=
  exists sums fen, In (stepped (SumRefunds (y_orderNo y) "REFUND_SUCCESS") (inr sums)) h /\
    Refunds.refund_sum_fen sums = Some fen /\ refundsCoverOrderAmount fen (fen_or_zero (o_amount order)) = true.

(** What a sync may do, for a channel whose answers settle ([settles]) and which
    may write [final] to an order. *)
Context (settles : bool) (booked : string -> bool) (final : order_row -> trace -> string -> Prop).

Definition proved (payment : payment_row) (h : trace) : Prop :=
  attempt_read payment h /\ (settles = true -> names_amount payment).

Definition order_written (payment : payment_row) (order : order_row) (st : string) (h : trace) : Prop :=
  proved payment h /\ taken payment h /\ order_read order h /\ o_status order <> "PAID" /\ final order h st.

Definition sync_allowed (h : trace) {R} (q : stmt R) : Prop :=
  match q with
  | SumRefunds _ _ | FindOrder _ | FindLedger _ _ _ => True
  | SettlePayment st txn payload no =>
      exists payment, proved payment h /\ ~ In (p_status payment) ["SUCCESS"; "REFUNDED"] /\
        st = y_paymentStatus y /\ txn = y_transactionId y /\ payload = y_payload y /\ no = p_no payment
  | UpdateOrderStatus id st => exists payment order, order_written payment order st h /\ id = o_id order
  | InsertLedger row =>
      exists payment order st n t, order_written payment order st h /\
        In (stepped (UpdateOrderStatus (o_id order) st) (inr n)) h /\ booked st = true /\
        row = LedgerRow (o_user order) (o_no order) (p_no payment) "PAYMENT" (o_amount order) t
  | _ => False
  end.

(** What may be reported: that nothing was booked (the empty text), or a status with
    its reason.  No attempt of the order can carry money; the attempt was REFUNDED, or
    advanced by someone else; the order was PAID before, or was written. *)
Definition reported (st : string) (h : trace) : Prop :=
  st = "" \/
  (st = y_orderStatus y /\ In (Event (Io (Sql Main (NewestAttempt (y_orderNo y) carrying))) (Ok [])) h) \/
  exists payment, attempt_read payment h /\
    ((st = "REFUNDED" /\ p_status payment = "REFUNDED") \/
     (st = y_orderStatus y /\ proved payment h /\ In (stepped (cas payment) (inr [])) h) \/
     exists order, taken payment h /\ proved payment h /\ order_read order h /\
       (o_status order = "PAID" \/ exists n, In (stepped (UpdateOrderStatus (o_id order) st) (inr n)) h)).

Context (callback : string -> act csvc).

Definition sync_guarantee (h : trace) (ev : event svc) : Prop :=
  match ev with
  | Event e _ =>
      match e with
      | Io (Step q) => sync_allowed h q
      | Io (Sql Main (NewestAttempt _ _)) | Io Begin | Io Rollback | Io Now | Io Construct | Claim => True
      | Answer r c =>
          answers_of h = [] /\ exists st, callback st = Perform (Lift (Answer r c)) (fun _ => Return) /\ reported st h
      | _ => False
      end
  end.

Definition anything (o : outcome) (h : trace) : Prop := True.
Abbreviation ok := (safe once_rely sync_guarantee anything).

(** No answer was sent unless the callback was taken. *)
Definition fresh (h : trace) : Prop := claimed h = false -> answers_of h = [].

(** [h'] continues [h]. *)
Definition extends (h h' : trace) : Prop := exists l, h' = (l ++ h)%list.

Lemma extends_refl h : extends h h.
Proof. by exists []. Qed.

Lemma extends_cons ev h h' : extends h h' -> extends h (ev :: h').
Proof. intros [l ->]. by exists (ev :: l). Qed.

Lemma extends_in ev h h' : extends h h' -> In ev h -> In ev h'.
Proof. intros [l ->] H. apply in_or_app. by right. Qed.

(** Facts that stay true. *)
Definition stable (P : trace -> Prop) : Prop := forall h h', extends h h' -> P h -> P h'.

Lemma stable_read payment : stable (attempt_read payment).
Proof. intros h h' He [rows H]. exists rows. by eapply extends_in. Qed.

Lemma stable_order order : stable (order_read order).
Proof. intros h h' He. by apply extends_in. Qed.

Lemma stable_proved payment : stable (proved payment).
Proof. intros h h' He [Hr Hn]. split; [by eapply stable_read | done]. Qed.

Lemma stable_taken payment : stable (taken payment).
Proof.
  intros h h' He [H | (u & us & H)]; [by left |]. right. exists u, us. by eapply extends_in.
Qed.

Lemma stable_reported st : stable (reported st).
Proof.
  intros h h' He [->|[[-> H]|(payment & Hr & H)]]; [by left | right; left; split; [done | by eapply extends_in] |].
  right; right. exists payment. split; [by eapply stable_read |].
  destruct H as [H|[(-> & Hp & H)|(order & Ht & Hp & Ho & H)]]; [by left | |].
  - right; left. split; [done |]. split; [by eapply stable_proved | by eapply extends_in].
  - right; right. exists order. split; [by eapply stable_taken |]. split; [by eapply stable_proved |].
    split; [by eapply stable_order |]. destruct H as [H|[n H]]; [by left | right; exists n; by eapply extends_in].
Qed.

Lemma stable_covered order : stable (refunds_cover order).
Proof. intros h h' He (sums & fen & Hi & Hs). exists sums, fen. split; [by eapply extends_in | done]. Qed.

(** ** Walking the callbacks *)

Section Callbacks.
(** The callback only answers. *)
Definition only_answers (a : act csvc) : Prop :=
  a = Return \/ a = Throw \/ exists r c, a = Perform (Lift (Answer r c)) (fun _ => Return).

Context (Hcb : forall st, only_answers (callback st)).
Context (Hfinal : forall order st, stable (fun h => final order h st)).

Lemma stable_written payment order st : stable (order_written payment order st).
Proof.
  intros h h' He (Hp & Ht & Ho & Hs & Hf). split; [by eapply stable_proved |].
  split; [by eapply stable_taken |]. split; [by eapply stable_order |]. split; [done | by eapply Hfinal].
Qed.

(** A callback [a] run in the cell [z] before the statements [queue]. *)
Definition runs_ok (z : Z) (queue : list (task csvc)) (a : act csvc) (h : trace) : Prop :=
  forall fuel, ok (with_cell z (drain fuel a queue)) h.

Lemma throw_ok z queue h : runs_ok z queue Throw h.
Proof. intros fuel. by rewrite drain_throw. Qed.

Lemma idle_ok z h : runs_ok z [] Return h.
Proof. intros fuel. by rewrite drain_idle. Qed.

Lemma lift_ok z queue R (e : svc R) k h :
  (forall r, sync_guarantee h (Event e r)) ->
  (forall r, once_rely h (Event e r) -> runs_ok z queue (k r) (Event e r :: h)) ->
  runs_ok z queue (Perform (Lift e) k) h.
Proof. intros Hg Hk fuel. rewrite drain_perform. simpl. intros r Hr. exact (conj (Hg r) (Hk r Hr fuel)). Qed.

Lemma pop_ok z queue R (q : stmt R) k h :
  sync_allowed h q -> (forall a, runs_ok z queue (k a) (stepped q a :: h)) ->
  runs_ok z (Task q k :: queue) Return h.
Proof.
  intros Hq Hk [|fuel]; [done |]. rewrite drain_next. simpl. intros r _. exact (conj Hq (Hk r fuel)).
Qed.

Lemma issue_ok z queue R (q : stmt R) k thrown next h :
  runs_ok z (queue ++ [Task q k])%list next (Event (Io Construct) None :: h) ->
  (forall w, runs_ok z queue thrown (Event (Io Construct) (Some w) :: h)) ->
  runs_ok z queue (issue q k thrown next) h.
Proof.
  intros Hn Ht. unfold issue, host, celled_hosts, svc_hosts. apply lift_ok; [done |].
  intros [w|] _; [apply Ht |]. intros fuel. rewrite drain_enqueue. apply Hn.
Qed.

Lemma fresh_io R (e : io R) r h : fresh h -> fresh (Event (Io e) r :: h).
Proof. done. Qed.

(** What is queued may run after anything that only adds to the history. *)
Definition rest_ok (z : Z) (queue : list (task csvc)) (h : trace) : Prop :=
  forall h', extends h h' -> fresh h' -> runs_ok z queue Return h'.

Lemma rest_idle z h : rest_ok z [] h.
Proof. intros h' _ _. apply idle_ok. Qed.

Lemma rest_extends z queue h h' : extends h h' -> rest_ok z queue h -> rest_ok z queue h'.
Proof. intros [l ->] H h1 [l1 ->]. apply H. exists (l1 ++ l)%list. by rewrite app_assoc. Qed.

Lemma rest_cons z queue ev h : rest_ok z queue h -> rest_ok z queue (ev :: h).
Proof. apply rest_extends. apply extends_cons, extends_refl. Qed.

Lemma onceCall_ok z queue st h :
  fresh h -> reported st h -> rest_ok z queue h -> runs_ok z queue (onceCall callback st) h.
Proof.
  intros Hf Hs Hq. unfold onceCall. apply lift_ok; [done |]. intros first Hr.
  assert (Hx : extends h (Event Claim first :: h)) by apply extends_cons, extends_refl.
  destruct first; [|by apply Hq].
  simpl in Hr. apply eq_sym, negb_true_iff in Hr. specialize (Hf Hr).
  destruct (Hcb st) as [E | [E | (r & c & E)]]; rewrite E; [by apply Hq | apply throw_ok |].
  apply lift_ok; [intros []; split; [done |]; exists st; split; [done | by eapply stable_reported] |].
  intros [] _. apply Hq; [by apply extends_cons | done].
Qed.

Lemma rollbackDone_ok z queue h : fresh h -> rest_ok z queue h -> runs_ok z queue (rollbackDone callback) h.
Proof.
  intros Hf Hq. unfold rollbackDone, host, celled_hosts, svc_hosts. apply lift_ok; [done |]. intros r _.
  apply onceCall_ok; [done | by left | by apply rest_cons].
Qed.

(** ** The order *)

Lemma insertRow_ok z payment order st n h :
  order_written payment order st h -> In (stepped (UpdateOrderStatus (o_id order) st) (inr n)) h ->
  booked st = true ->
  runs_ok z [] (insertRow (o_user order) (o_no order) (p_no payment) "PAYMENT" (o_amount order)) h.
Proof.
  intros Hw Hi Hb. unfold insertRow, host, celled_hosts, svc_hosts. apply lift_ok; [done |]. intros now _.
  apply issue_ok; [|intros w; apply idle_ok]. simpl. apply pop_ok; [|intros a; apply idle_ok].
  exists payment, order, st, n, now. split; [|split; [by do 2 right | done]].
  eapply stable_written; [|exact Hw]. by do 2 apply extends_cons; apply extends_refl.
Qed.

Lemma written_reported payment order st n h :
  order_written payment order st h -> In (stepped (UpdateOrderStatus (o_id order) st) (inr n)) h -> reported st h.
Proof.
  intros (Hp & Ht & Ho & _) Hi. right; right. exists payment. split; [apply Hp |]. right; right. exists order.
  split; [done |]. split; [done |]. split; [done |]. right. by exists n.
Qed.

Lemma insertLedgerEntry_ok z payment order st n h :
  order_written payment order st h -> In (stepped (UpdateOrderStatus (o_id order) st) (inr n)) h ->
  booked st = true -> fresh h ->
  runs_ok z [] (insertLedgerEntry (o_user order) (o_no order) (p_no payment) "PAYMENT" (o_amount order)
                  (onceCall callback st)) h.
Proof.
  intros Hw Hi Hb Hf. unfold insertLedgerEntry.
  assert (Hx : forall h', extends h h' -> order_written payment order st h' /\
    In (stepped (UpdateOrderStatus (o_id order) st) (inr n)) h').
  { intros h' He. split; [by eapply stable_written | by eapply extends_in]. }
  assert (Hrep : forall h', extends h h' -> reported st h') by (intros h' He; destruct (Hx h' He); by eapply written_reported).
  destruct (is_empty (o_no order) || is_empty "PAYMENT").
  - unfold host, celled_hosts, svc_hosts. apply lift_ok; [done |]. intros now _.
    assert (Hr : rest_ok z [Task (InsertLedger (LedgerRow (o_user order) (o_no order) (p_no payment) "PAYMENT"
      (o_amount order) now)) (fun _ => Return)] h).
    { intros h' He Hf'. apply pop_ok; [|intros a; apply idle_ok]. destruct (Hx h' He). by exists payment, order, st, n, now. }
    apply issue_ok; [|intros w]; (apply onceCall_ok; [done | by eapply Hrep; do 2 apply extends_cons; apply extends_refl |]);
      [by do 2 apply rest_cons | apply rest_idle].
  - apply issue_ok; [|intros w]; (apply onceCall_ok; [done | by eapply Hrep; apply extends_cons, extends_refl |]);
      [|apply rest_idle]. apply rest_cons.
    intros h' He Hf'. apply pop_ok; [done |]. destruct (Hx h' He) as [Hw' Hi'].
    intros [e|[|row rows]]; [apply idle_ok | | apply idle_ok]. eapply insertRow_ok; [|by right | done].
    eapply stable_written; [|exact Hw']. apply extends_cons, extends_refl.
Qed.

Lemma writeOrder_ok z payment order st h :
  order_written payment order st h -> fresh h ->
  runs_ok z [] (writeOrder callback booked st (p_no payment) order) h.
Proof.
  intros Hw Hf. unfold writeOrder. apply issue_ok; [|intros w; by apply rollbackDone_ok, rest_idle].
  apply pop_ok.
  - exists payment, order. split; [|done]. eapply stable_written; [|exact Hw]. apply extends_cons, extends_refl.
  - intros [e|n]; [by apply rollbackDone_ok, rest_idle |]. simpl.
    assert (Hw' : order_written payment order st (stepped (UpdateOrderStatus (o_id order) st) (inr n) ::
      Event (Io Construct) None :: h)).
    { eapply stable_written; [|exact Hw]. by do 2 apply extends_cons; apply extends_refl. }
    destruct (booked st) eqn:Hb.
    + eapply insertLedgerEntry_ok; [exact Hw' | by left | done | done].
    + apply onceCall_ok; [done | eapply written_reported; [exact Hw' | by left] | apply rest_idle].
Qed.

(** ** The sum, and what waits behind it *)

(** The cell holds 0 or the settled refunds. *)
Definition cell_ok (z : Z) (h : trace) : Prop :=
  z = 0 \/ exists sums, In (stepped (SumRefunds (y_orderNo y) "REFUND_SUCCESS") (inr sums)) h /\
    Refunds.refund_sum_fen sums = Some z.

Lemma stable_cell z : stable (cell_ok z).
Proof.
  intros h h' He [-> | (sums & Hi & Hs)]; [by left |]. right. exists sums. split; [by eapply extends_in | done].
Qed.

Definition sum_task : task csvc := Task (SumRefunds (y_orderNo y) "REFUND_SUCCESS") onSettledSum.

(** What is queued when the callback of the transaction looks at the payment. *)
Definition ahead (queue : list (task csvc)) : Prop := queue = [] \/ queue = [sum_task].

Lemma sum_ok z queue h :
  cell_ok z h -> fresh h ->
  (forall z' h', extends h h' -> fresh h' -> cell_ok z' h' -> runs_ok z' queue Return h') ->
  runs_ok z (sum_task :: queue) Return h.
Proof.
  intros Hz Hf Hq. apply pop_ok; [done |]. intros a.
  assert (He : extends h (stepped (SumRefunds (y_orderNo y) "REFUND_SUCCESS") a :: h)) by apply extends_cons, extends_refl.
  destruct a as [e|sums]; [apply Hq; [done.. | by eapply stable_cell] |].
  intros fuel. simpl onSettledSum. rewrite drain_perform. simpl. apply Hq; [done.. |].
  destruct (Refunds.refund_sum_fen sums) as [fen|] eqn:E; [|by left]. right. exists sums. split; [by left | done].
Qed.

Lemma ahead_rest z queue h : cell_ok z h -> ahead queue -> rest_ok z queue h.
Proof.
  intros Hz [-> | ->]; [apply rest_idle |]. intros h' He Hf. apply sum_ok; [by eapply stable_cell | done |].
  intros z' h'' _ _ _. apply idle_ok.
Qed.

Lemma behind_ok z queue R (q : stmt R) k h :
  ahead queue -> cell_ok z h -> fresh h ->
  (forall z' h', extends h h' -> fresh h' -> cell_ok z' h' -> runs_ok z' [Task q k] Return h') ->
  runs_ok z (queue ++ [Task q k])%list Return h.
Proof.
  intros [-> | ->] Hz Hf Hq; [by apply Hq; [apply extends_refl | ..] |]. by apply sum_ok.
Qed.

(** ** The payment *)

Section Payment.
Context (findOrder : payment_row -> act csvc).
Context (Hfind : forall queue z payment h, ahead queue -> cell_ok z h -> fresh h -> proved payment h ->
  taken payment h -> runs_ok z queue (findOrder payment) h).

Lemma onCas_ok z payment h :
  cell_ok z h -> fresh h -> proved payment h ->
  forall a, runs_ok z [] (onCas callback (y_orderStatus y) (findOrder payment) a) (stepped (cas payment) a :: h).
Proof.
  intros Hz Hf Hp a. assert (He : extends h (stepped (cas payment) a :: h)) by apply extends_cons, extends_refl.
  destruct a as [e|[|u us]]; simpl; [by apply rollbackDone_ok, rest_idle | |].
  - unfold host, celled_hosts, svc_hosts. apply lift_ok; [done |]. intros r _.
    apply onceCall_ok; [done | | apply rest_idle]. right; right. exists payment.
    assert (Hx : extends h (Event (Io Rollback) r :: stepped (cas payment) (inr []) :: h)) by by apply extends_cons.
    split; [eapply stable_read; [exact Hx | apply Hp] |]. right; left. split; [done |].
    split; [by eapply stable_proved |]. right; by left.
  - apply Hfind; [by left | by eapply stable_cell | done | by eapply stable_proved |].
    right. exists u, us. by left.
Qed.

Lemma settlePayment_ok z queue payment h :
  ahead queue -> cell_ok z h -> fresh h -> proved payment h ->
  runs_ok z queue (settlePayment callback y payment (findOrder payment)) h.
Proof.
  intros Ha Hz Hf Hp. unfold settlePayment.
  destruct (String.eqb_spec (p_status payment) "SUCCESS") as [Hs|Hs]; [apply Hfind; try done; by left |].
  destruct (String.eqb_spec (p_status payment) "REFUNDED") as [Hr|Hr].
  - unfold host, celled_hosts, svc_hosts. apply lift_ok; [done |]. intros r _.
    apply onceCall_ok; [done | | by apply rest_cons, ahead_rest]. right; right. exists payment.
    split; [eapply stable_read; [apply extends_cons, extends_refl | apply Hp] |]. by left.
  - apply issue_ok; [|intros w; apply throw_ok]. apply behind_ok; try done.
    { eapply stable_cell; [|exact Hz]. apply extends_cons, extends_refl. }
    intros z' h' He Hf' Hz'. assert (Hp' : proved payment h').
    { eapply stable_proved; [|exact Hp]. destruct He as [l ->]. exists (l ++ [Event (Io Construct) None])%list.
      by rewrite <- app_assoc. }
    apply pop_ok; [|by apply onCas_ok]. exists payment. split; [done |].
    split; [simpl; naive_solver | by repeat split].
Qed.
End Payment.

Lemma idle_once st h : fresh h -> reported st h -> ok (idle (onceCall callback st)) h.
Proof. intros Hf Hs. exact (onceCall_ok 0 [] st h Hf Hs (rest_idle 0 h) 0%nat). Qed.

Lemma syncPayment_ok inTransaction h :
  fresh h ->
  (forall payment h', fresh h' -> proved payment h' -> runs_ok 0 [] (inTransaction payment) h') ->
  ok (syncPayment callback y settles inTransaction) h.
Proof.
  intros Hf Ht a _. split; [done |]. destruct a as [[|payment rows]|e|w]; try (apply idle_once; [done | by left]).
  { apply idle_once; [done |]. right; left. split; [done | by left]. }
  destruct (settles && _) eqn:Hg; [apply idle_once; [done | by left] |]. intros [] _. split; [done |]. apply Ht; [done |].
  split; [by exists rows; right; left |]. intros Hs. rewrite Hs in Hg. apply negb_false_iff, is_empty_true in Hg.
  apply reconcileAmountProblem_gate in Hg as [H1 H2]. by split.
Qed.
End Callbacks.
End Sync.

(** ** The two channels *)

Section Channels.
Context `{J : JsonLib}.
Abbreviation trace := (list (event svc)).
Abbreviation csvc := (celled svc).

Definition sync (alipay : bool) :=
  if alipay then syncOrderStatusFromAlipay else syncOrderStatusFromWechat.

(** The reading of a channel's answer. *)
Definition says (alipay : bool) (orderNo : string) (result : json) (y : answered) : Prop :=
  y_orderNo y = orderNo /\ y_payload y = toJsonString result /\
  if alipay then
    exists tradeStatus, get_string result "code" = Some "10000" /\
      get_string result "trade_status" = Some tradeStatus /\
      mapAlipayStatus tradeStatus = Some (y_orderStatus y, y_paymentStatus y) /\
      get_string result "trade_no" = Some (y_transactionId y) /\
      notified (y_orderStatus y) result = Some (y_fen y)
  else
    exists tradeState amount, get_string result "trade_state" = Some tradeState /\
      mapTradeState tradeState = (y_orderStatus y, y_paymentStatus y) /\
      get_string result "transaction_id" = Some (y_transactionId y) /\
      index result "amount" = Some amount /\ get_int64 amount "total" = Some (y_fen y).

Definition booked (alipay : bool) : string -> bool := if alipay then alipay_booked else wechat_booked.

(** The status an order may be given: the answer's; for Alipay PAID only when the
    order's amount is the answer's, too; for WeChat REFUNDED only when the settled
    refunds cover the order, and PAID in its place otherwise. *)
Definition final (alipay : bool) (y : answered) (order : order_row) (h : trace) (st : string) : Prop :=
  if alipay then
    st = y_orderStatus y /\ (st = "PAID" -> parseAmountToFen (o_amount order) = Some (y_fen y))
  else
    (st = y_orderStatus y \/ (y_orderStatus y = "REFUNDED" /\ st = "PAID")) /\
    (st = "REFUNDED" -> refunds_cover y order h).

Lemma stable_final alipay y order st : stable (fun h => final alipay y order h st).
Proof.
  intros h h' He. destruct alipay; simpl; [done |]. intros [H1 H2]. split; [done |]. intros E.
  by eapply stable_covered, H2.
Qed.

Context (callback : string -> act csvc) (Hcb : forall st, only_answers (callback st)).

Abbreviation allowed alipay y :=
  (sync_allowed y (booked alipay (y_orderStatus y)) (booked alipay) (final alipay y)).
Abbreviation ok_run alipay y :=
  (runs_ok y (booked alipay (y_orderStatus y)) (booked alipay) (final alipay y) callback).
Abbreviation told alipay y :=
  (reported y (booked alipay (y_orderStatus y))).

Lemma wechat_final y order z h :
  cell_ok y z h ->
  final false y order h (orderStatusAfterRefundCoverage (y_orderStatus y) (o_amount order) z).
Proof.
  intros Hz. unfold final, orderStatusAfterRefundCoverage, resolveRefundedOrderStatus.
  destruct (String.eqb_spec (y_orderStatus y) "REFUNDED") as [E|E]; simpl; [|by split; [left |]].
  destruct (refundsCoverOrderAmount z _) eqn:Hc; simpl; [|by split; [right |]].
  split; [by left |]. intros _. destruct Hz as [-> | (sums & Hi & Hs)]; [|by exists sums, z].
  apply refundsCover_true in Hc. lia.
Qed.

Lemma already_reported alipay y payment order st h h' :
  extends h h' -> proved y (booked alipay (y_orderStatus y)) payment h -> taken y payment h ->
  o_status order = "PAID" -> told alipay y st (stepped (FindOrder (y_orderNo y)) (inr order) :: h').
Proof.
  intros He Hp Ht Hs. assert (Hx := extends_cons (stepped (FindOrder (y_orderNo y)) (inr order)) h h' He).
  right; right. exists payment. split; [eapply stable_read; [exact Hx | apply Hp] |]. right; right. exists order.
  split; [by eapply stable_taken |]. split; [by eapply stable_proved |]. split; [by left | by left].
Qed.

Lemma findWechatOrder_ok y queue z payment h :
  ahead y queue -> cell_ok y z h -> fresh h -> proved y (booked false (y_orderStatus y)) payment h -> taken y payment h ->
  ok_run false y z queue (findWechatOrder callback y (p_no payment)) h.
Proof.
  intros Ha Hz Hf Hp Ht. unfold findWechatOrder.
  assert (Hx : extends h (Event (Io Construct) None :: h)) by apply extends_cons, extends_refl.
  apply issue_ok.
  - apply behind_ok; [done | by eapply stable_cell | done |]. intros z' h' He Hf' Hz'.
    assert (He' : extends h h') by (destruct He as [l ->]; exists (l ++ [Event (Io Construct) None])%list; by rewrite <- app_assoc).
    apply pop_ok; [done |]. intros [e|order]; simpl; [by apply rollbackDone_ok, rest_idle |].
    intros fuel. rewrite drain_perform. simpl. revert fuel.
    destruct (String.eqb_spec (o_status order) "PAID") as [Hs|Hs].
    { apply onceCall_ok; [done | done | by apply (already_reported false y payment order _ h) | apply rest_idle]. }
    apply writeOrder_ok; [done | exact (stable_final false y) | | done].
    set (h'' := _ :: h'). assert (Hx' : extends h h'') by by apply extends_cons.
    split; [by eapply stable_proved |]. split; [by eapply stable_taken |]. split; [by left |].
    split; [done |]. apply wechat_final. eapply stable_cell; [|exact Hz']. apply extends_cons, extends_refl.
  - intros w. apply rollbackDone_ok; [done | done |]. apply rest_cons. by apply ahead_rest.
Qed.

Lemma findAlipayOrder_ok y queue z payment h :
  ahead y queue -> cell_ok y z h -> fresh h -> proved y (booked true (y_orderStatus y)) payment h -> taken y payment h ->
  ok_run true y z queue (findAlipayOrder callback y (p_no payment)) h.
Proof.
  intros Ha Hz Hf Hp Ht. unfold findAlipayOrder. apply issue_ok.
  - apply behind_ok; [done | eapply stable_cell; [apply extends_cons, extends_refl | done] | done |].
    intros z' h' He Hf' Hz'.
    assert (He' : extends h h') by (destruct He as [l ->]; exists (l ++ [Event (Io Construct) None])%list; by rewrite <- app_assoc).
    apply pop_ok; [done |]. intros [e|order]; simpl; [by apply rollbackDone_ok, rest_idle |].
    destruct (String.eqb_spec (o_status order) "PAID") as [Hs|Hs].
    { apply onceCall_ok; [done | done | by apply (already_reported true y payment order _ h) | apply rest_idle]. }
    destruct (alipay_booked (y_orderStatus y) && _) eqn:Hg; [by apply rollbackDone_ok, rest_idle |].
    apply writeOrder_ok; [done | exact (stable_final true y) | | done].
    set (h'' := _ :: h'). assert (Hx' : extends h h'') by by apply extends_cons.
    split; [by eapply stable_proved |]. split; [by eapply stable_taken |]. split; [by left |].
    split; [done |]. split; [done |]. intros E. rewrite E in Hg. apply negb_false_iff in Hg.
    unfold amountEqualsFen in Hg. destruct (parseAmountToFen _); [|done]. by apply Z.eqb_eq in Hg as ->.
  - intros w. apply rollbackDone_ok; [done | done |]. apply rest_cons. by apply ahead_rest.
Qed.

(** What a sync does, whichever answer it reads; without a database the status of the
    answer is reported unbooked. *)
Definition channel_guarantee (alipay dbClient : bool) (orderNo : string) (result : json) (h : trace) (ev : event svc) : Prop :=
  match ev with
  | Event e _ =>
      match e with
      | Io (Step q) => exists y, says alipay orderNo result y /\ allowed alipay y h q
      | Answer r c => answers_of h = [] /\
          exists st, callback st = Perform (Lift (Answer r c)) (fun _ => Return) /\
            (st = "" \/ dbClient = false \/ exists y, says alipay orderNo result y /\ told alipay y st h)
      | Io (Sql Main (NewestAttempt _ _)) | Io Begin | Io Rollback | Io Now | Io Construct | Claim => True
      | _ => False
      end
  end.

Lemma guarantee_of alipay dbClient orderNo result y p h :
  says alipay orderNo result y ->
  safe once_rely (sync_guarantee y (booked alipay (y_orderStatus y)) (booked alipay) (final alipay y) callback) anything p h ->
  safe once_rely (channel_guarantee alipay dbClient orderNo result) anything p h.
Proof.
  intros Hy. apply (safe_mono once_rely (fun _ => True)); [done | | done].
  intros h' [R e r] _. simpl. destruct e as [R e| | | | |]; try done; [destruct e; try done; intros H; by exists y |].
  intros [Ha (st & Hs & Ht)]. split; [done |]. exists st. split; [done |]. right; right. by exists y.
Qed.

Lemma silent_once alipay (dbClient : bool) orderNo result st h :
  st = "" \/ dbClient = false -> fresh h -> safe once_rely (channel_guarantee alipay dbClient orderNo result) anything (idle (onceCall callback st)) h.
Proof.
  intros Hst Hf first Hr. split; [done |]. destruct first; [|done].
  simpl in Hr. apply eq_sym, negb_true_iff in Hr. simpl drain.
  destruct (Hcb st) as [E | [E | (r & c & E)]]; rewrite E; [done.. |].
  intros [] _. split; [|done]. split; [by apply Hf |]. exists st. tauto.
Qed.

Lemma sync_ok alipay dbClient orderNo result h :
  fresh h -> safe once_rely (channel_guarantee alipay dbClient orderNo result) anything
    (sync alipay dbClient orderNo result callback) h.
Proof.
  intros Hf. assert (Hone : forall st, st = "" \/ dbClient = false ->
    safe once_rely (channel_guarantee alipay dbClient orderNo result) anything
      (idle (onceCall callback st)) h) by (intros st Hst; by apply silent_once).
  destruct alipay; simpl sync.
  - unfold syncOrderStatusFromAlipay. destruct (get_string result "code") as [code|] eqn:Ec; [|done]. simpl try_.
    destruct (String.eqb_spec code "10000") as [->|_]; simpl negb; cbv iota; [|by apply Hone; left].
    destruct (get_string result "trade_status") as [ts|] eqn:Et; [|done]. simpl try_.
    destruct (is_empty ts); [by apply Hone; left |]. destruct (mapAlipayStatus ts) as [[os ps]|] eqn:Em; [|by apply Hone; left].
    destruct (get_string result "trade_no") as [txn|] eqn:En; [|done]. simpl try_.
    destruct (notified os result) as [fen|] eqn:Ef; [|done]. simpl try_.
    destruct dbClient; simpl negb; cbv iota; [|by apply Hone; right].
    set (y := AnsweredTrade orderNo os ps txn (toJsonString result) fen).
    apply (guarantee_of true true orderNo result y); [split; [done |]; split; [done |]; by exists ts |].
    apply syncPayment_ok; [done | done |]. intros payment h' Hf' Hp. unfold alipayInTransaction.
    apply (settlePayment_ok y _ _ _ callback Hcb (fun payment => findAlipayOrder callback y (p_no payment)));
      [intros; by apply findAlipayOrder_ok | by left | by left | done | done].
  - unfold syncOrderStatusFromWechat. destruct (get_string result "trade_state") as [ts|] eqn:Et; [|done]. simpl try_.
    destruct (is_empty ts); [by apply Hone; left |]. destruct (mapTradeState ts) as [os ps] eqn:Em.
    destruct (get_string result "transaction_id") as [txn|] eqn:En; [|done]. simpl try_.
    destruct (index result "amount") as [amount|] eqn:Ea; [|done]. simpl try_.
    destruct (get_int64 amount "total") as [fen|] eqn:Ef; [|done]. simpl try_.
    destruct dbClient; simpl negb; cbv iota; [|by apply Hone; right].
    set (y := AnsweredTrade orderNo os ps txn (toJsonString result) fen).
    apply (guarantee_of false true orderNo result y); [split; [done |]; split; [done |]; by exists ts, amount |].
    apply syncPayment_ok; [done | done |]. intros payment h' Hf' Hp. unfold wechatInTransaction.
    assert (Hs : forall queue h'', ahead y queue -> fresh h'' -> proved y (booked false (y_orderStatus y)) payment h'' ->
      ok_run false y 0 queue (settlePayment callback y payment (findWechatOrder callback y (p_no payment))) h'').
    { intros queue h'' Ha Hf'' Hp''.
      apply (settlePayment_ok y _ _ _ callback Hcb (fun payment => findWechatOrder callback y (p_no payment)));
        [intros; by apply findWechatOrder_ok | done | by left | done | done]. }
    destruct (String.eqb (y_orderStatus y) "REFUNDED"); [|by apply Hs; [left | ..]].
    apply issue_ok; [|intros w; apply throw_ok]. apply Hs; [by right | done |].
    eapply stable_proved; [|exact Hp]. apply extends_cons, extends_refl.
Qed.

Lemma sync_answers_once alipay dbClient orderNo result h :
  guaranteed (channel_guarantee alipay dbClient orderNo result) h -> (List.length (answers_of h) <= 1)%nat.
Proof.
  induction h as [|[R e r] h IH]; simpl; [lia |]. intros [Hg Hh]. specialize (IH Hh).
  destruct e; try done. simpl. destruct Hg as [-> _]. simpl; lia.
Qed.

(** ** Theorem *)

(** C26. Whatever the database answers, a sync writes only what the channel's answer
    proves: the newest attempt that can carry money is advanced from INIT or
    PROCESSING to the status of the answer, and for an answer that settles only if
    the answer names the positive amount the attempt asks for; an order that is not
    PAID gets the status of the answer after the attempt was advanced (or found
    SUCCESS), with REFUNDED only when the settled refunds cover it (WeChat) and PAID
    only for the order's amount (Alipay); the ledger gets a PAYMENT entry of the
    order's amount only after such a write.  The callback runs at most once. *)
Theorem sync_writes_justified alipay dbClient orderNo result o h :
  runs (logs once_rely) (sync alipay dbClient orderNo result callback) [] o h ->
  (List.length (answers_of h) <= 1)%nat /\
  forall h1 R (q : stmt R) a h2, h = (h1 ++ stepped q a :: h2)%list ->
    exists y, says alipay orderNo result y /\ allowed alipay y h2 q.
Proof.
  intros Hr. apply safe_sound with (Guar := channel_guarantee alipay dbClient orderNo result) (Fin := anything) in Hr as [Hg _];
    [|by apply sync_ok].
  split; [by eapply sync_answers_once |]. intros h1 R q a h2 ->. by apply guaranteed_at in Hg.
Qed.
End Channels.

(** ** Fuel

    How many statements each callback leads to, behind an empty queue. *)
Section Fuel.
Context `{J : JsonLib} (callback : string -> act (celled svc)) (Hcb : forall st, only_answers (callback st)).
Context (y : answered).

Lemma once_bounded n queue st : bounded n Return queue -> bounded n (onceCall callback st) queue.
Proof.
  intros Hq. apply bounded_perform. intros first. destruct first; [|done].
  destruct (Hcb st) as [-> | [-> | (r & c & ->)]]; [done | apply bounded_throw |]. by apply bounded_perform.
Qed.

Lemma rollback_bounded n queue : bounded n Return queue -> bounded n (rollbackDone callback) queue.
Proof. intros Hq. apply bounded_perform. intros r. by apply once_bounded. Qed.

Lemma issue_bounded n queue R (q : stmt R) k thrown next :
  bounded n next (queue ++ [Task q k])%list -> bounded n (I := celled svc) thrown queue ->
  bounded n (issue q k thrown next) queue.
Proof. intros Hn Ht. apply bounded_perform. intros [w|]; [done | by apply bounded_enqueue]. Qed.

Lemma insertRow_bounded u o p e a : bounded 1 (insertRow u o p e a) [].
Proof.
  apply bounded_perform. intros now. apply issue_bounded; [|apply bounded_idle].
  apply bounded_next. intros r. apply bounded_idle.
Qed.

Lemma insertLedgerEntry_bounded u o p e a st :
  bounded 2 (insertLedgerEntry u o p e a (onceCall callback st)) [].
Proof.
  unfold insertLedgerEntry. destruct (is_empty o || is_empty e).
  - apply bounded_perform. intros now. apply issue_bounded; apply once_bounded; [|apply bounded_idle].
    apply bounded_next. intros r. apply bounded_idle.
  - apply issue_bounded; apply once_bounded; [|apply bounded_idle]. apply bounded_next.
    intros [x|[|row rows]]; [apply bounded_idle | apply insertRow_bounded | apply bounded_idle].
Qed.

Lemma writeOrder_bounded booked st no order : bounded 3 (writeOrder callback booked st no order) [].
Proof.
  apply issue_bounded; [|by apply rollback_bounded, bounded_idle]. apply bounded_next.
  intros [x|z]; cbn [onOrderUpdated]; [by apply rollback_bounded, bounded_idle |].
  destruct (booked st); [apply insertLedgerEntry_bounded | by apply once_bounded, bounded_idle].
Qed.

Lemma wechatOrder_bounded no a : bounded 3 (onWechatOrder callback y no a) [].
Proof.
  destruct a as [x|order]; [by apply rollback_bounded, bounded_idle |]. apply bounded_perform. intros fen.
  destruct (String.eqb _ _); [by apply once_bounded, bounded_idle | by apply writeOrder_bounded].
Qed.

Lemma alipayOrder_bounded no a : bounded 3 (onAlipayOrder callback y no a) [].
Proof.
  destruct a as [x|order]; [by apply rollback_bounded, bounded_idle |]. cbn [onAlipayOrder].
  destruct (String.eqb _ _); [by apply once_bounded, bounded_idle |].
  destruct (_ && _); [by apply rollback_bounded, bounded_idle | by apply writeOrder_bounded].
Qed.

(** One more statement when the sum waits before. *)
Lemma behind_bounded n (sum : bool) R (q : stmt R) k :
  (forall a, bounded n (k a) []) ->
  bounded (S (S n)) Return ((if sum then [sum_task y] else []) ++ [Task q k])%list.
Proof.
  intros Hk. assert (Hq : bounded (S n) Return [Task q k]) by by apply bounded_next.
  destruct sum; [|by apply (bounded_more _ 1) in Hq; rewrite Nat.add_1_r in Hq].
  apply bounded_next. intros [x|sums]; [done |]. by apply bounded_perform.
Qed.

Lemma ahead_bounded n (sum : bool) : bounded (S n) Return (if sum then [sum_task y] else []).
Proof. destruct sum; [|apply bounded_idle]. apply bounded_next. intros [x|sums]; [apply bounded_idle |]. by apply bounded_perform; intros; apply bounded_idle. Qed.

Lemma settlePayment_bounded onOrder payment (sum : bool) :
  (forall a, bounded 3 (onOrder a) []) ->
  bounded 6 (settlePayment callback y payment
    (issue (FindOrder (y_orderNo y)) onOrder (rollbackDone callback) Return)) (if sum then [sum_task y] else []).
Proof.
  intros Ho. assert (Hfind : forall (sum : bool), bounded 5
    (issue (FindOrder (y_orderNo y)) onOrder (rollbackDone callback) Return) (if sum then [sum_task y] else [])).
  { intros b. apply issue_bounded; [by apply behind_bounded | by apply rollback_bounded, ahead_bounded]. }
  unfold settlePayment. destruct (String.eqb _ _); [exact (bounded_more 5 1 _ _ (Hfind sum)) |].
  destruct (String.eqb _ _).
  - apply bounded_perform. intros r. apply once_bounded, ahead_bounded.
  - apply issue_bounded; [|apply bounded_throw]. apply behind_bounded.
    intros [x|[|u us]]; cbn [onCas]; [by apply rollback_bounded, bounded_idle | |].
    + apply bounded_perform. intros r. by apply once_bounded, bounded_idle.
    + apply issue_bounded; [apply bounded_next; exact Ho | by apply rollback_bounded, bounded_idle].
Qed.

(** At most [fuel] statements run on the transaction, whatever they answer: by
    [Queued.drain_fuel], more fuel changes no execution. *)
Lemma sync_fuel_enough payment :
  bounded fuel (wechatInTransaction callback y payment) [] /\ bounded fuel (alipayInTransaction callback y payment) [].
Proof.
  split; [|exact (settlePayment_bounded _ payment false (alipayOrder_bounded (p_no payment)))].
  unfold wechatInTransaction. destruct (String.eqb _ _).
  - apply issue_bounded; [|apply bounded_throw].
    exact (settlePayment_bounded _ payment true (wechatOrder_bounded (p_no payment))).
  - exact (settlePayment_bounded _ payment false (wechatOrder_bounded (p_no payment))).
Qed.
End Fuel.

(** ** Witness *)

(** WeChat answers that the open order of 12.50 was paid. *)
Definition paid_answer : Tree.tree :=
  Tree.TObject [("trade_state", Tree.TString "SUCCESS"); ("transaction_id", Tree.TString "T1");
    ("amount", Tree.TObject [("total", Tree.TInt 1250)])].

Definition paying_db : db :=
  Db [] [PaymentRow "P1" "O1" "PROCESSING" "12.50" None None 1 None] [shop_order] [] [] [].

Definition tell (status : string) : act (celled (@svc lib0)) :=
  Perform (Lift (Answer (J := lib0) (Tree.TString status) 0)) (fun _ => Return).

Definition sync_run : outcome * (list (event (@svc lib0)) * @deployment lib0) :=
  run (recording (@handle_svc lib0 shop_sum shop_time))
    (@sync lib0 false true "O1" paid_answer tell)
    ([], @Deployment lib0 (World paying_db TxNone [] shop_time "u" [] []) [] [] [] false).

Definition sync_history : list (event (@svc lib0)) := fst (snd sync_run).

Lemma sync_runs : runs (logs once_rely) (@sync lib0 false true "O1" paid_answer tell) [] (fst sync_run) sync_history.
Proof.
  assert (H : guaranteed once_rely sync_history) by (vm_compute; by repeat split).
  exact (recorded_runs _ _ _ _ _ H).
Qed.

Lemma sync_writes_justified_witness :
  dp_answers (snd (snd sync_run)) = [(Tree.TString "PAID" : @json lib0, 0)] /\
  map o_status (d_orders (outlook (dp_world (snd (snd sync_run))))) = ["PAID"] /\
  (List.length (answers_of sync_history) <= 1)%nat /\
  forall h1 R (q : stmt R) a h2, sync_history = (h1 ++ @stepped lib0 R q a :: h2)%list ->
    exists y, @says lib0 false "O1" paid_answer y /\
      @sync_allowed lib0 y (booked false (y_orderStatus y)) (booked false) (@final lib0 false y) h2 R q.
Proof.
  split; [by vm_compute |]. split; [by vm_compute |].
  apply (@sync_writes_justified lib0 tell) with (dbClient := true) (o := fst sync_run); [|exact sync_runs].
  intros st. right. right. by exists (Tree.TString st), 0.
Defined.
