(* ===== verification/RefundSync.v ===== *)
(** * Refund syncs ([syncRefundStatusFromWechat] of RefundService): what they write
    whatever the database answers. *)
From S2P Require Import Prelude Cxx Json Effects Store Amount RefDb RefDbFacts Service Queued RefundService PaymentSync.
Import RefundService.Refunds.

(** ** Callbacks that queue statements *)

Section Walk.
Context `{J : JsonLib}.
Abbreviation trace := (list (event svc)).
Context (Guar : trace -> event svc -> Prop).

(** What a callback does is allowed, and so is what it queues, whenever its turn
    comes. *)
Fixpoint act_ok (a : act svc) (h : trace) : Prop :=
  match a with
  | Return | Throw => True
  | Perform e k => forall r, once_rely h (Event e r) -> Guar h (Event e r) /\ act_ok (k r) (Event e r :: h)
  | Enqueue q k next =>
      (forall h', extends h h' -> forall r, Guar h' (stepped q r) /\ act_ok (k r) (stepped q r :: h')) /\ act_ok next h
  end.

Definition task_ok (h : trace) (t : task svc) : Prop :=
  match t with
  | Task q k => forall h', extends h h' -> forall r, Guar h' (stepped q r) /\ act_ok (k r) (stepped q r :: h')
  end.

Lemma extends_trans (h1 h2 h3 : trace) : extends h1 h2 -> extends h2 h3 -> extends h1 h3.
Proof. intros [l ->] [l' ->]. exists (l' ++ l)%list. by rewrite app_assoc. Qed.

Lemma tasks_extend h h' queue : extends h h' -> Forall (task_ok h) queue -> Forall (task_ok h') queue.
Proof.
  intros He Hq. eapply Forall_impl; [exact Hq|]. intros [R q k] Ht h'' He'. apply Ht. by eapply extends_trans.
Qed.

Lemma drain_ok fuel a queue h :
  act_ok a h -> Forall (task_ok h) queue -> safe once_rely Guar anything (drain fuel a queue) h.
Proof.
  revert a queue h. induction fuel as [|fuel IH]; intros a;
    induction a as [| |R e k IHa|R q k _ a IHa]; intros queue h Ha Hq;
    rewrite ?drain_throw, ?drain_perform, ?drain_enqueue; try done.
  all: try (intros r Hr; destruct (Ha r Hr) as [Hg Hk]; split; [done|]; apply IHa; [done|];
    eapply tasks_extend; [apply extends_cons, extends_refl | done]; fail).
  all: try (destruct Ha as [Hk Hn]; apply IHa; [done | apply Forall_app; split; [done | by constructor]]; fail).
  all: destruct queue as [|[R q k] rest]; [by rewrite drain_idle|].
  - exact Logic.I.
  - rewrite drain_next. intros r _. inversion_clear Hq as [|? ? Ht Hrest].
    destruct (Ht h (extends_refl h) r) as [Hg Hk]. split; [done|]. apply IH; [done|].
    eapply tasks_extend; [apply extends_cons, extends_refl | done].
Qed.

(** A statement that is submitted, or not because the submission threw. *)
Lemma issue_act_ok R (q : stmt R) k thrown next h :
  (forall r, Guar h (Event (Io Construct) r)) ->
  (forall h', extends h h' -> forall r, Guar h' (stepped q r) /\ act_ok (k r) (stepped q r :: h')) ->
  (forall w, act_ok thrown (Event (Io Construct) (Some w) :: h)) ->
  act_ok next (Event (Io Construct) None :: h) ->
  act_ok (issue q k thrown next) h.
Proof.
  intros Hc Hq Ht Hn [w|] _; (split; [apply Hc|]); [apply Ht|]. split; [|done]. intros h' He. apply Hq.
  eapply extends_trans; [apply extends_cons, extends_refl | exact He].
Qed.
End Walk.

(** The answers of the environment may be added to what a program guarantees. *)
Lemma safe_relied {I} (Rely Guar : list (event I) -> event I -> Prop) Fin p h :
  safe Rely Guar Fin p h -> safe Rely (fun h ev => Rely h ev /\ Guar h ev) Fin p h.
Proof.
  revert h. induction p as [| |R e k IH]; intros h Hp; [done..|]. intros r Hr. destruct (Hp r Hr). split; [done|by apply IH].
Qed.

(** ** The sync *)

Section Sync.
Context `{J : JsonLib}.
Abbreviation trace := (list (event svc)).
Context (dbClient : bool) (refundNo : string) (result : json) (callback : string -> act svc).
(** The status and the number that the answer gives the refund. *)
Context (status refundId : string).

Definition refund_read (refund : refund_row) (h : trace) : Prop :=
  In (Event (Io (Sql Main (FindRefund refundNo))) (Ok refund)) h.

(** The row, read as not settled, was given the status. *)
Definition updated (refund : refund_row) (h : trace) : Prop :=
  refund_read refund h /\ r_status refund <> "REFUND_SUCCESS" /\
  exists n, In (stepped (UpdateRefund (r_id refund) status refundId) (inr n)) h.

Definition order_of (refund : refund_row) (order : order_row) (h : trace) : Prop :=
  In (stepped (FindOrder (r_order refund)) (inr order)) h.

Definition refund_sync_allowed (h : trace) {R} (q : stmt R) : Prop :=
  match q with
  | FindOrder _ | SumRefunds _ _ | FindLedger _ _ _ => True
  | UpdateRefund id st number =>
      exists refund, refund_read refund h /\ r_status refund <> "REFUND_SUCCESS" /\
        id = r_id refund /\ st = status /\ st <> "" /\ number = refundId
  | UpdateRefundPayload no payload => no = refundNo /\ payload = toJsonString result /\ exists refund, updated refund h
  | InsertLedger row =>
      status = "REFUND_SUCCESS" /\ exists refund order t, updated refund h /\ order_of refund order h /\
        row = LedgerRow (o_user order) (r_order refund) (r_payment refund) "REFUND" (r_amount refund) t /\
        (r_order refund = "" \/ In (stepped (FindLedger (r_order refund) "REFUND" (r_payment refund)) (inr [])) h)
  | RefundOrder no st =>
      st = "REFUNDED" /\ status = "REFUND_SUCCESS" /\ exists refund order sums fen, updated refund h /\
        order_of refund order h /\ o_status order = "PAID" /\ no = r_order refund /\
        In (stepped (SumRefunds (r_order refund) "REFUND_SUCCESS") (inr sums)) h /\ refund_sum_fen sums = Some fen /\
        refundsCoverOrderAmount fen (fen_or_zero (o_amount order)) = true
  | _ => False
  end.

(** Nothing was booked (the empty text), or the status is unbooked for want of a
    database, or the refund was settled before, or it was given the status. *)
Definition refund_reported (st : string) (h : trace) : Prop :=
  st = "" \/ st = status /\
    (dbClient = false \/ exists refund, refund_read refund h /\ (r_status refund = "REFUND_SUCCESS" \/ updated refund h)).

Definition refund_sync_guarantee (h : trace) (ev : event svc) : Prop :=
  match ev with
  | Event e _ =>
      match e with
      | Io (Step q) => refund_sync_allowed h q
      | Io (Sql Main (FindRefund no)) => no = refundNo
      | Io Begin | Io Rollback | Io Now | Io Construct | Claim => True
      | Answer r c =>
          (exists h0, h = Event Claim true :: h0) /\
          exists st, callback st = Perform (Answer r c) (fun _ => Return) /\ refund_reported st h
      | _ => False
      end
  end.
Abbreviation good := (act_ok refund_sync_guarantee).

(** The callback only answers. *)
Definition answers_only (a : act svc) : Prop :=
  a = Return \/ a = Throw \/ exists r c, a = Perform (Answer r c) (fun _ => Return).
Context (Hcb : forall st, answers_only (callback st)).

Lemma updated_extends refund h h' : extends h h' -> updated refund h -> updated refund h'.
Proof.
  intros He (Hr & Hs & n & Hn). split; [by eapply extends_in|]. split; [done|]. exists n. by eapply extends_in.
Qed.

Lemma reported_extends st h h' : extends h h' -> refund_reported st h -> refund_reported st h'.
Proof.
  intros He [->|[-> [H|(refund & Hr & H)]]]; [by left|right; split; [done|by left]|].
  right. split; [done|]. right. exists refund. split; [by eapply extends_in|].
  destruct H as [H|H]; [by left | right; by eapply updated_extends].
Qed.

Lemma once_good st h : refund_reported st h -> good (once callback st) h.
Proof.
  intros Hs first _. split; [done|]. destruct first; [|done].
  destruct (Hcb st) as [E|[E|(r & c & E)]]; rewrite E; [done..|]. intros [] _. split; [|done].
  split; [by exists h|]. exists st. split; [done|]. eapply reported_extends; [apply extends_cons, extends_refl|done].
Qed.

Lemma refund_rollback_good h : good (rollBackSync callback) h.
Proof. intros r _. split; [done|]. apply once_good. by left. Qed.

Lemma booked_reported refund h : updated refund h -> refund_reported status h.
Proof. intros Hu. right. split; [done|]. right. exists refund. split; [apply Hu|by right]. Qed.

(** A statement whose guarantee and continuation hold in every later history. *)
Lemma issue_good {R} (q : stmt R) k thrown next h :
  (forall h', extends h h' -> refund_sync_allowed h' q /\ forall r, good (k r) (stepped q r :: h')) ->
  (forall h', extends h h' -> good thrown h') -> (forall h', extends h h' -> good next h') ->
  good (issue q k thrown next) h.
Proof.
  intros Hq Ht Hn. apply issue_act_ok; [done| |intros w; apply Ht|apply Hn]; [|apply extends_cons, extends_refl..].
  intros h' He r. destruct (Hq h' He) as [Ha Hk]. by split.
Qed.

Lemma rolls_back h h' : extends h h' -> good (rollBackSync callback) h'.
Proof. intros _. apply refund_rollback_good. Qed.
#[local] Hint Resolve rolls_back refund_rollback_good : core.

Section Booked.
Context (refund : refund_row) (order : order_row).
Context (Hst : status = "REFUND_SUCCESS").

(** The order was read after the refund was updated. *)
Definition ready (h : trace) : Prop := updated refund h /\ order_of refund order h.

Lemma ready_extends h h' : extends h h' -> ready h -> ready h'.
Proof. intros He [Hu Ho]. split; [by eapply updated_extends | by eapply extends_in]. Qed.

Lemma ledger_good next h :
  ready h -> (forall h', extends h h' -> good next h') ->
  good (insertLedgerEntry (o_user order) (r_order refund) (r_payment refund) "REFUND" (r_amount refund) next) h.
Proof.
  intros Hr Hn. unfold insertLedgerEntry. destruct (is_empty (r_order refund) || is_empty "REFUND") eqn:E.
  - intros now _. split; [done|]. rewrite orb_false_r in E. apply is_empty_true in E.
    assert (Hx : forall h', extends (Event (Io Now) now :: h) h' -> extends h h')
      by (intros h'; apply extends_trans, extends_cons, extends_refl).
    apply issue_good; [|by auto..]. intros h' He. split; [|done].
    destruct (ready_extends h h' (Hx h' He) Hr) as [Hu Ho]. split; [done|]. exists refund, order, now. auto.
  - apply issue_good; [|done..]. intros h' He. split; [done|]. intros [e|[|row rows]]; [done| |done].
    intros now _. split; [done|]. apply issue_good; [|done..]. intros h'' He'. split; [|done].
    set (looked := stepped (FindLedger (r_order refund) "REFUND" (r_payment refund)) (inr [])) in He'.
    destruct (ready_extends h h'' ltac:(eapply extends_trans; [exact He|]; eapply extends_trans; [|exact He'];
      by do 2 apply extends_cons; apply extends_refl) Hr) as [Hu Ho].
    split; [done|]. exists refund, order, now. do 3 (split; [done|]). right. eapply extends_in; [exact He'|]. right; by left.
Qed.

Lemma sum_good h : ready h -> o_status order = "PAID" ->
  forall sums, In (stepped (SumRefunds (r_order refund) "REFUND_SUCCESS") sums) h ->
  good (onSyncSum callback status order (r_order refund) sums) h.
Proof.
  intros Hr Hp [e|sums] Hi; [by apply refund_rollback_good|]. unfold onSyncSum.
  destruct (refundsCoverOrderAmount _ _) eqn:Hc; [|by apply once_good, (booked_reported refund), Hr]. cbn [negb].
  apply issue_good; [|done..]. intros h' He. destruct (ready_extends h h' He Hr) as [Hu Ho]. split.
  - assert (Hpos := proj1 (refundsCover_true _ _) Hc). destruct (refund_sum_fen sums) as [fen|] eqn:Ef; [|simpl in Hpos; lia].
    split; [done|]. split; [done|]. exists refund, order, sums, fen. do 4 (split; [done|]). split; [by eapply extends_in|].
    split; [done|]. exact Hc.
  - intros [e|n]; [by apply refund_rollback_good|]. apply once_good, (booked_reported refund).
    eapply updated_extends; [|exact Hu]. apply extends_cons, extends_refl.
Qed.

Lemma order_good h : ready h -> good (onSyncOrder callback status refund (inr order)) h.
Proof.
  intros Hr. apply ledger_good; [done|]. intros h' He. apply (ready_extends h h' He) in Hr.
  destruct (String.eqb_spec (o_status order) "PAID") as [Hp|Hp]; [|by apply once_good, (booked_reported refund), Hr].
  apply issue_good; [|by auto|done]. intros h'' He'. split; [done|]. intros sums.
  apply sum_good; [|done|by left]. eapply ready_extends; [|exact Hr]. by apply extends_cons.
Qed.
End Booked.

Lemma transaction_good refund h :
  status <> "" -> refund_read refund h -> r_status refund <> "REFUND_SUCCESS" ->
  good (syncInTransaction callback refundNo status refundId refund result) h.
Proof.
  intros Hst0 Hr Hs. apply issue_good; [|by auto|done]. intros h' He. split.
  { exists refund. split; [by eapply extends_in|done]. }
  intros [e|n]; [by apply refund_rollback_good|]. set (h1 := _ :: h').
  assert (Hu : updated refund h1).
  { split; [right; by eapply extends_in|]. split; [done|]. exists n. by left. }
  apply issue_good; [|by auto|].
  - intros h2 He2. assert (Hu2 := updated_extends refund h1 h2 He2 Hu). split; [split; [done|]; split; [done|]; by exists refund|].
    intros [e|m]; [by apply refund_rollback_good|]. unfold onSyncPayload. destruct (String.eqb status "REFUND_SUCCESS"); [done|].
    apply once_good, (booked_reported refund). eapply updated_extends; [|exact Hu2]. apply extends_cons, extends_refl.
  - intros h2 He2. destruct (String.eqb_spec status "REFUND_SUCCESS") as [Hst|]; [|done].
    apply issue_good; [|by auto|done]. intros h3 He3. split; [done|]. intros [e|order]; [by apply refund_rollback_good|].
    apply order_good; [done|]. split; [|by left]. eapply updated_extends; [|exact Hu].
    apply extends_cons. by eapply extends_trans.
Qed.
End Sync.

(** ** Termination *)

Section Fuel.
Context `{J : JsonLib} (callback : string -> act svc) (Hcb : forall st, answers_only (callback st)).

Lemma refund_once_bounded fuel st queue : bounded fuel Return queue -> bounded fuel (once callback st) queue.
Proof.
  intros Hq. apply bounded_perform. intros [|]; [|done].
  destruct (Hcb st) as [->|[->|(r & c & ->)]]; [done|apply bounded_throw|by apply bounded_perform].
Qed.

(** Explore every way through the callbacks of the sync. *)
Ltac explore_sync :=
  repeat first
  [ apply bounded_throw
  | apply bounded_idle
  | apply refund_once_bounded
  | apply bounded_perform; intros ?
  | apply bounded_enqueue
  | apply bounded_next; intros ?
  | progress cbv beta iota zeta delta [app issue onSyncUpdated onSyncPayload onSyncOrder onSyncSum onSyncOrderWritten
      insertLedgerEntry insertLedgerRow rollBackSync]
  | match goal with
    | |- bounded _ (if ?x then _ else _) _ => destruct x
    | |- bounded _ (match ?x with _ => _ end) _ => destruct x
    end ].

(** At most seven statements run on the transaction, whatever they answer, so that more
    fuel changes no execution. *)
Lemma refund_sync_fuel_enough refundNo status refundId refund result {St}
    (step : forall R, svc R -> St -> R -> St -> Prop) more s o s' :
  runs step (drain syncFuel (syncInTransaction callback refundNo status refundId refund result) []) s o s' <->
  runs step (drain (syncFuel + more) (syncInTransaction callback refundNo status refundId refund result) []) s o s'.
Proof. apply drain_fuel. unfold syncFuel, syncInTransaction. explore_sync.
Qed.
End Fuel.

(** ** Theorems *)

Section Claims.
Context `{J : JsonLib}.
Abbreviation trace := (list (event svc)).
Context (dbClient : bool) (refundNo : string) (result : json) (callback : string -> act svc).
Context (Hcb : forall st, answers_only (callback st)).

(** What the answer of WeChat names; empty where it has no text. *)
Definition named_status : string := mapRefundStatus (default "" (get_string result "status")).
Definition named_refund : string := default "" (get_string result "refund_id").

Abbreviation guarantee := (refund_sync_guarantee dbClient refundNo result callback named_status named_refund).
Abbreviation told := (refund_reported dbClient refundNo named_status named_refund).

Lemma run_once st h : told st h -> safe once_rely guarantee anything (act_run (once callback st)) h.
Proof. intros Hs. by apply drain_ok; [apply once_good|]. Qed.

Lemma refund_sync_ok : safe once_rely guarantee anything (syncRefundStatusFromWechat dbClient refundNo result callback) [].
Proof.
  assert (H0 : forall h, safe once_rely guarantee anything (act_run (once callback "")) h)
    by (intros h; apply run_once; by left).
  unfold syncRefundStatusFromWechat, named_status, named_refund in *.
  destruct (get_string result "status") as [ws|]; [|exact Logic.I]. cbn [try_ default].
  destruct (is_empty ws); [apply H0|]. destruct (get_string result "refund_id") as [rid|]; [|exact Logic.I]. cbn [try_ default].
  destruct (is_empty (mapRefundStatus ws)) eqn:Hst; [apply H0|].
  assert (Hne : mapRefundStatus ws <> "") by (intros E; by rewrite E in Hst).
  destruct dbClient eqn:Hdb; cbn [negb].
  2: { apply drain_ok; [|done]. apply once_good; [done|]. right. split; [done|by left]. }
  intros a _. split; [done|]. destruct a as [refund|e|w]; [|apply H0..].
  assert (Hr : forall h, In (Event (Io (Sql Main (FindRefund refundNo))) (Ok refund)) h -> refund_read refundNo refund h) by done.
  destruct (String.eqb_spec (r_status refund) "REFUND_SUCCESS") as [Hs|Hs].
  - apply drain_ok; [|done]. apply once_good; [done|]. right. split; [done|]. right. exists refund. split; [by left|by left].
  - intros [] _. split; [done|]. apply drain_ok; [|done]. apply transaction_good; try done. right; by left.
Qed.

(** The callback was taken just now, and for the first time. *)
Definition just_claimed (h : trace) : bool :=
  match h with
  | [] => false
  | Event e r :: _ => match e in svc R return R -> bool with Claim => fun first => first | _ => fun _ => false end r
  end.

(** The answer follows the claim of the callback, which is given once. *)
Lemma claimed_once (h : trace) :
  guaranteed (fun h ev => once_rely h ev /\ guarantee h ev) h ->
  (claimed h = false -> answers_of h = []) /\ (List.length (answers_of h) <= 1)%nat /\
  (just_claimed h = true -> answers_of h = []).
Proof.
  induction h as [|[R e r] h IH]; [by split; [|split; [simpl; lia|]]|]. intros [[Hr Hg] Hh].
  destruct (IH Hh) as (H1 & H2 & H3). destruct e as [R e|channel op|q| |r' c|bound]; try done.
  - simpl in Hr. split; [done|]. split; [done|]. simpl. intros ->. apply H1. by destruct (claimed h).
  - destruct Hg as [(h0 & ->) _]. specialize (H3 eq_refl). simpl in *. rewrite H3. split; [done|]. split; [simpl; lia|done].
Qed.

(** A sync of a refund from the answer of WeChat, whatever the database answers: it
    answers at most once, with the status the answer names or with nothing; it gives
    the refund that status only when the row was read as not settled, books the ledger
    entry only after that, for a successful refund whose order was read and which was
    found without one, and moves the order to REFUNDED only when it was read as PAID
    and the settled refunds cover its amount. *)
Lemma refund_sync_sound o h :
  runs (logs once_rely) (syncRefundStatusFromWechat dbClient refundNo result callback) [] o h ->
  (List.length (answers_of h) <= 1)%nat /\
  (forall h1 r c u h2, h = (h1 ++ Event (Answer r c) u :: h2)%list ->
     exists st, callback st = Perform (Answer r c) (fun _ => Return) /\ told st h2) /\
  (forall h1 R (q : stmt R) a h2, h = (h1 ++ stepped q a :: h2)%list ->
     refund_sync_allowed refundNo result named_status named_refund h2 q).
Proof.
  intros Hr. destruct (safe_sound _ _ _ _ _ _ (safe_relied _ _ _ _ _ refund_sync_ok) Hr) as [Hg _].
  split; [by apply claimed_once|]. split.
  - intros h1 r c u h2 ->. apply guaranteed_at in Hg. by destruct Hg as [_ [_ Hg]].
  - intros h1 R q a h2 ->. apply guaranteed_at in Hg. by destruct Hg as [_ Hg].
Qed.
End Claims.
