(* ===== verification/WechatCreate.v ===== *)
(** * Creating a trade over the WeChat channel: PaymentService.v composed with
    WechatChannel.v.

    PaymentService closes an attempt when the error text of the channel proves that
    nothing was created; here the texts are the ones the channel writes. *)
From S2P Require Import Prelude Cxx Json Effects Store Amount RefDb Service RefundService PaymentService WechatChannel WechatTrust WechatRefund Scenario.

(** ** Error texts *)

(** The two services read the same texts alike, but for the answers that failed
    verification. *)
Lemma attempt_like_refund e :
  String.prefix "Alipay error: " e = false -> String.prefix "WeChat error: " e = false ->
  String.eqb e kNoPayableCode = false -> String.prefix "response signature verification failed" e = false ->
  attemptCertainlyNotCreated e = refundCertainlyDidNotHappen e.
Proof.
  unfold attemptCertainlyNotCreated, refundCertainlyDidNotHappen. intros -> -> -> ->.
  simpl orb. rewrite orb_false_r. by destruct (_ && _).
Qed.

Section Create.
Context `{J : JsonLib} `{C : Crypto} (c : wechat_config) (leftover : string -> json).

(** What PaymentService's callback gets. *)
Definition create_exchange (payload : json) (x : exchange) : channel_answer :=
  exchanged c leftover (createTransactionNative c payload (x_sentAt x) (x_nonce x)) x.

(** Nothing was sent. *)
Definition create_not_sent (payload : json) (x : exchange) : Prop :=
  exists e, createTransactionNative c payload (x_sentAt x) (x_nonce x) = Some (inl e).

(** Something answered, and the answer failed verification. *)
Definition unverified (x : exchange) : Prop :=
  exists resp e, x_result x = Received resp /\ x_verify c x resp = Some e.

Lemma signed_attempt now method path body nonce e :
  signed c now method path body nonce = inl e -> attemptCertainlyNotCreated e = true.
Proof.
  unfold signed, buildAuthorizationHeader, signMessage, readFile.
  destruct (_ || _); [by intros [= <-] |]. destruct (read_file _ _); [|by intros [= <-]].
  destruct (WechatChannel.sign _ _) as [stage|]; [|done]. intros [= <-]. by destruct stage.
Qed.

Lemma create_local payload now nonce e :
  createTransactionNative c payload now nonce = Some (inl e) -> attemptCertainlyNotCreated e = true.
Proof.
  unfold createTransactionNative. intros H. do 6 apply bind_Some in H as (? & _ & H). injection H as H.
  destruct (_ || _); [by injection H as <- | by eapply signed_attempt].
Qed.

Lemma create_answered x result error :
  status_ok x -> onAnswer leftover (Some (x_verify c x)) (w_timeoutMs c) (x_result x) = Some (result, error) ->
  error <> "" -> attemptCertainlyNotCreated error = true <-> refused c x \/ unverified x.
Proof.
  intros Hs H He. destruct (x_result x) as [| |resp] eqn:Hx.
  3: destruct (x_verify c x resp) as [ve|] eqn:Hv.
  3: { unfold onAnswer in H. rewrite Hv in H. injection H as <- <-. split; [|done]. intros _. right. by exists resp, ve. }
  all: assert (Hn : ~ unverified x) by (intros (r & e & Hr & He'); congruence).
  all: rewrite (attempt_like_refund error).
  all: try (rewrite <- Hx in H; rewrite (answer_certain c leftover x result error Hs H He); tauto).
  all: revert H; unfold onAnswer; rewrite ?Hv; try (by intros [= <- <-]).
  all: destruct (_ =? 204); [by intros [= <- <-] |]; destruct (_ || _).
  all: destruct (jparse _); try (by intros [= <- <-]).
  all: intros H; apply bind_Some in H as (? & _ & H); apply bind_Some in H as (? & _ & [= <- <-]); done.
Qed.

(** ** Theorem *)

(** C31. Which failures of a WeChat create PaymentService takes as proof that no trade
    exists, and closes the attempt for: nothing was sent, WeChat refused in a
    verified 4xx with its error envelope - and also every answer that failed
    verification, after which the trade may exist.  RefundService excludes that
    case. *)
Theorem attempt_certain_cases payload x result error :
  status_ok x -> create_exchange payload x = Answered result error -> error <> "" ->
  attemptCertainlyNotCreated error = true <-> create_not_sent payload x \/ refused c x \/ unverified x.
Proof.
  unfold create_exchange, exchanged, create_not_sent. intros Hs Hx He.
  destruct (createTransactionNative _ _ _ _) as [[e|req]|] eqn:Hr; [| |done].
  - injection Hx as <- <-. split; [intros _; left; by exists e |]. intros _. by eapply create_local.
  - destruct (onAnswer _ _ _ _) as [[result' error']|] eqn:Ho; [|done]. injection Hx as -> ->.
    rewrite (create_answered x result error Hs Ho He). naive_solver.
Qed.
End Create.

(** ** Witness *)

(** WeChat created the trade; its answer carries a signature that does not verify. *)
Definition unsigned_answer : http_response :=
  HttpResponse 200 (fun k => if String.eqb k "Wechatpay-Serial" then "ab" else "forged") "body".

Definition unsigned_exchange : exchange := Exchange 150 "n" (Received unsigned_answer) 200 Toy.after true true.

Definition trade : @json Toy.toy_json :=
  Tree.TObject [("out_trade_no", Tree.TString "O1"); ("description", Tree.TString "a book")].

Lemma attempt_certain_cases_witness :
  let error := "response signature verification failed: signature verify failed" in
  create_exchange Toy.config (fun _ => jnull) trade unsigned_exchange = Answered jnull error /\
  unverified Toy.config unsigned_exchange /\
  refundCertainlyDidNotHappen error = false /\ attemptCertainlyNotCreated error = true.
Proof.
  cbv zeta. assert (Ha : create_exchange Toy.config (fun _ => jnull) trade unsigned_exchange =
    Answered jnull "response signature verification failed: signature verify failed") by (vm_compute; reflexivity).
  assert (Hu : unverified Toy.config unsigned_exchange)
    by (exists unsigned_answer, "signature verify failed"; split; [done | vm_compute; reflexivity]).
  split; [exact Ha | split; [exact Hu | split; [reflexivity |]]].
  apply (attempt_certain_cases Toy.config (fun _ => jnull) trade unsigned_exchange _ _
    (fun resp H => ltac:(injection H as <-; simpl; lia)) Ha ltac:(done)). right. right. exact Hu.
Defined.
