(* ===== verification/PaymentAck.v ===== *)
(** * What a payment notification may do, against every environment.

    The theorems hold for every answer the database, Redis and the clock may
    give (transactions behave as [txn_rely] says), for every JSON library and
    every WeChat client. *)
From S2P Require Import Prelude Cxx Json Effects Store Amount Callback RefDb Scenario.
Import Callback.Payment.

Section Spec.
Context `{J : JsonLib}.

Abbreviation answered h q r := (In (Event (Sql Txn q) (Ok r)) h).

(** The locking read returned [payment] first. *)
Definition locked (n : notice) (payment : payment_row) (h : trace) : Prop :=
  exists rest, answered h (NewestOpenAttempt true (n_order n)) (payment :: rest).

(** The notification agrees with the locked attempt and its order. *)
Definition notice_agrees (n : notice) (payment : payment_row) (order : order_row) : Prop :=
  exists amountJson currency total,
    index (n_plain n) "amount" = Some amountJson /\
    get_string amountJson "currency" = Some currency /\
    get_int64 amountJson "total" = Some total /\
    0 < total /\ parseAmountToFen (p_amount payment) = Some total /\
    (currency = "" \/ currency = o_currency order) /\
    (default "" (p_trade_no payment) = "" \/ n_txn n = "" \/
     p_trade_no payment = Some (n_txn n)).

(** The order status a notification books: the mapped one, a refund claim
    being decided by the settled refunds. *)
Definition status_booked (n : notice) (order : order_row) (status : string) (h : trace) : Prop :=
  let claimed := fst (mapTradeState (n_state n)) in
  (claimed <> "REFUNDED" /\ status = claimed) \/
  (claimed = "REFUNDED" /\ exists sums,
     answered h (SumRefunds (n_order n) "REFUND_SUCCESS") sums /\
     status = resolveBySum "REFUNDED" order sums).

Definition books_income (status : string) : bool :=
  String.eqb status "PAID" || String.eqb status "REFUNDED".

(** The ledger entry was issued and did not fail, and the reservation this
    delivery owns was finalized in the same transaction. *)
Definition income_booked (n : notice) (owner : string) (payment : payment_row)
    (order : order_row) (h : trace) : Prop :=
  (exists created a,
     In (Event (Sql Txn (InsertLedger (LedgerRow (o_user order) (n_order n) (p_no payment)
            "PAYMENT" (o_amount order) created))) a) h /\
     match a with Exc _ => False | _ => True end) /\
  exists k ks, answered h (Finalize (n_plaintext n) (n_key n) owner) (k :: ks).

Definition settle_statement (n : notice) (payment : payment_row) : stmt (list unit) :=
  SettlePayment (snd (mapTradeState (n_state n))) (n_txn n) (n_plaintext n) (p_no payment).

(** The settlement is durable. *)
Definition settlement_committed (n : notice) (h : trace) : Prop :=
  exists payment order status owner x xs count,
    locked n payment h /\ notice_agrees n payment order /\
    answered h (GetPayOrder (p_order payment)) order /\
    status_booked n order status h /\
    answered h (settle_statement n payment) (x :: xs) /\
    answered h (UpdateOrderStatus (o_id order) status) count /\
    (books_income status = true -> income_booked n owner payment order h) /\
    answered h Commit tt.

(** What makes acknowledging a notification sound. *)
Inductive ack_justified (n : notice) (h : trace) : Prop :=
| ack_committed : settlement_committed n h -> ack_justified n h
| ack_final payment :
    locked n payment h -> p_status payment = "SUCCESS" \/ p_status payment = "REFUNDED" ->
    ack_justified n h
| ack_raced payment :
    locked n payment h -> answered h (settle_statement n payment) [] -> ack_justified n h
| ack_duplicate existing snapshot row :
    In (Event (Sql Main (FindIdempotency (n_key n))) (Ok existing)) h ->
    i_snapshot existing = Some snapshot ->
    c_body row = n_body n -> In (Event (Sql Main (InsertCallback row)) (Ok tt)) h ->
    ack_justified n h.

(** What may precede a write that moves money state. *)
Definition settle_justified (n : notice) (h : trace)
    (status trade_no payload no : string) : Prop :=
  exists payment order row,
    locked n payment h /\ answered h (GetPayOrder (p_order payment)) order /\
    notice_agrees n payment order /\
    p_status payment <> "SUCCESS" /\ p_status payment <> "REFUNDED" /\
    c_body row = n_body n /\ c_payment row = p_no payment /\ answered h (InsertCallback row) tt /\
    status = snd (mapTradeState (n_state n)) /\ trade_no = n_txn n /\
    payload = n_plaintext n /\ no = p_no payment.

Definition settled (n : notice) (h : trace) : Prop :=
  exists payment x xs, answered h (settle_statement n payment) (x :: xs).

(** The guarantee of the handler for one notification. *)
Definition payment_guarantee (n : notice) (h : trace) (ev : event io) : Prop :=
  match ev with
  | Event e _ =>
      match e with
      | Respond r => replies h = 0%nat /\ (rp_code r = "SUCCESS" -> ack_justified n h)
      | @Sql _ Txn q =>
          match q with
          | SettlePayment status trade_no payload no =>
              settle_justified n h status trade_no payload no
          | UpdateOrderStatus _ _ => settled n h
          | InsertLedger _ => settled n h
          | _ => True
          end
      | _ => True
      end
  end.

(** A genuine notification: what the checks before the database establish. *)
Definition genuine (redis : bool) (wc : wechat_client) (body signature timestamp nonce serial : string)
    (n : notice) (h : trace) : Prop :=
  wc_verify wc timestamp nonce body signature serial = true /\
  (exists now, In (Event Now now) h /\ timestampFresh timestamp (Z.quot now 1000000) = None) /\
  (redis = false \/ nonce = "" \/
   exists a, In (Event (RedisSetNx ("cb:nonce:" +:+ nonce)) a) h /\ a <> RedisNil) /\
  n_body n = body /\ n_signature n = signature /\ n_serial n = serial /\
  jparse (n_plaintext n) = Some (n_plain n) /\
  get_string (n_plain n) "out_trade_no" = Some (n_order n) /\
  get_string (n_plain n) "transaction_id" = Some (n_txn n) /\
  get_string (n_plain n) "trade_state" = Some (n_state n) /\
  n_order n <> "" /\ tradeStateValid (n_state n) = true /\
  (exists appid, get_string (n_plain n) "appid" = Some appid /\
     (appid = "" \/ appid = wc_appid wc)) /\
  (exists mchid, get_string (n_plain n) "mchid" = Some mchid /\
     (mchid = "" \/ mchid = wc_mchid wc)) /\
  (exists cipher nonceStr, wc_decrypt wc cipher nonceStr "transaction" = inr (n_plaintext n)).

(** The guarantee of the whole handler. *)
Definition handler_guarantee (wechat : option wechat_client) (redis : bool)
    (body signature timestamp nonce serial : string) (h : trace) (ev : event io) : Prop :=
  let for_genuine (P : notice -> Prop) :=
    exists wc n, wechat = Some wc /\ genuine redis wc body signature timestamp nonce serial n h /\ P n in
  match ev with
  | Event e _ =>
      match e with
      | Respond r =>
          replies h = 0%nat /\
          (rp_code r = "SUCCESS" -> for_genuine (fun n => ack_justified n h))
      | @Sql _ Txn q =>
          match q with
          | SettlePayment status trade_no payload no =>
              for_genuine (fun n => settle_justified n h status trade_no payload no)
          | UpdateOrderStatus _ _ => for_genuine (fun n => settled n h)
          | InsertLedger _ => for_genuine (fun n => settled n h)
          | _ => True
          end
      | _ => True
      end
  end.
End Spec.

(** The three ways out of the checks of a notification. *)
Lemma checkNotice_cases `{J : JsonLib} (n : notice) payment order k (P : program -> Prop) :
  (forall m e, P (refuse m e)) -> P Escape -> (notice_agrees n payment order -> P k) ->
  P (checkNotice n payment order k).
Proof.
  intros Hr He Hk. unfold checkNotice.
  destruct (index (n_plain n) "amount") as [amountJson|] eqn:Ea; [|done]. cbn [try_].
  destruct (get_string amountJson "currency") as [currency|] eqn:Ec; [|done]. cbn [try_].
  destruct (get_int64 amountJson "total") as [total|] eqn:Et; [|done]. cbn [try_].
  destruct (parseAmountToFen (p_amount payment)) as [fen|] eqn:Ep; [|by apply Hr].
  destruct (Z.leb_spec total 0); [by apply Hr |].
  destruct (negb (is_empty currency) && negb (String.eqb currency (o_currency order))) eqn:Ecur;
    [by apply Hr |].
  destruct (Z.eqb_spec total fen) as [->|]; [|by apply Hr]. cbn [negb].
  destruct (get_int64 amountJson "payer_total") as [payer|]; [|done]. cbn [try_].
  destruct (isMember amountJson "payer_total") as [has|]; [|done]. cbn [try_].
  destruct (has && (fen <? payer)); [by apply Hr |].
  destruct (_ && negb (String.eqb _ (n_txn n))) eqn:Etx; [by apply Hr |].
  apply Hk. exists amountJson, currency, fen. repeat split; try done.
  - apply andb_false_iff in Ecur. rewrite !negb_false_iff, is_empty_true, String.eqb_eq in Ecur. tauto.
  - rewrite !andb_false_iff, !negb_false_iff, !is_empty_true, String.eqb_eq in Etx.
    destruct (p_trade_no payment) as [t|]; simpl in *; [|by left].
    destruct Etx as [[->|E]|E]; [by left | by right; left |]. right; right. congruence.
Qed.

(** ** Automation: symbolic execution *)

Create HintDb history discriminated.
#[export] Hint Resolve in_eq in_cons : history.

(** One interaction: its guarantee is left first when it is not trivial. *)
Ltac step :=
  apply safe_vis; [intros ?r ?Hrely; simpl; try done | intros ?r ?Hrely].

Section Proofs.
Context `{J : JsonLib} (md5 : string -> string).
Context (wechat : option wechat_client) (redis : bool).
Context (n : notice).

Abbreviation answered h q r := (In (Event (Sql Txn q) (Ok r)) h).
Abbreviation ok := (safe txn_rely (payment_guarantee n) answers_once).

Lemma locked_cons payment ev h : locked n payment h -> locked n payment (ev :: h).
Proof. intros [rest H]. exists rest. auto with history. Qed.

Lemma income_cons owner payment order ev h :
  income_booked n owner payment order h -> income_booked n owner payment order (ev :: h).
Proof.
  intros [(c & a & H & Ha) (k & ks & H')]. split; [exists c, a | exists k, ks]; auto with history.
Qed.

Lemma status_cons order status ev h :
  status_booked n order status h -> status_booked n order status (ev :: h).
Proof.
  intros [H|(H & sums & Hs & E)]; [by left | right]. split; [done |]. exists sums. auto with history.
Qed.

Hint Resolve locked_cons income_cons status_cons : history.

Lemma finish_ok h : replies h = 0%nat -> ack_justified n h -> ok (finish success_reply) h.
Proof. intros Hr Hj. step. simpl. by rewrite Hr. Qed.

Lemma finish_fail h m e : replies h = 0%nat -> ok (finish (fail_reply m e)) h.
Proof. intros Hr. step; try by split. simpl. by rewrite Hr. Qed.

Lemma respond_ok h r e :
  replies h = 0%nat -> rp_code r <> "SUCCESS" -> ok (respond r e) h.
Proof.
  intros Hr Hc. unfold respond. destruct (is_empty e); (step; try by split); simpl; by rewrite Hr.
Qed.

Hint Resolve finish_fail : history.

(** What is known once the order row was updated. *)
Record booked (h : trace) (owner status : string) (payment : payment_row) (order : order_row) :
    Prop := Booked {
  bk_locked : locked n payment h;
  bk_agrees : notice_agrees n payment order;
  bk_order : answered h (GetPayOrder (p_order payment)) order;
  bk_status : status_booked n order status h;
  bk_settled : exists x xs, answered h (settle_statement n payment) (x :: xs);
  bk_updated : exists c, answered h (UpdateOrderStatus (o_id order) status) c
}.

Lemma booked_cons ev h owner status payment order :
  booked h owner status payment order -> booked (ev :: h) owner status payment order.
Proof.
  intros [? ? ? ? (x & xs & ?) (c & ?)].
  constructor; try exists x, xs; try exists c; auto with history.
Qed.

Hint Resolve booked_cons : history.

Lemma booked_ack h owner status payment order :
  booked h owner status payment order ->
  (books_income status = true -> income_booked n owner payment order h) ->
  answered h Commit tt -> ack_justified n h.
Proof.
  intros [? ? ? ? (x & xs & ?) (c & ?)] Hi Hc. apply ack_committed.
  by exists payment, order, status, owner, x, xs, c.
Qed.

Lemma commitFinalized_ok h owner status payment order :
  replies h = 0%nat -> booked h owner status payment order ->
  income_booked n owner payment order h -> ok commitFinalized h.
Proof.
  intros Hr Hb Hi. step. destruct r as [[]|e|w]; [|step; by apply finish_fail | done].
  apply finish_ok; [done |]. eapply booked_ack; eauto with history.
Qed.

Lemma finalizeAndCommit_ok h owner status payment order :
  replies h = 0%nat -> booked h owner status payment order ->
  (exists created a,
     In (Event (Sql Txn (InsertLedger (LedgerRow (o_user order) (n_order n) (p_no payment)
            "PAYMENT" (o_amount order) created))) a) h /\
     (txn_usable h = true -> match a with Exc _ => False | _ => True end)) ->
  ok (finalizeAndCommit n owner) h.
Proof.
  intros Hr Hb (created & a & Hl & Ha). step. destruct r as [[|k ks]|e|w];
    [step; by apply finish_fail | | step; by apply finish_fail..].
  specialize (Ha Hrely). eapply commitFinalized_ok; [done | by apply booked_cons |].
  split; [exists created, a | exists k, ks]; auto with history.
Qed.

Lemma commitThenFinalize_ok h owner status payment order :
  replies h = 0%nat -> booked h owner status payment order ->
  books_income status = false -> ok (commitThenFinalize n owner) h.
Proof.
  intros Hr Hb Hs. step. destruct r as [[]|e|w]; [|by apply finish_fail | done].
  step. destruct r as [[|k ks]|e|w]; (apply finish_ok; [done |]); eapply booked_ack;
    eauto with history; congruence.
Qed.

Lemma onOrderUpdated_ok h owner status payment order :
  replies h = 0%nat -> booked h owner status payment order -> txn_usable h = true ->
  ok (onOrderUpdated n owner status payment order) h.
Proof.
  intros Hr Hb Hu. unfold onOrderUpdated.
  destruct (String.eqb status "PAID" || String.eqb status "REFUNDED") eqn:Hs;
    [|by eapply commitThenFinalize_ok].
  step. step.
  { destruct (bk_settled _ _ _ _ _ Hb) as (x & xs & ?). exists payment, x, xs. auto with history. }
  destruct r0 as [u|e|w]; (eapply finalizeAndCommit_ok; [done | by do 2 apply booked_cons |]);
    eexists r, _; (split; [apply in_eq | done]) || (split; [apply in_eq |]; by destruct e).
Qed.

Lemma onAlreadyAdvanced_ok h payment :
  replies h = 0%nat -> locked n payment h ->
  answered h (settle_statement n payment) [] -> ok (onAlreadyAdvanced n payment) h.
Proof.
  intros Hr Hl Hs. step. step. step. destruct r1 as [[]|e|w];
    (apply finish_ok; [done |]); eapply ack_raced; eauto with history.
Qed.

(** What is known before the settlement statement. *)
Record examined (h : trace) (payment : payment_row) (order : order_row) : Prop := Examined {
  ex_locked : locked n payment h;
  ex_order : answered h (GetPayOrder (p_order payment)) order;
  ex_agrees : notice_agrees n payment order;
  ex_open : p_status payment <> "SUCCESS" /\ p_status payment <> "REFUNDED"
}.

Lemma examined_cons ev h payment order : examined h payment order -> examined (ev :: h) payment order.
Proof. intros []. constructor; auto with history. Qed.

Hint Resolve examined_cons : history.

Lemma onSettled_ok h owner status payment order r :
  replies h = 0%nat -> examined h payment order -> status_booked n order status h ->
  answered h (settle_statement n payment) r -> txn_usable h = true ->
  ok (onSettled n owner status payment order r) h.
Proof.
  intros Hr [Hl Ho Ha Hop] Hst Hs Hu. destruct r as [|x xs]; [by apply onAlreadyAdvanced_ok |].
  step; [by exists payment, x, xs |].
  destruct r as [c|e|w]; [|by apply finish_fail | step; by apply finish_fail].
  apply onOrderUpdated_ok; [done | | done]. constructor; auto with history.
  - exists x, xs. auto with history.
  - exists c. auto with history.
Qed.

Lemma recordAndSettle_ok h owner status payment order :
  replies h = 0%nat -> examined h payment order ->
  (txn_usable h = true -> status_booked n order status h) ->
  ok (recordAndSettle n owner status (snd (mapTradeState (n_state n))) payment order) h.
Proof.
  intros Hr He Hst. step. step.
  destruct r0 as [[]|e|w]; [|by apply finish_fail | step; by apply finish_fail].
  specialize (Hst Hrely0). step.
  - destruct He as [Hl Ho Ha [H1 H2]].
    exists payment, order, (callbackRow n (p_no payment) r).
    repeat split; first [reflexivity | auto with history].
  - destruct r0 as [rows|e|w]; [|by apply finish_fail | done].
    apply onSettled_ok; auto with history.
Qed.

Lemma resolveOrderStatus_ok h order status k :
  replies h = 0%nat -> status = fst (mapTradeState (n_state n)) ->
  (forall ev h', h' = h \/ (h' = ev :: h /\ replies h' = 0%nat) ->
     forall resolved, (txn_usable h' = true -> status_booked n order resolved h') ->
     ok (k resolved) h') ->
  ok (resolveOrderStatus n order status k) h.
Proof.
  intros Hr Hs Hk. unfold resolveOrderStatus.
  destruct (String.eqb_spec status "REFUNDED") as [E|E].
  - step. destruct r as [sums|e|w]; [| |done].
    + eapply Hk; [by right |]. intros _. unfold status_booked. rewrite <- Hs. cbv zeta.
      right. split; [done |]. exists sums.
      rewrite E. auto with history.
    + eapply Hk; [by right |]. simpl. by destruct e.
  - eapply (Hk (Event Now 0)); [by left |]. intros _. unfold status_booked.
    rewrite <- Hs. by left.
Qed.

Lemma refuse_ok h m e : replies h = 0%nat -> ok (refuse m e) h.
Proof. intros Hr. step. by apply finish_fail. Qed.

Lemma checkNotice_ok h payment order k :
  replies h = 0%nat -> (notice_agrees n payment order -> ok k h) ->
  ok (checkNotice n payment order k) h.
Proof.
  intros Hr Hk. apply checkNotice_cases; [|done|done]. intros. by apply refuse_ok.
Qed.

Lemma onOrder_ok h owner payment order :
  replies h = 0%nat -> locked n payment h ->
  answered h (GetPayOrder (p_order payment)) order ->
  p_status payment <> "SUCCESS" /\ p_status payment <> "REFUNDED" ->
  ok (onOrder n owner payment order) h.
Proof.
  intros Hr Hl Ho Hop. unfold onOrder. apply checkNotice_ok; [done |]. intros Ha.
  destruct (mapTradeState (n_state n)) as [os ps] eqn:Em.
  apply resolveOrderStatus_ok; [done | by rewrite Em |]. intros ev h' Hh' resolved Hst.
  replace ps with (snd (mapTradeState (n_state n))) by (by rewrite Em).
  apply recordAndSettle_ok; [by destruct Hh' as [->|[_ ?]] | | done].
  destruct Hh' as [->|[-> _]]; [by constructor | apply examined_cons; by constructor].
Qed.

Lemma onLocked_ok h owner rows :
  replies h = 0%nat -> answered h (NewestOpenAttempt true (n_order n)) rows ->
  ok (onLocked n owner rows) h.
Proof.
  intros Hr Hl. destruct rows as [|payment rest]; [step; by apply finish_fail |].
  assert (Hlock : locked n payment h) by (by exists rest). unfold onLocked.
  destruct (String.eqb_spec (p_status payment) "SUCCESS") as [E|E1]; cbn [orb].
  { step. apply finish_ok; [done |]. eapply ack_final; eauto with history. }
  destruct (String.eqb_spec (p_status payment) "REFUNDED") as [E|E2].
  { step. apply finish_ok; [done |]. eapply ack_final; eauto with history. }
  step. destruct r as [order|e|w]; [|by apply finish_fail | done].
  apply onOrder_ok; auto with history.
Qed.

Lemma settleInTransaction_ok h owner : replies h = 0%nat -> ok (settleInTransaction n owner) h.
Proof.
  intros Hr. step. step. destruct r0 as [rows|e|w];
    [apply onLocked_ok; auto with history | by apply finish_fail | step; by apply finish_fail].
Qed.

Lemma recordDuplicate_ok h existing snapshot :
  replies h = 0%nat -> In (Event (Sql Main (FindIdempotency (n_key n))) (Ok existing)) h ->
  i_snapshot existing = Some snapshot -> ok (recordDuplicate n) h.
Proof.
  intros Hr Hf Hs. step.
  destruct r as [[|payment rest]|e|w]; [by apply finish_fail | | by apply finish_fail..].
  step. step. destruct r0 as [[]|e|w]; [|by apply finish_fail..].
  apply finish_ok; [done |]. eapply (ack_duplicate n _ existing snapshot); eauto with history. done.
Qed.

Lemma proceedWithDb_ok h : replies h = 0%nat -> ok (proceedWithDb md5 n) h.
Proof.
  intros Hr. step. destruct r as [existing|[w|w]|w]; [| |by apply finish_fail..].
  - destruct (i_snapshot existing) as [snapshot|] eqn:Es;
      [eapply recordDuplicate_ok; eauto with history |].
    step. destruct r as [c|e|w]; by apply finish_fail.
  - step. step. step.
    destruct r1 as [[|x xs]|e|v]; [by apply finish_fail | | by apply finish_fail..].
    by apply settleInTransaction_ok.
Qed.
End Proofs.

Section Handler.
Context `{J : JsonLib} (md5 : string -> string).
Context (wechat : option wechat_client) (redis : bool).
Context (body signature timestamp nonce serial : string).

Abbreviation top := (safe txn_rely
  (handler_guarantee wechat redis body signature timestamp nonce serial) answers_once).
Abbreviation genuine_here wc := (genuine redis wc body signature timestamp nonce serial).

Lemma genuine_cons wc n ev h : genuine_here wc n h -> genuine_here wc n (ev :: h).
Proof.
  intros (Hv & (now & Hn & Ht) & Hnonce & H). split; [done |]. split.
  { exists now. auto with history. }
  split; [|done]. destruct Hnonce as [E|[E|(a & Ha & Hne)]]; [by left | by right; left |].
  right; right. exists a. auto with history.
Qed.

(** From one genuine notification to the handler. *)
Lemma lift_guarantee wc n p h :
  wechat = Some wc -> genuine_here wc n h ->
  safe txn_rely (payment_guarantee n) answers_once p h -> top p h.
Proof.
  intros Hw. apply (safe_mono _ (genuine_here wc n)); [intros; by apply genuine_cons |].
  clear h. intros h [R e r] Hg. destruct e as [ | |R' c q| | | | | | | |rp]; simpl; try done.
  - destruct c; [done |]. destruct q; try done; intros; by exists wc, n.
  - intros [Hr HG]. split; [done |]. intros Hc. exists wc, n. auto.
Qed.

Lemma top_finish h m e : replies h = 0%nat -> top (finish (fail_reply m e)) h.
Proof. intros Hr. step; try by split. simpl. by rewrite Hr. Qed.

Lemma top_reject h m : replies h = 0%nat -> top (reject m) h.
Proof. intros Hr. unfold reject, respond. destruct (is_empty m); (step; try by split); simpl; by rewrite Hr. Qed.

Lemma try_ok {A} (o : option A) k h :
  replies h = 0%nat -> (forall a, o = Some a -> top (k a) h) -> top (try_ o k) h.
Proof. intros Hr Hk. destruct o; [by apply Hk | done]. Qed.

Lemma readNotice_ok wc notifyJson plaintext k h :
  replies h = 0%nat ->
  (forall n, n_body n = body -> n_signature n = signature -> n_serial n = serial ->
     n_plaintext n = plaintext -> jparse plaintext = Some (n_plain n) ->
     get_string (n_plain n) "out_trade_no" = Some (n_order n) ->
     get_string (n_plain n) "transaction_id" = Some (n_txn n) ->
     get_string (n_plain n) "trade_state" = Some (n_state n) ->
     n_order n <> "" -> tradeStateValid (n_state n) = true ->
     (exists appid, get_string (n_plain n) "appid" = Some appid /\
        (appid = "" \/ appid = wc_appid wc)) ->
     (exists mchid, get_string (n_plain n) "mchid" = Some mchid /\
        (mchid = "" \/ mchid = wc_mchid wc)) ->
     top (k n) h) ->
  top (readNotice wc body signature serial notifyJson plaintext k) h.
Proof.
  intros Hr Hk. unfold readNotice. destruct (jparse plaintext) as [plain|] eqn:Ep; [|by apply top_reject].
  apply try_ok; [done |]. intros appId Ea. apply try_ok; [done |]. intros mchId Em.
  destruct (negb (is_empty appId) && negb (String.eqb appId (wc_appid wc))) eqn:E1; [by apply top_reject |].
  destruct (negb (is_empty mchId) && negb (String.eqb mchId (wc_mchid wc))) eqn:E2; [by apply top_reject |].
  apply try_ok; [done |]. intros orderNo Eo. apply try_ok; [done |]. intros txn Et.
  apply try_ok; [done |]. intros state Es.
  destruct (is_empty orderNo || is_empty state) eqn:E3; [by apply top_reject |].
  destruct (tradeStateValid state) eqn:E4; [|by apply top_reject]. cbn [negb].
  destruct (String.eqb state "SUCCESS" && is_empty txn); [by apply top_reject |].
  apply try_ok; [done |]. intros id _.
  rewrite andb_false_iff, !negb_false_iff, is_empty_true, String.eqb_eq in E1, E2.
  apply orb_false_iff in E3 as [E3 _].
  apply Hk; simpl; try done; [|by exists appId | by exists mchId]. by intros ->.
Qed.

Lemma handlePaymentCallback_ok :
  top (handlePaymentCallback md5 wechat redis body signature timestamp nonce serial) [].
Proof.
  unfold handlePaymentCallback.
  destruct wechat as [wc|] eqn:Hw; rewrite <- Hw; [|by apply top_finish].
  unfold verifySignature. rewrite Hw at 2.
  destruct (wc_verify wc timestamp nonce body signature serial) eqn:Hv; [|by apply top_finish].
  cbn [negb]. step.
  destruct (timestampFresh timestamp (Z.quot r 1000000)) eqn:Hf; [by apply top_reject |].
  unfold openPaymentEnvelope.
  apply openEnvelope_cases; [done | done | intros; by apply top_reject | by apply top_finish | done |].
  intros nj plaintext Hdec.
  apply readNotice_ok; [done |]. intros n. intros.
  assert (Hgo : forall h, replies h = 0%nat -> In (Event Now r) h ->
    (redis = false \/ nonce = "" \/
      exists a, In (Event (RedisSetNx ("cb:nonce:" +:+ nonce)) a) h /\ a <> RedisNil) ->
    top (proceedWithDb md5 n) h).
  { intros h Hr Hin Hn. apply (lift_guarantee wc n); [done | | by apply proceedWithDb_ok].
    split; [done |]. split; [by exists r |]. subst plaintext. split; [done |]. tauto. }
  unfold checkNonce. destruct (negb redis) eqn:Er.
  { apply negb_true_iff in Er. apply Hgo; [done | by left | by left]. }
  destruct (is_empty nonce) eqn:En.
  { apply is_empty_true in En. apply Hgo; [done | by left | by right; left]. }
  step. destruct r0; [by apply top_reject | |];
    (apply Hgo; [done | by right; left | right; right; eexists; by split; [left |]]).
Qed.
End Handler.

(** ** Theorems *)

Section Claims.
Context `{J : JsonLib} (md5 : string -> string).
Context (wechat : option wechat_client) (redis : bool).
Context (body signature timestamp nonce serial : string).

Abbreviation handler :=
  (handlePaymentCallback md5 wechat redis body signature timestamp nonce serial).

(** C2. A payment notification is acknowledged with SUCCESS only if it is
    genuine (signature verified, fresh, first sight of the nonce, decrypted,
    addressed to this merchant) and then only after the settlement was
    committed (audit row, payment, order, income ledger entry and finalized
    reservation in one transaction), or the attempt was read as settled under
    its lock, or a concurrent delivery settled it first, or the same
    notification was finalized before and is recorded again. *)
Theorem payment_ack_sound o h h1 r h2 :
  runs (logs txn_rely) handler [] o h ->
  h = (h1 ++ Event (Respond r) tt :: h2)%list -> rp_code r = "SUCCESS" ->
  exists wc n, wechat = Some wc /\
    genuine redis wc body signature timestamp nonce serial n h2 /\ ack_justified n h2.
Proof.
  intros Hr -> Hc. destruct (safe_sound _ _ _ _ _ _ (handlePaymentCallback_ok _ _ _ _ _ _ _ _) Hr)
    as [Hg _].
  apply guaranteed_at in Hg as [_ H]. destruct (H Hc) as (wc & n & Hw & Hgen & Hj). by exists wc, n.
Qed.

(** The statement that moves a payment to its settled state is issued only
    for a genuine notification whose amount, currency and transaction agree
    with the attempt locked in the same transaction, while that attempt is not
    final, after the audit row was written; it writes exactly the notified
    transaction, payload and mapped status on that attempt. *)
Lemma payment_settle_guarded o h h1 status trade_no payload no a h2 :
  runs (logs txn_rely) handler [] o h ->
  h = (h1 ++ Event (Sql Txn (SettlePayment status trade_no payload no)) a :: h2)%list ->
  exists wc n, wechat = Some wc /\
    genuine redis wc body signature timestamp nonce serial n h2 /\
    settle_justified n h2 status trade_no payload no.
Proof.
  intros Hr ->. destruct (safe_sound _ _ _ _ _ _ (handlePaymentCallback_ok _ _ _ _ _ _ _ _) Hr)
    as [Hg _].
  by apply guaranteed_at in Hg.
Qed.

(** In every complete execution the handler answers exactly once when it
    returns and not at all when an exception escapes it, and at no point of
    any execution is a second answer sent. *)
Lemma payment_answers_once o h :
  runs (logs txn_rely) handler [] o h ->
  answers_once o h /\
  forall h1 r h2, h = (h1 ++ Event (Respond r) tt :: h2)%list -> replies h2 = 0%nat.
Proof.
  intros Hr. destruct (safe_sound _ _ _ _ _ _ (handlePaymentCallback_ok _ _ _ _ _ _ _ _) Hr)
    as [Hg Hf]. split; [by destruct o |].
  intros h1 r h2 ->. by apply guaranteed_at in Hg as [? _].
Qed.
End Claims.

(** ** Witnesses *)

Lemma payment_ack_sound_witness :
  exists wc (n : @notice (Tree.lib (docs "SUCCESS" 1250))), Some shop_client = Some wc /\
    genuine true wc "BODY" "sig" "1704067200" "nonce-1" "serial" n
      (tl (deliver_history "SUCCESS" 1250 [])) /\
    ack_justified n (tl (deliver_history "SUCCESS" 1250 [])).
Proof.
  apply (@payment_ack_sound (Tree.lib (docs "SUCCESS" 1250)) shop_md5 (Some shop_client) true "BODY" "sig" "1704067200" "nonce-1"
           "serial" (deliver_outcome "SUCCESS" 1250 []) (deliver_history "SUCCESS" 1250 []) []
           success_reply).
  - apply deliver_runs. vm_compute. tauto.
  - vm_compute. reflexivity.
  - reflexivity.
Defined.

Lemma payment_settle_guarded_witness :
  exists wc (n : @notice (Tree.lib (docs "SUCCESS" 1250))), Some shop_client = Some wc /\
    genuine true wc "BODY" "sig" "1704067200" "nonce-1" "serial" n
      (drop 7 (deliver_history "SUCCESS" 1250 [])) /\
    settle_justified n (drop 7 (deliver_history "SUCCESS" 1250 [])) "SUCCESS" "T1" "PLAIN" "P1".
Proof.
  eapply (@payment_settle_guarded (Tree.lib (docs "SUCCESS" 1250)) shop_md5 (Some shop_client) true "BODY" "sig" "1704067200" "nonce-1"
           "serial" (deliver_outcome "SUCCESS" 1250 []) (deliver_history "SUCCESS" 1250 [])
           (take 6 (deliver_history "SUCCESS" 1250 []))).
  - apply deliver_runs. vm_compute. tauto.
  - vm_compute. reflexivity.
Defined.

Lemma payment_answers_once_witness :
  answers_once Returned (deliver_history "SUCCESS" 1250 []) /\
  forall h1 r h2, deliver_history "SUCCESS" 1250 [] = (h1 ++ Event (Respond r) tt :: h2)%list ->
    replies h2 = 0%nat.
Proof.
  apply (@payment_answers_once (Tree.lib (docs "SUCCESS" 1250)) shop_md5 (Some shop_client) true "BODY" "sig" "1704067200" "nonce-1"
           "serial" Returned).
  apply (deliver_runs "SUCCESS" 1250 []). vm_compute. tauto.
Defined.
