(* ===== verification/PaymentSettle.v ===== *)
(** * Payment notifications on the reference database: what they book.

    [proceedWithDb] run by [RefDb] on arbitrary tables. *)
From S2P Require Import Prelude Cxx Json Effects Store Amount RefDb RefDbFacts Callback PaymentAck Scenario.
Import Callback.Payment.

(** ** What one delivery may leave behind *)

Section Atomicity.
Context `{J : JsonLib} (md5 : string -> string).
Context (sum_text : list string -> string) (server_now : Z).
Context (n : notice).
Abbreviation exec := (exec sum_text server_now).
Abbreviation sql := (sql sum_text server_now).
Abbreviation handle := (handle sum_text server_now).

(** The state in which the notification was already accounted for. *)
Definition already_settled (d : db) : Prop :=
  (exists payment, newest (select (matchable (n_order n)) (d_payments d)) = Some payment /\
     is_open payment = false) \/
  (exists row, In row (d_idemps d) /\ i_key row = n_key n /\ i_snapshot row <> None).

(** The money tables after a complete settlement of [payment]. *)
Definition settled_money (payment : payment_row) (order : order_row) (status : string)
    (created : Z) (d : db) : list payment_row * list order_row * list refund_row * list ledger_row :=
  (update_where (settleable (p_no payment))
     (settle_row (snd (mapTradeState (n_state n))) (n_txn n) (n_plaintext n)) (d_payments d),
   update_where (fun r => o_id r =? o_id order) (set_order_status status) (d_orders d),
   d_refunds d,
   if books_income status
   then (d_ledgers d ++ [LedgerRow (o_user order) (n_order n) (p_no payment) "PAYMENT"
                           (o_amount order) created])%list
   else d_ledgers d).

(** [payment] is the open attempt of the notified order, [order] its order,
    and the notification agrees with them. *)
Definition settles (d : db) (payment : payment_row) (order : order_row) : Prop :=
  newest (select (matchable (n_order n)) (d_payments d)) = Some payment /\
  is_open payment = true /\
  select (fun r => String.eqb (o_no r) (p_order payment)) (d_orders d) = [order] /\
  notice_agrees n payment order.

(** All or nothing: the outcomes of one delivery started in [w0]. *)
Inductive delivered (w0 w : world) : outcome -> Prop :=
| delivered_nothing o :
    money (outlook w) = money (w_main w0) ->
    (o = Escaped /\ w_replies w = w_replies w0 \/
     o = Returned /\ exists r, w_replies w = r :: w_replies w0 /\ rp_code r = "FAIL") ->
    delivered w0 w o
| delivered_again :
    money (outlook w) = money (w_main w0) -> already_settled (w_main w0) ->
    w_replies w = success_reply :: w_replies w0 -> delivered w0 w Returned
| delivered_settled payment order status created :
    settles (w_main w0) payment order ->
    money (outlook w) = settled_money payment order status created (w_main w0) ->
    w_replies w = success_reply :: w_replies w0 -> delivered w0 w Returned.

Section OneDelivery.
Context (w0 : world).
Abbreviation clean := (clean w0).
Abbreviation pending := (pending w0).
Abbreviation good := (wp (handled handle) (fun _ => True) (fun o w => delivered w0 w o)).

Lemma fail_good w m e : clean w -> good (finish (fail_reply m e)) w.
Proof.
  intros (Ho & Hm & Hr). split; [done |]. intros r w' [= <- <-]. split; [done |].
  apply delivered_nothing; [by rewrite (outlook_eq _ w) |]. right. split; [done |]. simpl. rewrite Hr. eauto.
Qed.

Lemma rollback_good w m e :
  money (w_main w) = money (w_main w0) -> w_replies w = w_replies w0 ->
  good (do _ <- Rollback; finish (fail_reply m e)) w.
Proof. intros Hm Hr. split; [done |]. intros r w' [= <- <-]. by apply fail_good. Qed.

Lemma escape_good w : clean w -> good Escape w.
Proof. intros (Ho & Hm & Hr). split; [done |]. apply delivered_nothing; auto. Qed.

Lemma again_good w : clean w -> already_settled (w_main w0) -> good (finish success_reply) w.
Proof.
  intros (Ho & Hm & Hr) Ha. split; [done |]. intros r w' [= <- <-]. split; [done |].
  apply delivered_again; [by rewrite (outlook_eq _ w) | done |]. simpl. by rewrite Hr.
Qed.

(** ** The stages, from the last to the first *)

Section Stages.
Context (payment : payment_row) (order : order_row) (owner status : string).
Context (Hsettles : settles (w_main w0) payment order).

Lemma settled_good created w :
  w_replies w = w_replies w0 ->
  money (outlook w) = settled_money payment order status created (w_main w0) ->
  good (finish success_reply) w.
Proof.
  intros Hr Ho. split; [done |]. intros r w' [= <- <-]. split; [done |].
  eapply delivered_settled; [exact Hsettles | by rewrite (outlook_eq _ w) |]. simpl. by rewrite Hr.
Qed.

Lemma commit_good created w a w' :
  pending (settled_money payment order status created (w_main w0)) w ->
  sql Txn Commit w = (a, w') ->
  (a = Ok tt /\ w_txn w' = TxNone /\ w_replies w' = w_replies w0 /\
   money (outlook w') = settled_money payment order status created (w_main w0)) \/
  (exists e, a = Exc e /\ clean w').
Proof.
  intros Hp Hs. pose proof Hp as (ws & Hw & Hm & Hm0 & Hr).
  destruct (txn_commit _ _ _ _ _ _ Hw Hs) as (Hrep & [(-> & Ht & Hmain)|(e & -> & Ht & Hmain)]).
  - left. split; [done |]. split; [done |]. split; [congruence |].
    rewrite outlook_view. unfold view. rewrite Ht, Hmain. by eapply pending_view.
  - right. exists e. split; [done |]. split; [|by rewrite Hmain, Hrep].
    rewrite outlook_view. unfold view. by rewrite Ht, Hmain.
Qed.

Lemma finalizeAndCommit_good created w :
  (pending (settled_money payment order status created (w_main w0)) w \/
   (clean w /\ w_txn w = TxAborted)) ->
  good (finalizeAndCommit n owner) w.
Proof.
  intros Hp. split; [done |]. intros a w' Hs.
  destruct Hp as [Hp|Hd].
  2: { destruct (aborted_step _ _ _ _ _ _ _ _ Hd Hs) as (e & -> & (_ & Hm & Hr) & _). by apply rollback_good. }
  destruct (pending_step _ _ _ _ (Finalize _ _ _) _ _ _ _ eq_refl Hp Hs)
    as [(r & -> & _ & Hp' & _)|(e & -> & (_ & Hm & Hr) & _)]; [|by apply rollback_good].
  rewrite keeps_money, (pending_view _ _ _ Hp) in Hp' by done.
  destruct r as [|k ks].
  { apply rollback_good; [by eapply pending_main | by eapply pending_replies]. }
  split; [done |]. intros a w'' Hc.
  destruct (commit_good _ _ _ _ Hp' Hc) as [(-> & _ & Hr & Ho)|(e & -> & _ & Hm & Hr)];
    [by eapply settled_good | by apply rollback_good].
Qed.

Lemma commitThenFinalize_good created w :
  pending (settled_money payment order status created (w_main w0)) w ->
  good (commitThenFinalize n owner) w.
Proof.
  intros Hp. split; [done |]. intros a w' Hc.
  destruct (commit_good _ _ _ _ Hp Hc) as [(-> & Ht & Hr & Ho)|(e & -> & Hcl)]; [|by apply fail_good].
  split; [done |]. intros b w'' Hs.
  destruct (main_statement _ _ _ _ _ _ _ Hs) as (Htxn & Hrep & _ & H).
  assert (Hfin : good (finish success_reply) w'').
  { apply (settled_good created); [congruence |].
    rewrite outlook_view in Ho |- *. unfold view in Ho |- *. rewrite Htxn, Ht in *.
    rewrite <- Ho. destruct H as [(r & _ & _ & ->)|(e & _ & ->)]; [by apply keeps_money | done]. }
  destruct b as [[|]|e|u]; exact Hfin.
Qed.

Definition paid_rows : list payment_row :=
  update_where (settleable (p_no payment))
    (settle_row (snd (mapTradeState (n_state n))) (n_txn n) (n_plaintext n))
    (d_payments (w_main w0)).

Definition order_rows : list order_row :=
  update_where (fun r => o_id r =? o_id order) (set_order_status status) (d_orders (w_main w0)).

Lemma onOrderUpdated_good w :
  pending (paid_rows, order_rows, d_refunds (w_main w0), d_ledgers (w_main w0)) w ->
  good (onOrderUpdated n owner status payment order) w.
Proof.
  intros Hp. unfold onOrderUpdated.
  destruct (String.eqb status "PAID" || String.eqb status "REFUNDED") eqn:Hs.
  2: { apply (commitThenFinalize_good 0). unfold settled_money, books_income. by rewrite Hs. }
  split; [done |]. intros created w1 [= <- <-]. split; [done |]. intros a w' Hq.
  set (row := LedgerRow _ _ _ _ _ _) in *.
  assert (Hgood : good (finalizeAndCommit n owner) w').
  { apply (finalizeAndCommit_good (w_now w)).
    destruct (pending_step _ _ _ _ (InsertLedger row) _ _ _ _ eq_refl Hp Hq)
      as [(r & -> & Hx & Hp' & _)|(e & -> & Hcl)]; [left | by right].
    unfold settled_money, books_income. rewrite Hs. fold row. revert Hp'.
    replace (money _) with (paid_rows, order_rows, d_refunds (w_main w0), (d_ledgers (w_main w0) ++ [row])%list); [done |].
    pose proof (pending_view _ _ _ Hp) as Hv. revert Hx. simpl.
    destruct (existsb _ _); [done |]. intros _. simpl. unfold money in *. simpl. injection Hv as -> -> -> ->. done. }
  destruct a as [r|e|u]; exact Hgood.
Qed.

Lemma newest_in rs r : newest rs = Some r -> In r rs.
Proof.
  revert r. induction rs as [|x rs IH]; intros r; simpl; [done |].
  destruct (newest rs) as [y|]; [|intros [= <-]; auto].
  destruct (p_created x <? p_created y); intros [= <-]; auto.
Qed.

(** The settlement statement matches the attempt that was locked. *)
Lemma settle_matches d :
  d_payments d = d_payments (w_main w0) -> select (settleable (p_no payment)) (d_payments d) <> [].
Proof.
  intros Hd. destruct Hsettles as (Hn & Ho & _). apply newest_in in Hn.
  unfold select in Hn. apply filter_In in Hn as [Hin _]. intros E.
  assert (H : In payment (select (settleable (p_no payment)) (d_payments d))).
  { apply filter_In. rewrite Hd. split; [done |]. unfold settleable. by rewrite String.eqb_refl, Ho. }
  by rewrite E in H.
Qed.

Lemma recordAndSettle_good w :
  (pending (money (w_main w0)) w \/ (clean w /\ w_txn w = TxAborted)) ->
  good (recordAndSettle n owner status (snd (mapTradeState (n_state n))) payment order) w.
Proof.
  intros Hp. split; [done |]. intros now w1 [= <- <-]. split; [done |]. intros a w2 Hq.
  destruct Hp as [Hp|Hd].
  2: { destruct (aborted_step _ _ _ _ _ _ _ _ Hd Hq) as (e & -> & Hcl & _). by apply fail_good. }
  destruct (pending_step _ _ _ _ (InsertCallback _) _ _ _ _ eq_refl Hp Hq)
    as [(r & -> & _ & Hp2 & _)|(e & -> & Hcl & _)]; [|by apply fail_good].
  rewrite keeps_money, (pending_view _ _ _ Hp) in Hp2 by done.
  split; [done |]. intros b w3 Hq2.
  destruct (pending_step _ _ _ _ (SettlePayment _ _ _ _) _ _ _ _ eq_refl Hp2 Hq2)
    as [(r' & -> & Hx & Hp3 & _)|(e & -> & Hcl & _)]; [|by apply fail_good].
  pose proof (pending_view _ _ _ Hp2) as Hv. unfold money in Hv. simpl in Hx, Hp3.
  injection Hx as <-. destruct (select _ _) as [|x xs] eqn:Esel.
  { exfalso. revert Esel. apply settle_matches. congruence. }
  split; [done |]. intros c w4 Hq3.
  destruct (pending_step _ _ _ _ (UpdateOrderStatus _ _) _ _ _ _ eq_refl Hp3 Hq3)
    as [(r3 & -> & _ & Hp4 & _)|(e & -> & Hcl & _)]; [|by apply fail_good].
  apply onOrderUpdated_good. pose proof (pending_view _ _ _ Hp3) as Hv3.
  unfold money in Hv3, Hp4. simpl in Hv3, Hp4. unfold paid_rows, order_rows.
  revert Hp4. simplify_eq. congruence.
Qed.
End Stages.

Lemma checkNotice_good payment order k w :
  pending (money (w_main w0)) w -> (notice_agrees n payment order -> good k w) ->
  good (checkNotice n payment order k) w.
Proof.
  intros Hp Hk.
  assert (Hrefuse : forall m e, good (refuse m e) w).
  { intros m e. apply rollback_good; [by eapply pending_main | by eapply pending_replies]. }
  assert (Hesc : good Escape w) by (by eapply escape_good, pending_clean).
  apply checkNotice_cases; auto.
Qed.

Lemma resolveOrderStatus_good order status k w :
  (forall resolved w', (pending (money (w_main w0)) w' \/ (clean w' /\ w_txn w' = TxAborted)) ->
     good (k resolved) w') ->
  pending (money (w_main w0)) w -> good (resolveOrderStatus n order status k) w.
Proof.
  intros Hk Hp. unfold resolveOrderStatus. destruct (String.eqb status "REFUNDED"); [|by apply Hk; left].
  split; [done |]. intros a w' Hq.
  destruct (pending_step _ _ _ _ (SumRefunds _ _) _ _ _ _ eq_refl Hp Hq)
    as [(r & -> & _ & Hp' & _)|(e & -> & Hcl)]; apply Hk; [left | by right].
  by rewrite keeps_money, (pending_view _ _ _ Hp) in Hp' by done.
Qed.

Lemma onLocked_good owner w :
  pending (money (w_main w0)) w ->
  good (onLocked n owner (match newest (select (matchable (n_order n)) (d_payments (w_main w0))) with
                          | Some r => [r] | None => [] end)) w.
Proof.
  intros Hp. destruct (newest _) as [payment|] eqn:Hn; cbn [onLocked].
  2: { apply rollback_good; [by eapply pending_main | by eapply pending_replies]. }
  destruct (String.eqb (p_status payment) "SUCCESS" || String.eqb (p_status payment) "REFUNDED") eqn:Hf.
  { split; [done |]. intros r w' [= <- <-]. apply again_good.
    - destruct (pending_clean _ _ Hp) as (Ho & Hm & Hr). split; [|done].
      rewrite outlook_view. unfold view. simpl. done.
    - left. exists payment. split; [done |]. unfold is_open. apply orb_true_iff in Hf.
      destruct Hf as [E|E]; apply String.eqb_eq in E as ->; done. }
  assert (Hopen : is_open payment = true).
  { pose proof (newest_in _ _ Hn) as Hin. apply filter_In in Hin as [_ Hm].
    unfold matchable in Hm. apply orb_false_iff in Hf as [H1 H2]. rewrite H1, H2 in Hm.
    apply andb_true_iff in Hm as [_ Hm]. by rewrite !orb_false_r in Hm. }
  split; [done |]. intros a w' Hq. pose proof Hp as (ws & Hw & Hm & Hm0 & Hr).
  destruct (txn_statement _ _ _ (GetPayOrder _) _ _ _ _ Hw eq_refl Hq)
    as (Hmain & Hrep & _ & [(order & -> & Hx & Ht)|(e & -> & Ht)]).
  - assert (Hp' : pending (money (w_main w0)) w').
    { eexists. split; [exact Ht |]. rewrite apply_writes_snoc, Hmain, Hrep. done. }
    pose proof (pending_view _ _ _ Hp) as Hv.
    assert (Hsel : select (fun r => String.eqb (o_no r) (p_order payment)) (d_orders (w_main w0)) = [order]).
    { unfold money in Hv. simpl in Hx. injection Hv as _ <- _ _.
      by apply exactly_one_inv. }
    apply checkNotice_good; [done |]. intros Ha.
    destruct (mapTradeState (n_state n)) as [os ps] eqn:Em.
    apply resolveOrderStatus_good; [|done]. intros resolved w2 Hp2.
    replace ps with (snd (mapTradeState (n_state n))) by (by rewrite Em).
    by apply recordAndSettle_good.
  - apply fail_good. split; [|by rewrite Hmain, Hrep].
    rewrite outlook_view. unfold view. destruct Ht as [-> |[-> _]]; by rewrite Hmain.
Qed.

Lemma settleInTransaction_good owner w :
  clean w -> good (settleInTransaction n owner) w.
Proof.
  intros (_ & Hm & Hr). split; [done |]. intros u w1 [= <- <-]. split; [done |]. intros a w' Hq.
  assert (Hp : pending (money (w_main w0)) (set_txn (TxOpen []) w)) by (by exists []).
  destruct (pending_step _ _ _ _ (NewestOpenAttempt _ _) _ _ _ _ eq_refl Hp Hq)
    as [(r & -> & Hx & Hp' & _)|(e & -> & Hcl & _)]; [|by apply fail_good].
  rewrite keeps_money, (pending_view _ _ _ Hp) in Hp' by done.
  simpl in Hx. injection Hx as <-.
  replace (d_payments (view (set_txn (TxOpen []) w))) with (d_payments (w_main w0));
    [by apply onLocked_good |].
  pose proof (pending_view _ _ _ Hp) as Hv. unfold money in Hv. congruence.
Qed.

Lemma recordDuplicate_good w :
  w_txn w = TxNone -> clean w -> already_settled (w_main w0) -> good (recordDuplicate n) w.
Proof.
  intros Ht Hc Ha. split; [done |]. intros a w' Hq.
  destruct (main_step _ _ _ _ (NewestOpenAttempt _ _) _ _ _ eq_refl Ht Hc Hq)
    as (Hc' & Ht' & [(r & -> & _)|(e & ->)]); [|by apply fail_good].
  destruct r as [|p ps]; [by apply fail_good |].
  split; [done |]. intros now w1 [= <- <-]. split; [done |]. intros b w2 Hq2.
  destruct (main_step _ _ _ _ (InsertCallback _) _ _ _ eq_refl Ht' Hc' Hq2)
    as (Hc2 & _ & [(r & -> & _)|(e & ->)]); [by apply again_good | by apply fail_good].
Qed.

Lemma proceedWithDb_good : w_txn w0 = TxNone -> good (proceedWithDb md5 n) w0.
Proof.
  intros Ht.
  assert (Hc : clean w0) by (split; [rewrite outlook_view; unfold view; by rewrite Ht | done]).
  split; [done |]. intros a w' Hq.
  destruct (main_step _ _ _ _ (FindIdempotency _) _ _ _ eq_refl Ht Hc Hq)
    as (Hc' & Ht' & [(row & -> & Hx)|([u|u] & ->)]); [| |by apply fail_good].
  - destruct (i_snapshot row) as [snapshot|] eqn:Es.
    + apply recordDuplicate_good; [done.. |]. right. exists row.
      apply exactly_one_inv in Hx as Hsel.
      assert (Hin : In row (select (key_is (n_key n)) (d_idemps (w_main w0)))) by (rewrite Hsel; by left).
      apply filter_In in Hin as [Hin Hk]. apply String.eqb_eq in Hk. split; [done |].
      split; [done |]. congruence.
    + split; [done |]. intros b w2 Hq2.
      destruct (main_step _ _ _ _ (DropUnfinalized _) _ _ _ eq_refl Ht' Hc' Hq2) as (Hc2 & _ & _).
      destruct b; by apply fail_good.
  - split; [done |]. intros now w1 [= <- <-]. split; [done |]. intros uuid w1 [= <- <-].
    split; [done |]. intros b w2 Hq2.
    destruct (main_step _ _ _ _ (ReserveCallback _ _ _ _) _ _ _ eq_refl Ht' Hc' Hq2)
      as (Hc2 & Ht2 & [(r & -> & _)|(e & ->)]); [|by apply fail_good].
    destruct r as [|k ks]; [by apply fail_good | by apply settleInTransaction_good].
Qed.
End OneDelivery.
End Atomicity.

(** ** Lemmas on rows *)

Lemma newest_map f rs :
  (forall r, p_created (f r) = p_created r) -> newest (map f rs) = f <$> newest rs.
Proof.
  intros Hf. induction rs as [|r rs IH]; simpl; [done |]. rewrite IH.
  destruct (newest rs) as [r'|]; simpl; [|done]. rewrite !Hf. by destruct (_ <? _).
Qed.

(** A settled attempt is still the one the next delivery finds. *)
Lemma newest_settled order no trade payload rs payment :
  newest (select (matchable order) rs) = Some payment -> p_no payment = no ->
  is_open payment = true ->
  newest (select (matchable order) (update_where (settleable no) (settle_row "SUCCESS" trade payload) rs))
  = Some (settle_row "SUCCESS" trade payload payment).
Proof.
  intros Hn Hno Ho. unfold update_where. rewrite select_map, newest_map, Hn.
  - simpl. unfold settleable. by rewrite Hno, String.eqb_refl, Ho.
  - intros r. by destruct (settleable no r).
  - intros r _. destruct (settleable no r) eqn:E; [|done]. unfold settleable in E.
    apply andb_true_iff in E as [_ E]. unfold matchable. simpl. rewrite E. by rewrite !andb_true_r.
Qed.

(** ** Theorems *)

Section Claims.
Context `{J : JsonLib} (md5 : string -> string).
Context (sum_text : list string -> string) (server_now : Z).

(** The checks of the notified amount pass. *)
Definition accepted (n : notice) (payment : payment_row) (order : order_row) : Prop :=
  forall k, checkNotice n payment order k = k.

(** A first delivery of a paid notification. *)
Record payable (n : notice) (d : db) (payment : payment_row) (order : order_row) : Prop := Payable {
  py_new : select (key_is (n_key n)) (d_idemps d) = [];
  py_settles : settles n d payment order;
  py_accepted : accepted n payment order;
  py_paid : n_state n = "SUCCESS";
  py_unbooked : existsb (is_income (p_no payment)) (d_ledgers d) = false
}.

Definition paid_world (n : notice) (payment : payment_row) (order : order_row) (w : world) : world :=
  let d := w_main w in
  let owner := remove_dashes (w_uuid w) in
  World
    (Db (d_idemps d ++ [IdempRow (n_key n) (md5 (n_body n)) (Some (n_plaintext n)) (Some owner)
                          (Some (w_now w + sevenDays))])%list
        (update_where (settleable (p_no payment)) (settle_row "SUCCESS" (n_txn n) (n_plaintext n))
           (d_payments d))
        (update_where (fun r => o_id r =? o_id order) (set_order_status "PAID") (d_orders d))
        (d_refunds d)
        (d_callbacks d ++ [callbackRow n (p_no payment) (w_now w)])%list
        (d_ledgers d ++ [LedgerRow (o_user order) (n_order n) (p_no payment) "PAYMENT"
                           (o_amount order) (w_now w)])%list)
    TxNone (success_reply :: w_replies w) (w_now w) (w_uuid w) (w_nonces w) [].

Lemma paid_status payment : is_open payment = true ->
  String.eqb (p_status payment) "SUCCESS" || String.eqb (p_status payment) "REFUNDED" = false.
Proof.
  unfold is_open. intros H. destruct (String.eqb_spec (p_status payment) "SUCCESS") as [E|_];
    [by rewrite E in H |].
  by destruct (String.eqb_spec (p_status payment) "REFUNDED") as [E|_]; [rewrite E in H |].
Qed.

Lemma settles_rows n d payment order :
  settles n d payment order -> select (settleable (p_no payment)) (d_payments d) <> [].
Proof.
  intros Hs. by apply (settle_matches n (World d TxNone [] 0 "" [] []) payment order Hs).
Qed.

(** Run the handler as far as the known rows allow. *)
Ltac go :=
  repeat (progress (unfold sql_main, sql_txn;
    cbn -[String.eqb select existsb newest update_where checkNotice parseAmountToFen])).

Lemma serve_paid n w payment order :
  w_faults w = [] -> w_txn w = TxNone -> payable n (w_main w) payment order ->
  serve sum_text server_now (proceedWithDb md5 n) w = paid_world n payment order w.
Proof.
  destruct w as [[ids pays ords refs cbs leds] t rs now uuid nonces fs]. simpl. intros -> ->.
  intros [Hnew Hs Hacc Hpaid Hun]. pose proof (settles_rows _ _ _ _ Hs) as Hrows.
  destruct Hs as (Hn & Hopen & Hord & _). simpl in *. unfold serve, paid_world.
  go. rewrite Hnew. go. rewrite (select_nil_existsb _ _ Hnew). go. rewrite Hn. go.
  rewrite paid_status by done. go. rewrite Hord. go. unfold onOrder. rewrite Hacc, Hpaid.
  change (mapTradeState "SUCCESS") with ("PAID", "SUCCESS"). unfold resolveOrderStatus.
  change (String.eqb "PAID" "REFUNDED") with false. go.
  destruct (select (settleable (p_no payment)) pays) as [|x xs]; [done |]. go.
  unfold onOrderUpdated. change (String.eqb "PAID" "PAID") with true. go.
  rewrite Hun, andb_false_r. go.
  match goal with |- context [select ?c (ids ++ [?row])%list] =>
    destruct (reserved_rows (n_key n) (owned_by (remove_dashes uuid)) ids row
                (set_snapshot (n_plaintext n)) Hnew) as [E1 E2] end.
  { unfold key_is, owned_by. simpl. by rewrite !String.eqb_refl. }
  rewrite E1. go. unfold with_idemps at 1, with_ledgers, with_orders, with_payments, with_callbacks.
  cbn [d_idemps d_payments d_orders d_refunds d_callbacks d_ledgers with_idemps]. by rewrite E2.
Qed.

(** The tables after a further delivery of the same notification. *)
Definition recorded_again (n : notice) (payment : payment_row) (w : world) : world :=
  World (with_callbacks (fun rs => rs ++ [callbackRow n (p_no payment) (w_now w)])%list (w_main w))
    TxNone (success_reply :: w_replies w) (w_now w) (w_uuid w) (w_nonces w) [].

Lemma serve_again n n' w payment order :
  w_faults w = [] -> payable n (w_main w) payment order ->
  n_key n' = n_key n -> n_order n' = n_order n ->
  serve sum_text server_now (proceedWithDb md5 n') (paid_world n payment order w) =
  recorded_again n' payment (paid_world n payment order w).
Proof.
  destruct w as [[ids pays ords refs cbs leds] t rs now uuid nonces fs]. simpl. intros ->.
  intros [Hnew (Hn & Hopen & _) _ _ _] Hk Ho. simpl in *. unfold serve, paid_world, recorded_again. go.
  match goal with |- context [select (key_is (n_key n')) (ids ++ [?row])%list] =>
    assert (E : select (key_is (n_key n')) (ids ++ [row])%list = [row]) end.
  { unfold select. rewrite List.filter_app. simpl. unfold key_is at 2. simpl.
    rewrite Hk, String.eqb_refl. by fold (select (key_is (n_key n)) ids); rewrite Hnew. }
  rewrite E. go. rewrite Ho.
  rewrite (newest_settled _ _ _ _ _ _ Hn eq_refl Hopen). go. reflexivity.
Qed.

(** C7. A first delivery of a genuine paid notification, on tables where its
    attempt is open and its key new, ends in exactly the settled world: the
    attempt is SUCCESS with the notified transaction and payload, the order
    PAID, one income entry of the order's amount booked, one audit row written,
    the reservation finalized with the plaintext, nothing else changed, and
    the answer is SUCCESS. *)
Theorem payment_delivery_settles n w payment order :
  w_faults w = [] -> w_txn w = TxNone -> payable n (w_main w) payment order ->
  serve sum_text server_now (proceedWithDb md5 n) w = paid_world n payment order w.
Proof. apply serve_paid. Qed.

(** C8. Delivered again under the same key, the notification is acknowledged
    and audited, and books nothing: no second income entry, no change of the
    payment, the order or the reservation. *)
Theorem payment_redelivery n n' w payment order :
  w_faults w = [] -> w_txn w = TxNone -> payable n (w_main w) payment order ->
  n_key n' = n_key n -> n_order n' = n_order n ->
  let w1 := serve sum_text server_now (proceedWithDb md5 n) w in
  serve sum_text server_now (proceedWithDb md5 n') w1 = recorded_again n' payment w1 /\
  money (w_main (serve sum_text server_now (proceedWithDb md5 n') w1)) = money (w_main w1).
Proof.
  intros Hf Ht Hp Hk Ho w1. unfold w1. rewrite (serve_paid n w payment order) by done.
  by rewrite (serve_again n n' w payment order).
Qed.

(** C3. All or nothing.  Whatever the tables hold and whichever of its
    database calls fail, one delivery either leaves the payment, order and
    ledger tables untouched, and then it answers FAIL (or an exception escapes,
    or the notification had been accounted for before and is acknowledged
    again), or it leaves exactly the complete settlement of the open attempt
    the notification agrees with, and answers SUCCESS.  The transaction the
    handler drops is counted as committed. *)
Theorem payment_delivery_atomic n w0 :
  w_txn w0 = TxNone ->
  let '(o, w) := run (handle sum_text server_now) (proceedWithDb md5 n) w0 in
  delivered n w0 w o.
Proof.
  intros Ht. pose proof (wp_run _ _ _ _ _ (proceedWithDb_good md5 sum_text server_now n w0 Ht)) as H.
  by destruct (run _ _ _) as [o w].
Qed.
End Claims.

(** ** Witnesses *)

Definition shop_notice : @notice (Tree.lib (docs "SUCCESS" 1250)) :=
  @Notice (Tree.lib (docs "SUCCESS" 1250)) "EV-1" "O1" "T1" "SUCCESS" "PLAIN" "BODY" "sig" "serial"
    (paid_notice "SUCCESS" 1250).

Lemma shop_payable : payable shop_notice shop_db shop_payment shop_order.
Proof.
  split; try reflexivity; [| by intros k].
  split; [reflexivity |]. split; [reflexivity |]. split; [reflexivity |].
  exists (Tree.TObject [("total", Tree.TInt 1250); ("currency", Tree.TString "CNY")]), "CNY", 1250.
  repeat split; auto.
Qed.

Lemma payment_delivery_settles_witness :
  serve no_sum shop_time (proceedWithDb shop_md5 shop_notice) (shop []) =
  paid_world shop_md5 shop_notice shop_payment shop_order (shop []).
Proof. apply payment_delivery_settles; [reflexivity | reflexivity | exact shop_payable]. Defined.

Lemma payment_redelivery_witness :
  let w1 := serve no_sum shop_time (proceedWithDb shop_md5 shop_notice) (shop []) in
  serve no_sum shop_time (proceedWithDb shop_md5 shop_notice) w1 =
    recorded_again shop_notice shop_payment w1 /\
  money (w_main (serve no_sum shop_time (proceedWithDb shop_md5 shop_notice) w1)) = money (w_main w1).
Proof.
  apply (payment_redelivery shop_md5 no_sum shop_time shop_notice shop_notice (shop []) shop_payment shop_order);
    try reflexivity. exact shop_payable.
Defined.

(** The ledger insert is lost: nothing is booked. *)
Lemma payment_delivery_atomic_witness :
  let '(o, w) := run (handle no_sum shop_time) (proceedWithDb shop_md5 shop_notice)
                   (shop [false; false; false; false; false; false; false; true]) in
  delivered shop_notice (shop [false; false; false; false; false; false; false; true]) w o.
Proof. apply payment_delivery_atomic. reflexivity. Defined.
