(* ===== verification/RefundAck.v ===== *)
(** * What a refund notification may do, against every environment.

    As for payments, the theorems hold for every answer the database, Redis and
    the clock may give ([txn_rely] limits transactions), for every JSON library
    and every WeChat client. *)
From S2P Require Import Prelude Cxx Json Effects Store Amount RefDb Callback Queued RefundCallback Scenario.
Import RefundCallback.Refund.

(** ** Specification *)

(** Whether a SUCCESS was answered. *)
Fixpoint acknowledged (h : trace) : bool :=
  match h with
  | [] => false
  | Event e _ :: h' =>
      match e with
      | Respond r => String.eqb (rp_code r) "SUCCESS" || acknowledged h'
      | _ => acknowledged h'
      end
  end.

Section Spec.
Context `{J : JsonLib}.

Abbreviation found h q r := (In (Event (Sql Main q) (Ok r)) h).
Abbreviation executed h q r := (In (Event (Step q) (inr r)) h).

(** The notification agrees with the refund row and its order. *)
Definition refund_agrees (n : refund_notice) (refund : refund_row) (order : order_row) : Prop :=
  exists amountJson currency total,
    index (rn_plain n) "amount" = Some amountJson /\
    get_string amountJson "currency" = Some currency /\
    get_int64 amountJson "refund" = Some total /\
    0 < total /\ parseAmountToFen (r_amount refund) = Some total /\
    (currency = "" \/ currency = o_currency order).

(** The rows a notification settles were read, and it agrees with them. *)
Definition refund_examined (n : refund_notice) (refund : refund_row) (order : order_row) (h : trace) : Prop :=
  found h (FindRefund (rn_no n)) refund /\ found h (FindOrder (r_order refund)) order /\
  r_status refund <> "REFUND_SUCCESS" /\ refund_agrees n refund order.

Definition refund_status (n : refund_notice) : string := mapRefundStatus (rn_raw n).

Definition refund_settle_statement (n : refund_notice) : stmt (list unit) :=
  SettleRefund (refund_status n) (rn_id n) (rn_no n).

(** The settlement CAS took the row. *)
Definition taken (n : refund_notice) (h : trace) : Prop :=
  exists x xs, executed h (refund_settle_statement n) (x :: xs).

(** The settled refunds of the order cover it. *)
Definition covered (refund : refund_row) (order : order_row) (h : trace) : Prop :=
  exists sums settled,
    executed h (SumRefunds (r_order refund) "REFUND_SUCCESS") sums /\
    settledRefunds sums = Some settled /\
    refundsCoverOrderAmount settled (fen_or_zero (o_amount order)) = true.

(** A successful refund was summed with the earlier ones, and the order moved
    to REFUNDED if they cover it. *)
Definition order_resolved (refund : refund_row) (order : order_row) (h : trace) : Prop :=
  exists sums settled,
    executed h (SumRefunds (r_order refund) "REFUND_SUCCESS") sums /\
    settledRefunds sums = Some settled /\
    (refundsCoverOrderAmount settled (fen_or_zero (o_amount order)) = true ->
     exists c, executed h (RefundOrder (r_order refund) "REFUNDED") c).

Definition refund_entry (refund : refund_row) (order : order_row) (created : Z) : ledger_row :=
  LedgerRow (o_user order) (r_order refund) (r_payment refund) "REFUND" (r_amount refund) created.

(** The ledger entry was written, unless issuing its statement threw. *)
Definition refund_booked (refund : refund_row) (order : order_row) (h : trace) : Prop :=
  (exists created, executed h (InsertLedger (refund_entry refund order created)) tt) \/
  (exists w, In (Event Construct (Some w)) h).

Definition refund_committed (n : refund_notice) (h : trace) : Prop :=
  exists refund order owner received k ks count,
    refund_examined n refund order h /\ taken n h /\
    executed h (UpdateRefundPayload (rn_no n) (rn_plaintext n)) count /\
    (refund_status n = "REFUND_SUCCESS" ->
     refund_booked refund order h /\ order_resolved refund order h) /\
    executed h (InsertCallback (refundCallbackRow n (r_payment refund) received)) tt /\
    executed h (Finalize (rn_plaintext n) (rn_key n) owner) (k :: ks) /\
    executed h Commit tt.

(** What makes acknowledging a refund notification sound. *)
Inductive refund_justified (n : refund_notice) (h : trace) : Prop :=
| refund_ack_committed : refund_committed n h -> refund_justified n h
| refund_ack_final refund :
    found h (FindRefund (rn_no n)) refund -> r_status refund = "REFUND_SUCCESS" ->
    refund_justified n h
| refund_ack_raced refund order :
    refund_examined n refund order h -> executed h (refund_settle_statement n) [] -> refund_justified n h
| refund_ack_duplicate existing snapshot row :
    found h (FindIdempotency (rn_key n)) existing -> i_snapshot existing = Some snapshot ->
    c_body row = rn_body n -> found h (InsertCallback row) tt -> refund_justified n h.

(** What the statements that change money state may take effect after. *)
Definition write_justified (n : refund_notice) (h : trace) {R} (q : stmt R) : Prop :=
  match q with
  | SettleRefund status id no =>
      exists refund order, refund_examined n refund order h /\
        status = refund_status n /\ id = rn_id n /\ no = rn_no n
  | InsertLedger row =>
      exists refund order created, refund_examined n refund order h /\ taken n h /\
        refund_status n = "REFUND_SUCCESS" /\ row = refund_entry refund order created
  | RefundOrder no status =>
      exists refund order, refund_examined n refund order h /\ taken n h /\
        refund_status n = "REFUND_SUCCESS" /\ covered refund order h /\
        no = r_order refund /\ status = "REFUNDED"
  | SettlePayment _ _ _ _ | UpdateOrderStatus _ _ => False
  | _ => True
  end.

(** Statements that write refunds, payments, orders or the ledger. *)
Definition moves_money {R} (q : stmt R) : bool :=
  match q with
  | SettleRefund _ _ _ | UpdateRefundPayload _ _ | InsertLedger _ | RefundOrder _ _
  | SettlePayment _ _ _ _ | UpdateOrderStatus _ _ => true
  | _ => false
  end.

(** The guarantee of the handler for one notification. *)
Definition refund_guarantee (n : refund_notice) (h : trace) (ev : event io) : Prop :=
  match ev with
  | Event e r =>
      match e in io R return R -> Prop with
      | Respond rp => fun _ =>
          acknowledged h = false /\
          (rp_code rp = "SUCCESS" -> replies h = 0%nat /\ refund_justified n h)
      | Step q => fun a => match a with inr _ => write_justified n h q | inl _ => True end
      | Sql c q => fun _ => c = Main /\ moves_money q = false
      | _ => fun _ => True
      end r
  end.

(** A handler that returns has answered, and only once if with SUCCESS. *)
Definition refund_answered (o : outcome) (h : trace) : Prop :=
  match o with
  | Returned => (1 <= replies h)%nat /\ (acknowledged h = true -> replies h = 1%nat)
  | _ => True
  end.
End Spec.

(** ** Failing transactions

    Once a statement failed or the transaction was rolled back, no statement
    takes effect; what is queued then only refuses. *)

Section Doomed.
Context `{J : JsonLib} (n : refund_notice).
Abbreviation ok := (safe txn_rely (refund_guarantee n) refund_answered).

Lemma silent_replies h : replies h = 0%nat -> acknowledged h = false.
Proof.
  induction h as [|[R e r] h IH]; simpl; [done |]. destruct e; auto; done.
Qed.

(** A doomed transaction refuses: nothing is written, nothing acknowledged. *)
Definition doomed (a : act io) (queue : list (task io)) (h : trace) : Prop :=
  txn_usable h = false /\ acknowledged h = false /\ harmless a /\ Forall harmless_task queue /\
  ((1 <= replies h)%nat \/ loud a \/ Exists loud_task queue).

Lemma doomed_enqueue R (q : stmt R) k next queue h :
  doomed (Enqueue q k next) queue h -> doomed next (queue ++ [Task q k])%list h.
Proof.
  intros (Hu & Ha & [Hk Hh] & Hq & Hl). split; [done |]. split; [done |]. split; [done |].
  rewrite Forall_app, Exists_app. split; [by repeat constructor |].
  destruct Hl as [Hl|[[Hl|Hl]|Hl]]; [by left | right; auto | | right; auto].
  do 3 right. by constructor.
Qed.

Lemma doomed_perform R (e : io R) k queue h r :
  doomed (Perform e k) queue h -> txn_rely h (Event e r) ->
  refund_guarantee n h (Event e r) /\ doomed (k r) queue (Event e r :: h).
Proof.
  intros (Hu & Ha & [He Hk] & Hq & Hl) _. destruct e; try done; simpl.
  1, 2, 3: split; [done |]; repeat split; auto; destruct Hl as [Hl|[Hl|Hl]]; simpl in *; auto.
  split; [split; [done |]; by intros |]. unfold doomed. simpl. rewrite Ha, orb_false_r.
  apply String.eqb_neq in He. rewrite He. repeat split; auto. left. lia.
Qed.

Lemma doomed_next R (q : stmt R) k rest h r :
  doomed Return (Task q k :: rest) h -> txn_rely h (Event (Step q) r) ->
  refund_guarantee n h (Event (Step q) r) /\ doomed (k r) rest (Event (Step q) r :: h).
Proof.
  intros (Hu & Ha & _ & Hq & Hl) Hr. destruct r as [e|r]; simpl in Hr; [|congruence].
  split; [done |]. inversion_clear Hq as [|? ? Ht Hrest]. simpl in Ht.
  split; [done |]. split; [done |]. split; [done |]. split; [done |].
  destruct Hl as [Hl|[[]|Hl]]; [by left |]. inversion_clear Hl; [right; left | by right; right]. done.
Qed.

Lemma doomed_ok fuel a queue h : doomed a queue h -> ok (drain fuel a queue) h.
Proof.
  revert a queue h. induction fuel as [|fuel IH]; intros a;
    induction a as [| |R e k IHa|R q k _ a IHa]; intros queue h Hd;
    rewrite ?drain_throw, ?drain_perform, ?drain_enqueue; try done.
  all: try by apply IHa, doomed_enqueue.
  all: try by (intros r Hr; destruct (doomed_perform _ _ _ _ _ _ Hd Hr); auto).
  all: destruct queue as [|[R q k] rest]; try done.
  1, 2: rewrite drain_idle; destruct Hd as (_ & Ha & _ & _ & [Hl|[[]|Hl]]);
    [split; [done | by rewrite Ha] | by inversion Hl].
  rewrite drain_next. intros r Hr. destruct (doomed_next _ _ _ _ _ _ Hd Hr). auto.
Qed.
End Doomed.

(** ** The settlement transaction *)

Section Settlement.
Context `{J : JsonLib} (n : refund_notice).
Abbreviation ok := (safe txn_rely (refund_guarantee n) refund_answered).

Lemma ok_rollBack fuel r queue h :
  replies h = 0%nat -> rp_code r <> "SUCCESS" -> Forall harmless_task queue ->
  ok (drain fuel (rollBack r) queue) h.
Proof.
  intros Hr Hc Hq. unfold rollBack. rewrite drain_perform. intros u _. split; [done |].
  apply doomed_ok. repeat split; auto; [by apply silent_replies|]. right. by left.
Qed.

Lemma ok_issue fuel R (q : stmt R) onAnswer onThrow next queue h :
  (forall w, ok (drain fuel onThrow queue) (Event Construct (Some w) :: h)) ->
  ok (drain fuel next (queue ++ [Task q onAnswer])%list) (Event Construct None :: h) ->
  ok (drain fuel (issue q onAnswer onThrow next) queue) h.
Proof.
  intros Ht Hk. unfold issue. rewrite drain_perform. intros [w|] _; split; try done.
  by rewrite drain_enqueue.
Qed.

(** The next statement: it takes effect, or the transaction is doomed. *)
Lemma ok_next fuel R (q : stmt R) k rest h :
  replies h = 0%nat ->
  (forall e, harmless (k (inl e))) -> Forall harmless_task rest ->
  (forall e, loud (k (inl e))) \/ Exists loud_task rest ->
  (forall r, txn_usable h = true ->
     write_justified n h q /\ ok (drain fuel (k (inr r)) rest) (Event (Step q) (inr r) :: h)) ->
  ok (drain (S fuel) Return (Task q k :: rest)) h.
Proof.
  intros Hr Hk Hq Hl Hnext. rewrite drain_next. intros [e|r] Hrely.
  - split; [done |]. apply doomed_ok. repeat split; auto; [by apply silent_replies|].
    destruct Hl; auto.
  - by apply Hnext.
Qed.

(** Execute the next piece of a callback or the next statement. *)
Ltac advance :=
  first
  [ rewrite drain_throw; exact I
  | apply ok_rollBack; [assumption | discriminate | solve [tame]]
  | apply ok_issue; [intros ?w|]
  | rewrite drain_perform; intros ?r _; split; [exact I|]
  | apply ok_next; [assumption | solve [tame] | solve [tame] | left; solve [tame] | intros ?r _] ].

Lemma refund_examined_cons refund order ev h : refund_examined n refund order h -> refund_examined n refund order (ev :: h).
Proof. intros (? & ? & ? & ?). repeat split; auto using in_cons. Qed.

Lemma taken_cons ev h : taken n h -> taken n (ev :: h).
Proof. intros (x & xs & ?). exists x, xs. by apply in_cons. Qed.

Hint Resolve in_eq in_cons refund_examined_cons taken_cons : core.

Context (owner : string) (refund : refund_row) (order : order_row).

(** Reduce the callback that runs next, by cases on what it inspects. *)
Ltac inspect :=
  cbv beta iota delta [onRefundSettled onPayloadUpdated onRefundSum onOrderCovered onCallbackInserted onFinalize
       onCommitted insertCallbackAndFinish queueLedgerEntry finalizeRefund commitRefund answerWith
     failWrite mapperFailed app].

Ltac justify := simpl; eauto 30.

Ltac proceed :=
  repeat first
  [ progress inspect
  | match goal with H : refund_status n = _ |- _ => rewrite H end
  | advance
  | match goal with
    | |- write_justified _ _ _ /\ _ => split; [try exact I |]
    | |- safe _ _ _ (drain _ (match ?x with _ => _ end) _) _ => destruct x eqn:?
    end ].

Lemma ok_success fuel h :
  replies h = 0%nat -> refund_justified n h ->
  ok (drain fuel (Perform (Respond success_reply) (fun _ => Return)) []) h.
Proof.
  intros Hr Hj. rewrite drain_perform, drain_idle. intros u _.
  split; [split; [by apply silent_replies | done]|]. simpl. by rewrite Hr.
Qed.

(** Close [refund_committed] of an explicit history. *)
Ltac committed :=
  repeat match goal with u : unit |- _ => destruct u end;
  apply ok_success; [done |]; apply refund_ack_committed; do 7 eexists; repeat (split; eauto 20).

(** A notified status other than success: payload, audit row, COMMIT. *)
Lemma settle_other_ok h x xs :
  replies h = 0%nat -> refund_examined n refund order h -> taken n h ->
  String.eqb (refund_status n) "REFUND_SUCCESS" = false ->
  ok (drain 7 (onRefundSettled n owner (refund_status n) refund order (inr (x :: xs))) []) h.
Proof.
  intros Hr He Ht Hs. inspect. rewrite Hs. proceed; try done. subst. committed.
  all: by match goal with H : refund_status n = _ |- _ => rewrite H in Hs end.
Qed.

Lemma covered_intro h sums settled :
  In (Event (Step (SumRefunds (r_order refund) "REFUND_SUCCESS")) (inr sums)) h ->
  settledRefunds sums = Some settled ->
  negb (refundsCoverOrderAmount settled (fen_or_zero (o_amount order))) = false ->
  covered refund order h.
Proof. intros. exists sums, settled. by rewrite <- negb_false_iff. Qed.

Lemma resolved_intro h sums settled :
  In (Event (Step (SumRefunds (r_order refund) "REFUND_SUCCESS")) (inr sums)) h ->
  settledRefunds sums = Some settled ->
  negb (refundsCoverOrderAmount settled (fen_or_zero (o_amount order))) = true \/
    (exists c, In (Event (Step (RefundOrder (r_order refund) "REFUNDED")) (inr c)) h) ->
  order_resolved refund order h.
Proof.
  intros ? ? Hc. exists sums, settled. repeat split; try done. intros Hcov.
  rewrite Hcov in Hc. by destruct Hc.
Qed.

Lemma booked_written h created :
  In (Event (Step (InsertLedger (LedgerRow (o_user order) (r_order refund) (r_payment refund)
        "REFUND" (r_amount refund) created))) (inr tt)) h ->
  refund_booked refund order h.
Proof. left. by exists created. Qed.

Lemma booked_threw h w : In (Event Construct (Some w)) h -> refund_booked refund order h.
Proof. right. by exists w. Qed.

(** A successful refund: the ledger entry and the order in the same transaction. *)
Lemma settle_success_ok h x xs :
  replies h = 0%nat -> refund_examined n refund order h -> taken n h ->
  refund_status n = "REFUND_SUCCESS" ->
  ok (drain 7 (onRefundSettled n owner (refund_status n) refund order (inr (x :: xs))) []) h.
Proof.
  intros Hr He Ht Hs. inspect. rewrite Hs, String.eqb_refl. proceed; try done; subst.
  all: try (exists refund, order; eexists; repeat (split; eauto 20); fail).
  all: try (exists refund, order; repeat (split; eauto 20 using covered_intro); fail).
  all: committed.
  all: first [ eapply booked_written; solve [eauto 20] | eapply booked_threw; solve [eauto 20]
             | eapply resolved_intro; eauto 20].
Qed.
(** The CAS found the refund settled by another delivery. *)
Lemma already_settled_ok fuel h :
  replies h = 0%nat -> refund_examined n refund order h ->
  In (Event (Step (refund_settle_statement n)) (inr [])) h ->
  ok (drain fuel (onAlreadySettled n (r_payment refund)) []) h.
Proof.
  intros Hr He Hs. unfold onAlreadySettled. do 2 advance. rewrite drain_perform.
  intros a _. split; [done |]. destruct a; (apply ok_success; [done |]);
    eapply refund_ack_raced; eauto 12.
Qed.

Lemma settle_ok h :
  replies h = 0%nat -> refund_examined n refund order h ->
  ok (settleRefundInTransaction n owner (refund_status n) refund order) h.
Proof.
  intros Hr He. unfold settleRefundInTransaction, fuel. intros u _. split; [exact I|].
  unfold settleRefund. advance; [advance|]. advance. split.
  - exists refund, order. auto.
  - destruct r as [|x xs]; [apply already_settled_ok; auto|].
    assert (Ht : taken n (Event (Step (refund_settle_statement n)) (inr (x :: xs))
                            :: Event Construct None :: Event Begin u :: h)) by (exists x, xs; auto).
    destruct (String.eqb (refund_status n) "REFUND_SUCCESS") eqn:Hs.
    + apply String.eqb_eq in Hs. apply settle_success_ok; auto.
    + apply settle_other_ok; auto.
Qed.
End Settlement.

(** ** Before the transaction *)

Section Checks.
Context `{J : JsonLib} (md5 : string -> string) (n : refund_notice).
Abbreviation ok := (safe txn_rely (refund_guarantee n) refund_answered).

Lemma refund_fail_ok h m e : replies h = 0%nat -> ok (finish (fail_reply m e)) h.
Proof.
  intros Hr u _. split; [split; [by apply silent_replies | done]|]. simpl.
  by rewrite Hr, (silent_replies h).
Qed.

Lemma refund_success_ok h : replies h = 0%nat -> refund_justified n h -> ok (finish success_reply) h.
Proof.
  intros Hr Hj u _. split; [split; [by apply silent_replies | done]|]. simpl. by rewrite Hr.
Qed.

Lemma try_refund_ok {A} (o : option A) k h : (forall a, o = Some a -> ok (k a) h) -> ok (try_ o k) h.
Proof. intros Hk. destruct o; [by apply Hk | done]. Qed.

Hint Resolve refund_fail_ok in_eq in_cons : core.

Lemma onRefund_ok h owner refund :
  replies h = 0%nat -> In (Event (Sql Main (FindRefund (rn_no n))) (Ok refund)) h ->
  ok (onRefund n owner (refund_status n) refund) h.
Proof.
  intros Hr Hf. unfold onRefund. destruct (String.eqb_spec (r_status refund) "REFUND_SUCCESS") as [E|E].
  { apply refund_success_ok; [done |]. by eapply refund_ack_final. }
  do 3 (apply try_refund_ok; intros ? ?).
  destruct (parseAmountToFen (r_amount refund)) as [total|] eqn:Hp; [|by apply refund_fail_ok].
  destruct (Z.leb_spec a1 0); [by apply refund_fail_ok|]. destruct (Z.eqb_spec a1 total) as [->|]; [|by apply refund_fail_ok].
  cbn [negb]. intros r _. split; [done |]. destruct r as [order|e|w]; [|by apply refund_fail_ok..].
  unfold onRefundOrder. destruct (negb (is_empty a0) && negb (String.eqb a0 (o_currency order))) eqn:Hc;
    [by apply refund_fail_ok|].
  apply settle_ok; [done |]. split; [auto |]. split; [auto |]. split; [done |].
  exists a, a0, total. rewrite andb_false_iff, !negb_false_iff, is_empty_true, String.eqb_eq in Hc.
  by repeat split.
Qed.

Lemma recordDuplicateRefund_ok h existing snapshot :
  replies h = 0%nat -> In (Event (Sql Main (FindIdempotency (rn_key n))) (Ok existing)) h ->
  i_snapshot existing = Some snapshot -> ok (recordDuplicateRefund n) h.
Proof.
  intros Hr Hf Hs. apply try_refund_ok. intros order _. destruct (is_empty order); [by apply refund_fail_ok|].
  intros r _. split; [done |]. destruct r as [[|payment rest]|e|w]; try by apply refund_fail_ok.
  intros now _. split; [done |]. intros r _. split; [done |].
  destruct r as [[]|e|w]; [|by apply refund_fail_ok..].
  apply refund_success_ok; [done |]. eapply (refund_ack_duplicate n _ existing snapshot); eauto. done.
Qed.

Lemma proceedRefundDb_ok h : replies h = 0%nat -> ok (proceedRefundDb md5 n) h.
Proof.
  intros Hr r _. split; [done |]. destruct r as [existing|[w|w]|w]; [| |by apply refund_fail_ok..].
  - destruct (i_snapshot existing) as [snapshot|] eqn:Es; [eapply recordDuplicateRefund_ok; eauto|].
    intros r _. split; [done |]. destruct r; by apply refund_fail_ok.
  - intros now _. split; [done |]. intros uuid _. split; [done |]. intros r _. split; [done |].
    destruct r as [[|x xs]|e|v]; [by apply refund_fail_ok| |by apply refund_fail_ok..].
    unfold onReserved. fold (refund_status n). destruct (is_empty (refund_status n)); [by apply refund_fail_ok|].
    intros r _. split; [done |]. destruct r as [refund|e|v]; [|by apply refund_fail_ok..].
    apply onRefund_ok; auto.
Qed.
End Checks.

(** ** The whole handler *)

Section Handler.
Context `{J : JsonLib} (md5 : string -> string).
Context (wechat : option wechat_client) (redis : bool).
Context (body signature timestamp nonce serial : string).

(** A genuine refund notification: what the checks before the database
    establish. *)
Definition refund_genuine (wc : wechat_client) (n : refund_notice) (h : trace) : Prop :=
  wc_verify wc timestamp nonce body signature serial = true /\
  (exists now, In (Event Now now) h /\ timestampFresh timestamp (Z.quot now 1000000) = None) /\
  (redis = false \/ nonce = "" \/
   exists a, In (Event (RedisSetNx ("cb:nonce:" +:+ nonce)) a) h /\ a <> RedisNil) /\
  rn_body n = body /\ rn_signature n = signature /\ rn_serial n = serial /\
  jparse (rn_plaintext n) = Some (rn_plain n) /\
  get_string (rn_plain n) "out_refund_no" = Some (rn_no n) /\
  get_string (rn_plain n) "refund_status" = Some (rn_raw n) /\
  get_string (rn_plain n) "refund_id" = Some (rn_id n) /\
  rn_no n <> "" /\ (rn_raw n = "SUCCESS" -> rn_id n <> "") /\
  (exists appid, get_string (rn_plain n) "appid" = Some appid /\
     (appid = "" \/ appid = wc_appid wc)) /\
  (exists mchid, get_string (rn_plain n) "mchid" = Some mchid /\
     (mchid = "" \/ mchid = wc_mchid wc)) /\
  (exists cipher nonceStr, wc_decrypt wc cipher nonceStr "refund" = inr (rn_plaintext n)).

(** What happens before the notification is known to be genuine. *)
Definition refusal (h : trace) (ev : event io) : Prop :=
  match ev with
  | Event e _ =>
      match e with
      | Respond r => rp_code r <> "SUCCESS" /\ acknowledged h = false
      | Now | RedisSetNx _ => True
      | _ => False
      end
  end.

Definition refund_handler_guarantee (h : trace) (ev : event io) : Prop :=
  refusal h ev \/
  exists wc n, wechat = Some wc /\ refund_genuine wc n h /\ refund_guarantee n h ev.

Abbreviation top := (safe txn_rely refund_handler_guarantee refund_answered).

Lemma refund_genuine_cons wc n ev h : refund_genuine wc n h -> refund_genuine wc n (ev :: h).
Proof.
  intros (Hv & (now & Hn & Ht) & Hnonce & H). split; [done |]. split.
  { exists now. auto using in_cons. }
  split; [|done]. destruct Hnonce as [E|[E|(a & Ha & Hne)]]; [by left | by right; left |].
  right; right. exists a. auto using in_cons.
Qed.

Lemma refund_top_finish h m e : replies h = 0%nat -> top (finish (fail_reply m e)) h.
Proof.
  intros Hr u _. split; [left; split; [done | by apply silent_replies]|]. simpl.
  by rewrite Hr, (silent_replies h).
Qed.

Lemma refund_top_reject h m : replies h = 0%nat -> top (reject m) h.
Proof. intros Hr. unfold reject, respond. by destruct (is_empty m); apply refund_top_finish. Qed.

Lemma refund_top_try {A} (o : option A) k h : (forall a, o = Some a -> top (k a) h) -> top (try_ o k) h.
Proof. intros Hk. destruct o; [by apply Hk | done]. Qed.

(** A notification read from a genuine envelope. *)
Lemma readRefund_ok wc notifyJson plaintext k h :
  replies h = 0%nat ->
  wc_verify wc timestamp nonce body signature serial = true ->
  (exists cipher nonceStr, wc_decrypt wc cipher nonceStr "refund" = inr plaintext) ->
  (forall n, (forall h',
     (exists now, In (Event Now now) h' /\ timestampFresh timestamp (Z.quot now 1000000) = None) ->
     (redis = false \/ nonce = "" \/
      exists a, In (Event (RedisSetNx ("cb:nonce:" +:+ nonce)) a) h' /\ a <> RedisNil) ->
     refund_genuine wc n h') -> top (k n) h) ->
  top (readRefund wc body signature serial notifyJson plaintext k) h.
Proof.
  intros Hr Hv Hd Hk. unfold readRefund. destruct (jparse plaintext) as [plain|] eqn:Ep; [|by apply refund_top_reject].
  apply refund_top_try. intros appId Ea. apply refund_top_try. intros mchId Em.
  destruct (negb (is_empty appId) && negb (String.eqb appId (wc_appid wc))) eqn:E1; [by apply refund_top_reject |].
  destruct (negb (is_empty mchId) && negb (String.eqb mchId (wc_mchid wc))) eqn:E2; [by apply refund_top_reject |].
  apply refund_top_try. intros no Eno. apply refund_top_try. intros raw Eraw. apply refund_top_try. intros id Eid.
  destruct (is_empty no || is_empty raw) eqn:E3; [by apply refund_top_reject |].
  destruct (String.eqb raw "SUCCESS" && is_empty id) eqn:E4; [by apply refund_top_reject |].
  apply refund_top_try. intros key _.
  rewrite andb_false_iff, !negb_false_iff, is_empty_true, String.eqb_eq in E1, E2.
  apply orb_false_iff in E3 as [E3 _]. apply Hk. intros h' Hfresh Hnonce.
  assert (Hno : no <> "") by (by intros ->). assert (Hid : raw = "SUCCESS" -> id <> "").
  { intros -> ->. done. }
  repeat (split; [done|]). simpl. eauto 12.
Qed.

Lemma handleRefundCallback_ok :
  top (handleRefundCallback md5 wechat redis body signature timestamp nonce serial) [].
Proof.
  unfold handleRefundCallback.
  destruct wechat as [wc|] eqn:Hw; [|by apply refund_top_finish].
  unfold verifySignature.
  destruct (wc_verify wc timestamp nonce body signature serial) eqn:Hv; [|by apply refund_top_finish].
  cbn [negb]. intros now _. split; [by left |].
  destruct (timestampFresh timestamp (Z.quot now 1000000)) eqn:Hf; [by apply refund_top_reject |].
  unfold openRefundEnvelope. apply openEnvelope_cases;
    [done | done | intros; by apply refund_top_reject | by apply refund_top_finish | done |].
  intros nj plaintext Hdec. apply (readRefund_ok wc); [done.. |]. intros n Hgen.
  assert (Hgo : forall h, replies h = 0%nat -> In (Event Now now) h ->
    (redis = false \/ nonce = "" \/
      exists a, In (Event (RedisSetNx ("cb:nonce:" +:+ nonce)) a) h /\ a <> RedisNil) ->
    top (proceedRefundDb md5 n) h).
  { intros h Hr Hin Hn. apply (safe_mono _ (refund_genuine wc n) (refund_guarantee n));
      [by intros; apply refund_genuine_cons | by right; exists wc, n | apply Hgen; eauto | by apply proceedRefundDb_ok]. }
  unfold checkNonce. destruct (negb redis) eqn:Er.
  { apply negb_true_iff in Er. apply Hgo; [done | by left | by left]. }
  destruct (is_empty nonce) eqn:En.
  { apply is_empty_true in En. apply Hgo; [done | by left | by right; left]. }
  intros a _. split; [by left |]. destruct a; [by apply refund_top_reject | |];
    (apply Hgo; [done | by right; left | right; right; eexists; by split; [left |]]).
Qed.
End Handler.

(** ** Theorems *)

Section Claims.
Context `{J : JsonLib} (md5 : string -> string).
Context (wechat : option wechat_client) (redis : bool).
Context (body signature timestamp nonce serial : string).

Abbreviation handler :=
  (handleRefundCallback md5 wechat redis body signature timestamp nonce serial).
Abbreviation genuine wc n h := (refund_genuine redis body signature timestamp nonce serial wc n h).

Lemma guarantee_at o h h1 ev h2 :
  runs (logs txn_rely) handler [] o h -> h = (h1 ++ ev :: h2)%list ->
  refund_handler_guarantee wechat redis body signature timestamp nonce serial h2 ev.
Proof.
  intros Hr ->. destruct (safe_sound _ _ _ _ _ _ (handleRefundCallback_ok _ _ _ _ _ _ _ _) Hr) as [Hg _].
  by apply guaranteed_at in Hg.
Qed.

(** A refund notification is acknowledged with SUCCESS only if it is
    genuine, and then only as the first answer and after the settlement was
    committed (the refund row taken by the CAS, its payload, the audit row and
    the finalized reservation in one transaction; for a successful refund also
    the ledger entry, unless issuing it threw, and the order moved to REFUNDED
    when the settled refunds cover it), or the refund row was read as settled,
    or another delivery settled it first, or the same notification was finalized
    before and is recorded again. *)
Lemma refund_ack_sound o h h1 r h2 :
  runs (logs txn_rely) handler [] o h ->
  h = (h1 ++ Event (Respond r) tt :: h2)%list -> rp_code r = "SUCCESS" ->
  exists wc n, wechat = Some wc /\ genuine wc n h2 /\ replies h2 = 0%nat /\ refund_justified n h2.
Proof.
  intros Hr Hh Hc. destruct (guarantee_at _ _ _ _ _ Hr Hh) as [[H _]|(wc & n & Hw & Hg & _ & H)]; [done|].
  destruct (H Hc). by exists wc, n.
Qed.

(** A statement of the settlement transaction that takes effect is
    justified: the refund row is written only for a genuine notification whose
    amount and currency agree with the row and its order, while the row was not
    settled; the ledger entry is the refund's and follows a won CAS of a
    successful refund; the order becomes REFUNDED only when the settled refunds
    cover it.  No other statement of the handler writes refunds, payments,
    orders or the ledger. *)
Lemma refund_writes_guarded o h :
  runs (logs txn_rely) handler [] o h ->
  (forall h1 R (q : stmt R) r h2, h = (h1 ++ Event (Step q) (inr r) :: h2)%list ->
     exists wc n, wechat = Some wc /\ genuine wc n h2 /\ write_justified n h2 q) /\
  (forall h1 R c (q : stmt R) a h2, h = (h1 ++ Event (Sql c q) a :: h2)%list ->
     c = Main /\ moves_money q = false).
Proof.
  intros Hr. split; intros.
  - destruct (guarantee_at _ _ _ _ _ Hr H) as [[]|(wc & n & Hw & Hg & Hq)]. by exists wc, n.
  - by destruct (guarantee_at _ _ _ _ _ Hr H) as [[]|(wc & n & Hw & Hg & Hq)].
Qed.

(** An execution that returns has answered; a SUCCESS is then the only
    answer, and at no point of any execution does an answer follow a SUCCESS. *)
Lemma refund_answers o h :
  runs (logs txn_rely) handler [] o h ->
  refund_answered o h /\
  forall h1 r h2, h = (h1 ++ Event (Respond r) tt :: h2)%list -> acknowledged h2 = false.
Proof.
  intros Hr. destruct (safe_sound _ _ _ _ _ _ (handleRefundCallback_ok _ _ _ _ _ _ _ _) Hr)
    as [Hg Hf]. split; [by destruct o |].
  intros h1 r h2 Hh. by destruct (guarantee_at _ _ _ _ _ Hr Hh) as [[_ H]|(wc & n & _ & _ & H & _)].
Qed.
End Claims.

(** ** Termination *)

(** Explore every way through the callbacks. *)
Ltac explore :=
  repeat first
  [ apply bounded_throw
  | apply bounded_idle
  | apply bounded_perform; intros ?
  | apply bounded_enqueue
  | apply bounded_next; intros ?
  | progress cbv beta iota delta [app issue onRefundSettled onPayloadUpdated onRefundSum onOrderCovered
      onCallbackInserted onFinalize onAlreadySettled onCommitted insertCallbackAndFinish
      queueLedgerEntry finalizeRefund commitRefund answerWith rollBack failWrite mapperFailed]
  | match goal with |- bounded _ (match ?x with _ => _ end) _ => destruct x end ].

Lemma settle_bounded `{J : JsonLib} n owner status refund order :
  bounded fuel (settleRefund n owner status refund order) [].
Proof. unfold fuel, settleRefund. explore. Qed.

(** The settlement transaction terminates: whatever its statements answer,
    at most eight of them run, so no execution changes when it may run more. *)
Lemma refund_fuel_enough `{J : JsonLib} {St} (step : forall R, io R -> St -> R -> St -> Prop)
    n owner status refund order more s o s' :
  runs step (drain fuel (settleRefund n owner status refund order) []) s o s' <->
  runs step (drain (fuel + more) (settleRefund n owner status refund order) []) s o s'.
Proof. apply drain_fuel, settle_bounded. Qed.

(** The failure callbacks of the transaction each answer: when the ledger
    entry of a settled refund fails, the sum queued before the audit row and the
    audit row itself both report the failure, and the notification is answered
    FAIL twice. *)
Lemma refund_failure_answers_twice :
  let '(o, (_, w)) := refund_run "SUCCESS" 1250 [false; false; false; false; false; false; true] in
  o = Effects.Returned /\ map rp_code (w_replies w) = ["FAIL"; "FAIL"] /\ w_main (release w) = w_main w.
Proof. vm_compute. repeat split. Qed.

(** ** Witnesses *)

Abbreviation refund_lib := (Tree.lib (refund_docs "SUCCESS" 1250)).
Abbreviation shop_genuine := (@refund_genuine refund_lib true "BODY" "sig" "1704067200" "nonce-1" "serial").

Lemma refund_ack_sound_witness :
  exists wc n, Some shop_client = Some wc /\ shop_genuine wc n (tl (refund_history "SUCCESS" 1250 [])) /\
    replies (tl (refund_history "SUCCESS" 1250 [])) = 0%nat /\
    refund_justified n (tl (refund_history "SUCCESS" 1250 [])).
Proof.
  apply (@refund_ack_sound refund_lib shop_md5 (Some shop_client) true "BODY" "sig" "1704067200" "nonce-1"
           "serial" Effects.Returned (refund_history "SUCCESS" 1250 []) [] success_reply).
  - apply (refund_runs "SUCCESS" 1250 []). vm_compute. tauto.
  - vm_compute. reflexivity.
  - reflexivity.
Defined.

Lemma refund_writes_guarded_witness :
  (forall h1 R (q : stmt R) r h2,
     refund_history "SUCCESS" 1250 [] = (h1 ++ Event (Step q) (inr r) :: h2)%list ->
     exists wc n, Some shop_client = Some wc /\ shop_genuine wc n h2 /\ write_justified n h2 q) /\
  (forall h1 R c (q : stmt R) a h2,
     refund_history "SUCCESS" 1250 [] = (h1 ++ Event (Sql c q) a :: h2)%list ->
     c = Main /\ moves_money q = false).
Proof.
  apply (@refund_writes_guarded refund_lib shop_md5 (Some shop_client) true "BODY" "sig" "1704067200" "nonce-1"
           "serial" Effects.Returned (refund_history "SUCCESS" 1250 [])).
  apply (refund_runs "SUCCESS" 1250 []). vm_compute. tauto.
Defined.

Lemma refund_answers_witness :
  refund_answered Effects.Returned (refund_history "SUCCESS" 1250 []) /\
  forall h1 r h2, refund_history "SUCCESS" 1250 [] = (h1 ++ Event (Respond r) tt :: h2)%list ->
    acknowledged h2 = false.
Proof.
  apply (@refund_answers refund_lib shop_md5 (Some shop_client) true "BODY" "sig" "1704067200" "nonce-1"
           "serial" Effects.Returned).
  apply (refund_runs "SUCCESS" 1250 []). vm_compute. tauto.
Defined.
