(* ===== verification/RefundSettle.v ===== *)
(** * Refund notifications on the reference database: what they book.

    [proceedRefundDb] run by [RefDb] on arbitrary tables, whichever of its
    database calls fail. *)
From S2P Require Import Prelude Cxx Json Effects Store Amount RefDb RefDbFacts.
From S2P Require Import Callback Queued RefundCallback Scenario RefundAck.
Import RefundCallback.Refund.

(** ** What one delivery may leave behind *)

Section Delivery.
Context `{J : JsonLib} (md5 : string -> string).
Context (sum_text : list string -> string) (server_now : Z).
Context (n : refund_notice).
Abbreviation exec := (exec sum_text server_now).
Abbreviation sql := (sql sum_text server_now).
Abbreviation handle := (handle sum_text server_now).

(** The notification was accounted for before: its refund row is settled, or
    its reservation finalized. *)
Definition already_refunded (d : db) : Prop :=
  select (refund_settleable (rn_no n)) (d_refunds d) = [] \/
  (exists row, In row (d_idemps d) /\ i_key row = rn_key n /\ i_snapshot row <> None).

(** [refund] is the open refund of the notification, [order] its order, and the
    notification agrees with them. *)
Definition refundable (d : db) (refund : refund_row) (order : order_row) : Prop :=
  select (fun r => String.eqb (r_no r) (rn_no n)) (d_refunds d) = [refund] /\
  select (refund_settleable (rn_no n)) (d_refunds d) <> [] /\
  select (fun r => String.eqb (o_no r) (r_order refund)) (d_orders d) = [order] /\
  refund_agrees n refund order.

(** The refund rows after the settlement. *)
Definition refund_rows (d : db) : list refund_row :=
  update_where (fun r => String.eqb (r_no r) (rn_no n)) (set_refund_payload server_now (rn_plaintext n))
    (update_where (refund_settleable (rn_no n)) (settle_refund_row server_now (refund_status n) (rn_id n))
       (d_refunds d)).

(** The text of the sum of the settled refunds of an order. *)
Definition refund_sum (order : string) (refunds : list refund_row) : string :=
  sum_text (map r_amount (select (fun r =>
    String.eqb (r_order r) order && String.eqb (r_status r) "REFUND_SUCCESS") refunds)).

(** The money tables after a complete settlement; [None] when the database's
    sum is not an amount. *)
Definition refunded_money (refund : refund_row) (order : order_row) (created : Z) (d : db) :
    option (list payment_row * list order_row * list refund_row * list ledger_row) :=
  if String.eqb (refund_status n) "REFUND_SUCCESS" then
    match parseAmountToFen (refund_sum (r_order refund) (refund_rows d)) with
    | None => None
    | Some settled =>
        Some (d_payments d,
              (if refundsCoverOrderAmount settled (fen_or_zero (o_amount order))
               then update_where (fun r => String.eqb (o_no r) (r_order refund) && String.eqb (o_status r) "PAID")
                      (set_order_status "REFUNDED") (d_orders d)
               else d_orders d),
              refund_rows d,
              (d_ledgers d ++ [refund_entry refund order created])%list)
    end
  else Some (d_payments d, d_orders d, refund_rows d, d_ledgers d).

(** The answers sent since [w0]: none of them a SUCCESS. *)
Definition refused (w0 w : world) (rs : list reply) : Prop :=
  w_replies w = (rs ++ w_replies w0)%list /\ Forall (fun r => rp_code r <> "SUCCESS") rs.

(** All or nothing: the outcomes of one delivery started in [w0]. *)
Inductive refund_delivered (w0 w : world) : outcome -> Prop :=
| refunded_nothing o rs :
    money (outlook w) = money (w_main w0) -> refused w0 w rs ->
    (o = Escaped \/ o = Effects.Returned /\ rs <> []) -> refund_delivered w0 w o
| refunded_again :
    money (outlook w) = money (w_main w0) -> already_refunded (w_main w0) ->
    w_replies w = success_reply :: w_replies w0 -> refund_delivered w0 w Effects.Returned
| refunded refund order created :
    refundable (w_main w0) refund order ->
    refunded_money refund order created (w_main w0) = Some (money (outlook w)) ->
    w_replies w = success_reply :: w_replies w0 -> refund_delivered w0 w Effects.Returned.

Section OneDelivery.
Context (w0 : world).
Abbreviation clean := (clean w0).
Abbreviation pending := (pending w0).
Abbreviation good := (wp (handled handle) (fun _ => True) (fun o w => refund_delivered w0 w o)).

(** ** Failing transactions *)

(** The transaction is lost; [rs] was answered. *)
Definition lost (w : world) (rs : list reply) : Prop :=
  money (w_main w) = money (w_main w0) /\ w_txn w = TxAborted /\ refused w0 w rs.

Lemma lost_outlook w rs : lost w rs -> money (outlook w) = money (w_main w0).
Proof. intros (Hm & Ht & _). rewrite outlook_view. unfold view. by rewrite Ht. Qed.

Lemma lost_step R (q : stmt R) w rs a w' :
  lost w rs -> handle _ (Step q) w = (a, w') -> (exists e, a = inl e) /\ lost w' rs.
Proof.
  intros (Hm & Ht & Hr & Hf) Hs. simpl in Hs.
  assert (H : w_main (snd (sql Txn q w)) = w_main w /\ w_replies (snd (sql Txn q w)) = w_replies w /\
              w_txn (snd (sql Txn q w)) = TxAborted /\ exists e, fst (sql Txn q w) = Exc e).
  { unfold RefDb.sql. destruct (w_faults w) as [|[] fs]; unfold sql_txn; simpl; rewrite ?Ht; eauto. }
  destruct (sql Txn q w) as [b w1]. simpl in H. destruct H as (H1 & H2 & H3 & e & ->).
  injection Hs as <- <-. split; [by eexists |]. split; [congruence |]. split; [done |].
  split; [congruence | done].
Qed.

(** A lost transaction leaves nothing behind and answers, never with SUCCESS. *)
Definition hopeless (a : act io) (queue : list (task io)) (w : world) : Prop :=
  harmless a /\ Forall harmless_task queue /\
  exists rs, lost w rs /\ (rs <> [] \/ loud a \/ Exists loud_task queue).

Lemma hopeless_enqueue R (q : stmt R) k next queue w :
  hopeless (Enqueue q k next) queue w -> hopeless next (queue ++ [Task q k])%list w.
Proof.
  intros ([Hk Hh] & Hq & rs & Hw & Hl). split; [done |].
  split; [by apply Forall_app; repeat constructor |]. exists rs. split; [done |].
  rewrite Exists_app. destruct Hl as [Hl|[[Hl|Hl]|Hl]]; [by left | right; auto | | right; auto].
  do 3 right. by constructor.
Qed.

Lemma hopeless_perform R (e : io R) k queue w r w' :
  hopeless (Perform e k) queue w -> handle _ e w = (r, w') -> hopeless (k r) queue w'.
Proof.
  intros ([He Hk] & Hq & rs & (Hm & Ht & Hr & Hf) & Hl) Hs.
  destruct e; try done; injection Hs as <- <-.
  1, 2, 3: repeat split; auto; exists rs; repeat split; auto; destruct Hl as [?|[?|?]]; simpl in *; auto.
  repeat split; auto. eexists (_ :: rs). repeat split; simpl; [done | done | by rewrite Hr | by constructor |].
  by left.
Qed.

Lemma hopeless_good fuel a queue w : hopeless a queue w -> good (drain fuel a queue) w.
Proof.
  revert a queue w. induction fuel as [|fuel IH]; intros a;
    induction a as [| |R e k IHa|R q k _ a IHa]; intros queue w Hd;
    rewrite ?drain_throw, ?drain_perform, ?drain_enqueue.
  all: try by apply IHa, hopeless_enqueue.
  all: try (split; [done|]; intros r w' Hs; by eapply IHa, hopeless_perform).
  all: pose proof Hd as (_ & Hq & rs & Hw & Hl); pose proof (lost_outlook _ _ Hw) as Ho;
    pose proof Hw as (_ & _ & Hr).
  2, 4: split; [done | by eapply refunded_nothing; eauto].
  all: destruct queue as [|[R q k] rest].
  1, 3: rewrite drain_idle; destruct Hl as [Hl|[[]|Hl]]; [|by inversion Hl];
    split; [done | eapply refunded_nothing; eauto].
  - split; [done | by eapply refunded_nothing; eauto].
  - rewrite drain_next. split; [done |]. intros a w' Hs.
    destruct (lost_step _ _ _ _ _ _ Hw Hs) as [(e & ->) Hw']. apply IH.
    inversion_clear Hq as [|? ? Ht Hrest]. split; [done |]. split; [done |]. exists rs. split; [done |].
    destruct Hl as [Hl|[[]|Hl]]; [by left |]. right. inversion_clear Hl; [by left | by right].
Qed.

(** ** One statement of the open transaction *)

Abbreviation money_state :=
  (list payment_row * list order_row * list refund_row * list ledger_row)%type.

Lemma clean_lost w : clean w -> w_txn w = TxAborted -> lost w [].
Proof. intros (_ & Hm & Hr) Ht. split; [done |]. split; [done |]. split; [exact Hr | done]. Qed.

(** The statement at the head of the queue, whose effect on the money tables is
    [eff]. *)
Lemma good_next eff fuel m R (q : stmt R) k rest w :
  unchecked q = true -> (forall d, money (snd (exec q d) d) = eff (money d)) ->
  pending m w ->
  (forall e, harmless (k (inl e))) -> Forall harmless_task rest -> (forall e, loud (k (inl e))) ->
  (forall r w', fst (exec q (view w)) = Ok r -> pending (eff m) w' ->
     good (drain fuel (k (inr r)) rest) w') ->
  good (drain (S fuel) Return (Task q k :: rest)) w.
Proof.
  intros Hu Heff Hp Hk Hq Hl Hnext. rewrite drain_next. split; [done |]. intros a w' Hs.
  unfold handled in Hs. simpl in Hs. destruct (sql Txn q w) as [b w1] eqn:Eb.
  destruct (pending_step _ _ _ _ _ _ _ _ _ Hu Hp Eb) as [(r & -> & Hx & Hp' & _)|(e & -> & Hc & Ht)];
    injection Hs as <- <-.
  - apply Hnext; [done |]. by rewrite Heff, (pending_view _ _ _ Hp) in Hp'.
  - apply hopeless_good. split; [done |]. split; [done |]. exists []. split; [by apply clean_lost|].
    right. by left.
Qed.

Lemma good_issue fuel R (q : stmt R) onAnswer onThrow next queue w :
  good (drain fuel next (queue ++ [Task q onAnswer])%list) w ->
  good (drain fuel (issue q onAnswer onThrow next) queue) w.
Proof.
  intros H. unfold issue. rewrite drain_perform. split; [done |]. intros r w' [= <- <-].
  by rewrite drain_enqueue.
Qed.

Lemma good_now fuel k queue w :
  (forall t, good (drain fuel (k t) queue) w) -> good (drain fuel (Perform Now k) queue) w.
Proof. intros H. rewrite drain_perform. split; [done |]. intros t w' [= <- <-]. apply H. Qed.

Lemma good_rollBack fuel r queue m w :
  pending m w -> rp_code r <> "SUCCESS" -> Forall harmless_task queue ->
  good (drain fuel (rollBack r) queue) w.
Proof.
  intros Hp Hr Hq. unfold rollBack. rewrite drain_perform. split; [done |]. intros u w' [= <- <-].
  apply hopeless_good. split; [by split|]. split; [done |]. exists []. split; [|right; by left].
  split; [exact (pending_main _ _ _ Hp) | split; [done |]]. split; [exact (pending_replies _ _ _ Hp) | done].
Qed.

(** COMMIT, last in the queue. *)
Lemma good_commit fuel refund order created m w :
  refundable (w_main w0) refund order ->
  refunded_money refund order created (w_main w0) = Some m ->
  pending m w -> good (drain (S fuel) Return [Task Commit onCommitted]) w.
Proof.
  intros Hs Hm Hp. rewrite drain_next. split; [done |]. intros a w' Hc.
  unfold handled in Hc. simpl in Hc. destruct (sql Txn Commit w) as [b w1] eqn:Eb.
  pose proof Hp as (ws & Hw & _ & Hm0 & Hr).
  destruct (txn_commit _ _ _ _ _ _ Hw Eb) as (Hrep & [(-> & Ht & Hmain)|(e & -> & Ht & Hmain)]);
    injection Hc as <- <-.
  - unfold onCommitted, answerWith. rewrite drain_perform, drain_idle. split; [done |].
    intros u w2 [= <- <-]. split; [done |]. eapply refunded; [exact Hs | rewrite Hm |].
    + f_equal. rewrite outlook_view. unfold view. simpl. rewrite Ht, Hmain.
      by rewrite (pending_view _ _ _ Hp).
    + simpl. by rewrite Hrep, Hr.
  - apply hopeless_good. split; [tame|]. split; [done |]. exists [].
    split; [|right; left; tame]. split; [congruence |]. split; [done |]. split; [simpl; congruence | done].
Qed.

(** ** The settlement *)

Section Settlement.
Context (refund : refund_row) (order : order_row) (owner : string).
Context (Hrefundable : refundable (w_main w0) refund order).

(** Finalize, with the rest of the transaction behind it. *)
Lemma finalize_good fuel created m w :
  refunded_money refund order created (w_main w0) = Some m -> pending m w ->
  good (drain (S (S fuel)) Return
          [Task (Finalize (rn_plaintext n) (rn_key n) owner) onFinalize]) w.
Proof.
  intros Hm Hp. apply (good_next id _ m); [done | done | done | solve [tame].. |].
  intros r w' _ Hp'. destruct r as [|x xs]; [by eapply good_rollBack|].
  unfold onFinalize, commitRefund. apply good_issue. by eapply good_commit.
Qed.

(** The effects of the statements on the money tables. *)
Definition settle_effect (m : money_state) : money_state :=
  let '(ps, os, rs, ls) := m in
  (ps, os, update_where (refund_settleable (rn_no n)) (settle_refund_row server_now (refund_status n) (rn_id n)) rs, ls).

Definition payload_effect (m : money_state) : money_state :=
  let '(ps, os, rs, ls) := m in
  (ps, os, update_where (fun r => String.eqb (r_no r) (rn_no n)) (set_refund_payload server_now (rn_plaintext n)) rs, ls).

Definition ledger_effect (row : ledger_row) (m : money_state) : money_state :=
  let '(ps, os, rs, ls) := m in (ps, os, rs, (ls ++ [row])%list).

Definition order_effect (m : money_state) : money_state :=
  let '(ps, os, rs, ls) := m in
  (ps, update_where (fun r => String.eqb (o_no r) (r_order refund) && String.eqb (o_status r) "PAID")
         (set_order_status "REFUNDED") os, rs, ls).

(** A notified status other than success. *)
Lemma settle_other_good x xs w :
  String.eqb (refund_status n) "REFUND_SUCCESS" = false ->
  pending (settle_effect (money (w_main w0))) w ->
  good (drain 7 (onRefundSettled n owner (refund_status n) refund order (inr (x :: xs))) []) w.
Proof.
  intros Hs Hp. unfold onRefundSettled. apply good_issue. rewrite Hs. apply good_now. intros now.
  apply good_issue. simpl app.
  eapply (good_next payload_effect); [done | done | exact Hp | solve [tame].. |].
  intros c w1 _ Hp1. unfold onPayloadUpdated. rewrite Hs. cbn [negb].
  eapply (good_next id); [done | done | exact Hp1 | solve [tame].. |].
  intros u w2 _ Hp2. unfold onCallbackInserted, finalizeRefund. apply good_issue. simpl app.
  eapply (finalize_good _ 0); [|exact Hp2]. unfold refunded_money. by rewrite Hs.
Qed.

(** A successful refund: its ledger entry, the sum, the order. *)
Lemma settle_success_good x xs w :
  refund_status n = "REFUND_SUCCESS" ->
  pending (settle_effect (money (w_main w0))) w ->
  good (drain 7 (onRefundSettled n owner (refund_status n) refund order (inr (x :: xs))) []) w.
Proof.
  intros Hs Hp. unfold onRefundSettled. apply good_issue. rewrite Hs, String.eqb_refl.
  apply good_now. intros now. apply good_issue. simpl app.
  eapply (good_next payload_effect); [done | done | exact Hp | solve [tame].. |].
  intros c w1 _ Hp1. unfold onPayloadUpdated. apply good_issue. simpl app.
  eapply (good_next (ledger_effect _)); [done | done | exact Hp1 | solve [tame].. |].
  intros u w2 _ Hp2. apply good_now. intros received. apply good_issue. simpl app.
  eapply (good_next id); [done | done | exact Hp2 | solve [tame].. |].
  intros sums w3 Hsums Hp3. simpl in Hsums. injection Hsums as <-.
  assert (Hrows : d_refunds (view w2) = refund_rows (w_main w0)).
  { pose proof (pending_view _ _ _ Hp2) as Hv. unfold money in Hv. by injection Hv. }
  unfold onRefundSum, settledRefunds. fold (refund_sum (r_order refund) (d_refunds (view w2))).
  rewrite Hrows.
  destruct (parseAmountToFen (refund_sum (r_order refund) (refund_rows (w_main w0)))) as [settled|] eqn:Ep;
    [|by eapply good_rollBack; [exact Hp3 | done | solve [tame]]].
  destruct (refundsCoverOrderAmount settled (fen_or_zero (o_amount order))) eqn:Ec; cbn [negb].
  - apply good_issue. simpl app.
    eapply (good_next id); [done | done | exact Hp3 | solve [tame].. |].
    intros u' w4 _ Hp4. unfold onCallbackInserted, finalizeRefund. apply good_issue. simpl app.
    eapply (good_next order_effect); [done | done | exact Hp4 | solve [tame].. |].
    intros c' w5 _ Hp5. eapply (finalize_good _ now); [|exact Hp5].
    unfold refunded_money. by rewrite Hs, String.eqb_refl, Ep, Ec.
  - eapply (good_next id); [done | done | exact Hp3 | solve [tame].. |].
    intros u' w4 _ Hp4. unfold onCallbackInserted, finalizeRefund. apply good_issue. simpl app.
    eapply (finalize_good _ now); [|exact Hp4].
    unfold refunded_money. by rewrite Hs, String.eqb_refl, Ep, Ec.
Qed.
End Settlement.

(** The CAS matched no row: the audit row is kept, the answer is SUCCESS. *)
Lemma already_settled_good fuel paymentNo w :
  already_refunded (w_main w0) -> pending (money (w_main w0)) w ->
  good (drain fuel (onAlreadySettled n paymentNo) []) w.
Proof.
  intros Ha Hp. unfold onAlreadySettled. rewrite drain_perform. split; [done |].
  intros u w1 [= <- <-]. apply good_now. intros now. rewrite drain_perform. split; [done |].
  intros a w2 Hs. unfold handled in Hs. simpl in Hs.
  destruct (main_statement _ _ _ _ _ _ _ Hs) as (Ht & Hr & _ & H). simpl in Ht, Hr.
  assert (Hm : money (w_main w2) = money (w_main w0)).
  { rewrite <- (pending_main _ _ _ Hp). by destruct H as [(r & _ & _ & ->)|(e & _ & ->)]. }
  assert (Hanswer : good (drain fuel (answerWith success_reply) []) w2).
  { unfold answerWith. rewrite drain_perform, drain_idle. split; [done |]. intros v w3 [= <- <-].
    split; [done |]. apply refunded_again; [|done|].
    - rewrite outlook_view. unfold view. simpl. by rewrite Ht.
    - simpl. by rewrite Hr, (pending_replies _ _ _ Hp). }
  by destruct a.
Qed.

Lemma settle_good refund order owner w :
  select (fun r => String.eqb (r_no r) (rn_no n)) (d_refunds (w_main w0)) = [refund] ->
  select (fun r => String.eqb (o_no r) (r_order refund)) (d_orders (w_main w0)) = [order] ->
  refund_agrees n refund order -> clean w ->
  good (settleRefundInTransaction n owner (refund_status n) refund order) w.
Proof.
  intros Hsel Hord Hag (_ & Hm & Hr). split; [done |]. intros u w1 [= <- <-].
  set (w1 := set_txn (TxOpen []) w).
  assert (Hp : pending (money (w_main w0)) w1) by (by exists []).
  unfold fuel, settleRefund. apply good_issue. simpl app.
  eapply (good_next settle_effect); [done | done | exact Hp | solve [tame].. |].
  intros r w2 Hx Hp2. simpl in Hx. injection Hx as Hx.
  assert (Hrows : d_refunds (view w1) = d_refunds (w_main w0)).
  { pose proof (pending_view _ _ _ Hp) as Hv. unfold money in Hv. by injection Hv. }
  rewrite Hrows in Hx. destruct r as [|x xs].
  - assert (Hno : select (refund_settleable (rn_no n)) (d_refunds (w_main w0)) = [])
      by (by destruct (select (refund_settleable (rn_no n)) (d_refunds (w_main w0)))).
    apply already_settled_good; [by left |].
    replace (money (w_main w0)) with (settle_effect (money (w_main w0))); [done |].
    unfold settle_effect, money. do 2 f_equal. unfold update_where. rewrite select_nil in Hno.
    rewrite <- (map_id (d_refunds (w_main w0))) at 2. apply map_ext_in. intros row Hin. by rewrite Hno.
  - assert (Hs : refundable (w_main w0) refund order).
    { repeat split; try done. intros E. by rewrite E in Hx. }
    destruct (String.eqb (refund_status n) "REFUND_SUCCESS") eqn:E.
    + apply String.eqb_eq in E. by apply settle_success_good.
    + by apply settle_other_good.
Qed.

(** ** The checks before the transaction *)

Lemma refund_fail_good w m e : clean w -> good (finish (fail_reply m e)) w.
Proof.
  intros (Ho & Hm & Hr). split; [done |]. intros r w' [= <- <-]. split; [done |].
  apply (refunded_nothing _ _ _ [fail_reply m e]); [by rewrite (outlook_eq _ w) | | by right].
  split; [simpl; by rewrite Hr | by repeat constructor].
Qed.

Lemma refund_again_good w : clean w -> already_refunded (w_main w0) -> good (finish success_reply) w.
Proof.
  intros (Ho & Hm & Hr) Ha. split; [done |]. intros r w' [= <- <-]. split; [done |].
  apply refunded_again; [by rewrite (outlook_eq _ w) | done |]. simpl. by rewrite Hr.
Qed.

Lemma refund_escape_good w : clean w -> good Escape w.
Proof.
  intros (Ho & Hm & Hr). split; [done |]. apply (refunded_nothing _ _ _ []); [done | by split | by left].
Qed.

Lemma try_good {A} (o : option A) k w :
  clean w -> (forall a, o = Some a -> good (k a) w) -> good (try_ o k) w.
Proof. intros Hc Hk. destruct o; [by apply Hk | by apply refund_escape_good]. Qed.

Lemma clean_refunds w : clean w -> d_refunds (w_main w) = d_refunds (w_main w0).
Proof. intros (_ & Hm & _). unfold money in Hm. by injection Hm. Qed.

Lemma clean_orders w : clean w -> d_orders (w_main w) = d_orders (w_main w0).
Proof. intros (_ & Hm & _). unfold money in Hm. by injection Hm. Qed.

Lemma onRefund_good owner refund w :
  w_txn w = TxNone -> clean w ->
  select (fun r => String.eqb (r_no r) (rn_no n)) (d_refunds (w_main w0)) = [refund] ->
  good (onRefund n owner (refund_status n) refund) w.
Proof.
  intros Ht Hc Hsel. unfold onRefund. destruct (String.eqb_spec (r_status refund) "REFUND_SUCCESS") as [E|E].
  { apply refund_again_good; [done |]. left. unfold refund_settleable.
    by rewrite select_and, Hsel; simpl; rewrite E. }
  do 3 (apply try_good; [done |]; intros ? ?).
  destruct (parseAmountToFen (r_amount refund)) as [total|] eqn:Hp; [|by apply refund_fail_good].
  destruct (Z.leb_spec a1 0); [by apply refund_fail_good|].
  destruct (Z.eqb_spec a1 total) as [->|]; [|by apply refund_fail_good].
  cbn [negb]. split; [done |]. intros b w' Hq.
  destruct (main_step _ _ _ _ (FindOrder _) _ _ _ eq_refl Ht Hc Hq)
    as (Hc' & _ & [(order & -> & Hx)|(e & ->)]); [|by apply refund_fail_good].
  unfold onRefundOrder. destruct (negb (is_empty a0) && negb (String.eqb a0 (o_currency order))) eqn:Hcur;
    [by apply refund_fail_good|].
  apply settle_good; [done | | | done].
  - apply exactly_one_inv in Hx. by rewrite clean_orders in Hx.
  - exists a, a0, total. rewrite andb_false_iff, !negb_false_iff, is_empty_true, String.eqb_eq in Hcur.
    by repeat split.
Qed.

Lemma recordDuplicateRefund_good w :
  w_txn w = TxNone -> clean w -> already_refunded (w_main w0) -> good (recordDuplicateRefund n) w.
Proof.
  intros Ht Hc Ha. apply try_good; [done |]. intros order _. destruct (is_empty order); [by apply refund_fail_good|].
  split; [done |]. intros a w' Hq.
  destruct (main_step _ _ _ _ (NewestOpenAttempt _ _) _ _ _ eq_refl Ht Hc Hq)
    as (Hc' & Ht' & [(r & -> & _)|(e & ->)]); [|by apply refund_fail_good].
  destruct r as [|p ps]; [by apply refund_fail_good|].
  split; [done |]. intros now w1 [= <- <-]. split; [done |]. intros b w2 Hq2.
  destruct (main_step _ _ _ _ (InsertCallback _) _ _ _ eq_refl Ht' Hc' Hq2)
    as (Hc2 & _ & [(r & -> & _)|(e & ->)]); [by apply refund_again_good | by apply refund_fail_good].
Qed.

Lemma onReserved_good owner w : w_txn w = TxNone -> clean w -> good (onReserved n owner) w.
Proof.
  intros Ht Hc. unfold onReserved. fold (refund_status n).
  destruct (is_empty (refund_status n)); [by apply refund_fail_good|].
  split; [done |]. intros a w' Hq.
  destruct (main_step _ _ _ _ (FindRefund _) _ _ _ eq_refl Ht Hc Hq)
    as (Hc' & Ht' & [(refund & -> & Hx)|(e & ->)]); [|by apply refund_fail_good].
  apply onRefund_good; [done | done |]. apply exactly_one_inv in Hx. by rewrite clean_refunds in Hx.
Qed.

Lemma proceedRefundDb_good : w_txn w0 = TxNone -> good (proceedRefundDb md5 n) w0.
Proof.
  intros Ht.
  assert (Hc : clean w0) by (split; [rewrite outlook_view; unfold view; by rewrite Ht | done]).
  split; [done |]. intros a w' Hq.
  destruct (main_step _ _ _ _ (FindIdempotency _) _ _ _ eq_refl Ht Hc Hq)
    as (Hc' & Ht' & [(row & -> & Hx)|([u|u] & ->)]); [| |by apply refund_fail_good].
  - destruct (i_snapshot row) as [snapshot|] eqn:Es.
    + apply recordDuplicateRefund_good; [done.. |]. right. exists row.
      apply exactly_one_inv in Hx as Hsel.
      assert (Hin : In row (select (key_is (rn_key n)) (d_idemps (w_main w0)))) by (rewrite Hsel; by left).
      apply filter_In in Hin as [Hin Hk]. apply String.eqb_eq in Hk. split; [done |].
      split; [done |]. congruence.
    + split; [done |]. intros b w2 Hq2.
      destruct (main_step _ _ _ _ (DropUnfinalized _) _ _ _ eq_refl Ht' Hc' Hq2) as (Hc2 & _ & _).
      destruct b; by apply refund_fail_good.
  - split; [done |]. intros now w1 [= <- <-]. split; [done |]. intros uuid w1 [= <- <-].
    split; [done |]. intros b w2 Hq2.
    destruct (main_step _ _ _ _ (ReserveCallback _ _ _ _) _ _ _ eq_refl Ht' Hc' Hq2)
      as (Hc2 & Ht2 & [(r & -> & _)|(e & ->)]); [|by apply refund_fail_good].
    destruct r as [|k ks]; [by apply refund_fail_good | by apply onReserved_good].
Qed.
End OneDelivery.
End Delivery.

(** ** Theorems *)

Section Claims.
Context `{J : JsonLib} (md5 : string -> string).
Context (sum_text : list string -> string) (server_now : Z).

(** A first delivery of a successful refund: the key is new, the refund row
    unique and open, its order known, the notification agrees with them, and the
    database prints the sum of the settled refunds as an amount. *)
Record refund_due (n : refund_notice) (d : db) (refund : refund_row) (order : order_row)
    (settled : Z) : Prop := RefundDue {
  rd_new : select (key_is (rn_key n)) (d_idemps d) = [];
  rd_refundable : refundable n d refund order;
  rd_success : refund_status n = "REFUND_SUCCESS";
  rd_open : r_status refund <> "REFUND_SUCCESS";
  rd_sum : parseAmountToFen (refund_sum sum_text (r_order refund) (refund_rows server_now n d)) = Some settled
}.

Definition refunded_world (n : refund_notice) (refund : refund_row) (order : order_row)
    (settled : Z) (w : world) : world :=
  let d := w_main w in
  let owner := remove_dashes (w_uuid w) in
  World
    (Db (d_idemps d ++ [IdempRow (rn_key n) (md5 (rn_body n)) (Some (rn_plaintext n)) (Some owner)
                          (Some (w_now w + reservationTtl))])%list
        (d_payments d)
        (if refundsCoverOrderAmount settled (fen_or_zero (o_amount order))
         then update_where (fun r => String.eqb (o_no r) (r_order refund) && String.eqb (o_status r) "PAID")
                (set_order_status "REFUNDED") (d_orders d)
         else d_orders d)
        (refund_rows server_now n d)
        (d_callbacks d ++ [refundCallbackRow n (r_payment refund) (w_now w)])%list
        (d_ledgers d ++ [refund_entry refund order (w_now w)])%list)
    TxNone (success_reply :: w_replies w) (w_now w) (w_uuid w) (w_nonces w) [].

(** The checks of a notification that agrees. *)
Lemma onRefund_agrees n owner status refund order :
  refund_agrees n refund order -> r_status refund <> "REFUND_SUCCESS" ->
  exists currency,
    negb (is_empty currency) && negb (String.eqb currency (o_currency order)) = false /\
    onRefund n owner status refund =
      do a <- Sql Main (FindOrder (r_order refund));
      match a with
      | Ok order => onRefundOrder n owner status currency refund order
      | Exc _ => finish (fail_reply "order not found" (SystemError 1404))
      | Threw _ => reportMapperFailure
      end.
Proof.
  intros (amount & currency & total & Ha & Hc & Ht & Hpos & Hp & Hcur) Hopen. exists currency. split.
  - rewrite andb_false_iff, !negb_false_iff, is_empty_true, String.eqb_eq. tauto.
  - unfold onRefund. apply String.eqb_neq in Hopen. rewrite Hopen, Ha. cbn [try_]. rewrite Hc. cbn [try_].
    rewrite Ht. cbn [try_]. rewrite Hp, Z.eqb_refl.
    by destruct (Z.leb_spec total 0); [lia|].
Qed.

(** Run the handler as far as the known rows allow. *)
Ltac go :=
  repeat (progress (unfold sql_main;
    cbn -[drain String.eqb select existsb update_where parseAmountToFen refundsCoverOrderAmount])).

(** *** A settlement without failures

    [w] runs a transaction begun in [w1] whose statements see the tables [d]. *)
Definition settling (w1 : world) (d : db) (w : world) : Prop :=
  exists ws, apply_writes ws (w_main w1) = d /\
    w = World (w_main w1) (TxOpen ws) (w_replies w1) (w_now w1) (w_uuid w1) (w_nonces w1) [].

Abbreviation running := (run (handle sum_text server_now)).

Section Run.
Context (w1 : world) (P : outcome * world -> Prop).

Lemma run_issue fuel R (q : stmt R) onAnswer onThrow next queue w :
  P (running (drain fuel next (queue ++ [Task q onAnswer])%list) w) ->
  P (running (drain fuel (issue q onAnswer onThrow next) queue) w).
Proof. intros H. unfold issue. rewrite drain_perform. simpl. by rewrite drain_enqueue. Qed.

Lemma run_now fuel k queue d w :
  settling w1 d w -> P (running (drain fuel (k (w_now w1)) queue) w) -> P (running (drain fuel (Perform Now k) queue) w).
Proof. intros (ws & _ & ->) H. by rewrite drain_perform. Qed.

Lemma run_next fuel R (q : stmt R) k rest d r eff w :
  settling w1 d w -> is_commit q = false -> exec sum_text server_now q d = (Ok r, eff) ->
  (forall w', settling w1 (eff d) w' -> P (running (drain fuel (k (inr r)) rest) w')) ->
  P (running (drain (S fuel) Return (Task q k :: rest)) w).
Proof.
  intros (ws & Hd & ->) Hc He Hk. rewrite drain_next. simpl. unfold RefDb.sql, sql_txn. simpl.
  rewrite Hd, He, Hc. apply Hk. exists (ws ++ [eff])%list. split; [by rewrite apply_writes_snoc, Hd | done].
Qed.

Lemma run_commit fuel d w :
  settling w1 d w ->
  P (Effects.Returned, World d TxNone (success_reply :: w_replies w1) (w_now w1) (w_uuid w1) (w_nonces w1) []) ->
  P (running (drain (S fuel) Return [Task Commit onCommitted]) w).
Proof.
  intros (ws & Hd & ->) HP. rewrite drain_next. simpl. unfold answerWith. rewrite drain_perform. simpl.
  rewrite drain_idle. simpl. by rewrite Hd.
Qed.
End Run.

(** The tables the transaction commits. *)
Definition refunded_tables (n : refund_notice) (owner : string) (refund : refund_row) (order : order_row)
    (settled now : Z) (d : db) : db :=
  Db (update_where (fun r => key_is (rn_key n) r && owned_by owner r) (set_snapshot (rn_plaintext n)) (d_idemps d))
     (d_payments d)
     (if refundsCoverOrderAmount settled (fen_or_zero (o_amount order))
      then update_where (fun r => String.eqb (o_no r) (r_order refund) && String.eqb (o_status r) "PAID")
             (set_order_status "REFUNDED") (d_orders d)
      else d_orders d)
     (refund_rows server_now n d)
     (d_callbacks d ++ [refundCallbackRow n (r_payment refund) now])%list
     (d_ledgers d ++ [refund_entry refund order now])%list.

(** Run the statement at the head of the queue. *)
Ltac statement H :=
  simpl app; eapply run_next; [exact H | done | reflexivity |]; clear H; intros ? H.

(** The reservation is finalized, then COMMIT. *)
Lemma finalize_runs n owner w1 (P : outcome * world -> Prop) fuel d w :
  select (fun r => key_is (rn_key n) r && owned_by owner r) (d_idemps d) <> [] ->
  settling w1 d w ->
  P (Effects.Returned,
     World (with_idemps (update_where (fun r => key_is (rn_key n) r && owned_by owner r)
                           (set_snapshot (rn_plaintext n))) d)
       TxNone (success_reply :: w_replies w1) (w_now w1) (w_uuid w1) (w_nonces w1) []) ->
  P (running (drain (S (S fuel)) Return [Task (Finalize (rn_plaintext n) (rn_key n) owner) onFinalize]) w).
Proof.
  intros Hown H HP. statement H. destruct (select _ _) as [|x xs]; [done |].
  unfold onFinalize, commitRefund. simpl map. cbv iota. apply run_issue. simpl app.
  eapply run_commit; [exact H | exact HP].
Qed.

Lemma settle_runs n owner refund order settled w1 (P : outcome * world -> Prop) :
  w_faults w1 = [] -> refund_status n = "REFUND_SUCCESS" ->
  select (refund_settleable (rn_no n)) (d_refunds (w_main w1)) <> [] ->
  parseAmountToFen (refund_sum sum_text (r_order refund) (refund_rows server_now n (w_main w1))) = Some settled ->
  select (fun r => key_is (rn_key n) r && owned_by owner r) (d_idemps (w_main w1)) <> [] ->
  P (Effects.Returned,
     World (refunded_tables n owner refund order settled (w_now w1) (w_main w1)) TxNone
       (success_reply :: w_replies w1) (w_now w1) (w_uuid w1) (w_nonces w1) []) ->
  P (running (settleRefundInTransaction n owner "REFUND_SUCCESS" refund order) w1).
Proof.
  intros Hf Hs Hset Hsum Hown HP. unfold settleRefundInTransaction, fuel, settleRefund. cbn -[drain].
  assert (H : settling w1 (w_main w1) (set_txn (TxOpen []) w1)).
  { exists []. split; [done |]. unfold set_txn. by rewrite Hf. }
  apply run_issue. statement H.
  destruct (select (refund_settleable (rn_no n)) (d_refunds (w_main w1))) as [|x xs]; [done |].
  simpl map. unfold onRefundSettled. cbv zeta. apply run_issue. rewrite String.eqb_refl.
  unfold queueLedgerEntry. eapply run_now; [exact H|]. apply run_issue. statement H.
  unfold onPayloadUpdated. rewrite String.eqb_refl. cbn [negb]. apply run_issue. statement H.
  unfold insertCallbackAndFinish. eapply run_now; [exact H|]. apply run_issue. statement H.
  unfold onRefundSum, settledRefunds.
  match goal with |- context [parseAmountToFen ?s] =>
    assert (E : parseAmountToFen s = Some settled)
      by (rewrite <- Hsum; unfold refund_rows; rewrite Hs; reflexivity) end.
  rewrite E. unfold refunded_tables, refund_rows in HP. rewrite Hs in HP.
  destruct (refundsCoverOrderAmount settled (fen_or_zero (o_amount order))); cbn [negb].
  - apply run_issue. statement H. unfold onCallbackInserted, finalizeRefund.
    apply run_issue. statement H.
    eapply (finalize_runs n owner _ _ 0); [|exact H | exact HP]. exact Hown.
  - statement H. unfold onCallbackInserted, finalizeRefund. apply run_issue. simpl app.
    eapply (finalize_runs n owner _ _ 1); [|exact H | exact HP]. exact Hown.
Qed.

(** C34. A first delivery of a genuine successful refund notification ends in
    exactly the refunded world: the refund row REFUND_SUCCESS with the notified
    refund number and payload, one REFUND ledger entry, one audit row, the order
    REFUNDED if the settled refunds cover it and untouched otherwise, the
    reservation finalized with the plaintext, nothing else changed, and the
    answer is SUCCESS. *)
Theorem refund_delivery_settles n w refund order settled :
  w_faults w = [] -> w_txn w = TxNone -> refund_due n (w_main w) refund order settled ->
  serve sum_text server_now (proceedRefundDb md5 n) w = refunded_world n refund order settled w.
Proof.
  destruct w as [[ids pays ords refs cbs leds] t rs now uuid nonces fs]. simpl. intros -> ->.
  intros [Hnew (Hsel & Hset & Hord & Hag) Hs Hopen Hsum]. simpl in *. unfold serve. go.
  rewrite Hnew. go. rewrite (select_nil_existsb _ _ Hnew). go.
  unfold onReserved. fold (refund_status n). rewrite Hs. go. rewrite Hsel. go.
  destruct (onRefund_agrees n (remove_dashes uuid) "REFUND_SUCCESS" refund order Hag Hopen)
    as (currency & Hcur & ->).
  go. rewrite Hord. go. unfold onRefundOrder. rewrite Hcur.
  destruct (reserved_rows (rn_key n) (owned_by (remove_dashes uuid)) ids
              (IdempRow (rn_key n) (md5 (rn_body n)) None (Some (remove_dashes uuid)) (Some (now + reservationTtl)))
              (set_snapshot (rn_plaintext n)) Hnew) as [E1 E2].
  { unfold key_is, owned_by. simpl. by rewrite !String.eqb_refl. }
  apply (settle_runs n _ refund order settled _ (fun x => release (snd x) = _));
    [done | done | done | done | simpl; by rewrite E1 |].
  unfold refunded_tables, refunded_world, release, commit. simpl. by rewrite E2.
Qed.

(** C33. All or nothing.  Whatever the tables hold and whichever of its
    database calls fail, one delivery of a refund notification either leaves the
    payment, order, refund and ledger tables untouched and never answers SUCCESS
    (it answers, or an exception escapes), or the refund had been settled before
    and is acknowledged again, or it leaves exactly the complete settlement of
    the open refund the notification agrees with (the refund row, and for a
    successful refund its ledger entry and the order, REFUNDED when the settled
    refunds cover it), and its one answer is SUCCESS. *)
Theorem refund_delivery_atomic n w0 :
  w_txn w0 = TxNone ->
  let '(o, w) := run (handle sum_text server_now) (proceedRefundDb md5 n) w0 in
  refund_delivered sum_text server_now n w0 w o.
Proof.
  intros Ht. pose proof (wp_run _ _ _ _ _ (proceedRefundDb_good md5 sum_text server_now n w0 Ht)) as H.
  by destruct (run _ _ _) as [o w].
Qed.
End Claims.

(** ** Witnesses *)

Definition shop_refund_notice : @refund_notice (Tree.lib (refund_docs "SUCCESS" 1250)) :=
  @RefundNotice (Tree.lib (refund_docs "SUCCESS" 1250)) "EV-1" "R1" "SUCCESS" "RF1" "PLAIN" "BODY" "sig"
    "serial" (refund_text "SUCCESS" 1250).

Definition paid_order : order_row := set_order_status "PAID" shop_order.

Lemma shop_refund_due : refund_due shop_sum shop_time shop_refund_notice paid_db shop_refund paid_order 1250.
Proof.
  split; [reflexivity | | reflexivity | done | reflexivity].
  split; [reflexivity |]. split; [by vm_compute |]. split; [reflexivity |].
  exists (Tree.TObject [("refund", Tree.TInt 1250); ("currency", Tree.TString "CNY")]), "CNY", 1250.
  repeat split; auto.
Qed.

Lemma refund_delivery_settles_witness :
  serve shop_sum shop_time (proceedRefundDb shop_md5 shop_refund_notice) (paid_shop []) =
  refunded_world shop_md5 shop_time shop_refund_notice shop_refund paid_order 1250 (paid_shop []).
Proof. apply refund_delivery_settles; [reflexivity | reflexivity | exact shop_refund_due]. Defined.

Lemma refund_delivery_atomic_witness :
  let '(o, w) := run (handle shop_sum shop_time) (proceedRefundDb shop_md5 shop_refund_notice)
                   (paid_shop [false; false; false; false; false; true]) in
  refund_delivered shop_sum shop_time shop_refund_notice (paid_shop [false; false; false; false; false; true]) w o.
Proof. apply refund_delivery_atomic. reflexivity. Defined.
