(* ===== verification/WechatNotify.v ===== *)
(** * The WeChat notification endpoint: [WechatCallbackController::notify]
    (src/libs/drogon-pay/src/handlers/CallbackHandlers.cc) in front of
    [CallbackService]. *)
From S2P Require Import Prelude Cxx Json Effects Store Callback Queued RefundCallback.
From S2P Require Import RefDb Scenario PaymentAck RefundAck.

(** ** Definitions *)

(** What the handler does with a request: answer it itself, hand it to the
    service, or let an exception out. *)
Inductive dispatch :=
| Refused (status code : Z) (message : string)
| Serve (p : program)
| Thrown.

(** The HTTP status of a service answer: 500 when its error code is set. *)
Definition httpStatus (r : reply) : Z :=
  match rp_error r with NoError => 200 | SystemError _ | PayError _ _ => 500 end.

(** [respondPluginUnavailable] *)
Definition pluginUnavailable (what : string) : dispatch :=
  Refused 503 1501 (what +:+ " is not available in this process").

Section Notify.
Context `{J : JsonLib} (md5 : string -> string).
(** the plugin's [CallbackService] exists; its WeChat client and Redis *)
Context (service : bool) (wechat : option wechat_client) (redis : bool).

(** The two event type tests. *)
Definition isRefundEvent (eventType : string) : bool := contains "REFUND" eventType.

Definition knownEvent (eventType : string) : bool :=
  String.eqb eventType "TRANSACTION.SUCCESS" || isRefundEvent eventType.

Definition notify (body signature timestamp nonce serialNo : string) : dispatch :=
  match jparse body with
  | None => Refused 400 40002 "Invalid JSON body"
  | Some bodyJson =>
      match isMember bodyJson "event_type" with
      | None => Thrown
      | Some false => Refused 400 40003 "Missing event_type"
      | Some true =>
          match index bodyJson "event_type" with
          | None => Thrown
          | Some event =>
              if negb (isString event) then Refused 400 40003 "Missing event_type"
              else
                match asString event with
                | None => Thrown
                | Some eventType =>
                    if negb (knownEvent eventType)
                    then Refused 400 40004 ("Unknown event_type: " +:+ eventType)
                    else if negb service then pluginUnavailable "Callback service"
                    else if isRefundEvent eventType
                    then Serve (Refund.handleRefundCallback md5 wechat redis
                                  body signature timestamp nonce serialNo)
                    else Serve (Payment.handlePaymentCallback md5 wechat redis
                                  body signature timestamp nonce serialNo)
                end
          end
      end
  end.
End Notify.

(** ** Every answer of a program *)

Fixpoint answers (P : reply -> Prop) (p : program) : Prop :=
  match p with
  | Done | Escape => True
  | Vis e k => match e with Respond r => P r | _ => True end /\ forall r, answers P (k r)
  end.

Lemma answers_safe P Rely p h :
  answers P p ->
  safe Rely (fun _ ev => match ev with Event e _ => match e with Respond r => P r | _ => True end end)
    (fun _ _ => True) p h.
Proof.
  revert h. induction p as [| |R e k IH]; intros h; simpl; [done.. |]. intros [He Hk] r _. auto.
Qed.

(** The answer that carries no error code is the SUCCESS. *)
Definition coded (r : reply) : Prop := rp_error r = NoError <-> rp_code r = "SUCCESS".

Lemma answers_finish P r : P r -> answers P (finish r).
Proof. done. Qed.

Lemma answers_reject m : m <> "" -> answers coded (reject m).
Proof.
  intros Hm. unfold reject, respond. destruct (is_empty m) eqn:E; [by apply is_empty_true in E|].
  by apply answers_finish.
Qed.

(** The same for queued callbacks. *)
Fixpoint act_answers (P : reply -> Prop) (a : act io) : Prop :=
  match a with
  | Return | Throw => True
  | Perform e k => match e with Respond r => P r | _ => True end /\ forall r, act_answers P (k r)
  | Enqueue q k next => (forall r, act_answers P (k r)) /\ act_answers P next
  end.

Definition task_answers (P : reply -> Prop) (t : task io) : Prop :=
  match t with Task q k => forall r, act_answers P (k r) end.

Lemma drain_answers P fuel a queue :
  act_answers P a -> Forall (task_answers P) queue -> answers P (drain fuel a queue).
Proof.
  revert a queue. induction fuel as [|fuel IH]; intros a;
    induction a as [| |R e k IHa|R q k _ a IHa]; intros queue Ha Hq;
    rewrite ?drain_throw, ?drain_perform, ?drain_enqueue; try done.
  all: try (destruct Ha as [He Hk]; split; [done | intros r; by apply IHa]; fail).
  all: try (destruct Ha as [Hk Hn]; apply IHa; [done | by apply Forall_app; repeat constructor]; fail).
  all: destruct queue as [|[R q k] rest]; try done.
  rewrite drain_next. inversion_clear Hq. split; [done |]. intros r. by apply IH.
Qed.

(** Take a handler apart down to its answers, or to what [known] proves. *)
Ltac answering_by known :=
  repeat first
  [ known
  | exact I
  | apply answers_finish; split; discriminate
  | apply answers_finish; split; reflexivity
  | apply answers_reject; discriminate
  | match goal with
    | |- forall _, _ => intros ?
    | |- _ /\ _ => split
    | |- coded _ => split; (discriminate || reflexivity)
    | |- answers _ (Vis _ _) => split; [exact I|]
    | |- answers _ (try_ ?o _) => destruct o; [|exact I]; cbn [try_]
    | |- answers _ (match ?x with _ => _ end) => destruct x
    | |- answers _ (let '(_, _) := ?x in _) => destruct x
    | |- act_answers _ (match ?x with _ => _ end) => destruct x
    end
  | progress simpl ].

Ltac answering := answering_by fail.

Section Coded.
Context `{J : JsonLib} (md5 : string -> string).
Context (wechat : option wechat_client) (redis : bool).
(** The client names the reason when it cannot decrypt. *)
Context (decrypt_error : forall wc cipher iv associated,
  wechat = Some wc -> wc_decrypt wc cipher iv associated <> inl "").

Lemma payment_db_coded n : answers coded (Payment.proceedWithDb md5 n).
Proof.
  unfold Payment.proceedWithDb, Payment.recordDuplicate, Payment.reserveAndSettle, newReservationToken,
    dropUnfinalizedReservation, Payment.settleInTransaction, Payment.onLocked, Payment.onOrder,
    Payment.checkNotice, Payment.refuse, Payment.resolveOrderStatus, Payment.recordAndSettle,
    Payment.onSettled, Payment.onAlreadyAdvanced, Payment.orderUpdateFailed, Payment.onOrderUpdated,
    insertLedgerEntry, Payment.finalizeAndCommit, Payment.commitThenFinalize, Payment.finalizeAfterCommit,
    finalizeReservation, Payment.commitFinalized, respondDbError, reportMapperFailure.
  answering.
Qed.

Lemma settle_refund_coded n owner status refund order :
  act_answers coded (Refund.settleRefund n owner status refund order).
Proof.
  unfold Refund.settleRefund, Refund.onRefundSettled, Refund.onAlreadySettled, Refund.onPayloadUpdated,
    Refund.onRefundSum, Refund.onOrderCovered, Refund.queueLedgerEntry, Refund.insertCallbackAndFinish,
    Refund.onCallbackInserted, Refund.finalizeRefund, Refund.onFinalize, Refund.commitRefund,
    Refund.onCommitted, Refund.failWrite, Refund.mapperFailed, Refund.rollBack, Refund.answerWith, issue.
  answering.
Qed.

Lemma refund_db_coded n : answers coded (Refund.proceedRefundDb md5 n).
Proof.
  assert (Hs : forall owner status refund order,
    answers coded (Refund.settleRefundInTransaction n owner status refund order)).
  { intros. split; [done |]. intros _. apply drain_answers; [apply settle_refund_coded | done]. }
  unfold Refund.proceedRefundDb, Refund.recordDuplicateRefund, Refund.reserveRefund, newReservationToken,
    dropUnfinalizedReservation, Refund.onReserved, Refund.onRefund, Refund.onRefundOrder,
    respondDbError, reportMapperFailure.
  answering_by ltac:(apply Hs).
Qed.

Lemma timestamp_error timestamp now e : timestampFresh timestamp now = Some e -> e <> "".
Proof. unfold timestampFresh. destruct (stoll timestamp); [destruct (_ <? _)|]; congruence. Qed.

Lemma reject_coded wc m :
  (forall cipher iv associated, wc_decrypt wc cipher iv associated <> inl "") ->
  m <> "" \/ (exists c i a, wc_decrypt wc c i a = inl m) -> answers coded (reject m).
Proof.
  intros He [Hm|(c & i & a & Hd)]; apply answers_reject; [done|]. intros ->. by apply (He c i a).
Qed.

Lemma nonce_coded nonce (p : program) :
  answers coded p ->
  answers coded (checkNonce redis nonce (fun firstSight =>
    if negb firstSight then reject "replay detected" else p)).
Proof. intros Hp. unfold checkNonce. answering_by ltac:(exact Hp). Qed.

Lemma payment_coded body signature timestamp nonce serial :
  answers coded (Payment.handlePaymentCallback md5 wechat redis body signature timestamp nonce serial).
Proof.
  unfold Payment.handlePaymentCallback. destruct wechat as [wc|] eqn:Hw; [|answering].
  destruct (negb _); [answering|]. split; [done |]. intros now.
  destruct (timestampFresh _ _) eqn:Ht; [by eapply answers_reject, timestamp_error|].
  unfold Payment.openPaymentEnvelope. apply openEnvelope_cases; [done | done | | by answering | done |].
  - intros m Hm. apply (reject_coded wc); [intros; by apply decrypt_error | done].
  - intros nj plaintext _. unfold Payment.readNotice. answering_by ltac:(apply nonce_coded, payment_db_coded).
Qed.

Lemma refund_coded body signature timestamp nonce serial :
  answers coded (Refund.handleRefundCallback md5 wechat redis body signature timestamp nonce serial).
Proof.
  unfold Refund.handleRefundCallback. destruct wechat as [wc|] eqn:Hw; [|answering].
  destruct (negb _); [answering|]. split; [done |]. intros now.
  destruct (timestampFresh _ _) eqn:Ht; [by eapply answers_reject, timestamp_error|].
  unfold Refund.openRefundEnvelope. apply openEnvelope_cases; [done | done | | by answering | done |].
  - intros m Hm. apply (reject_coded wc); [intros; by apply decrypt_error | done].
  - intros nj plaintext _. unfold Refund.readRefund. answering_by ltac:(apply nonce_coded, refund_db_coded).
Qed.
End Coded.

(** ** The endpoint *)

Lemma notify_serves `{J : JsonLib} md5 service wechat redis body signature timestamp nonce serial p :
  notify md5 service wechat redis body signature timestamp nonce serial = Serve p ->
  service = true /\ exists eventType,
    (exists j event, jparse body = Some j /\ index j "event_type" = Some event /\
       isString event = true /\ asString event = Some eventType) /\
    ((isRefundEvent eventType = true /\
      p = Refund.handleRefundCallback md5 wechat redis body signature timestamp nonce serial) \/
     (eventType = "TRANSACTION.SUCCESS" /\
      p = Payment.handlePaymentCallback md5 wechat redis body signature timestamp nonce serial)).
Proof.
  unfold notify, pluginUnavailable. destruct (jparse body) as [j|] eqn:Ej; [|done].
  destruct (isMember j _) as [[]|]; [|done..]. destruct (index j _) as [event|] eqn:Ei; [|done].
  destruct (isString event) eqn:Es; [|done]. destruct (asString event) as [et|] eqn:Ea; [|done]. simpl.
  destruct (knownEvent et) eqn:Ek; [|done]. destruct service; [|done]. cbn [negb].
  destruct (isRefundEvent et) eqn:Er; intros [= <-]; (split; [done |]); exists et;
    (split; [eauto 8 |]); [by left |]. right. split; [|done]. unfold knownEvent in Ek.
  rewrite Er, orb_false_r in Ek. by apply String.eqb_eq.
Qed.

(** An answer of status 200 is the SUCCESS of a genuine notification that was accounted
    for. *)
Definition accounted `{J : JsonLib} (wechat : option wechat_client) (redis : bool)
    (body signature timestamp nonce serial : string) (r : reply) (h : list (event io)) : Prop :=
  rp_code r = "SUCCESS" /\ exists wc, wechat = Some wc /\
    ((exists n, genuine redis wc body signature timestamp nonce serial n h /\ ack_justified n h) \/
     (exists n, refund_genuine redis body signature timestamp nonce serial wc n h /\ refund_justified n h)).

Definition ok_guarantee `{J : JsonLib} wechat redis body signature timestamp nonce serial
    (h : list (event io)) (ev : event io) : Prop :=
  match ev with
  | Event e _ =>
      match e with
      | Respond r => httpStatus r = 200 -> accounted wechat redis body signature timestamp nonce serial r h
      | _ => True
      end
  end.

Lemma notify_refused `{J : JsonLib} md5 service wechat redis body signature timestamp nonce serial status code m :
  notify md5 service wechat redis body signature timestamp nonce serial = Refused status code m -> status <> 200.
Proof. unfold notify, pluginUnavailable. repeat split_goal; congruence. Qed.

Lemma served_ok `{J : JsonLib} md5 service wechat redis body signature timestamp nonce serial p :
  (forall wc cipher iv associated, wechat = Some wc -> wc_decrypt wc cipher iv associated <> inl "") ->
  notify md5 service wechat redis body signature timestamp nonce serial = Serve p ->
  safe txn_rely (ok_guarantee wechat redis body signature timestamp nonce serial) (fun _ _ => True) p [].
Proof.
  intros Hd En. destruct (notify_serves _ _ _ _ _ _ _ _ _ _ En) as (_ & et & _ & [[_ ->]|[_ ->]]).
  - eapply safe_strengthen; [exact (answers_safe _ txn_rely _ _ (refund_coded md5 wechat redis Hd _ _ _ _ _))|
      exact (handleRefundCallback_ok _ _ _ _ _ _ _ _)|].
    intros h [R e r] Hc Hg. destruct e as [ | | | | | | | | | |rp]; try done. simpl. intros Hs.
    destruct Hc as [Hc _]. assert (Hcode : rp_code rp = "SUCCESS")
      by (apply Hc; unfold httpStatus in Hs; by destruct (rp_error rp)).
    split; [done|]. destruct Hg as [[Hn _]|(wc & n & Hw & Hg & _ & Hj)]; [done|].
    exists wc. split; [done|]. right. exists n. by destruct (Hj Hcode).
  - eapply safe_strengthen; [exact (answers_safe _ txn_rely _ _ (payment_coded md5 wechat redis Hd _ _ _ _ _))|
      exact (handlePaymentCallback_ok _ _ _ _ _ _ _ _)|].
    intros h [R e r] Hc Hg. destruct e as [ | | | | | | | | | |rp]; try done. simpl. intros Hs.
    destruct Hc as [Hc _]. assert (Hcode : rp_code rp = "SUCCESS")
      by (apply Hc; unfold httpStatus in Hs; by destruct (rp_error rp)).
    split; [done|]. destruct Hg as [_ Hg]. destruct (Hg Hcode) as (wc & n & Hw & Hgen & Hj).
    exists wc. split; [done|]. left. by exists n.
Qed.

(** A body that is JSON but no object throws out of the handler, before any
    signature was checked. *)
Example array_body_escapes :
  notify (J := Tree.lib [("[1]", Tree.TArray [Tree.TInt 1])]) shop_md5 true (Some shop_client) true
    "[1]" "" "" "" "" = Thrown.
Proof. reflexivity. Qed.
