(* ===== verification/AlipayChannel.v ===== *)
(** * The Alipay channel (src/libs/drogon-pay/src/channels/AlipayChannel.cc):
    configuration, requests, the reading of answers, notifications.

    RSA and Base64 are OpenSSL's, URL coding, UUIDs and the HTTP client are drogon's:
    arguments of the definitions that use them. *)
From S2P Require Import Prelude Cxx Json Effects Amount NotifyUrl Rfc3339 Registry RefundService PaymentCreate.

(** ** Configuration *)

Record alipay_config := AlipayConfig {
  a_appId : string;
  a_sellerId : string;
  a_privateKeyPath : string;
  a_publicKeyPath : string;     (* alipayPublicKeyPath_ *)
  a_gatewayUrl : string;
  a_notifyUrl : string;
  a_timeoutMs : Z;
  a_privateKeyPem : string;
  a_publicKeyPem : string
}.

Definition isPlaceholder (value : string) : bool := is_empty value || String.prefix "__env_var:" value.

Definition isConfigured (c : alipay_config) : bool :=
  negb (isPlaceholder (a_appId c) || isPlaceholder (a_sellerId c) || isPlaceholder (a_privateKeyPath c)
        || isPlaceholder (a_publicKeyPath c) || isPlaceholder (a_gatewayUrl c)).

(** ** Notifications *)

(** A [std::unordered_map] of parameters, and the object built from it, as bindings
    in key order. *)
Abbreviation params := (list (string * string)).

Definition param (key : string) (ps : params) : string := default "" (map_find key ps).

Fixpoint plus_to_space (s : string) : string :=
  match s with
  | EmptyString => EmptyString
  | String c s' => String (if Ascii.eqb c "+" then " "%char else c) (plus_to_space s')
  end.

(** One [key=value] of a form body; without '=' it is skipped. *)
Definition formPair (urlDecode : string -> string) (pair : string) (ps : params) : params :=
  match find_split "=" pair with
  | None => ps
  | Some (key, value) => map_assign key (urlDecode (plus_to_space value)) ps
  end.

Definition parseForm (urlDecode : string -> string) (body : string) : params :=
  fold_left (fun ps pair => formPair urlDecode pair ps) (split_on "&" body) [].

(** [data += (data.empty() ? "" : "&") + key + "=" + value] *)
Definition append_pair (data : string) (kv : string * string) : string :=
  (if is_empty data then "" else data +:+ "&") +:+ fst kv +:+ "=" +:+ snd kv.

(** A parameter that is part of the signed text. *)
Definition signedParam (kv : string * string) : bool :=
  negb (String.eqb (fst kv) "sign") && negb (String.eqb (fst kv) "sign_type") && negb (is_empty (snd kv)).

Definition signedData (ps : params) : string := fold_left append_pair (List.filter signedParam ps) "".

Section Keys.
(** What OpenSSL makes of a PEM text and data: a Base64 signature; whether the Base64
    signature verifies. *)
Context (rsaSign : string -> string -> option string) (rsaVerify : string -> string -> string -> bool).

Definition sign (c : alipay_config) (data : string) : string :=
  if is_empty (a_privateKeyPem c) then "" else default "" (rsaSign (a_privateKeyPem c) data).

Definition verify (c : alipay_config) (data signature : string) : bool :=
  if is_empty (a_publicKeyPem c) then false else rsaVerify (a_publicKeyPem c) data signature.

Definition verifyCallback (c : alipay_config) (ps : params) (signature : string) : bool :=
  verify c (signedData ps) signature.
End Keys.

Module Alipay.
Section Channel.
Context `{J : JsonLib}.
Context (rsaSign : string -> string -> option string) (rsaVerify : string -> string -> string -> bool).
Context (urlEncode urlDecode : string -> string) (utc_offset : Z -> Z).
(** The content of a file, if it can be opened. *)
Context (readFile : string -> option string).

(** [asInt]: throws outside of [int]. *)
Definition get_int (j : json) (key : string) (fallback : Z) : option Z :=
  v ← get j key (of_int fallback);
  z ← asInt64 v;
  if (- 2 ^ 31 <=? z) && (z <? 2 ^ 31) then Some z else None.

Definition loadFile (path : string) : string := if is_empty path then "" else default "" (readFile path).

(** The constructor; [None]: an accessor throws. *)
Definition configure (config : json) : option alipay_config :=
  appId ← get_string config "app_id";
  sellerId ← get_string config "seller_id";
  privateKeyPath ← get_string config "private_key_path";
  publicKeyPath ← get_string config "alipay_public_key_path";
  gatewayUrl ← (v ← get config "gateway_url" (of_string "https://openapi.alipaydev.com/gateway.do"); asString v);
  notifyUrl ← get_string config "notify_url";
  timeoutMs ← get_int config "timeout_ms" 30000;
  Some (AlipayConfig appId sellerId privateKeyPath publicKeyPath gatewayUrl notifyUrl timeoutMs
          (loadFile privateKeyPath) (loadFile publicKeyPath)).

Context (c : alipay_config).

(** ** Requests *)

Record gateway_request := GatewayRequest {
  g_baseUrl : string;
  g_body : string;
  g_method : string      (* captured for the answer *)
}.

(** What a method does: call back with (null, error), or send a request.  [None]: an
    exception leaves it. *)
Abbreviation sending := (option (string + gateway_request)).

(** [error["error"] = what; callback(Json::Value(), error.asString())] *)
Definition asStringError (what : string) : option string := asString (of_object [("error", of_string what)]).

Definition failWith (what : string) : sending := e ← asStringError what; Some (inl e).

(** [try { .. } catch (const std::exception &e) { .. }]; [what] is the exception's text. *)
Definition guarded (what : string) (body : sending) : sending :=
  match body with Some r => Some r | None => failWith what end.

(** The gateway URL up to its first "/gateway.do". *)
Fixpoint before_text (needle s : string) : string :=
  if String.prefix needle s then ""
  else match s with EmptyString => "" | String d s' => String d (before_text needle s') end.

(** [strftime "%Y-%m-%d %H:%M:%S"] of local time. *)
Definition timestampText (now : Z) : string :=
  let local := Z.quot now 1000000 + utc_offset now in
  let '(y, m, d) := gmtime_date (local / 86400) in
  let t := local mod 86400 in
  to_string y +:+ "-" +:+ d2 m +:+ "-" +:+ d2 d +:+ " " +:+ d2 (t / 3600) +:+ ":" +:+ d2 (t / 60 mod 60)
    +:+ ":" +:+ d2 (t mod 60).

(** The parameters that are signed, in the order of [keys]. *)
Definition signedParams (method bizContent : string) (now : Z) : params :=
  [("app_id", a_appId c); ("biz_content", bizContent); ("charset", "utf-8"); ("method", method);
   ("sign_type", "RSA2"); ("timestamp", timestampText now)].

Definition requestBody (method bizContent signature : string) (now : Z) : string :=
  "app_id=" +:+ urlEncode (a_appId c) +:+ "&biz_content=" +:+ urlEncode bizContent +:+ "&method=" +:+ urlEncode method
    +:+ "&sign_type=" +:+ urlEncode "RSA2" +:+ "&timestamp=" +:+ urlEncode (timestampText now)
    +:+ "&sign=" +:+ urlEncode signature.

Definition sendRequest (method : string) (bizContent : json) (now : Z) : sending :=
  let bizContentStr := toJsonString bizContent in
  let signature := sign rsaSign c (fold_left append_pair (signedParams method bizContentStr now) "") in
  Some (inr (GatewayRequest (before_text "/gateway.do" (a_gatewayUrl c))
               (requestBody method bizContentStr signature now) method)).

(** [if (!bizContent.isMember(key)) bizContent[key] = value;] *)
Definition ensure (key value : string) (bizContent : json) : option json :=
  there ← isMember bizContent key;
  if (there : bool) then Some bizContent else jset bizContent key (of_string value).

Definition createTrade (what uuid : string) (payload : json) (now : Z) : sending :=
  guarded what (
    biz ← ensure "out_trade_no" uuid payload;
    biz ← ensure "total_amount" "0.01" biz;
    biz ← ensure "subject" "测试订单" biz;
    sendRequest "alipay.trade.create" biz now).

(** The payload needs the member. *)
Definition required (key : string) (payload : json) (body : sending) : sending :=
  there ← isMember payload key;
  if (there : bool) then body else failWith (key +:+ " is required").

Definition precreateTrade (what : string) (payload : json) (now : Z) : sending :=
  guarded what (
    required "out_trade_no" payload (
    required "total_amount" payload (
    biz ← ensure "subject" "Payment Order" payload;
    biz ← (if is_empty (a_notifyUrl c) then Some biz else ensure "notify_url" (a_notifyUrl c) biz);
    sendRequest "alipay.trade.precreate" biz now))).

Definition queryTrade (outTradeNo : string) (now : Z) : sending :=
  sendRequest "alipay.trade.query" (of_object [("out_trade_no", of_string outTradeNo)]) now.

Definition refund (what : string) (payload : json) (now : Z) : sending :=
  guarded what (
    required "out_trade_no" payload (
    biz ← ensure "refund_amount" "0.01" payload;
    sendRequest "alipay.trade.refund" biz now)).

Definition queryRefund (outTradeNo : string) (now : Z) : sending :=
  sendRequest "alipay.trade.fastpay.refund.query"
    (of_object [("out_trade_no", of_string outTradeNo); ("query_type", of_string "refund")]) now.

Definition closeTrade (outTradeNo : string) (now : Z) : sending :=
  sendRequest "alipay.trade.close" (of_object [("out_trade_no", of_string outTradeNo)]) now.

(** ** Answers *)

Inductive gateway_reply := NoReply | Replied (status : Z) (body : string).

Definition styledError (members : list (string * json)) : option (json * string) :=
  Some (jnull, toStyledString (of_object members)).

(** The first member whose name contains "response". *)
Fixpoint responseMember (names : list string) : option string :=
  match names with
  | [] => None
  | key :: rest => if contains "response" key then Some key else responseMember rest
  end.

Definition readRoot (method : string) (root : json) : option (json * string) :=
  failed ← isMember root "error_response";
  if (failed : bool) then e ← index root "error_response"; Some (jnull, toStyledString e)
  else
    let responseKey := "alipay_" +:+ method +:+ "_response" in
    there ← isMember root responseKey;
    if (there : bool) then r ← index root responseKey; Some (r, "")
    else
      names ← memberNames root;
      match responseMember names with
      | Some key => r ← index root key; Some (r, "")
      | None => Some (root, "")
      end.

(** The callback of the request; [None]: an exception leaves it.  The [catch] clause is
    also entered when the callback it was given throws, but it calls that callback a
    second time in no case: its argument [error.asString()], of an object, throws first. *)
Definition onReply (what method : string) (reply : gateway_reply) : option (json * string) :=
  let body :=
    match reply with
    | NoReply => styledError [("error", of_string "No response from Alipay server")]
    | Replied status text =>
        if negb (status =? 200) then styledError [("error", of_string ("HTTP status code: " +:+ to_string status))]
        else
          match jparse text with
          | None => styledError [("error", of_string "Invalid response format"); ("raw_response", of_string text)]
          | Some root => readRoot method root
          end
    end in
  match body with Some r => Some r | None => e ← asStringError what; Some (jnull, e) end.

(** ** The SPI's notifications *)

(** [CallbackEvent], without its amount (a floating-point product). *)
Record callback_event := CallbackEvent {
  e_channel : string;
  e_orderNo : string;
  e_channelTxnId : string;
  e_tradeStatus : string;
  e_paid : bool;
  e_rawPayload : string;
  e_payload : json
}.

Definition paramsJson (ps : params) : json := of_object (map (fun kv => (fst kv, of_string (snd kv))) ps).

Definition readCallback (body : string) : string + callback_event :=
  let ps := parseForm urlDecode body in
  let signature := param "sign" ps in
  if is_empty signature then inl "missing sign parameter"
  else if negb (verifyCallback rsaVerify c ps signature) then inl "signature verification failed"
  else
    let tradeStatus := param "trade_status" ps in
    inr (CallbackEvent "alipay" (param "out_trade_no" ps) (param "trade_no" ps) tradeStatus
           (String.eqb tradeStatus "TRADE_SUCCESS" || String.eqb tradeStatus "TRADE_FINISHED") body (paramsJson ps)).
End Channel.
End Alipay.
