(* ===== verification/AlipayNotify.v ===== *)
(** * The Alipay notification endpoint: [AlipayCallbackController::notify]
    (src/libs/drogon-pay/src/handlers/CallbackHandlers.cc), composed with the
    verification of [AlipayChannel] and the sync of [PaymentService]. *)
From S2P Require Import Prelude Cxx Json Effects Store Amount NotifyUrl Registry RefDb RefDbFacts Service Queued.
From S2P Require Import PaymentService AlipayChannel PaymentSync Scenario.
Import PaymentService.Payments.

(** ** Definitions *)

Module AlipayCallback.
Section Notify.
Context `{J : JsonLib}.
Context (rsaVerify : string -> string -> string -> bool) (urlDecode : string -> string).
(** The registered client; the payment service, with its database client or without. *)
Context (client : option alipay_config) (service : option bool).

Definition ack (code message : string) : json :=
  of_object [("code", of_string code); ("message", of_string message)].

(** Every refusal is answered with status 200. *)
Definition rejectWith (message : string) : prog svc := do _ <- Answer (ack "FAIL" message) 0; Done.

(** The notification in the shape of a query's answer. *)
Definition alipayResult (ps : params) : json :=
  of_object [("code", of_string "10000"); ("msg", of_string "Success");
    ("trade_no", of_string (param "trade_no" ps)); ("out_trade_no", of_string (param "out_trade_no" ps));
    ("trade_status", of_string (param "trade_status" ps)); ("total_amount", of_string (param "total_amount" ps));
    ("app_id", of_string (param "app_id" ps)); ("seller_id", of_string (param "seller_id" ps));
    ("notify_time", of_string (param "notify_time" ps)); ("notify_type", of_string (param "notify_type" ps));
    ("notify_id", of_string (param "notify_id" ps))].

(** The callback of the sync. *)
Definition acknowledge (status : string) : act (celled svc) :=
  Perform (Lift (Answer (if is_empty status then ack "FAIL" "order sync rejected" else ack "SUCCESS" "OK") 0))
    (fun _ => Return).

Definition notify (body : string) : prog svc :=
  let ps := parseForm urlDecode body in
  match client with
  | None => rejectWith "Alipay client not configured"
  | Some c =>
      if negb (verifyCallback rsaVerify c ps (param "sign" ps)) then rejectWith "signature verification failed"
      else if negb (is_empty (a_appId c)) && negb (String.eqb (param "app_id" ps) (a_appId c))
      then rejectWith "app_id mismatch"
      else
        match service with
        | None => rejectWith "Payment service not available in this process"
        | Some dbClient => syncOrderStatusFromAlipay dbClient (param "out_trade_no" ps) (alipayResult ps) acknowledge
        end
  end.
End Notify.
End AlipayCallback.
Import AlipayCallback.

(** ** The signed text is canonical *)

(** The values a form gives to a key, in their order. *)
Definition form_values (key : string) (pairs : list string) : list string :=
  omap (fun pair => match find_split "=" pair with
                    | Some (k, v) => if String.eqb k key then Some v else None
                    | None => None
                    end) pairs.

Section Canonical.
Context (urlDecode : string -> string).

(** Bindings in key order are determined by what they bind. *)
Lemma sorted_ext (m m' : params) :
  sorted m -> sorted m' -> (forall k, map_find k m = map_find k m') -> m = m'.
Proof.
  revert m'. induction m as [|[k v] m IH]; intros [|[k' v'] m'] Hm Hm' H; [done | | |].
  - specialize (H k'). simpl in H. by rewrite compare_refl in H.
  - specialize (H k). simpl in H. by rewrite compare_refl in H.
  - destruct Hm as [Hk Hm], Hm' as [Hk' Hm']. pose proof (H k) as H1. pose proof (H k') as H2. simpl in H1, H2.
    rewrite compare_refl in H1, H2. destruct (String.compare k k') eqn:E; [|done|].
    + apply String.compare_eq_iff in E as ->. injection H1 as ->. f_equal. apply IH; [done.. |]. intros n.
      specialize (H n). simpl in H. destruct (String.compare n k') eqn:En; [| |done].
      * apply String.compare_eq_iff in En as ->. by rewrite !find_after.
      * assert (Hf : forall l : params, Forall (fun kd => before k' (fst kd)) l -> map_find n l = None).
        { intros l Hl. apply find_after. eapply Forall_impl; [exact Hl |]. intros kd. by apply before_trans. }
        by rewrite !Hf.
    + rewrite String.compare_antisym, E in H2. done.
Qed.

Lemma form_sorted pairs ps :
  sorted ps -> sorted (fold_left (fun ps pair => formPair urlDecode pair ps) pairs ps).
Proof.
  revert ps. induction pairs as [|pair pairs IH]; simpl; intros ps Hs; [done |]. apply IH. unfold formPair.
  destruct (find_split _ _) as [[k v]|]; [by apply assign_sorted | done].
Qed.

Lemma form_find key pairs ps :
  sorted ps ->
  map_find key (fold_left (fun ps pair => formPair urlDecode pair ps) pairs ps) =
  match last (form_values key pairs) with
  | Some v => Some (urlDecode (plus_to_space v))
  | None => map_find key ps
  end.
Proof.
  revert ps. induction pairs as [|pair pairs IH]; simpl; intros ps Hs; [done |]. unfold formPair at 2.
  destruct (find_split "=" pair) as [[k v]|]; [|by apply IH].
  rewrite IH by (by apply assign_sorted). rewrite find_assign by done.
  destruct (String.eqb_spec k key) as [->|Hne]; [|done]. rewrite last_cons. by destruct (last _).
Qed.

(** What is verified of a notification does not depend on how its form is written
    down: it maps each key to its last value, and two forms that give every key the
    same last value have the same parameters, hence the same text under the
    signature. *)
Lemma parseForm_canonical body body' :
  (forall key, map_find key (parseForm urlDecode body) =
     (fun v => urlDecode (plus_to_space v)) <$> last (form_values key (split_on "&" body))) /\
  ((forall key, last (form_values key (split_on "&" body)) = last (form_values key (split_on "&" body'))) ->
   signedData (parseForm urlDecode body) = signedData (parseForm urlDecode body')).
Proof.
  assert (Hf : forall b key, map_find key (parseForm urlDecode b) =
     (fun v => urlDecode (plus_to_space v)) <$> last (form_values key (split_on "&" b))).
  { intros b key. unfold parseForm. rewrite form_find by done. by destruct (last _). }
  split; [apply Hf |]. intros H. f_equal. apply sorted_ext; [by apply form_sorted.. |]. intros key.
  by rewrite !Hf, H.
Qed.
End Canonical.

(** ** What a notification does *)

Section Sound.
Context `{J : JsonLib} {JL : JsonLaws J}.
Abbreviation trace := (list (event svc)).
Context (rsaVerify : string -> string -> string -> bool) (urlDecode : string -> string).
Context (client : option alipay_config) (service : option bool) (body : string).

Abbreviation ps := (parseForm urlDecode body).

(** Signed with Alipay's key, and meant for this application. *)
Definition genuine (c : alipay_config) : Prop :=
  a_publicKeyPem c <> "" /\ rsaVerify (a_publicKeyPem c) (signedData ps) (param "sign" ps) = true /\
  (a_appId c <> "" -> param "app_id" ps = a_appId c).

(** What the sync reads are the notification's own, signed, members. *)
Definition reads (y : answered) : Prop :=
  y_orderNo y = param "out_trade_no" ps /\ y_transactionId y = param "trade_no" ps /\
  mapAlipayStatus (param "trade_status" ps) = Some (y_orderStatus y, y_paymentStatus y) /\
  (y_orderStatus y = "PAID" -> y_fen y = default (-1) (parseAmountToFen (param "total_amount" ps))).

Lemma result_text key text :
  In (key, text) [("code", "10000"); ("trade_no", param "trade_no" ps); ("trade_status", param "trade_status" ps);
    ("total_amount", param "total_amount" ps)] ->
  get_string (alipayResult ps) key = Some text.
Proof.
  unfold get_string, get, alipayResult. rewrite jfind_of_object. simpl.
  intros [[= <- <-]|[[= <- <-]|[[= <- <-]|[[= <- <-]|[]]]]]; simpl; apply asString_of_string.
Qed.

Lemma says_reads y : says true (param "out_trade_no" ps) (alipayResult ps) y -> reads y.
Proof.
  intros (Ho & _ & ts & _ & Ht & Hm & Hn & Hf).
  rewrite (result_text "trade_status" (param "trade_status" ps)) in Ht by (simpl; tauto).
  rewrite (result_text "trade_no" (param "trade_no" ps)) in Hn by (simpl; tauto).
  injection Ht as <-. injection Hn as Hn. split; [done |]. split; [done |]. split; [done |]. intros E. revert Hf. unfold notified.
  rewrite E. cbn [alipay_booked]. rewrite (result_text "total_amount" (param "total_amount" ps)) by (simpl; tauto).
  by intros [= <-].
Qed.

Lemma ack_inj c m c' m' : ack c m = ack c' m' -> c = c'.
Proof.
  intros H. apply (f_equal (fun j => get_string j "code")) in H. unfold get_string, get, ack in H.
  rewrite !jfind_of_object in H. simpl in H. rewrite !asString_of_string in H. by injection H.
Qed.

Lemma acknowledge_only st : only_answers (acknowledge st).
Proof. right. right. by eexists _, _. Qed.

Lemma acknowledge_success st m c :
  acknowledge st = Perform (Lift (Answer (ack "SUCCESS" m) c)) (fun _ => Return) -> st <> "".
Proof.
  intros H ->. unfold acknowledge in H. simpl in H.
  assert (Ha : ack "FAIL" "order sync rejected" = ack "SUCCESS" m).
  { pose (f := fun a : act (celled svc) =>
      match a with
      | Perform e _ => match e with Lift e' => match e' with Answer r _ => r | _ => jnull end | _ => jnull end
      | _ => jnull
      end). exact (f_equal f H). }
  by apply ack_inj in Ha.
Qed.

(** The guarantee of the sync, for a genuine notification. *)
Definition notify_guarantee (h : trace) (ev : event svc) : Prop :=
  match ev with
  | Event e _ =>
      match e with
      | Answer r c => answers_of h = [] /\ c = 0 /\
          ((exists message, r = ack "FAIL" message) \/
           (r = ack "SUCCESS" "OK" /\ exists conf dbClient, client = Some conf /\ service = Some dbClient /\ genuine conf /\
             (dbClient = false \/ exists y st, reads y /\ st <> "" /\ reported y (alipay_booked (y_orderStatus y)) st h)))
      | Io (Step q) => exists conf y, client = Some conf /\ genuine conf /\ reads y /\
          sync_allowed y (alipay_booked (y_orderStatus y)) alipay_booked (final true y) h q
      | Io (Sql Main (NewestAttempt orderNo _)) => exists conf, client = Some conf /\ genuine conf
      | Io Begin | Io Rollback | Io Now | Io Construct | Claim => exists conf, client = Some conf /\ genuine conf
      | _ => False
      end
  end.

Lemma reject_ok message : safe once_rely notify_guarantee anything (rejectWith message) [].
Proof. intros [] _. split; [|done]. split; [done |]. split; [done |]. left. by exists message. Qed.

Lemma sync_in_notify conf dbClient :
  client = Some conf -> service = Some dbClient -> genuine conf ->
  safe once_rely notify_guarantee anything
    (syncOrderStatusFromAlipay dbClient (param "out_trade_no" ps) (alipayResult ps) acknowledge) [].
Proof.
  intros Hc Hd Hg. eapply (safe_mono once_rely (fun _ => True)); [done | | done |
    exact (sync_ok acknowledge acknowledge_only true dbClient (param "out_trade_no" ps) (alipayResult ps) [] (fun _ => eq_refl))].
  intros h [R e r] _. destruct e as [R e| | | |r' c'|]; simpl; try done; [|intros _; by exists conf|].
  - destruct e as [| |R c q| | | |R q| | | |]; try done; try (intros _; by exists conf).
    + destruct c; [destruct q; try done; intros _; by exists conf | done].
    + intros (y & Hy & Ha). exists conf, y. split; [done |]. split; [done |]. split; [by apply says_reads | done].
  - intros [Ha (st & Hs & Ht)]. split; [done |].
    assert (Hc' : c' = 0) by (unfold acknowledge in Hs; by simplify_eq). split; [done |]. subst c'.
  assert (E : r' = if is_empty st then ack "FAIL" "order sync rejected" else ack "SUCCESS" "OK")
    by (unfold acknowledge in Hs; by simplify_eq).
  destruct (is_empty st) eqn:Es; [left; by eexists |]. right. split; [done |]. exists conf, dbClient.
  repeat (split; [done |]). destruct Ht as [->|[Hf|(y & Hy & Ht)]]; [done | by left |]. right. exists y, st.
  split; [by apply says_reads |]. split; [by intros -> | done].
Qed.

Lemma notify_ok : safe once_rely notify_guarantee anything (notify rsaVerify urlDecode client service body) [].
Proof.
  unfold notify. destruct client as [conf|] eqn:Hc; [|apply reject_ok].
  destruct (verifyCallback _ _ _ _) eqn:Hv; [|apply reject_ok]. cbn [negb].
  destruct (negb (is_empty (a_appId conf)) && _) eqn:Ha; [apply reject_ok |].
  destruct service as [dbClient|] eqn:Hs; [|apply reject_ok].
  apply sync_in_notify with conf; [done.. |]. unfold verifyCallback, verify in Hv.
  destruct (is_empty (a_publicKeyPem conf)) eqn:Hk; [done |].
  split; [by intros E; rewrite E in Hk |]. split; [done |]. intros Hne.
  apply andb_false_iff in Ha as [Ha|Ha]; apply negb_false_iff in Ha; [by apply is_empty_true in Ha | by apply String.eqb_eq].
Qed.

Lemma guarantee_once h : guaranteed notify_guarantee h -> (List.length (answers_of h) <= 1)%nat.
Proof.
  induction h as [|[R e r] h IH]; simpl; [lia |]. intros [Hg Hh]. specialize (IH Hh).
  destruct e; try done. simpl. destruct Hg as [-> _]. simpl; lia.
Qed.

(** C6. Whatever the database answers, an Alipay notification writes only when it is
    signed with Alipay's key over its own parameters and names this application, and
    then only what these parameters prove (the amount and the status that are written
    are the signed ones).  It is answered at most once; the SUCCESS that stops Alipay's
    redelivery is given only to such a notification, when there is no database, or when
    the sync reported a status: no attempt can carry money, the attempt was advanced
    before or by someone else, the order was PAID before, or its update succeeded. *)
Theorem alipay_notify_sound o h :
  runs (logs once_rely) (notify rsaVerify urlDecode client service body) [] o h ->
  (List.length (answers_of h) <= 1)%nat /\
  (forall h1 R (q : stmt R) a h2, h = (h1 ++ stepped q a :: h2)%list ->
     exists conf y, client = Some conf /\ genuine conf /\ reads y /\
       sync_allowed y (alipay_booked (y_orderStatus y)) alipay_booked (final true y) h2 q) /\
  (forall h1 c u h2, h = (h1 ++ Event (Answer (ack "SUCCESS" "OK") c) u :: h2)%list ->
     exists conf dbClient, client = Some conf /\ service = Some dbClient /\ genuine conf /\
       (dbClient = false \/
        exists y st, reads y /\ st <> "" /\ reported y (alipay_booked (y_orderStatus y)) st h2)).
Proof.
  intros Hr. destruct (safe_sound _ _ _ _ _ _ notify_ok Hr) as [Hg _].
  split; [by apply guarantee_once |]. split.
  - intros h1 R q a h2 ->. by apply guaranteed_at in Hg.
  - intros h1 c u h2 ->. apply guaranteed_at in Hg as (_ & _ & [[m Hm]|[_ H]]); [by apply ack_inj in Hm | done].
Qed.
End Sound.

(** ** Witnesses *)

Lemma parseForm_canonical_witness :
  signedData (parseForm (fun s => s) "b=x+y&a=1&sign=S&a=2") = "a=2&b=x y" /\
  signedData (parseForm (fun s => s) "b=x+y&a=1&sign=S&a=2") = signedData (parseForm (fun s => s) "sign=S&a=2&b=x+y").
Proof.
  split; [reflexivity |].
  apply (proj2 (parseForm_canonical (fun s => s) "b=x+y&a=1&sign=S&a=2" "sign=S&a=2&b=x+y")). intros key. cbn -[String.eqb].
  by destruct (String.eqb_spec "a" key) as [<-|]; [|destruct (String.eqb_spec "b" key) as [<-|];
    [|destruct (String.eqb_spec "sign" key) as [<-|]]].
Defined.

(** Alipay's one signature: "s1", on the text that says O1 was paid with 12.50. *)
Definition one_signature (pem data signature : string) : bool :=
  String.eqb data "app_id=A1&out_trade_no=O1&total_amount=12.50&trade_no=T1&trade_status=TRADE_SUCCESS"
  && String.eqb signature "s1".

Definition form_of (amount : string) : string :=
  "sign=s1&trade_status=TRADE_SUCCESS&app_id=A1&out_trade_no=O1&total_amount=" +:+ amount +:+ "&trade_no=T1&sign_type=RSA2".

Definition shop_app : alipay_config := AlipayConfig "A1" "S1" "k" "p" "https://gw/gateway.do" "" 30000 "priv" "pub".

Definition alipay_order : order_row := OrderRow 7 "O1" 42 "12.50" "CNY" "PAYING" "alipay" "" 1 None.

Definition alipay_delivery (payments : list payment_row) (amount : string) :
    outcome * (list (event (@svc lib0)) * @deployment lib0) :=
  run (recording (@handle_svc lib0 shop_sum shop_time))
    (@notify lib0 one_signature (fun s => s) (Some shop_app) (Some true) (form_of amount))
    ([], @Deployment lib0 (World (Db [] payments [alipay_order] [] [] []) TxNone [] shop_time "u" [] []) [] [] [] false).

(** The code of the answer, the states of the order, the ledger entries. *)
Definition delivered (payments : list payment_row) (amount : string) : list (option string) * list string * nat :=
  let s := snd (snd (alipay_delivery payments amount)) in
  (map (fun a => @get_string lib0 (fst a) "code") (dp_answers s),
   map o_status (d_orders (outlook (dp_world s))), List.length (d_ledgers (outlook (dp_world s)))).

Definition open_attempt : payment_row := PaymentRow "P1" "O1" "PROCESSING" "12.50" None None 1 None.

(** A forged amount is refused, whatever the tables say. *)
Example forged_notification_is_refused :
  delivered [open_attempt] "0.01" = ([Some "FAIL"], ["PAYING"], 0%nat).
Proof. by vm_compute. Qed.

(** No attempt of the order can carry money (its only one was closed): the genuine
    notification of a payment is acknowledged, and nothing is booked. *)
Example unbooked_payment_is_acknowledged :
  delivered [PaymentRow "P1" "O1" "FAIL" "12.50" None None 1 None] "12.50" = ([Some "SUCCESS"], ["PAYING"], 0%nat).
Proof. by vm_compute. Qed.

Lemma delivery_runs payments amount :
  guaranteed once_rely (fst (snd (alipay_delivery payments amount))) ->
  runs (logs once_rely) (@notify lib0 one_signature (fun s => s) (Some shop_app) (Some true) (form_of amount)) []
    (fst (alipay_delivery payments amount)) (fst (snd (alipay_delivery payments amount))).
Proof. apply recorded_runs. Qed.

Lemma alipay_notify_sound_witness :
  delivered [open_attempt] "12.50" = ([Some "SUCCESS"], ["PAID"], 1%nat) /\
  (List.length (answers_of (fst (snd (alipay_delivery [open_attempt] "12.50")))) <= 1)%nat.
Proof.
  split; [by vm_compute |].
  assert (H : guaranteed once_rely (fst (snd (alipay_delivery [open_attempt] "12.50")))) by (vm_compute; by repeat split).
  exact (proj1 (@alipay_notify_sound lib0 _ one_signature (fun s => s) (Some shop_app) (Some true) (form_of "12.50")
    _ _ (delivery_runs _ _ H))).
Defined.
