(* ===== verification/AlipayCreate.v ===== *)
(** * The Alipay channel behind the PaymentChannel interface: creating a trade
    (PaymentService.v composed with AlipayChannel.v), and what its refusals prove. *)
From S2P Require Import Prelude Cxx Json Amount Registry RefDb Service RefundService RefundGuard Channels PaymentService PaymentCreate AlipayChannel Scenario.

Section Create.
Context `{J : JsonLib} {JL : JsonLaws J}.
Context (rsaSign : string -> string -> option string) (urlEncode : string -> string) (utc_offset : Z -> Z).
Context (c : alipay_config).

(** No JSON text starts with a letter but those of true, false and null. *)
Definition json_start (text : string) : bool :=
  match text with
  | String d _ =>
      let c := code (to_lower_char d) in
      negb ((97 <=? c) && (c <=? 122)) || mem_char "tfn" d
  | EmptyString => false
  end.

Context (styled : forall j, json_start (toStyledString j) = true).

(** One exchange: the time of the request, what came back, the text of an exception. *)
Record alipay_exchange := AlipayExchange { ax_sentAt : Z; ax_reply : Alipay.gateway_reply; ax_what : string }.

(** What the callback of an operation gets that makes this request, or fails to. *)
Definition exchanged (request : option (string + Alipay.gateway_request)) (x : alipay_exchange) : channel_answer :=
  match request with
  | None => ChannelThrew
  | Some (inl e) => Answered jnull e
  | Some (inr req) =>
      match Alipay.onReply (ax_what x) (Alipay.g_method req) (ax_reply x) with
      | None => ChannelThrew
      | Some (result, error) => Answered result error
      end
  end.

(** What PaymentService's callback gets. *)
Definition create_exchange (payload : json) (x : alipay_exchange) : channel_answer :=
  exchanged (Alipay.precreateTrade rsaSign urlEncode utc_offset c (ax_what x) payload (ax_sentAt x)) x.

(** The request an operation makes; AlipayChannel does not override closeOrder. *)
Definition alipay_perform (op : channel_op) (x : alipay_exchange) : channel_answer :=
  match op with
  | ChRefund payload => exchanged (Alipay.refund rsaSign urlEncode utc_offset c (ax_what x) payload (ax_sentAt x)) x
  | ChQueryRefund outTradeNo => exchanged (Alipay.queryRefund rsaSign urlEncode utc_offset c outTradeNo (ax_sentAt x)) x
  | ChQueryPayment orderNo => exchanged (Alipay.queryTrade rsaSign urlEncode utc_offset c orderNo (ax_sentAt x)) x
  | ChCreateQr payload => create_exchange payload x
  | ChCloseOrder orderNo => closeOrder orderNo
  end.

(** Alipay refused: a 200 that carries its error envelope. *)
Definition alipay_refused (x : alipay_exchange) : Prop :=
  exists text root, ax_reply x = Alipay.Replied 200 text /\ jparse text = Some root /\
    isMember root "error_response" = Some true.

(** Nothing is known about the trade. *)
Definition alipay_unknown (x : alipay_exchange) : Prop :=
  match ax_reply x with
  | Alipay.NoReply => True
  | Alipay.Replied status text => status <> 200 \/ jparse text = None
  end.

(** The error callbacks of the channel's own faults are never reached. *)
Lemma asStringError_throws what : Alipay.asStringError what = None.
Proof. apply asString_of_object. Qed.

Lemma guarded_throws what body :
  Alipay.guarded what body = match body with Some r => Some r | None => None end.
Proof. unfold Alipay.guarded, Alipay.failWith. rewrite asStringError_throws. by destruct body. Qed.

Lemma precreate_sends what payload now r :
  Alipay.precreateTrade rsaSign urlEncode utc_offset c what payload now = Some r -> exists req, r = inr req.
Proof.
  unfold Alipay.precreateTrade. rewrite guarded_throws. unfold Alipay.required, Alipay.failWith.
  rewrite !asStringError_throws. intros H.
  destruct (isMember payload "out_trade_no") as [[]|]; [|done..]. simpl in H.
  destruct (isMember payload "total_amount") as [[]|]; [|done..]. simpl in H.
  destruct (Alipay.ensure "subject" _ _); [|done]. simpl in H.
  destruct (if is_empty _ then _ else _); [|done]. simpl in H. injection H as <-. by eexists.
Qed.

Lemma json_is_certain text : json_start text = true -> attemptCertainlyNotCreated text = true.
Proof.
  destruct text as [|d text]; [done |]. intros H.
  assert (Hp : forall e s, json_start (String e "") = false -> String.prefix (String e s) (String d text) = false).
  { intros e s He. cbn [String.prefix]. destruct (Ascii.ascii_dec e d) as [->|]; [|done].
    exfalso. unfold json_start in *. congruence. }
  assert (Hq : forall e s, json_start (String e "") = false -> String.eqb (String d text) (String e s) = false).
  { intros e s He. apply String.eqb_neq. intros [= <- <-]. unfold json_start in *. congruence. }
  unfold attemptCertainlyNotCreated, kNoPayableCode. by rewrite !Hp, !Hq.
Qed.

Lemma settled_result {A} (o : option A) r : match o with Some r => Some r | None => None end = Some r -> o = Some r.
Proof. by destruct o. Qed.

(** What an error of an answer says. *)
Lemma reply_error what method reply result error :
  Alipay.onReply what method reply = Some (result, error) -> error <> "" ->
  result = jnull /\ json_start error = true /\
  (match reply with
   | Alipay.NoReply => True
   | Alipay.Replied status text => status <> 200 \/ jparse text = None \/
       exists root, status = 200 /\ jparse text = Some root /\ isMember root "error_response" = Some true
   end).
Proof.
  unfold Alipay.onReply. rewrite asStringError_throws. intros H He.
  assert (Hs : forall members, match Alipay.styledError members with Some r => Some r | None => None end = Some (result, error) ->
    result = jnull /\ json_start error = true) by (intros members [= <- <-]; by split).
  destruct reply as [|status text]; [by apply Hs in H as [-> ->] |].
  destruct (Z.eqb_spec status 200) as [->|Hne]; cbn [negb] in H; [|apply Hs in H as [-> ->]; auto].
  destruct (jparse text) as [root|] eqn:Ep; [|apply Hs in H as [-> ->]; auto].
  unfold Alipay.readRoot in H. destruct (isMember root "error_response") as [[]|] eqn:Em; [| |done].
  - cbn in H. destruct (index root "error_response"); [|done]. injection H as <- <-.
    split; [done |]. split; [apply styled |]. right. right. by exists root.
  - exfalso. cbn [mbind option_bind] in H. apply settled_result in H. apply bind_Some in H as (there & _ & H).
    destruct there; [apply bind_Some in H as (r & _ & [= <- <-]); done |].
    apply bind_Some in H as (names & _ & H).
    destruct (Alipay.responseMember names); [apply bind_Some in H as (r & _ & [= <- <-]); done | by injection H as <- <-].
Qed.

(** ** Theorem *)

(** C30. Every error PaymentService gets from the Alipay channel counts as proof that no
    trade exists, and closes the attempt as FAIL and its order as FAILED: the errors
    are those of a request that was sent, and besides Alipay's refusals they include
    silence, every other HTTP status and unreadable bodies, after which the trade may
    exist. *)
Theorem alipay_errors_close payload x result error :
  create_exchange payload x = Answered result error -> error <> "" ->
  attemptCertainlyNotCreated error = true /\ result = jnull /\
  (exists req, Alipay.precreateTrade rsaSign urlEncode utc_offset c (ax_what x) payload (ax_sentAt x) = Some (inr req)) /\
  (alipay_refused x \/ alipay_unknown x).
Proof.
  unfold create_exchange, exchanged, alipay_refused, alipay_unknown. intros H He.
  destruct (Alipay.precreateTrade _ _ _ _ _ _ _) as [r|] eqn:Hr; [|done].
  destruct (precreate_sends _ _ _ _ Hr) as [req ->].
  destruct (Alipay.onReply _ _ _) as [[result' error']|] eqn:Ho; [|done]. injection H as -> ->.
  destruct (reply_error _ _ _ _ _ Ho He) as (-> & Hj & Hcase).
  split; [by apply json_is_certain |]. split; [done |]. split; [by exists req |].
  destruct (ax_reply x) as [|status text]; [by right |].
  destruct Hcase as [Hs|[Hp|(root & -> & Hp & Hm)]]; [by right; left | by right; right |]. left. by exists text, root.
Qed.

(** The Alipay channel; only its error envelope proves that a refund was not made. *)
#[local] Instance alipay : PaymentChannel := {|
  name := "alipay";
  encounter := alipay_exchange;
  possible _ := True;
  perform := alipay_perform;
  not_refunded payload x :=
    alipay_refused x \/
    forall req, Alipay.refund rsaSign urlEncode utc_offset c (ax_what x) payload (ax_sentAt x) <> Some (inr req)
|}.

(** It does not keep the promise of the interface: silence is an error, and any error
    of this channel is a refusal to RefundService. *)
Lemma alipay_not_honest : ~ HonestRefusals alipay.
Proof.
  intros H. set (x := AlipayExchange 0 Alipay.NoReply "").
  set (payload := of_object [("out_trade_no", of_string "O1"); ("refund_amount", of_string "1.00")]).
  assert (Hr : exists req, Alipay.refund rsaSign urlEncode utc_offset c "" payload 0 = Some (inr req)).
  { unfold Alipay.refund, Alipay.required, Alipay.ensure, isMember, payload. rewrite !jfind_of_object. by eexists. }
  destruct Hr as [req Hr].
  assert (He : exists error, error <> "" /\ perform alipay (ChRefund payload) x = Answered jnull error).
  { eexists. split; [|unfold perform; simpl; rewrite Hr; reflexivity].
    intros E. pose proof (styled (of_object [("error", of_string "No response from Alipay server")])) as Hj.
    by rewrite E in Hj. }
  destruct He as (error & Hne & Ha). destruct (H payload x jnull error I Ha (or_introl Hne)) as [(t & r & E & _)|Hn]; [done |].
  by apply (Hn req).
Qed.
End Create.

(** ** Witness *)

(** Alipay did not answer. *)
Definition silent : alipay_exchange := AlipayExchange shop_time Alipay.NoReply "".

Definition book : @json lib0 :=
  Tree.TObject [("out_trade_no", Tree.TString "O1"); ("total_amount", Tree.TString "12.50"); ("subject", Tree.TString "a book")].

Definition shop_alipay : alipay_config := AlipayConfig "A1" "S1" "k" "p" "https://gw/gateway.do" "" 30000 "priv" "pub".

Lemma alipay_errors_close_witness :
  exists error, error <> "" /\
    @create_exchange lib0 (fun _ _ => Some "sig") (fun s => s) (fun _ => 0) shop_alipay book silent
      = @Answered lib0 Tree.TNull error /\
    attemptCertainlyNotCreated error = true /\ alipay_unknown (J := lib0) silent.
Proof.
  eexists. assert (H : @create_exchange lib0 (fun _ _ => Some "sig") (fun s => s) (fun _ => 0) shop_alipay book silent
      = @Answered lib0 Tree.TNull (@toStyledString lib0 (of_object [("error", of_string "No response from Alipay server")])))
    by (vm_compute; reflexivity).
  split; [| split; [exact H |]]; [by vm_compute |].
  destruct (@alipay_errors_close lib0 _ (fun _ _ => Some "sig") (fun s => s) (fun _ => 0) shop_alipay
    ltac:(intros j; by destruct j) book silent _ _ H ltac:(by vm_compute)) as [Hc _].
  by split.
Defined.
