(* ===== verification/PayHandlers.v ===== *)
(** * The HTTP handlers of the API (src/libs/drogon-pay/src/handlers/PayHandlers.cc).

    A handler answers a request itself, calls a service, or lets an exception out.  The
    call is a value here ([service_call]); [Gateway.v] runs it. *)
From S2P Require Import Prelude Cxx Json Amount RefundService PaymentCreate QrPayment.

(** ** Definitions *)

(** What the handlers read of a request. *)
Record http_request `{J : JsonLib} := HttpRequest {
  hr_options : bool;                  (* method() == Options *)
  hr_json : option json;              (* getJsonObject() *)
  hr_header : string -> string;
  hr_parameter : string -> string;
  hr_userId : option Z                (* the attribute user_id *)
}.

Inductive service_call `{J : JsonLib} :=
| CreatePayment (request : create_request) (idempotencyKey : string)
| CreateQRPayment (request : json)
| QueryOrder (orderNo : string)
| CreateRefund (request : refund_request) (idempotencyKey : string)
| QueryRefund (refundNo : string)
| QueryOrderList (status : string) (userId limit offset : Z)
| ReconcileSummary (date : string).

(** A response without a body is [None]. *)
Inductive handled `{J : JsonLib} :=
| Replies (status : Z) (body : option json)
| Calls (call : service_call)
| Throws.

Definition mapErrorToHttpStatus (errorCode : Z) : Z :=
  if (errorCode =? 1404) || (errorCode =? 1004) then 404
  else if (errorCode =? 1001) || (errorCode =? 1400) || (errorCode =? 400) then 400
  else if errorCode =? 1409 then 409
  else if errorCode =? 1501 then 503
  else if errorCode =? 1502 then 502
  else 500.

(** The status of the response to a service's answer; 0 is no error. *)
Definition answerStatus (error : Z) : Z := if error =? 0 then 200 else mapErrorToHttpStatus error.

Inductive FieldType := FString | FInt64.

(** A required field names itself, an optional one may be absent. *)
Record BodyField := Field { f_key : string; f_type : FieldType; f_optional : bool }.

Definition text_field (key : string) : BodyField := Field key FString true.
Definition int_field (key : string) : BodyField := Field key FInt64 true.

Module PayController.
Section Handlers.
Context `{J : JsonLib} (sha256 : string -> string).
(** The plugin has the payment service; the refund service. *)
Context (paymentService refundService : bool).

(** [{"code": code, "message": message}] *)
Definition envelope (code : Z) (message : string) : json :=
  of_object [("code", of_int code); ("message", of_string message)].

Definition respondBadRequest (message : string) : handled := Replies 400 (Some (envelope 400 message)).

Definition unavailable (what : string) : handled :=
  Replies 503 (Some (envelope 1501 (what +:+ " is not available in this process"))).

Definition amountRefused : handled :=
  Replies 400 (Some (envelope 40001
    "Invalid amount format. Expected positive number with up to 2 decimal places (e.g. 100.00)")).

Definition hasType (t : FieldType) (value : json) : bool :=
  match t with FString => isString value | FInt64 => isInt64 value end.

(** The error of the first field of the wrong shape, empty without one; [None]: an
    accessor throws. *)
Fixpoint validateBodyTypes (j : json) (fields : list BodyField) : option string :=
  match fields with
  | [] => Some ""
  | field :: rest =>
      there ← isMember j (f_key field);
      if negb there then
        if f_optional field then validateBodyTypes j rest
        else Some ("Field " +:+ f_key field +:+ " is required")
      else
        value ← index j (f_key field);
        if hasType (f_type field) value then validateBodyTypes j rest
        else Some ("Field " +:+ f_key field +:+ " must be "
                   +:+ match f_type field with FString => "a string" | FInt64 => "an integer" end)
  end.

(** [!isMember(k1) || !isMember(k2) || ..] *)
Fixpoint lacksAny (j : json) (keys : list string) : option bool :=
  match keys with
  | [] => Some false
  | key :: rest => there ← isMember j key; if (there : bool) then lacksAny j rest else Some true
  end.

(** [json[key].asString()] *)
Definition text_of (j : json) (key : string) : option string := v ← index j key; asString v.
Definition int64_of (j : json) (key : string) : option Z := v ← index j key; asInt64 v.

(** The header of the key, under either name. *)
Definition keyHeader (req : http_request) : string :=
  let key := hr_header req "X-Idempotency-Key" in
  if is_empty key then hr_header req "Idempotency-Key" else key.

Definition catching (body : option handled) : handled := default Throws body.

(** OPTIONS is answered at once, a body that is no JSON refused. *)
Definition withJson (req : http_request) (body : json -> option handled) : handled :=
  if hr_options req then Replies 200 None
  else
    match hr_json req with
    | None => respondBadRequest "Invalid JSON"
    | Some j => catching (body j)
    end.

(** The checks that createPayment, createQRPayment and refund share. *)
Definition checkedBody (required : list string) (missing : string) (fields : list BodyField) (j : json)
    (next : string -> option handled) : option handled :=
  lacks ← lacksAny j required;
  if (lacks : bool) then Some (respondBadRequest missing)
  else
    shapeError ← validateBodyTypes j fields;
    if negb (is_empty shapeError) then Some (respondBadRequest shapeError)
    else
      amountStr ← text_of j "amount";
      if negb (validateAmount amountStr) then Some amountRefused else next amountStr.

(** *** createPayment *)

Definition paymentFields : list BodyField :=
  [text_field "order_no"; text_field "amount"; text_field "currency"; text_field "description";
   text_field "notify_url"; text_field "channel"; int_field "user_id"; text_field "time_expire"].

(** The owner: of the body, else of the attributes, else 0. *)
Definition ownerOf (req : http_request) (j : json) : option Z :=
  named ← isMember j "user_id";
  if (named : bool) then int64_of j "user_id" else Some (default 0 (hr_userId req)).

Definition sceneInfoOf (j : json) : option json :=
  named ← isMember j "scene_info"; if (named : bool) then index j "scene_info" else Some jnull.

Definition readPayment (req : http_request) (j : json) (amountStr : string) : option create_request :=
  orderNo ← text_of j "order_no";
  currency ← get_text j "currency" "CNY";
  description ← get_text j "description" "";
  notifyUrl ← get_text j "notify_url" "";
  channel ← get_text j "channel" "alipay";
  timeExpire ← get_text j "time_expire" "";
  userId ← ownerOf req j;
  sceneInfo ← sceneInfoOf j;
  Some (CreateRequest _ orderNo amountStr currency description notifyUrl userId sceneInfo channel timeExpire "").

Definition paymentKey (req : http_request) (r : create_request) : string :=
  let key := keyHeader req in
  if is_empty key
  then "payment:" +:+ cr_orderNo r +:+ ":" +:+ to_string (cr_userId r) +:+ ":" +:+ sha256 (cr_amount r +:+ cr_currency r)
  else key.

Definition createPayment (req : http_request) : handled :=
  withJson req (fun j =>
  checkedBody ["order_no"; "amount"] "Missing required fields: order_no and amount" paymentFields j (fun amountStr =>
  r ← readPayment req j amountStr;
  if cr_userId r <=? 0
  then Some (Replies 401 (Some (envelope 401 "User ID required. Please provide user_id in request body.")))
  else if negb paymentService then Some (unavailable "Payment service")
  else Some (Calls (CreatePayment r (paymentKey req r))))).

(** *** createQRPayment *)

Definition qrFields : list BodyField :=
  [text_field "order_no"; text_field "amount"; text_field "channel"; int_field "user_id"; text_field "description";
   text_field "product_name"; text_field "currency"; text_field "notify_url"; text_field "buyer_id";
   text_field "idempotency_key"; text_field "time_expire"].

(** A member of the body under another name, or a fallback. *)
Definition renamed (j : json) (key fallback : string) : option string :=
  named ← isMember j key; if (named : bool) then text_of j key else Some fallback.

(** The members that are handed over as they are. *)
Fixpoint handOver (j : json) (keys : list string) (request : json) : option json :=
  match keys with
  | [] => Some request
  | key :: rest =>
      named ← isMember j key;
      if (named : bool) then value ← index j key; request ← jset request key value; handOver j rest request
      else handOver j rest request
  end.

Definition handedOver : list string := ["currency"; "notify_url"; "buyer_id"; "idempotency_key"; "time_expire"].

(** The request of the QR service. *)
Definition qrRequest (req : http_request) (j : json) (amountStr : string) (userId : Z) : option json :=
  orderNo ← text_of j "order_no";
  request ← jset jnull "order_no" (of_string orderNo);
  request ← jset request "amount" (of_string amountStr);
  channel ← text_of j "channel";
  request ← jset request "channel" (of_string channel);
  request ← jset request "user_id" (of_int userId);
  description ← renamed j "description" "";
  request ← jset request "description" (of_string description);
  subject ← renamed j "product_name" "Payment";
  request ← jset request "subject" (of_string subject);
  request ← handOver j handedOver request;
  key ← get_string request "idempotency_key";
  if is_empty key && negb (is_empty (keyHeader req))
  then jset request "idempotency_key" (of_string (keyHeader req))
  else Some request.

Definition createQRPayment (req : http_request) : handled :=
  withJson req (fun j =>
  checkedBody ["order_no"; "amount"; "channel"; "user_id"]
    "Missing required fields: order_no, amount, channel, user_id" qrFields j (fun amountStr =>
  qrUserId ← int64_of j "user_id";
  if qrUserId <=? 0 then Some (respondBadRequest "Field user_id must be a positive integer")
  else
    request ← qrRequest req j amountStr qrUserId;
    if negb paymentService then Some (unavailable "Payment service") else Some (Calls (CreateQRPayment request)))).

(** *** refund *)

Definition refundFields : list BodyField :=
  [text_field "order_no"; text_field "amount"; text_field "reason"; text_field "notify_url";
   text_field "funds_account"; text_field "payment_no"; text_field "refund_no"].

Definition readRefund (j : json) (amountStr : string) : option refund_request :=
  orderNo ← text_of j "order_no";
  reason ← get_text j "reason" "";
  notifyUrl ← get_text j "notify_url" "";
  fundsAccount ← get_text j "funds_account" "";
  paymentNo ← renamed j "payment_no" "";
  refundNo ← renamed j "refund_no" "";
  Some (RefundRequest orderNo paymentNo refundNo amountStr reason notifyUrl fundsAccount).

Definition refundKey (req : http_request) (r : refund_request) : string :=
  let key := keyHeader req in
  if is_empty key
  then "refund:" +:+ rq_orderNo r +:+ ":" +:+ sha256 (rq_amount r +:+ rq_reason r)
  else key.

Definition refund (req : http_request) : handled :=
  withJson req (fun j =>
  checkedBody ["order_no"; "amount"] "Missing required fields: order_no and amount" refundFields j (fun amountStr =>
  r ← readRefund j amountStr;
  if negb refundService then Some (unavailable "Refund service")
  else Some (Calls (CreateRefund r (refundKey req r))))).

(** *** Queries *)

(** A handler of one required query parameter. *)
Definition withParameter (req : http_request) (name : string) (service : bool) (what : string)
    (call : string -> service_call) : handled :=
  if hr_options req then Replies 200 None
  else
    let value := hr_parameter req name in
    if is_empty value then respondBadRequest ("Missing required parameter: " +:+ name)
    else if negb service then unavailable what
    else Calls (call value).

Definition queryOrder (req : http_request) : handled :=
  withParameter req "order_no" paymentService "Payment service" QueryOrder.

Definition queryRefund (req : http_request) : handled :=
  withParameter req "refund_no" refundService "Refund service" QueryRefund.

(** An optional numeric parameter: the fallback when it is absent, [None] when it does
    not parse. *)
Definition numeric (parse : string -> option Z) (fallback : Z) (text : string) : option Z :=
  if is_empty text then Some fallback else parse text.

Definition queryOrderList (req : http_request) : handled :=
  if hr_options req then Replies 200 None
  else
    match numeric stoll 0 (hr_parameter req "user_id") with
    | None => respondBadRequest "Invalid user_id parameter"
    | Some userId =>
        match numeric (fun s => Z.min 100 <$> stoul s) 50 (hr_parameter req "limit") with
        | None => respondBadRequest "Invalid limit parameter"
        | Some limit =>
            match numeric stoul 0 (hr_parameter req "offset") with
            | None => respondBadRequest "Invalid offset parameter"
            | Some offset =>
                if negb paymentService then unavailable "Payment service"
                else Calls (QueryOrderList (hr_parameter req "status") userId limit offset)
            end
        end
    end.

(** [today]: the date of the clock. *)
Definition reconcileSummary (today : string) (req : http_request) : handled :=
  if hr_options req then Replies 200 None
  else
    let date := hr_parameter req "date" in
    if negb paymentService then unavailable "Payment service"
    else Calls (ReconcileSummary (if is_empty date then today else date)).
End Handlers.
End PayController.
Import PayController.

(** ** Well-typed bodies *)

Section Typed.
Context `{J : JsonLib} {JL : JsonLaws J} {JT : JsonTyped J}.
Context (sha256 : string -> string) (paymentService refundService : bool).

(** What a member is, if it is there. *)
Definition typed_member (j : json) (key : string) (t : FieldType) : Prop :=
  exists r, jfind j key = Some r /\ forall v, r = Some v -> hasType t v = true.

Lemma validated j fields field :
  isObject j = true -> validateBodyTypes j fields = Some "" -> In field fields ->
  typed_member j (f_key field) (f_type field).
Proof.
  intros Hj. induction fields as [|f rest IH]; simpl; [done |]. unfold isMember.
  destruct (object_members j (f_key f) Hj) as [r Hr]. rewrite Hr. cbn.
  destruct r as [v|]; cbn.
  - unfold index, get. rewrite Hr. cbn. destruct (hasType (f_type f) v) eqn:Ht; [|by destruct (f_type f)].
    intros H [<-|Hin]; [|by apply IH]. exists (Some v). split; [done |]. by intros v' [= <-].
  - destruct (f_optional f); [|by destruct (f_key f)]. intros H [<-|Hin]; [|by apply IH].
    exists None. by split.
Qed.

Lemma validate_total j fields : isObject j = true -> exists e, validateBodyTypes j fields = Some e.
Proof.
  intros Hj. induction fields as [|f rest IH]; simpl; [by eexists |]. unfold isMember, index, get.
  destruct (object_members j (f_key f) Hj) as [r Hr]. rewrite Hr. cbn.
  destruct r as [v|]; cbn; [destruct (hasType (f_type f) v) | destruct (f_optional f)]; try done; by eexists.
Qed.

Lemma lacks_total j keys : isObject j = true -> exists b, lacksAny j keys = Some b.
Proof.
  intros Hj. induction keys as [|k keys IH]; simpl; [by eexists |]. unfold isMember.
  destruct (object_members j k Hj) as [[v|] ->]; cbn; [done | by eexists].
Qed.

Lemma lacks_none j keys key :
  lacksAny j keys = Some false -> In key keys -> exists v, jfind j key = Some (Some v).
Proof.
  induction keys as [|k keys IH]; simpl; [done |]. unfold isMember.
  destruct (jfind j k) as [[v|]|] eqn:Hk; cbn; [|done..]. intros H [<-|Hin]; [by exists v | by apply IH].
Qed.

Lemma typed_text j key fallback : typed_member j key FString -> exists s, get_text j key fallback = Some s.
Proof.
  intros (r & Hr & Ht). unfold get_text, get. rewrite Hr. cbn. destruct r as [v|]; cbn.
  - by apply string_text, Ht.
  - rewrite asString_of_string. by eexists.
Qed.

Lemma typed_text_of j key v :
  typed_member j key FString -> jfind j key = Some (Some v) -> exists s, text_of j key = Some s /\ asString v = Some s.
Proof.
  intros (r & Hr & Ht) Hv. rewrite Hr in Hv. injection Hv as ->. destruct (string_text v (Ht v eq_refl)) as [s Hs].
  exists s. split; [|done]. unfold text_of, index, get. by rewrite Hr.
Qed.

Lemma typed_int64 j key v :
  typed_member j key FInt64 -> jfind j key = Some (Some v) -> exists z, int64_of j key = Some z.
Proof.
  intros (r & Hr & Ht) Hv. rewrite Hr in Hv. injection Hv as ->. unfold int64_of, index, get. rewrite Hr. cbn.
  by apply int64_value, Ht.
Qed.

Lemma typed_renamed j key fallback : typed_member j key FString -> exists s, renamed j key fallback = Some s.
Proof.
  intros Ht. pose proof Ht as (r & Hr & _). unfold renamed, isMember. rewrite Hr. cbn. destruct r as [v|]; [|by eexists].
  destruct (typed_text_of j key v Ht Hr) as (s & -> & _). by eexists.
Qed.

(** What the shared checks leave. *)
Record checked (required : list string) (fields : list BodyField) (j : json) (amountStr : string) : Prop := {
  checked_present : forall key, In key required -> exists v, jfind j key = Some (Some v);
  checked_typed : forall field, In field fields -> typed_member j (f_key field) (f_type field);
  checked_amount : text_of j "amount" = Some amountStr;
  checked_valid : validateAmount amountStr = true
}.

(** The checks never throw on an object; past them the rest runs on a checked body. *)
Lemma checkedBody_object required missing fields j next :
  isObject j = true -> In "amount" required -> In (text_field "amount") fields ->
  (exists status body, checkedBody required missing fields j next = Some (Replies status body)) \/
  (exists amountStr, checked required fields j amountStr /\ checkedBody required missing fields j next = next amountStr).
Proof.
  intros Hj Hreq Hfield. unfold checkedBody, respondBadRequest, amountRefused.
  destruct (lacks_total j required Hj) as [[] Hl]; rewrite Hl; cbn; [left; by do 2 eexists |].
  destruct (validate_total j fields Hj) as [e Hv]. rewrite Hv. cbn.
  destruct e as [|c e]; cbn; [|left; by do 2 eexists].
  destruct (lacks_none j required "amount" Hl Hreq) as [v Ha].
  destruct (typed_text_of j "amount" v (validated _ _ _ Hj Hv Hfield) Ha) as (amountStr & Hs & _). rewrite Hs. cbn.
  destruct (validateAmount amountStr) eqn:Hva; cbn; [|left; by do 2 eexists]. right. exists amountStr.
  split; [|done]. split; [|intros; by eapply validated|..]; try done. intros key. by apply lacks_none.
Qed.
(** ** The request of the QR service *)

(** A request under construction: its members are texts, the owner apart, and those of
    [made] are known. *)
Record readable (made : list (string * json)) (q : json) : Prop := {
  readable_shape : q = jnull \/ isObject q = true;
  readable_text : forall key, key <> "user_id" ->
    exists r, jfind q key = Some r /\ forall v, r = Some v -> exists s, asString v = Some s;
  readable_made : forall key v, In (key, v) made -> jfind q key = Some (Some v)
}.

Lemma readable_null : readable [] jnull.
Proof. split; [by left | |done]. intros key _. exists None. split; [apply null_members | done]. Qed.

Lemma jset_readable made q key v :
  readable made q -> (key = "user_id" \/ exists s, asString v = Some s) ->
  exists q', jset q key v = Some q' /\
    readable ((key, v) :: List.filter (fun kv => negb (String.eqb key (fst kv))) made) q'.
Proof.
  intros [Hs Ht Hm] Hv. destruct (jset_total q key v Hs) as (q' & Hq & Hobj). exists q'. split; [done |].
  pose proof (jfind_jset q key v q' Hq) as Hf. split; [by right | |].
  - intros key' Hk'. rewrite Hf. destruct (String.eqb_spec key key') as [<-|Hne]; [|by apply Ht].
    exists (Some v). split; [done |]. intros v' [= <-]. by destruct Hv.
  - intros key' v' [[= <- <-]|Hin]; rewrite Hf; [by rewrite String.eqb_refl |].
    apply filter_In in Hin as [Hin Hne]. simpl in Hne. apply negb_true_iff in Hne as ->. by apply Hm.
Qed.

(** One assignment, then the rest. *)
Lemma set_step {A} made q key v (rest : json -> option A) (P : A -> Prop) :
  readable made q -> (key = "user_id" \/ exists s, asString v = Some s) ->
  (forall q', readable ((key, v) :: List.filter (fun kv => negb (String.eqb key (fst kv))) made) q' ->
     exists out, rest q' = Some out /\ P out) ->
  exists out, (q' ← jset q key v; rest q') = Some out /\ P out.
Proof. intros Hq Hv Hr. destruct (jset_readable made q key v Hq Hv) as (q' & -> & Hq'). by apply Hr. Qed.

Lemma set_text {A} made q key s (rest : json -> option A) (P : A -> Prop) :
  readable made q ->
  (forall q', readable ((key, of_string s) :: List.filter (fun kv => negb (String.eqb key (fst kv))) made) q' ->
     exists out, rest q' = Some out /\ P out) ->
  exists out, (q' ← jset q key (of_string s); rest q') = Some out /\ P out.
Proof. intros Hq. apply (set_step made); [done |]. right. rewrite asString_of_string. by eexists. Qed.

Lemma handOver_readable made j keys q :
  isObject j = true -> (forall key, In key keys -> typed_member j key FString) ->
  (forall key v, In (key, v) made -> ~ In key keys) -> readable made q ->
  exists q', handOver j keys q = Some q' /\ readable made q'.
Proof.
  intros Hj. revert q. induction keys as [|key keys IH]; intros q Hk Hd Hq; simpl; [by exists q |].
  destruct (Hk key (or_introl eq_refl)) as (r & Hr & Ht). unfold isMember, index, get. rewrite Hr.
  assert (Hk' : forall key, In key keys -> typed_member j key FString) by (intros; by apply Hk; right).
  assert (Hd' : forall key v, In (key, v) made -> ~ In key keys) by (intros k v Hin Hc; by apply (Hd k v Hin); right).
  destruct r as [v|]; cbn; [|by apply IH].
  destruct (jset_readable made q key v Hq (or_intror (string_text v (Ht v eq_refl)))) as (q1 & -> & Hq1). cbn.
  apply IH; [done.. |]. destruct Hq1 as [Hs1 Ht1 Hm1]. split; [done.. |]. intros key' v' Hin. apply Hm1. right.
  apply filter_In. split; [done |]. simpl. apply negb_true_iff, String.eqb_neq. intros <-.
  apply (Hd key v' Hin). by left.
Qed.

Lemma readable_get made q key fallback : readable made q -> key <> "user_id" -> exists s, get_text q key fallback = Some s.
Proof.
  intros Hq Hk. destruct (readable_text _ _ Hq key Hk) as (r & Hr & Ht). unfold get_text, get. rewrite Hr. cbn.
  destruct r as [v|]; cbn; [by apply Ht |]. rewrite asString_of_string. by eexists.
Qed.

Lemma made_text made q key s : readable made q -> In (key, of_string s) made -> get_string q key = Some s.
Proof. intros Hq Hin. unfold get_string, get. rewrite (readable_made _ _ Hq key _ Hin). apply asString_of_string. Qed.

Abbreviation qr_body := (checked ["order_no"; "amount"; "channel"; "user_id"] qrFields).

(** The request is built without a throw, and holds what was checked. *)
Lemma qrRequest_readable req j amountStr userId :
  isObject j = true -> qr_body j amountStr ->
  exists q, qrRequest req j amountStr userId = Some q /\
    exists made, readable made q /\ In ("user_id", of_int userId) made /\ In ("amount", of_string amountStr) made /\
      exists orderNo, text_of j "order_no" = Some orderNo /\ In ("order_no", of_string orderNo) made.
Proof.
  intros Hj [Hp Ht _ _]. unfold qrRequest.
  assert (Hf : forall key, In (text_field key) qrFields -> typed_member j key FString) by (intros key; apply (Ht (text_field key))).
  destruct (Hp "order_no") as [vo Hvo]; [simpl; tauto |]. destruct (Hp "channel") as [vc Hvc]; [simpl; tauto |].
  destruct (typed_text_of j "order_no" vo (Hf "order_no" ltac:(simpl; tauto)) Hvo) as (orderNo & -> & _).
  destruct (typed_text_of j "channel" vc (Hf "channel" ltac:(simpl; tauto)) Hvc) as (channel & -> & _).
  destruct (typed_renamed j "description" "" (Hf "description" ltac:(simpl; tauto))) as [d ->].
  destruct (typed_renamed j "product_name" "Payment" (Hf "product_name" ltac:(simpl; tauto))) as [sb ->].
  cbn [mbind option_bind]. eapply set_text; [apply readable_null |]. intros q1 H1.
  eapply set_text; [exact H1 |]. intros q2 H2. eapply set_text; [exact H2 |]. intros q3 H3.
  eapply set_step; [exact H3 | by left |]. intros q4 H4. eapply set_text; [exact H4 |]. intros q5 H5.
  eapply set_text; [exact H5 |]. intros q6 H6. cbn in H6.
  match type of H6 with readable ?made _ =>
    destruct (handOver_readable made j handedOver q6 Hj) as (q7 & -> & H7); [| |done|] end.
  { intros key Hin. apply Hf. simpl in *. intuition (subst; auto 15). }
  { intros key v Hin Hc. simpl in Hin, Hc. intuition congruence. }
  cbn [mbind option_bind]. destruct (readable_get _ q7 "idempotency_key" "" H7 ltac:(done)) as [k Hk].
  change (get_string q7 "idempotency_key") with (get_text q7 "idempotency_key" ""). rewrite Hk. cbn [mbind option_bind].
  destruct (is_empty k && _).
  - destruct (jset_readable _ q7 "idempotency_key" (of_string (keyHeader req)) H7) as (q8 & -> & H8).
    { right. rewrite asString_of_string. by eexists. }
    exists q8. split; [done |]. eexists. split; [exact H8 |]. cbn. split; [tauto |]. split; [tauto |]. exists orderNo. tauto.
  - exists q7. split; [done |]. eexists. split; [exact H7 |]. cbn. split; [tauto |]. split; [tauto |]. exists orderNo. tauto.
Qed.
(** ** Theorems *)

Lemma header_key req fallback :
  fallback <> "" -> (if is_empty (keyHeader req) then fallback else keyHeader req) <> "".
Proof. intros Hf. destruct (is_empty (keyHeader req)) eqn:E; [done |]. intros H. by rewrite H in E. Qed.

(** The accessors of [PaymentService::createQRPayment] do not throw. *)
Definition qr_reads (q : json) (orderNo amount : string) : Prop :=
  exists channel subject timeExpire owner r,
    get_text q "channel" "alipay" = Some channel /\ get_text q "subject" "Payment" = Some subject /\
    get_string q "time_expire" = Some timeExpire /\ Qr.qrUserId q = Some owner /\
    Qr.readQrRequest q orderNo amount channel subject timeExpire owner = Some r.

Lemma readable_reads made q u orderNo amount : readable made q -> In ("user_id", of_int u) made -> qr_reads q orderNo amount.
Proof.
  intros Hq Hu.
  assert (Hg : forall key fallback, key <> "user_id" -> exists s, get_text q key fallback = Some s)
    by (intros; by eapply readable_get).
  destruct (Hg "channel" "alipay" ltac:(done)) as [ch Hch]. destruct (Hg "subject" "Payment" ltac:(done)) as [sb Hsb].
  destruct (Hg "time_expire" "" ltac:(done)) as [te Hte].
  assert (Ho : exists owner, Qr.qrUserId q = Some owner).
  { unfold Qr.qrUserId, get. rewrite (readable_made _ _ Hq _ _ Hu). cbn. rewrite asInt64_of_int. destruct (isInt64 _); by eexists. }
  destruct Ho as [owner Ho].
  assert (Hr : exists r, Qr.readQrRequest q orderNo amount ch sb te owner = Some r).
  { unfold Qr.readQrRequest, Qr.buyerMember, isMember. destruct (Hg "currency" "CNY" ltac:(done)) as [cu Hcu].
    destruct (Hg "idempotency_key" ("QR_" +:+ orderNo +:+ "_" +:+ ch) ltac:(done)) as [ky Hky].
    destruct (Hg "notify_url" "" ltac:(done)) as [nu Hnu]. destruct (Hg "buyer_id" "" ltac:(done)) as [bi Hbi].
    destruct (readable_text _ _ Hq "buyer_id" ltac:(done)) as (r & Hr & _).
    change (get_string q "notify_url") with (get_text q "notify_url" "").
    change (get_string q "buyer_id") with (get_text q "buyer_id" "").
    rewrite Hcu, Hky, Hnu, Hbi, Hr. destruct (String.eqb ch "wechat"), r; by eexists. }
  destruct Hr as [r Hr]. by exists ch, sb, te, owner, r.
Qed.

(** What a call owes to the body it was made for. *)
Definition call_checked (j : json) (call : service_call) : Prop :=
  match call with
  | CreatePayment r key =>
      text_of j "order_no" = Some (cr_orderNo r) /\ text_of j "amount" = Some (cr_amount r) /\
      validateAmount (cr_amount r) = true /\ 0 < cr_userId r /\ key <> ""
  | CreateQRPayment q =>
      exists orderNo amount userId, text_of j "order_no" = Some orderNo /\ text_of j "amount" = Some amount /\
        validateAmount amount = true /\ 0 < userId /\
        get_string q "order_no" = Some orderNo /\ get_string q "amount" = Some amount /\
        int64_of q "user_id" = Some userId /\ qr_reads q orderNo amount
  | CreateRefund r key =>
      text_of j "order_no" = Some (rq_orderNo r) /\ text_of j "amount" = Some (rq_amount r) /\
      validateAmount (rq_amount r) = true /\ key <> ""
  | _ => False
  end.

(** Answered, or a call that was checked. *)
Definition settled (j : json) (h : handled) : Prop :=
  match h with Replies _ _ => True | Calls call => call_checked j call | Throws => False end.

Lemma checkedBody_settled required missing fields j next :
  isObject j = true -> In "amount" required -> In (text_field "amount") fields ->
  (forall amountStr, checked required fields j amountStr -> exists h, next amountStr = Some h /\ settled j h) ->
  settled j (catching (checkedBody required missing fields j next)).
Proof.
  intros Hj H1 H2 Hn.
  destruct (checkedBody_object required missing fields j next Hj H1 H2) as [(status & body & ->)|(a & Hc & ->)]; [done |].
  by destruct (Hn a Hc) as (h & -> & Hh).
Qed.

Lemma settled_payment req j amountStr :
  isObject j = true -> checked ["order_no"; "amount"] paymentFields j amountStr ->
  exists h, (r ← readPayment req j amountStr;
    if cr_userId r <=? 0
    then Some (Replies 401 (Some (envelope 401 "User ID required. Please provide user_id in request body.")))
    else if negb paymentService then Some (unavailable "Payment service")
    else Some (Calls (CreatePayment r (paymentKey sha256 req r)))) = Some h /\ settled j h.
Proof.
  intros Hj [Hp Ht Ha Hv]. unfold readPayment.
  assert (Hf : forall key, In (text_field key) paymentFields -> typed_member j key FString) by (intros key; apply (Ht (text_field key))).
  destruct (Hp "order_no") as [vo Hvo]; [simpl; tauto |].
  destruct (typed_text_of j "order_no" vo (Hf "order_no" ltac:(simpl; tauto)) Hvo) as (orderNo & Ho & _). rewrite Ho.
  destruct (typed_text j "currency" "CNY" (Hf "currency" ltac:(simpl; tauto))) as [c ->].
  destruct (typed_text j "description" "" (Hf "description" ltac:(simpl; tauto))) as [d ->].
  destruct (typed_text j "notify_url" "" (Hf "notify_url" ltac:(simpl; tauto))) as [n ->].
  destruct (typed_text j "channel" "alipay" (Hf "channel" ltac:(simpl; tauto))) as [ch ->].
  destruct (typed_text j "time_expire" "" (Hf "time_expire" ltac:(simpl; tauto))) as [te ->].
  assert (Hu : exists u, ownerOf req j = Some u).
  { pose proof (Ht (int_field "user_id") ltac:(simpl; tauto)) as Hu. pose proof Hu as (r & Hr & _).
    unfold ownerOf, isMember. cbn in Hr. rewrite Hr. cbn. destruct r as [v|]; [by apply (typed_int64 j "user_id" v) | by eexists]. }
  assert (Hs : exists s, sceneInfoOf j = Some s).
  { unfold sceneInfoOf, isMember, index, get. destruct (object_members j "scene_info" Hj) as [r ->]. destruct r; by eexists. }
  destruct Hu as [u ->], Hs as [s ->]. cbn. destruct (Z.leb_spec u 0); [by eexists |].
  destruct paymentService; cbn; eexists; (split; [done |]); [|done]. simpl. do 4 (split; [done || lia |]).
  unfold paymentKey. by apply header_key.
Qed.

Lemma settled_refund req j amountStr :
  checked ["order_no"; "amount"] refundFields j amountStr ->
  exists h, (r ← readRefund j amountStr;
    if negb refundService then Some (unavailable "Refund service")
    else Some (Calls (CreateRefund r (refundKey sha256 req r)))) = Some h /\ settled j h.
Proof.
  intros [Hp Ht Ha Hv]. unfold readRefund.
  assert (Hf : forall key, In (text_field key) refundFields -> typed_member j key FString) by (intros key; apply (Ht (text_field key))).
  destruct (Hp "order_no") as [vo Hvo]; [simpl; tauto |].
  destruct (typed_text_of j "order_no" vo (Hf "order_no" ltac:(simpl; tauto)) Hvo) as (orderNo & Ho & _). rewrite Ho.
  destruct (typed_text j "reason" "" (Hf "reason" ltac:(simpl; tauto))) as [r1 ->].
  destruct (typed_text j "notify_url" "" (Hf "notify_url" ltac:(simpl; tauto))) as [r2 ->].
  destruct (typed_text j "funds_account" "" (Hf "funds_account" ltac:(simpl; tauto))) as [r3 ->].
  destruct (typed_renamed j "payment_no" "" (Hf "payment_no" ltac:(simpl; tauto))) as [r4 ->].
  destruct (typed_renamed j "refund_no" "" (Hf "refund_no" ltac:(simpl; tauto))) as [r5 ->]. cbn.
  destruct refundService; cbn; eexists; (split; [done |]); [|done]. simpl. do 3 (split; [done |]).
  unfold refundKey. by apply header_key.
Qed.

Lemma settled_qr req j amountStr :
  isObject j = true -> qr_body j amountStr ->
  exists h, (qrUserId ← int64_of j "user_id";
    if qrUserId <=? 0 then Some (respondBadRequest "Field user_id must be a positive integer")
    else
      request ← qrRequest req j amountStr qrUserId;
      if negb paymentService then Some (unavailable "Payment service") else Some (Calls (CreateQRPayment request))) = Some h /\
    settled j h.
Proof.
  intros Hj Hc. pose proof Hc as [Hp Ht Ha Hv]. destruct (Hp "user_id") as [vu Hvu]; [simpl; tauto |].
  destruct (typed_int64 j "user_id" vu (Ht (int_field "user_id") ltac:(simpl; tauto)) Hvu) as [u ->]. cbn.
  destruct (Z.leb_spec u 0); [by eexists |].
  destruct (qrRequest_readable req j amountStr u Hj Hc) as (q & -> & made & Hq & Hu & Hm & orderNo & Ho & Hmo). cbn.
  destruct paymentService; cbn; eexists; (split; [done |]); [|done]. exists orderNo, amountStr, u.
  do 4 (split; [done |]). split; [by apply made_text with made |]. split; [by apply made_text with made |].
  split; [|by eapply readable_reads]. unfold int64_of, index, get. rewrite (readable_made _ _ Hq _ _ Hu).
  apply asInt64_of_int.
Qed.

(** C17. The handlers read only what has its type: for every body that is a JSON
    object, whatever its members, createPayment, createQRPayment and refund throw no
    exception; and they call a service only with the order and the amount of the
    body, an amount of the accepted shape, a positive owner and an idempotency key.
    The request that is rebuilt for the QR service can be read there without a throw. *)
Theorem handlers_type_safe req j :
  hr_options req = false -> hr_json req = Some j -> isObject j = true ->
  settled j (createPayment sha256 paymentService req) /\
  settled j (createQRPayment paymentService req) /\
  settled j (refund sha256 refundService req).
Proof.
  intros Ho Hreq Hj. unfold createPayment, createQRPayment, refund, withJson. rewrite Ho, Hreq.
  repeat split; apply checkedBody_settled; try done; simpl; try tauto; intros amountStr Hc.
  - by apply settled_payment.
  - by apply settled_qr.
  - by apply settled_refund.
Qed.
End Typed.

(** ** queryOrderList *)

Lemma numeric_bounds parse fallback text v (P : Z -> Prop) :
  P fallback -> (forall s z, parse s = Some z -> P z) -> numeric parse fallback text = Some v -> P v.
Proof. intros Hf Hp. unfold numeric. destruct (is_empty text); [by intros [= <-] | apply Hp]. Qed.

Lemma order_list_call `{J : JsonLib} paymentService req call :
  queryOrderList paymentService req = Calls call ->
  exists userId limit offset, call = QueryOrderList (hr_parameter req "status") userId limit offset /\
    in_int64 userId /\ 0 <= limit <= 100 /\ 0 <= offset < 2 ^ 64.
Proof.
  unfold queryOrderList, respondBadRequest, unavailable. destruct (hr_options req); [done |].
  destruct (numeric stoll _ _) as [userId|] eqn:Hu; [|done]. destruct (numeric _ 50 _) as [limit|] eqn:Hl; [|done].
  destruct (numeric stoul 0 _) as [offset|] eqn:Ho; [|done]. destruct paymentService; [|done]. intros [= <-].
  exists userId, limit, offset. split; [done |]. split; [|split].
  - revert Hu. apply (numeric_bounds _ _ _ _ in_int64); [by unfold in_int64, int64_min, int64_max | apply stoll_in_int64].
  - revert Hl. apply (numeric_bounds _ _ _ _ (fun z => 0 <= z <= 100)); [lia |]. intros s z H.
    apply fmap_Some in H as (v & Hv & ->). apply stoul_range in Hv. lia.
  - revert Ho. apply (numeric_bounds _ _ _ _ (fun z => 0 <= z < 2 ^ 64)); [lia | apply stoul_range].
Qed.

(** ** Witnesses *)

Definition tree0 : JsonLib := Tree.lib [].

Definition request_of (body : option (@json tree0)) (parameters : string -> string) : @http_request tree0 :=
  @HttpRequest tree0 false body (fun _ => "") parameters None.

Definition pay_body : Tree.tree :=
  Tree.TObject [("order_no", Tree.TString "O1"); ("amount", Tree.TString "12.50"); ("channel", Tree.TString "wechat");
    ("user_id", Tree.TInt 42)].

Lemma handlers_type_safe_witness :
  @createPayment tree0 (fun s => s) true (request_of (Some pay_body) (fun _ => "")) =
    Calls (CreatePayment (@CreateRequest tree0 "O1" "12.50" "CNY" "" "" 42 Tree.TNull "wechat" "" "") "payment:O1:42:12.50CNY") /\
  settled (J := tree0) pay_body (createQRPayment (J := tree0) true (request_of (Some pay_body) (fun _ => ""))).
Proof.
  split; [reflexivity |].
  exact (proj1 (proj2 (@handlers_type_safe tree0 _ _ (fun s => s) true true
    (request_of (Some pay_body) (fun _ => "")) pay_body eq_refl eq_refl eq_refl))).
Defined.

(** A minus sign is no error: the offset wraps around, and a negative owner, which the
    listing reads as no owner, is accepted. *)
Example negative_parameters_wrap :
  @queryOrderList tree0 true (request_of None (fun name =>
    if String.eqb name "offset" then "-1" else if String.eqb name "user_id" then "-7" else "")) =
  Calls (QueryOrderList "" (-7) 50 (2 ^ 64 - 1)).
Proof. reflexivity. Qed.

(** A body that is JSON but neither an object nor null throws. *)
Example array_body_throws :
  @createPayment tree0 (fun s => s) true (request_of (Some (Tree.TArray [])) (fun _ => "")) = Throws.
Proof. reflexivity. Qed.
