(* ===== verification/OrderListing.v ===== *)
(** * The order listing: the handler composed with the query it leads to
    (queryOrderList of PayHandlers.cc and of PaymentService.cc). *)
From S2P Require Import Prelude Cxx Json PaymentReports PayHandlers.
Import PaymentReports.OrderList PayController.

(** C22. Whatever the query string of the order listing holds, no exception leaves the
    handler, and the statement sent is one of four fixed texts with exactly the
    parameters it has placeholders for: nothing of the request becomes part of the
    text.  The parameters are at most the requested status and a positive owner that
    fits [int64_t], a limit from 1 to 100, and an offset that fits [size_t]. *)
Theorem order_list_bounds `{J : JsonLib} paymentService req :
  match queryOrderList paymentService req with
  | Throws => False
  | Replies status _ => In status [200; 400; 503]
  | Calls call =>
      exists userId limit offset sql ps l,
        call = QueryOrderList (hr_parameter req "status") userId limit offset /\
        orderListQuery (hr_parameter req "status") userId limit offset =
          (sql, (ps ++ [to_string l; to_string offset])%list) /\
        In (sql, S (S (List.length ps))) listTexts /\ Forall (filters (hr_parameter req "status") userId) ps /\
        in_int64 userId /\ 1 <= l <= 100 /\ 0 <= offset < 2 ^ 64
  end.
Proof.
  destruct (queryOrderList paymentService req) as [status body|call|] eqn:Hq.
  - revert Hq. unfold queryOrderList, respondBadRequest, unavailable.
    repeat case_match; intros [= <- _] || intros [=]; simpl; tauto.
  - apply order_list_call in Hq as (userId & limit & offset & -> & Hu & _ & Ho).
    destruct (orderListQuery_closed (hr_parameter req "status") userId limit offset) as (sql & ps & E & Ht & Hf).
    exists userId, limit, offset, sql, ps, (actualLimit limit). repeat split; try done; try apply actualLimit_bounds; apply Hu || apply Ho.
  - revert Hq. unfold queryOrderList, respondBadRequest, unavailable. by repeat case_match.
Qed.

(** ** A request on every branch *)

Definition listed (parameters : string -> string) : option (string * list string) :=
  match queryOrderList (J := tree0) true (request_of None parameters) with
  | Calls (QueryOrderList status userId limit offset) => Some (orderListQuery status userId limit offset)
  | _ => None
  end.

(** Text that looks like SQL stays in its parameter; a limit beyond the page is cut. *)
Example quoted_status_is_bound :
  listed (fun key => if String.eqb key "status" then "x' OR '1'='1" else if String.eqb key "user_id" then "7"
                     else if String.eqb key "limit" then "1000" else "") =
  Some (kOrderListBaseSQL +:+ " AND po.status = $1 AND po.user_id = $2 ORDER BY po.created_at DESC LIMIT $3 OFFSET $4",
        ["x' OR '1'='1"; "7"; "100"; "0"]).
Proof. reflexivity. Qed.

Example bad_limit_is_refused : listed (fun key => if String.eqb key "limit" then "ten" else "") = None.
Proof. reflexivity. Qed.

(** A limit of 0 passes the handler, and lists fifty rows. *)
Example zero_limit_is_the_default :
  option_map snd (listed (fun key => if String.eqb key "limit" then "0" else "")) = Some ["50"; "0"].
Proof. reflexivity. Qed.
