(* ===== verification/Gateway.v ===== *)
(** * The routes of the gateway: the exception barrier and the authorisation in front
    of the handlers ([guarded] and [registerHttpHandlers] of
    src/libs/drogon-pay/src/PayPlugin.cc).

    Here [Answer body status] is an HTTP response. *)
From S2P Require Import Prelude Cxx Json Effects Store Auth Service RefundService PaymentService PaymentCreate QrPayment PayHandlers.

(** ** The exception barrier *)

(** How an operation returns: it sends the response of the request ([silent] is what the
    call returns when the response is dropped), in the frame of its caller, or by a
    callback on the event loop - unless the call itself [threw]. *)
Inductive op_kind (R : Type) :=
| Answers (silent : R)
| Sync
| Waits (threw : R -> bool).
Arguments Answers {R} silent.
Arguments Sync {R}.
Arguments Waits {R} threw.

(** A family of operations whose programs can be guarded. *)
Class Guardable (I : Type -> Type) := {
  kind : forall R, I R -> op_kind R;
  fault : I unit;                        (* the 500 response *)
  fault_answers : kind unit fault = Answers tt
}.
Arguments kind {I _ R} e.

(** [guarded] of PayPlugin.cc: the responses after the first are dropped ([answered]),
    and an exception that is thrown in the frame of the handler ([sync]) is answered
    if nothing was. *)
Fixpoint guarded {I} `{Guardable I} (sync answered : bool) (p : prog I) : prog I :=
  match p with
  | Done => Done
  | Escape => if sync then (if answered then Done else Vis fault (fun _ => Done)) else Escape
  | Vis e k =>
      match kind e with
      | Answers silent =>
          if answered then guarded sync true (k silent) else Vis e (fun r => guarded sync true (k r))
      | Sync => Vis e (fun r => guarded sync answered (k r))
      | Waits threw => Vis e (fun r => guarded (sync && threw r) answered (k r))
      end
  end.

Section Barrier.
Context {I : Type -> Type} `{Guardable I}.
Abbreviation history := (list (event I)).

Definition is_response (ev : event I) : bool :=
  match ev with Event e _ => match kind e with Answers _ => true | _ => false end end.

Definition responses (h : history) : nat := List.length (List.filter is_response h).

(** The handler's frame was left: the answer of some operation was waited for. *)
Definition waited (h : history) : Prop :=
  exists h1 R (e : I R) r h2 threw, h = (h1 ++ Event e r :: h2)%list /\ kind e = Waits threw /\ threw r = false.

(** A response ends whatever it does. *)
Definition silent_event (ev : event I) : Prop :=
  match ev with Event e r => match kind e with Answers silent => r = silent | _ => True end end.

Lemma waited_cons ev h : waited h -> waited (ev :: h).
Proof. intros (h1 & R & e & r & h2 & t & -> & Hk). by exists (ev :: h1), R, e, r, h2, t. Qed.

(** What the barrier promises of any program. *)
Definition barrier_end (o : outcome) (h : history) : Prop :=
  (responses h <= 1)%nat /\ (o = Escaped -> waited h).

Lemma responses_cons ev h : responses (ev :: h) = ((if is_response ev then 1 else 0) + responses h)%nat.
Proof. unfold responses. simpl. by destruct (is_response ev). Qed.

Lemma guarded_safe (Rely : history -> event I -> Prop) (sync answered : bool) p h :
  (if answered then responses h <= 1 else responses h = 0)%nat -> (sync = false -> waited h) ->
  safe Rely (fun h ev => (responses (ev :: h) <= 1)%nat) barrier_end (guarded sync answered p) h.
Proof.
  revert sync answered h. induction p as [| |R e k IH]; intros sync answered h Ha Hw.
  all: assert (Hle : (responses h <= 1)%nat) by (destruct answered; lia).
  - by split.
  - simpl. destruct sync; [|by split; auto]. destruct answered; [by split|].
    assert (Hf : (responses (Event fault tt :: h) <= 1)%nat).
    { rewrite responses_cons. simpl. rewrite fault_answers. lia. }
    intros []. by repeat split.
  - simpl. destruct (kind e) as [silent| |threw] eqn:Hk; [destruct answered; [by apply IH|]| |];
      intros r _; (split; [rewrite responses_cons; simpl; rewrite Hk; try destruct answered; lia|]);
      (apply IH; [rewrite responses_cons; simpl; rewrite Hk; try destruct answered; lia |]);
      intros Hs; try (by apply waited_cons, Hw).
    destruct sync; [|by apply waited_cons, Hw]. by exists [], R, e, r, h, threw.
Qed.

(** The operations that are no responses. *)
Definition effects (h : history) : history := List.filter (fun ev => negb (is_response ev)) h.

Lemma effects_cons ev h : effects (ev :: h) = if is_response ev then effects h else ev :: effects h.
Proof. unfold effects. simpl. by destruct (is_response ev). Qed.

(** What a program guarantees about its operations, given the operations before, it
    guarantees behind the barrier. *)
Lemma guarded_effects (Rely : history -> event I -> Prop) Guar Fin (sync answered : bool) p h h0 :
  (forall ev h h0, effects h = effects h0 -> Rely h ev -> Rely h0 ev) ->
  (forall R (e : I R) silent h0, kind e = Answers silent -> Rely h0 (Event e silent)) ->
  safe Rely Guar Fin p h0 -> effects h = effects h0 ->
  safe Rely (fun h ev => is_response ev = false -> exists h0, effects h = effects h0 /\ Guar h0 ev)
    (fun _ _ => True) (guarded sync answered p) h.
Proof.
  intros Hrely Hans. revert sync answered h h0.
  induction p as [| |R e k IH]; intros sync answered h h0 Hp Heq; simpl; [done| |].
  - destruct sync; [|done]. destruct answered; [done|]. intros u _. split; [|done]. intros Hr. simpl in Hr.
    by rewrite fault_answers in Hr.
  - simpl in Hp. assert (Hext : forall r, effects (Event e r :: h) = effects (Event e r :: h0)).
    { intros r. rewrite !effects_cons, Heq. done. }
    assert (Hgo : forall r s a, Rely h (Event e r) ->
      (is_response (Event e r) = false -> exists h0, effects h = effects h0 /\ Guar h0 (Event e r)) /\
      safe Rely (fun h ev => is_response ev = false -> exists h0, effects h = effects h0 /\ Guar h0 ev)
        (fun _ _ => True) (guarded s a (k r)) (Event e r :: h)).
    { intros r s a Hr. destruct (Hp r (Hrely _ _ _ Heq Hr)) as [Hg Hs]. split; [intros _; by exists h0|].
      apply IH with (Event e r :: h0); auto. }
    destruct (kind e) as [silent| |threw] eqn:Hk; [destruct answered| |]; try (intros r Hr; by apply Hgo).
    apply IH with (Event e silent :: h0); [by apply Hp, Hans|].
    rewrite effects_cons. simpl. by rewrite Hk.
Qed.

Lemma guarded_once (Rely : history -> event I -> Prop) p o h :
  runs (logs Rely) (guarded true false p) [] o h -> (responses h <= 1)%nat /\ (o = Escaped -> waited h).
Proof.
  intros Hr. pose proof (guarded_safe Rely true false p [] eq_refl ltac:(done)) as Hs.
  destruct (safe_sound _ _ _ _ _ _ Hs Hr) as [Hg Hf]. split.
  - destruct h as [|ev h]; [unfold responses; simpl; lia | by destruct Hg].
  - intros ->. by apply Hf.
Qed.
(** After the first response only other operations are performed. *)
Lemma guarded_silent (Rely : history -> event I -> Prop) (sync : bool) p h :
  safe Rely (fun _ ev => is_response ev = false) (fun _ _ => True) (guarded sync true p) h.
Proof.
  revert sync h. induction p as [| |R e k IH]; intros sync h; simpl; [done|by destruct sync|].
  destruct (kind e) as [silent| |threw] eqn:Hk; [by apply IH|..]; intros r _; simpl; rewrite Hk; by split.
Qed.

(** The first response is one the program gives then, or the barrier's. *)
Lemma guarded_first (Rely : history -> event I -> Prop) Guar Fin (sync : bool) p h :
  responses h = 0%nat -> safe Rely Guar Fin p h ->
  safe Rely (fun h ev => is_response ev = true -> Guar h ev \/ ev = Event fault tt) (fun _ _ => True)
    (guarded sync false p) h.
Proof.
  revert sync h. induction p as [| |R e k IH]; intros sync h Hh Hp; simpl; [done| |].
  - destruct sync; [|done]. intros [] _. split; [by right|done].
  - simpl in Hp. destruct (kind e) as [silent| |threw] eqn:Hk; intros r Hr; destruct (Hp r Hr) as [Hg Hs].
    + split; [auto|]. eapply (safe_mono _ (fun _ => True)); [done| |done|apply guarded_silent].
      intros h' ev _ Hn Hy. congruence.
    + split; [auto|]. apply IH; [|done]. rewrite responses_cons. simpl. by rewrite Hk.
    + split; [auto|]. apply IH; [|done]. rewrite responses_cons. simpl. by rewrite Hk.
Qed.
End Barrier.

(** ** The operations of the services *)

Section Routes.
Context `{J : JsonLib}.

Definition io_kind {R} (e : io R) : op_kind R :=
  match e in io R return op_kind R with
  | Sql _ _ => Waits (fun a => match a with Threw _ => true | _ => false end)
  | Begin | BeginOrNull | Step _ | RedisSetNx _ | RedisSetEx _ _ _ => Waits (fun _ => false)
  | Respond _ => Answers tt
  | Now | Uuid | Construct | Rollback => Sync
  end.

Definition svc_kind (R : Type) (e : svc R) : op_kind R :=
  match e in svc R return op_kind R with
  | Io e => io_kind e
  | Call _ _ => Waits (fun a => match a with ChannelThrew => true | Answered _ _ => false end)
  | Answer _ _ => Answers tt
  | Post _ | Claim | Draw _ => Sync
  end.

(** The response to a fault of a handler. *)
Definition internalError : svc unit :=
  Answer (of_object [("code", of_int 500); ("message", of_string "Internal server error")]) 500.

#[global] Instance svc_guardable : Guardable svc := {| kind := svc_kind; fault := internalError; fault_answers := eq_refl |}.

(** A service's answer as a response, under the status of its error. *)
Fixpoint respondWith (status : Z -> Z) (p : prog svc) : prog svc :=
  match p with
  | Done => Done
  | Escape => Escape
  | Vis e k =>
      match e in svc R return (R -> prog svc) -> prog svc with
      | Answer result error => fun k => Vis (Answer result (status error)) (fun u => respondWith status (k u))
      | Io e => fun k => Vis (Io e) (fun r => respondWith status (k r))
      | Call channel op => fun k => Vis (Call channel op) (fun r => respondWith status (k r))
      | Post q => fun k => Vis (Post q) (fun r => respondWith status (k r))
      | Claim => fun k => Vis Claim (fun r => respondWith status (k r))
      | Draw bound => fun k => Vis (Draw bound) (fun r => respondWith status (k r))
      end k
  end.

(** ** The routes *)

(** The handlers that are registered; [inl] answers or calls a service, [inr] is the
    program of a notification endpoint. *)
Inductive endpoint :=
| EpCreatePayment | EpCreateQRPayment | EpQueryOrder | EpRefund | EpQueryRefund | EpQueryOrderList
| EpReconcileSummary | EpAuthMetrics | EpAuthMetricsProm | EpWechatNotify | EpAlipayNotify.

#[global] Instance endpoint_eq : EqDecision endpoint.
Proof. solve_decision. Defined.

Record route := Route { rt_path : string; rt_authed : bool; rt_endpoint : endpoint; rt_methods : list string }.

(** [registerHttpHandlers] *)
Definition routes (basePath : string) : list route :=
  let post := ["POST"; "OPTIONS"] in let read := ["GET"; "OPTIONS"] in
  let qrPath := if String.eqb basePath "/api/pay" then "/api/qrpay/create" else basePath +:+ "/qrpay/create" in
  [Route (basePath +:+ "/create") true EpCreatePayment post; Route qrPath true EpCreateQRPayment post;
   Route (basePath +:+ "/query") true EpQueryOrder read; Route (basePath +:+ "/refund") true EpRefund post;
   Route (basePath +:+ "/refund/query") true EpQueryRefund read; Route (basePath +:+ "/orders") true EpQueryOrderList read;
   Route (basePath +:+ "/reconcile/summary") true EpReconcileSummary read;
   Route (basePath +:+ "/metrics/auth") true EpAuthMetrics read;
   Route (basePath +:+ "/metrics/auth.prom") true EpAuthMetricsProm read;
   Route (basePath +:+ "/notify/wechat") false EpWechatNotify ["POST"];
   Route (basePath +:+ "/notify/alipay") false EpAlipayNotify ["POST"]].

(** [PayAuthMetrics::snapshot] *)
Definition snapshot (m : metrics) : json :=
  of_object [("missing_key", of_int (missingKey_ m)); ("invalid_key", of_int (invalidKey_ m));
    ("scope_denied", of_int (scopeDenied_ m)); ("not_configured", of_int (notConfigured_ m))].

(** A text body is a JSON string here. *)
Definition authMetrics (m : metrics) (req : http_request) : handled :=
  if hr_options req then Replies 200 None else Replies 200 (Some (snapshot m)).

Definition authMetricsProm (m : metrics) (req : http_request) : handled :=
  if hr_options req then Replies 200 None else Replies 200 (Some (of_string (toPrometheus m))).

Context (sha256 : string -> string) (memcmp : string -> string -> bool).
(** The services of the plugin; the calls served by [services]; the notification
    endpoints; the counters; the date of the clock. *)
Context (paymentService refundService : bool) (services : service_call -> prog svc).
Context (wechatNotify alipayNotify : http_request -> prog svc) (counters : metrics) (today : string).
(** The custom configuration and the environment of the API keys. *)
Context (config : json) (payApiKey payApiKeys : option string) (basePath : string).

Definition dispatched (h : handled) : prog svc :=
  match h with
  | Replies status body => do _ <- Answer (default jnull body) status; Done
  | Calls call => respondWith answerStatus (services call)
  | Throws => Escape
  end.

(** What a request means to a handler. *)
Definition handler (ep : endpoint) (req : http_request) : prog svc :=
  match ep with
  | EpCreatePayment => dispatched (PayController.createPayment sha256 paymentService req)
  | EpCreateQRPayment => dispatched (PayController.createQRPayment paymentService req)
  | EpQueryOrder => dispatched (PayController.queryOrder paymentService req)
  | EpRefund => dispatched (PayController.refund sha256 refundService req)
  | EpQueryRefund => dispatched (PayController.queryRefund refundService req)
  | EpQueryOrderList => dispatched (PayController.queryOrderList paymentService req)
  | EpReconcileSummary => dispatched (PayController.reconcileSummary paymentService today req)
  | EpAuthMetrics => dispatched (authMetrics counters req)
  | EpAuthMetricsProm => dispatched (authMetricsProm counters req)
  | EpWechatNotify => wechatNotify req
  | EpAlipayNotify => alipayNotify req
  end.

(** The precheck of [authed]. *)
Definition authorised (auth : request) (inner : prog svc) : prog svc :=
  match checkAuth memcmp config payApiKey payApiKeys auth basePath with
  | None => Escape
  | Some Allowed => inner
  | Some (Denied status body _) => do _ <- Answer (of_string body) status; Done
  end.

(** A registered handler. *)
Definition serveRoute (rt : route) (auth : request) (req : http_request) : prog svc :=
  let inner := handler (rt_endpoint rt) req in
  guarded true false (if rt_authed rt then authorised auth inner else inner).
End Routes.

(** ** What a service guarantees behind a route *)

Lemma guaranteed_mono {I} (G G' : list (event I) -> event I -> Prop) h :
  (forall h ev, G h ev -> G' h ev) -> guaranteed G h -> guaranteed G' h.
Proof. intros HG. induction h as [|ev h IH]; [done|]. intros [H1 H2]. split; auto. Qed.

Section Behind.
Context `{J : JsonLib}.
Abbreviation trace := (list (event svc)).
Abbreviation any_answer := (fun (_ : trace) (_ : event svc) => True).

(** The same operations were performed before. *)
Definition transferred (Guar : trace -> event svc -> Prop) (h : trace) (ev : event svc) : Prop :=
  is_response ev = false -> exists h0, effects h = effects h0 /\ Guar h0 ev.

Lemma respondWith_effects Guar Fin status p h h0 :
  safe any_answer Guar Fin p h0 -> effects h = effects h0 ->
  safe any_answer (transferred Guar) (fun _ _ => True) (respondWith status p) h.
Proof.
  revert h h0. induction p as [| |R e k IH]; intros h h0 Hp Heq; [done..|].
  assert (Hext : forall r, effects (Event e r :: h) = effects (Event e r :: h0)) by (intros r; by rewrite !effects_cons, Heq).
  assert (Hgo : forall r, transferred Guar h (Event e r) /\
    safe any_answer (transferred Guar) (fun _ _ => True) (respondWith status (k r)) (Event e r :: h)).
  { intros r. destruct (Hp r Logic.I) as [Hg Hs]. split; [intros _; by exists h0|]. by apply IH with (Event e r :: h0). }
  destruct e as [R e| | | |result error|]; try (intros r _; apply Hgo).
  intros u _. split; [done|]. apply IH with (Event (Answer result error) u :: h0); [by apply Hp|].
  rewrite !effects_cons. simpl. done.
Qed.

Lemma transferred_twice Guar h ev : transferred (transferred Guar) h ev -> transferred Guar h ev.
Proof.
  intros H Hr. destruct (H Hr) as (h1 & E1 & H1). destruct (H1 Hr) as (h0 & E0 & H0). exists h0. split; [congruence|done].
Qed.

(** A guarded route over a service that keeps a guarantee. *)
Lemma guarded_service Guar Fin status p o h :
  safe any_answer Guar Fin p [] -> runs (logs any_answer) (guarded true false (respondWith status p)) [] o h ->
  guaranteed (transferred Guar) h.
Proof.
  intros Hp Hr. pose proof (respondWith_effects Guar Fin status p [] [] Hp eq_refl) as Hs.
  pose proof (guarded_effects any_answer (transferred Guar) (fun _ _ => True) true false _ [] []
    ltac:(done) ltac:(done) Hs eq_refl) as Hg.
  destruct (safe_sound _ _ _ _ _ _ Hg Hr) as [H _]. revert H. apply guaranteed_mono, transferred_twice.
Qed.

(** ** Authorisation *)

Context (sha256 : string -> string) (memcmp : string -> string -> bool).
Context (paymentService refundService : bool) (services : service_call -> prog svc).
Context (wechatNotify alipayNotify : http_request -> prog svc) (counters : metrics) (today : string).
Context (config : json) (payApiKey payApiKeys : option string) (basePath : string).

Abbreviation route_program rt auth req :=
  (serveRoute sha256 memcmp paymentService refundService services wechatNotify alipayNotify counters today
     config payApiKey payApiKeys basePath rt auth req).

Abbreviation verdict_on auth := (checkAuth memcmp config payApiKey payApiKeys auth basePath).

Lemma denied_silent auth inner :
  verdict_on auth <> Some Allowed ->
  safe any_answer (fun _ ev => is_response ev = true) (fun _ _ => True)
    (guarded true false (authorised memcmp config payApiKey payApiKeys basePath auth inner)) [].
Proof.
  intros Hv. unfold authorised. destruct (verdict_on auth) as [[|status body counted]|]; [done| |]; simpl; by intros [].
Qed.

Lemma all_responses h : guaranteed (fun _ ev => is_response ev = true) h -> effects h = [].
Proof. induction h as [|ev h IH]; [done|]. intros [Hr Hh]. rewrite effects_cons, Hr. by apply IH. Qed.

(** One transferred call at most. *)
Lemma calls_effects (h : trace) : calls_of h = calls_of (effects h).
Proof.
  induction h as [|[R e r] h IH]; [done|]. rewrite effects_cons.
  destruct e as [R e| | | | |]; simpl; rewrite ?IH; try done. by destruct e.
Qed.

Definition asks_first (Guar : trace -> event svc -> Prop) : Prop :=
  forall h channel op a, Guar h (Event (Call channel op) a) -> calls_of h = [].

Lemma transferred_calls Guar (h : trace) :
  asks_first Guar -> guaranteed (transferred Guar) h -> (List.length (calls_of h) <= 1)%nat.
Proof.
  intros Hc. induction h as [|[R e r] h IH]; simpl; [lia|]. intros [Hg Hh]. specialize (IH Hh). destruct e; try done.
  destruct (Hg eq_refl) as (h0 & E & Hg0). simpl. by rewrite calls_effects, E, <- calls_effects, (Hc _ _ _ _ Hg0).
Qed.

(** A channel is reached through an authorised route once, by the service the handler
    called and as the guarantee of the service says. *)
Lemma route_asks rt hd Guar Fin auth req o h :
  rt_authed rt = true ->
  handler sha256 paymentService refundService services wechatNotify alipayNotify counters today (rt_endpoint rt) req
    = dispatched services hd ->
  (forall call, hd = Calls call -> asks_first (Guar call) /\ safe any_answer (Guar call) (Fin call) (services call) []) ->
  runs (logs any_answer) (route_program rt auth req) [] o h ->
  (responses h <= 1)%nat /\ (List.length (calls_of h) <= 1)%nat /\
  forall h1 channel op a h2, h = (h1 ++ Event (Call channel op) a :: h2)%list ->
    verdict_on auth = Some Allowed /\
    exists call h0, hd = Calls call /\ effects h2 = effects h0 /\ Guar call h0 (Event (Call channel op) a).
Proof.
  intros Hauthed Hhd Hcall Hr. pose proof (guarded_once _ _ _ _ Hr) as [H1 _]. split; [done|].
  assert (Hnone : guaranteed (fun _ ev => is_response ev = true) h -> (List.length (calls_of h) <= 1)%nat /\
    forall h1 channel op a h2, h = (h1 ++ Event (Call channel op) a :: h2)%list -> verdict_on auth = Some Allowed /\
      exists call h0, hd = Calls call /\ effects h2 = effects h0 /\ Guar call h0 (Event (Call channel op) a)).
  { intros Hg. apply all_responses in Hg as E. split; [rewrite calls_effects, E; simpl; lia |].
    intros h1 channel op a h2 ->. unfold effects in E. rewrite List.filter_app in E. simpl in E.
    by apply app_eq_nil in E as [_ E]. }
  unfold serveRoute in Hr. rewrite Hauthed, Hhd in Hr.
  destruct (decide (verdict_on auth = Some Allowed)) as [Hv|Hv].
  2: { apply Hnone. by destruct (safe_sound _ _ _ _ _ _ (denied_silent auth _ Hv) Hr). }
  unfold authorised in Hr. rewrite Hv in Hr. destruct hd as [status body|call|].
  2: { destruct (Hcall call eq_refl) as [Hfirst Hsafe]. simpl in Hr.
       pose proof (guarded_service _ _ _ _ _ _ Hsafe Hr) as Hg. split; [by eapply transferred_calls|].
       intros h1 channel op a h2 ->. split; [done|]. apply guaranteed_at in Hg.
       destruct (Hg eq_refl) as (h0 & E & Hg0). by exists call, h0. }
  all: apply Hnone; refine (proj1 (safe_sound _ (fun _ ev => is_response ev = true) (fun _ _ => True) _ _ _ _ Hr)).
  all: simpl; by intros [].
Qed.

(** C5. Every registered route answers at most once and lets no exception out of its
    frame; and on every route but those of the channels' notifications nothing but a
    response happens - no service, database or channel is reached - unless the API key
    check allows the request. *)
Theorem routes_authorised rt auth req o h :
  In rt (routes basePath) -> runs (logs any_answer) (route_program rt auth req) [] o h ->
  (responses h <= 1)%nat /\ (o = Escaped -> waited h) /\
  (rt_endpoint rt <> EpWechatNotify -> rt_endpoint rt <> EpAlipayNotify ->
   verdict_on auth <> Some Allowed -> effects h = []).
Proof.
  intros Hin Hr. pose proof (guarded_once _ _ _ _ Hr) as [H1 H2]. split; [done|]. split; [done|].
  intros Hw Ha Hv. unfold serveRoute in Hr.
  assert (Hauthed : rt_authed rt = true).
  { simpl in Hin. by repeat (destruct Hin as [<-|Hin]; [done|]). }
  rewrite Hauthed in Hr. destruct (safe_sound _ _ _ _ _ _ (denied_silent auth _ Hv) Hr) as [Hg _].
  by apply all_responses.
Qed.
End Behind.
