(* ===== verification/ApiRoutes.v ===== *)
(** * The routes that ask a channel for something, from end to end: authorisation
    (Gateway.v), handler (PayHandlers.v), service (PaymentCreate.v, QrPayment.v,
    RefundService.v). *)
From S2P Require Import Prelude Cxx Json Effects Store Amount RefDb RefDbFacts Auth Service RefundService PaymentService PaymentCreate QrPayment PayHandlers.
From S2P Require Import Gateway RefundGuard CreateGuard QrGuard Scenario.
Import PayController.

(** ** What the handlers call their services for *)

Section Calls.
Context `{J : JsonLib} {JL : JsonLaws J} (sha256 : string -> string).

(** The body names this order and an amount of the accepted shape. *)
Definition names (j : json) (orderNo amount : string) : Prop :=
  text_of j "order_no" = Some orderNo /\ text_of j "amount" = Some amount /\ validateAmount amount = true.

Lemma body_calls required missing fields req next call :
  withJson req (fun j => checkedBody required missing fields j (next j)) = Calls call ->
  exists j amountStr, hr_json req = Some j /\ text_of j "amount" = Some amountStr /\
    validateAmount amountStr = true /\ next j amountStr = Some (Calls call).
Proof.
  unfold withJson, checkedBody, respondBadRequest, amountRefused, catching. destruct (hr_options req); [done |].
  destruct (hr_json req) as [j|]; [|done]. destruct (lacksAny _ _) as [[]|]; try done.
  destruct (validateBodyTypes _ _) as [e|]; [|done]. cbn. destruct (is_empty e); [|done]. cbn.
  destruct (text_of j "amount") as [amountStr|] eqn:Ha; [|done]. cbn.
  destruct (validateAmount amountStr) eqn:Hv; [|done]. cbn. intros H. exists j, amountStr. repeat split; try done.
  destruct (next j amountStr); [by cbn in H; subst | done].
Qed.

Lemma payment_calls req call :
  createPayment sha256 true req = Calls call ->
  exists j request, call = CreatePayment request (paymentKey sha256 req request) /\ hr_json req = Some j /\
    names j (cr_orderNo request) (cr_amount request) /\ 0 < cr_userId request.
Proof.
  intros H. apply body_calls in H as (j & a & Hj & Ha & Hv & H). cbn in H.
  apply bind_Some in H as (r & Hr & H). destruct (Z.leb_spec (cr_userId r) 0); [done |]. injection H as <-.
  unfold readPayment in Hr. apply bind_Some in Hr as (o & Ho & Hr). do 7 apply bind_Some in Hr as (? & _ & Hr).
  injection Hr as <-. by eexists j, _.
Qed.

Lemma refund_calls req call :
  refund sha256 true req = Calls call ->
  exists j request, call = CreateRefund request (refundKey sha256 req request) /\ hr_json req = Some j /\
    names j (rq_orderNo request) (rq_amount request).
Proof.
  intros H. apply body_calls in H as (j & a & Hj & Ha & Hv & H). cbn in H.
  apply bind_Some in H as (r & Hr & H). injection H as <-. unfold readRefund in Hr.
  apply bind_Some in Hr as (o & Ho & Hr). do 5 apply bind_Some in Hr as (? & _ & Hr). injection Hr as <-.
  by eexists j, _.
Qed.

(** The members of the rebuilt request. *)
Definition has (q : json) (key : string) (v : json) : Prop := jfind q key = Some (Some v).

Lemma has_set q key v q' : jset q key v = Some q' -> has q' key v.
Proof. intros H. unfold has. rewrite (jfind_jset _ _ _ _ H), String.eqb_refl. done. Qed.

Lemma has_kept q key v q' key' v' : jset q key v = Some q' -> has q key' v' -> String.eqb key key' = false -> has q' key' v'.
Proof. intros H Hh He. unfold has. by rewrite (jfind_jset _ _ _ _ H), He. Qed.

Lemma handOver_kept j keys q q' key v :
  handOver j keys q = Some q' -> forallb (fun k => negb (String.eqb k key)) keys = true -> has q key v -> has q' key v.
Proof.
  revert q. induction keys as [|k keys IH]; intros q; simpl; [by intros [= ->] |].
  intros H [Hk Hks]%andb_true_iff Hh. apply negb_true_iff in Hk. apply bind_Some in H as ([] & _ & H); [|by eapply IH].
  apply bind_Some in H as (value & _ & H). apply bind_Some in H as (q1 & Hq1 & H).
  eapply IH; [exact H | done |]. by eapply has_kept.
Qed.

Lemma qrRequest_has req j amountStr userId q :
  qrRequest req j amountStr userId = Some q ->
  exists orderNo, text_of j "order_no" = Some orderNo /\ has q "order_no" (of_string orderNo) /\
    has q "amount" (of_string amountStr) /\ has q "user_id" (of_int userId).
Proof.
  unfold qrRequest. intros H. apply bind_Some in H as (orderNo & Ho & H). exists orderNo. split; [done |].
  apply bind_Some in H as (q1 & E1 & H). apply bind_Some in H as (q2 & E2 & H). apply bind_Some in H as (ch & _ & H).
  apply bind_Some in H as (q3 & E3 & H). apply bind_Some in H as (q4 & E4 & H). apply bind_Some in H as (d & _ & H).
  apply bind_Some in H as (q5 & E5 & H). apply bind_Some in H as (sb & _ & H). apply bind_Some in H as (q6 & E6 & H).
  apply bind_Some in H as (q7 & E7 & H). apply bind_Some in H as (key & _ & H).
  assert (Hkeep : forall k v, has q6 k v -> forallb (fun k' => negb (String.eqb k' k)) handedOver = true -> has q k v).
  { intros k v Hh Hk. pose proof (handOver_kept _ _ _ _ _ _ E7 Hk Hh) as Hq.
    destruct (is_empty key && negb _); [|by injection H as <-]. eapply has_kept; [exact H | exact Hq |].
    destruct (String.eqb_spec "idempotency_key" k) as [<-|]; [by vm_compute in Hk | done]. }
  repeat split; apply Hkeep; try reflexivity;
    repeat first [eapply has_set; eassumption | eapply has_kept; [eassumption | | reflexivity]].
Qed.

Lemma has_text q key s : has q key (of_string s) -> get_string q key = Some s.
Proof. intros H. unfold get_string, get. rewrite H. apply asString_of_string. Qed.

(** What the QR service reads is what the body named. *)
Lemma qr_calls req call :
  createQRPayment true req = Calls call ->
  exists j request, call = CreateQRPayment request /\ hr_json req = Some j /\
    forall q, qr_of request = Some q -> names j (q_orderNo q) (q_amount q) /\ int64_of j "user_id" = Some (q_userId q) /\
      0 < q_userId q.
Proof.
  intros H. apply body_calls in H as (j & a & Hj & Ha & Hv & H). cbn in H. apply bind_Some in H as (u & Hu & H).
  destruct (Z.leb_spec u 0); [done |]. apply bind_Some in H as (request & Hq & H). injection H as <-.
  exists j, request. do 2 (split; [done |]). intros q Hqr.
  destruct (qrRequest_has _ _ _ _ _ Hq) as (orderNo & Ho & Ho' & Ha' & Hu').
  unfold qr_of in Hqr. rewrite (has_text _ _ _ Ho'), (has_text _ _ _ Ha') in Hqr. cbn in Hqr.
  do 3 apply bind_Some in Hqr as (? & _ & Hqr). apply bind_Some in Hqr as (v & Hv' & Hqr).
  destruct (is_empty orderNo || is_empty a || (v <=? 0)) eqn:E; [done |].
  apply orb_false_iff in E as [_ E%Z.leb_gt]. unfold Qr.readQrRequest in Hqr.
  do 4 apply bind_Some in Hqr as (? & _ & Hqr). injection Hqr as <-. cbn.
  unfold Qr.qrUserId, get in Hv'. rewrite Hu' in Hv'. cbn in Hv'. rewrite asInt64_of_int in Hv'.
  destruct (isInt64 _); injection Hv' as <-; [|lia]. by split.
Qed.
End Calls.

(** ** The routes *)

Section Route.
Context `{J : JsonLib} {JL : JsonLaws J} (sha256 : string -> string) (memcmp : string -> string -> bool).
Abbreviation trace := (list (event svc)).
Context (channels : list string) (redis : bool) (ttlSeconds : Z) (utc_offset : Z -> Z) (buyerIdEnv : option string).
Context (dbClient : bool) (others : service_call -> prog svc).
Context (wechatNotify alipayNotify : http_request -> prog svc) (counters : metrics) (today : string).
Context (config : json) (payApiKey payApiKeys : option string) (basePath : string).

(** The plugin's services; the two listings of PaymentService only read and are
    modelled apart (PaymentReports.v). *)
Definition plugin_services (call : service_call) : prog svc :=
  match call with
  | CreatePayment request key =>
      Creates.createPayment sha256 channels redis ttlSeconds utc_offset buyerIdEnv request key Creates.answerCaller
  | CreateQRPayment request =>
      Qr.createQRPayment sha256 channels redis ttlSeconds utc_offset dbClient request Creates.answerCaller
  | QueryOrder orderNo => Payments.queryOrder channels dbClient orderNo
  | CreateRefund request key =>
      Refunds.createRefund sha256 channels redis ttlSeconds request key Refunds.answerCaller
  | QueryRefund refundNo => Refunds.queryRefund channels refundNo
  | QueryOrderList _ _ _ _ | ReconcileSummary _ => others call
  end.

Abbreviation api_request rt auth req :=
  (serveRoute sha256 memcmp true true plugin_services wechatNotify alipayNotify counters today
     config payApiKey payApiKeys basePath rt auth req).

Abbreviation verdict_on auth := (checkAuth memcmp config payApiKey payApiKeys auth basePath).

(** Why a channel may be asked: what the request says, and what was booked before. *)
Inductive justified (req : http_request) (h : trace) : endpoint -> string -> channel_op -> Prop :=
| pays j request no fen :
    hr_json req = Some j -> names j (cr_orderNo request) (cr_amount request) -> 0 < cr_userId request ->
    create_committed utc_offset buyerIdEnv request no fen h ->
    justified req h EpCreatePayment (cr_channel request) (ChCreateQr (Creates.createPayload buyerIdEnv request fen))
| offers j q currency no booked payload :
    hr_json req = Some j -> names j (q_orderNo q) (q_amount q) ->
    int64_of j "user_id" = Some (q_userId q) -> 0 < q_userId q ->
    qr_booked utc_offset q currency no booked payload h ->
    justified req h EpCreateQRPayment (q_channel q) (ChCreateQr payload)
| refunds j request job channel op :
    hr_json req = Some j -> names j (rq_orderNo request) (rq_amount request) -> serves request job ->
    committed job channel h -> asks job channel op ->
    justified req h EpRefund channel op.

(** What each service guarantees. *)
Definition service_guarantee (call : service_call) : trace -> event svc -> Prop :=
  match call with
  | CreatePayment request key => create_guarantee sha256 channels utc_offset buyerIdEnv request key
  | CreateQRPayment request => request_guarantee sha256 channels utc_offset request
  | CreateRefund request key => refund_guarantee channels request
  | _ => fun _ _ => False
  end.

Definition service_end (call : service_call) : outcome -> trace -> Prop :=
  match call with CreateRefund _ _ => refund_end | _ => answered_once end.

Lemma service_asks_first call : asks_first (service_guarantee call).
Proof.
  intros h channel op a. destruct call; simpl; try done; [by intros [H _] | |].
  - by intros [(q & _ & H & _)|(r & c & [=] & _)].
  - by intros (j & _ & _ & _ & H).
Qed.

(** The money routes call one of the three services. *)
Lemma money_handler ep req :
  In ep [EpCreatePayment; EpCreateQRPayment; EpRefund] ->
  exists hd, handler sha256 true true plugin_services wechatNotify alipayNotify counters today ep req
    = dispatched plugin_services hd /\
    forall call, hd = Calls call ->
      safe any_answer (service_guarantee call) (service_end call) (plugin_services call) [] /\
      forall h channel op a, service_guarantee call h (Event (Call channel op) a) -> justified req h ep channel op.
Proof.
  intros Hin. simpl in Hin. destruct Hin as [<-|[<-|[<-|[]]]]; eexists; (split; [reflexivity |]); intros call Hc.
  - apply payment_calls in Hc as (j & request & -> & Hj & Hn & Hu).
    split; [exact (createPayment_takes _ _ _ _ _ _ _ _ _ (answer_takes _ _ _ _ _ _)) |].
    intros h channel op a (_ & no & fen & Hb & -> & ->). by eapply pays.
  - apply qr_calls in Hc as (j & request & -> & Hj & Hn). split; [apply createQRPayment_ok |].
    intros h channel op a [(q & Hq & _ & _ & -> & cur & no & booked & payload & Hb & ->)|(r & c & [=] & _)].
    destruct (Hn q Hq) as (Hnames & Hu & Hpos). by eapply offers.
  - apply refund_calls in Hc as (j & request & -> & Hj & Hn). split; [by apply createRefund_ok |].
    intros h channel op a (job & Hs & Hcom & Ha & _). by eapply refunds.
Qed.

(** C4. The routes that ask a channel for a payment, a QR code or a refund, from end
    to end, whatever the database and the channels answer: at most one response is
    sent; a channel is asked at most once, and only for a request whose API key the
    policy allows and whose body names that order, an amount of the accepted shape and
    an owner; the call is for what was booked right before - the committed order and
    attempt, the attempt on an unpaid order of the same charge, or the committed
    refund that found room. *)
Theorem api_routes_sound rt auth req o h :
  In rt (routes basePath) -> In (rt_endpoint rt) [EpCreatePayment; EpCreateQRPayment; EpRefund] ->
  runs (logs any_answer) (api_request rt auth req) [] o h ->
  (responses h <= 1)%nat /\ (List.length (calls_of h) <= 1)%nat /\
  forall h1 channel op a h2, h = (h1 ++ Event (Call channel op) a :: h2)%list ->
    verdict_on auth = Some Allowed /\
    exists h0, effects h2 = effects h0 /\ justified req h0 (rt_endpoint rt) channel op.
Proof.
  intros Hin Hep Hr. assert (Hauthed : rt_authed rt = true).
  { simpl in Hin. by repeat (destruct Hin as [<-|Hin]; [simpl in Hep; intuition congruence |]). }
  destruct (money_handler (rt_endpoint rt) req Hep) as (hd & Hhd & Hcall).
  destruct (route_asks _ _ _ _ _ _ _ _ _ _ _ _ _ rt hd service_guarantee service_end auth req o h Hauthed Hhd
    ltac:(intros call Hc; split; [apply service_asks_first | by apply Hcall]) Hr) as (H1 & H2 & H3).
  do 2 (split; [done |]). intros h1 channel op a h2 E. destruct (H3 _ _ _ _ _ E) as (Hv & call & h0 & Hc & Heff & Hg).
  split; [done |]. exists h0. split; [done |]. destruct (Hcall call Hc) as [_ Hj]. by eapply Hj.
Qed.
End Route.

(** ** Witnesses: the refund, creation and QR routes of a shop with one key *)

Definition shop_keys : Tree.tree :=
  Tree.TObject [("pay", Tree.TObject [("api_keys", Tree.TArray [Tree.TString "k1"])])].

Definition refund_body : Tree.tree :=
  Tree.TObject [("order_no", Tree.TString "O1"); ("amount", Tree.TString "8.00"); ("payment_no", Tree.TString "P1");
    ("refund_no", Tree.TString "R1")].

Definition payment_body : Tree.tree :=
  Tree.TObject [("order_no", Tree.TString "ORD001"); ("amount", Tree.TString "12.50"); ("user_id", Tree.TInt 42);
    ("channel", Tree.TString "wechat"); ("description", Tree.TString "a book")].

Definition post_of (body : Tree.tree) : @http_request lib0 :=
  @HttpRequest lib0 false (Some body) (fun _ => "") (fun _ => "") None.

(** The routes, by their place in [routes]. *)
Definition route_at (n : nat) : route := nth n (routes "/api/pay") (Route "" true EpQueryOrder []).

(** A route as program, for an API key and a body. *)
Definition post (n : nat) (apiKey : string) (body : Tree.tree) : prog (@svc lib0) :=
  @serveRoute lib0 shop_md5 String.eqb true true
    (@plugin_services lib0 shop_md5 ["wechat"] false 60 (fun _ => 28800) None true (fun _ => Done))
    (fun _ => Done) (fun _ => Done) (Metrics 0 0 0 0) "2024-01-01" shop_keys None None "/api/pay" (route_at n)
    (Request false apiKey "" (rt_path (route_at n))) (post_of body).

Definition posted (n : nat) (apiKey : string) (body : Tree.tree) (d : @deployment lib0) :
    outcome * (list (event (@svc lib0)) * @deployment lib0) :=
  run (recording (@handle_svc lib0 shop_sum shop_time)) (post n apiKey body) ([], d).

(** The statuses of the responses, the calls made to channels, the rows of orders and
    refunds. *)
Definition posted_result n apiKey body d : list Z * nat * list string * list string :=
  let s := snd (snd (posted n apiKey body d)) in
  (map snd (dp_answers s), List.length (dp_calls s), map o_status (d_orders (outlook (dp_world s))),
   map r_status (d_refunds (outlook (dp_world s)))).

Lemma posted_runs n apiKey body d :
  runs (logs any_answer) (post n apiKey body) [] (fst (posted n apiKey body d)) (fst (snd (posted n apiKey body d))).
Proof. exact (recorded_runs _ _ _ _ _ (every_answer _)). Qed.

Example creation_is_offered :
  posted_result 0 "k1" payment_body (empty_shop [qr_accepted] []) = ([200], 1%nat, ["PAYING"], []).
Proof. by vm_compute. Qed.

Example qr_is_offered :
  posted_result 1 "k1" payment_body (empty_shop [qr_accepted] []) = ([200], 1%nat, ["PAYING"], []).
Proof. by vm_compute. Qed.

Lemma api_routes_sound_witness :
  posted_result 3 "k1" refund_body (deployed []) = ([200], 1%nat, ["PAID"], ["REFUND_SUCCESS"]) /\
  (responses (fst (snd (posted 3 "k1" refund_body (deployed [])))) <= 1)%nat /\
  (List.length (calls_of (fst (snd (posted 3 "k1" refund_body (deployed []))))) <= 1)%nat.
Proof.
  split; [by vm_compute |].
  destruct (@api_routes_sound lib0 _ shop_md5 String.eqb ["wechat"] false 60 (fun _ => 28800) None true (fun _ => Done)
    (fun _ => Done) (fun _ => Done) (Metrics 0 0 0 0) "2024-01-01" shop_keys None None "/api/pay" (route_at 3)
    (Request false "k1" "" (rt_path (route_at 3))) (post_of refund_body) _ _
    ltac:(simpl; tauto) ltac:(simpl; tauto) (posted_runs 3 "k1" refund_body (deployed [])))
    as (H1 & H2 & _). by split.
Defined.

(** A wrong key, on the same route. *)
Lemma routes_authorised_witness :
  posted_result 3 "k2" refund_body (deployed []) = ([401], 0%nat, ["PAID"], []) /\
  (responses (fst (snd (posted 3 "k2" refund_body (deployed [])))) <= 1)%nat /\
  effects (fst (snd (posted 3 "k2" refund_body (deployed [])))) = [].
Proof.
  split; [by vm_compute |].
  destruct (@routes_authorised lib0 shop_md5 String.eqb true true
    (@plugin_services lib0 shop_md5 ["wechat"] false 60 (fun _ => 28800) None true (fun _ => Done))
    (fun _ => Done) (fun _ => Done) (Metrics 0 0 0 0) "2024-01-01" shop_keys None None "/api/pay" (route_at 3)
    (Request false "k2" "" (rt_path (route_at 3))) (post_of refund_body) _ _
    ltac:(simpl; tauto) (posted_runs 3 "k2" refund_body (deployed [])))
    as (H1 & _ & H3).
  split; [exact H1 |]. by apply H3; [..| vm_compute].
Defined.
