(* ===== verification/Reconciliation.v ===== *)
(** * The reconciliation sweeps
    (src/libs/drogon-pay/src/services/ReconciliationService.cc).

    A sweep reads one page of open rows and asks the channel about each; the answers
    arrive in any order, each on its own.  What an answer starts is a list of programs,
    in the order in which the callback starts them. *)
From S2P Require Import Prelude Cxx Json Effects Store Service Queued RefundService PaymentService.
From S2P Require Import RefDb RefDbFacts PaymentSync RefundSync Scenario.
From stdpp Require Import sorting.
#[local] Open Scope Z_scope.

(** ** The service *)

Record reconciler := Reconciler {
  rc_timer : bool;             (* reconcileTimerId_ is set *)
  rc_intervalSeconds : Z;
  rc_batchSize : Z
}.

Module Reconcile.

(** The constructor. *)
Definition created : reconciler := Reconciler false 300 50.

(** The timer fires every [rc_intervalSeconds] from then on. *)
Definition startReconcileTimer (s : reconciler) : reconciler := Reconciler true (rc_intervalSeconds s) (rc_batchSize s).

Definition stopReconcileTimer (s : reconciler) : reconciler := Reconciler false (rc_intervalSeconds s) (rc_batchSize s).

Definition setReconcileOptions (intervalSeconds batchSize : Z) (s : reconciler) : reconciler :=
  Reconciler (rc_timer s)
    (if 0 <? intervalSeconds then intervalSeconds else rc_intervalSeconds s)
    (if 0 <? batchSize then batchSize else rc_batchSize s).

(** ** Pages *)

(** A row with its [updated_at]. *)
Abbreviation dated A := (Z * A)%type.

(** [ORDER BY updated_at DESC LIMIT batch] *)
Definition newer {A} (a b : dated A) : Prop := fst b <= fst a.
#[global] Instance newer_dec {A} (a b : dated A) : Decision (newer a b).
Proof. unfold newer. apply _. Defined.

Definition page {A} (batch : Z) (open : A -> bool) (rows : list (dated A)) : list (dated A) :=
  take (Z.to_nat batch) (merge_sort newer (List.filter (fun r => open (snd r)) rows)).

(** The criteria of the order sweeps; [cutoff] is five minutes ago. *)
Definition openOrder (channel : string) (cutoff : Z) (order : order_row) : bool :=
  (String.eqb (o_status order) "PAYING" || String.eqb (o_status order) "CREATED")
  && String.eqb (o_channel order) channel
  && (String.eqb (o_status order) "PAYING" || (o_created order <? cutoff)).

Definition cutoff (now : Z) : Z := now - 300 * 1000000.

Definition openRefund (refund : refund_row) : bool :=
  String.eqb (r_status refund) "REFUND_INIT" || String.eqb (r_status refund) "REFUNDING".

Section Sweeps.
Context `{J : JsonLib}.

(** The callbacks that only log. *)
Definition ignore (status : string) : act (celled svc) := Return.
Definition ignoreRefund (status : string) : act svc := Return.

(** *** What an answer starts *)

Definition closeChain (orderNo : string) : prog svc := do _ <- Call "wechat" (ChCloseOrder orderNo); Done.

(** [expireAt] is set and before [now]. *)
Definition expired (order : order_row) (now : Z) : bool :=
  match o_expire order with Some t => t <? now | None => false end.

(** The rest of the callback, unless the call of the sync itself threw; [None]: the
    accessor throws. *)
Definition afterSync (order : order_row) (now : Z) (tradeState : option string) (sync : prog svc) : list (prog svc) :=
  match sync with
  | Escape => [Escape]
  | _ =>
      match tradeState with
      | None => [sync; Escape]
      | Some s => if String.eqb s "NOTPAY" && expired order now then [sync; closeChain (o_no order)] else [sync]
      end
  end.

(** The answer of WeChat to the query of an order. *)
Definition onWechatAnswered (order : order_row) (now : Z) (result : json) (error : string) : list (prog svc) :=
  if negb (is_empty error) then []
  else
    afterSync order now (get_string result "trade_state")
      (Payments.syncOrderStatusFromWechat true (o_no order) result ignore).

Definition onAlipayAnswered (order : order_row) (result : json) (error : string) : list (prog svc) :=
  if negb (is_empty error) then []
  else [Payments.syncOrderStatusFromAlipay true (o_no order) result ignore].

Definition onRefundAnswered (refund : refund_row) (result : json) (error : string) : list (prog svc) :=
  if negb (is_empty error) then []
  else [Refunds.syncRefundStatusFromWechat true (r_no refund) result ignoreRefund].

(** *** The sweeps *)

Inductive sweep := WechatOrders | AlipayOrders | WechatRefunds.

(** What a channel is asked about the rows of a page. *)
Definition ask_orders (channel : string) (rows : list (dated order_row)) : list (string * channel_op) :=
  map (fun r => (channel, ChQueryPayment (o_no (snd r)))) rows.

Definition ask_refunds (rows : list (dated refund_row)) : list (string * channel_op) :=
  map (fun r => ("wechat", ChQueryRefund (r_no (snd r)))) rows.

(** The questions of the three sweeps on a table, the clock at [now]. *)
Definition syncPendingWeChatOrders (s : reconciler) (orders : list (dated order_row)) (now : Z) : list (string * channel_op) :=
  ask_orders "wechat" (page (rc_batchSize s) (openOrder "wechat" (cutoff now)) orders).

Definition syncPendingAlipayOrders (s : reconciler) (orders : list (dated order_row)) (now : Z) : list (string * channel_op) :=
  ask_orders "alipay" (page (rc_batchSize s) (openOrder "alipay" (cutoff now)) orders).

Definition syncPendingRefunds (s : reconciler) (refunds : list (dated refund_row)) : list (string * channel_op) :=
  ask_refunds (page (rc_batchSize s) openRefund refunds).

(** *** reconcile *)

(** Which sweeps are dispatched. *)
Definition dispatched (wechatConfigured alipayConfigured : bool) : list sweep :=
  (if wechatConfigured then [WechatOrders] else []) ++ (if alipayConfigured then [AlipayOrders] else [])
  ++ (if wechatConfigured then [WechatRefunds] else []).

(** [*failedCount] after one sweep; the Mapper of [w] throws if [faults w]. *)
Definition countFailure (dbClient : bool) (faults : sweep -> bool) (failed : Z) (w : sweep) : Z :=
  if negb dbClient then failed else if faults w then failed + 1 else failed.

(** The counts the callback gets. *)
Definition reconcile (wechatConfigured alipayConfigured dbClient : bool) (faults : sweep -> bool) : Z * Z :=
  let sweeps := dispatched wechatConfigured alipayConfigured in
  (Z.of_nat (List.length sweeps), fold_left (countFailure dbClient faults) sweeps 0).
End Sweeps.
End Reconcile.
Import Reconcile PaymentService.Payments.

(** ** Pages *)

Section Pages.
Context {A : Type}.
Implicit Types (rows : list (dated A)) (open : A -> bool).

#[local] Instance newer_total : Total (@newer A).
Proof. intros x y. unfold newer. lia. Qed.
#[local] Instance newer_trans : Transitive (@newer A).
Proof. intros x y z. unfold newer. lia. Qed.

Definition candidates open rows : list (dated A) := merge_sort newer (List.filter (fun r => open (snd r)) rows).

Lemma candidates_in open rows r : In r (candidates open rows) <-> In r rows /\ open (snd r) = true.
Proof.
  unfold candidates. rewrite <- list_elem_of_In, merge_sort_Permutation, list_elem_of_In. apply filter_In.
Qed.

Lemma page_subset batch open rows r : In r (page batch open rows) -> In r rows /\ open (snd r) = true.
Proof.
  intros H. apply candidates_in. rewrite <- (take_drop (Z.to_nat batch) (candidates open rows)). apply in_or_app. by left.
Qed.

Lemma page_length batch open rows : (List.length (page batch open rows) <= Z.to_nat batch)%nat.
Proof. unfold page. rewrite length_take. lia. Qed.

Lemma page_NoDup batch open rows : List.NoDup (map snd rows) -> List.NoDup (map snd (page batch open rows)).
Proof.
  intros Hnd. unfold page. rewrite <- firstn_map.
  assert (Hc : List.NoDup (map snd (merge_sort newer (List.filter (fun r : dated A => open (snd r)) rows)))).
  { eapply Permutation_NoDup; [apply Permutation_map; symmetry; apply merge_sort_Permutation|].
    induction rows as [|x rows IH]; simpl in *; [done|]. inversion_clear Hnd as [|? ? Hx Hnd'].
    destruct (open (snd x)); [|by apply IH]. simpl. constructor; [|by apply IH]. intros Hi. apply Hx.
    apply in_map_iff in Hi as (y & <- & Hy). apply filter_In in Hy as [Hy _]. by apply in_map. }
  rewrite <- (take_drop (Z.to_nat batch) (map snd _)) in Hc. by apply NoDup_app_remove_r in Hc.
Qed.

(** An open row is on the page, or the page is full of rows that are no older. *)
Lemma page_or_older batch open rows x :
  In x rows -> open (snd x) = true ->
  In x (page batch open rows) \/
  (List.length (page batch open rows) = Z.to_nat batch /\ forall r, In r (page batch open rows) -> fst x <= fst r).
Proof.
  intros Hin Ho. pose proof (conj Hin Ho) as Hs. rewrite <- candidates_in in Hs.
  change (page batch open rows) with (take (Z.to_nat batch) (candidates open rows)). set (n := Z.to_nat batch).
  rewrite <- (take_drop n (candidates open rows)) in Hs. apply in_app_iff in Hs as [Hs|Hs]; [by left | right]. split.
  - rewrite length_take. destruct (drop n (candidates open rows)) as [|y l] eqn:E; [done|].
    apply (f_equal List.length) in E. rewrite length_drop in E. simpl in E. lia.
  - intros r Hr. pose proof (StronglySorted_merge_sort newer (List.filter (fun r => open (snd r)) rows)) as Hss.
    fold (candidates open rows) in Hss. rewrite <- (take_drop n (candidates open rows)) in Hss.
    by apply (StronglySorted_app_1_elem_of _ _ _ r x Hss); apply list_elem_of_In.
Qed.

(** The trigger of the table: the rows that a sweep writes are dated [t]. *)
Definition touch (t : Z) (written : A -> bool) rows : list (dated A) :=
  map (fun r => if written (snd r) then (t, snd r) else r) rows.

(** C21. A sweep that writes every row it asked about starves the rest: an open row that
    was left out of its page is still there and still left out of the next page, as
    long as the rows that were asked about stay open. *)
Theorem left_out_starves batch open rows written t r :
  List.NoDup (map snd rows) -> (forall r', In r' rows -> fst r' < t) ->
  (forall r', In r' rows -> written (snd r') = true <-> In r' (page batch open rows)) ->
  In r rows -> open (snd r) = true -> ~ In r (page batch open rows) ->
  In r (touch t written rows) /\ ~ In r (page batch open (touch t written rows)).
Proof.
  intros Hnd Ht Hw Hin Ho Hn. destruct (page_or_older batch open rows r Hin Ho) as [|[Hlen _]]; [done|].
  assert (Hwr : written (snd r) = false) by (destruct (written (snd r)) eqn:E; [by apply Hw in E | done]).
  split; [apply in_map_iff; exists r; by rewrite Hwr|]. intros Hp.
  set (asked := map (fun r' => (t, snd r')) (page batch open rows)).
  assert (Hall : incl asked (page batch open (touch t written rows))).
  { intros x Hx. apply in_map_iff in Hx as (r' & <- & Hr'). pose proof (page_subset _ _ _ _ Hr') as [Hr'' Ho'].
    destruct (page_or_older batch open (touch t written rows) (t, snd r')) as [|[_ Hold]]; [|done..|].
    - apply in_map_iff. exists r'. split; [|done]. by apply Hw in Hr' as ->.
    - specialize (Hold r Hp). specialize (Ht r Hin). simpl in Hold. lia. }
  assert (Hdup : List.NoDup (r :: asked)).
  { constructor; [intros Hx; apply in_map_iff in Hx as (r' & E & _); specialize (Ht r Hin); rewrite <- E in Ht; simpl in Ht; lia|].
    apply (NoDup_map_inv snd). unfold asked. rewrite map_map. simpl. apply (page_NoDup batch open rows Hnd). }
  pose proof (NoDup_incl_length Hdup (incl_cons Hp Hall)) as Hle. unfold asked in Hle. simpl in Hle.
  rewrite length_map, Hlen in Hle. pose proof (page_length batch open (touch t written rows)). lia.
Qed.
End Pages.

(** ** Answers *)

Section Answers.
Context `{J : JsonLib}.
Abbreviation trace := (list (event svc)).

Lemma ignore_only st : only_answers (ignore st).
Proof. by left. Qed.

(** What a chain that the answer of WeChat starts may do. *)
Definition sweep_guarantee (order : order_row) (now : Z) (result : json) (h : trace) (ev : event svc) : Prop :=
  match ev with
  | Event e _ =>
      match e with
      | Call channel op =>
          h = [] /\ channel = "wechat" /\ op = ChCloseOrder (o_no order) /\
          get_string result "trade_state" = Some "NOTPAY" /\ exists t, o_expire order = Some t /\ t < now
      | Io (Step q) => exists y, says false (o_no order) result y /\
          sync_allowed y (wechat_booked (y_orderStatus y)) wechat_booked (final false y) h q
      | Answer _ _ => False
      | _ => True
      end
  end.

Lemma sync_chain_ok order now result :
  safe once_rely (sweep_guarantee order now result) anything
    (Payments.syncOrderStatusFromWechat true (o_no order) result ignore) [].
Proof.
  eapply (safe_mono once_rely (fun _ => True)); [done| |done|
    exact (sync_ok ignore ignore_only false true (o_no order) result [] (fun _ => eq_refl))].
  intros h [R e r] _. destruct e as [R e| | | |r' c|]; simpl; try done; [by destruct e|].
  intros [_ (st & Hst & _)]. discriminate Hst.
Qed.

Lemma close_chain_ok order now result :
  get_string result "trade_state" = Some "NOTPAY" -> expired order now = true ->
  safe once_rely (sweep_guarantee order now result) anything (closeChain (o_no order)) [].
Proof.
  unfold expired. intros Hs He. destruct (o_expire order) as [t|] eqn:Et; [|done]. apply Z.ltb_lt in He.
  intros a _. split; [|done]. do 4 (split; [done|]). by exists t.
Qed.

Lemma chains_of order now (tradeState : option string) (sync chain : prog svc) :
  In chain (afterSync order now tradeState sync) ->
  chain = sync \/ chain = Escape \/
  (chain = closeChain (o_no order) /\ tradeState = Some "NOTPAY" /\ expired order now = true).
Proof.
  unfold afterSync. destruct tradeState as [s|]; [|destruct sync; simpl; intuition].
  destruct (String.eqb_spec s "NOTPAY") as [->|]; [|destruct sync; simpl; intuition].
  destruct (expired order now); destruct sync; simpl; intuition.
Qed.

(** The answer of WeChat to an order. *)
Lemma wechat_answer_sound order now result error chain o h :
  In chain (onWechatAnswered order now result error) -> runs (logs once_rely) chain [] o h ->
  error = "" /\ answers_of h = [] /\
  (forall h1 channel op a h2, h = (h1 ++ Event (Call channel op) a :: h2)%list ->
     channel = "wechat" /\ op = ChCloseOrder (o_no order) /\
     get_string result "trade_state" = Some "NOTPAY" /\ exists t, o_expire order = Some t /\ t < now) /\
  (forall h1 R (q : stmt R) a h2, h = (h1 ++ stepped q a :: h2)%list ->
     exists y, says false (o_no order) result y /\
       sync_allowed y (wechat_booked (y_orderStatus y)) wechat_booked (final false y) h2 q).
Proof.
  unfold onWechatAnswered. intros Hin Hr. destruct (is_empty error) eqn:He; cbn [negb] in Hin; [|done].
  apply is_empty_true in He. split; [done|].
  assert (Hs : safe once_rely (sweep_guarantee order now result) anything chain []).
  { pose proof (sync_chain_ok order now result) as Hsync.
    set (sync := Payments.syncOrderStatusFromWechat true (o_no order) result ignore) in *.
    destruct (chains_of order now (get_string result "trade_state") sync chain Hin) as [->|[->|(-> & Ht & Hx)]];
      [done|done|by apply close_chain_ok]. }
  destruct (safe_sound _ _ _ _ _ _ Hs Hr) as [Hg _]. split; [|split].
  - clear Hr. induction h as [|[R e r] h IH]; [done|]. destruct Hg as [Hg Hh]. destruct e; try (by apply IH). done.
  - intros h1 channel op a h2 ->. apply guaranteed_at in Hg. by destruct Hg as [_ Hg].
  - intros h1 R q a h2 ->. by apply guaranteed_at in Hg.
Qed.

(** What the chain of another sweep may do: statements that [written] allows. *)
Definition quiet_guarantee (written : trace -> forall R, stmt R -> Prop) (h : trace) (ev : event svc) : Prop :=
  match ev with
  | Event e _ =>
      match e with
      | Io (Step q) => written h _ q
      | Call _ _ | Answer _ _ => False
      | _ => True
      end
  end.

Lemma quiet_chain written chain o h :
  safe once_rely (quiet_guarantee written) anything chain [] -> runs (logs once_rely) chain [] o h ->
  answers_of h = [] /\ calls_of h = [] /\
  forall h1 R (q : stmt R) a h2, h = (h1 ++ stepped q a :: h2)%list -> written h2 R q.
Proof.
  intros Hs Hr. destruct (safe_sound _ _ _ _ _ _ Hs Hr) as [Hg _].
  assert (Hq : answers_of h = [] /\ calls_of h = []).
  { clear Hr. induction h as [|[R e r] h IH]; [done|]. destruct Hg as [Hg Hh]. destruct e; try (by apply IH); done. }
  do 2 (split; [apply Hq|]). intros h1 R q a h2 ->. by apply guaranteed_at in Hg.
Qed.

Abbreviation written_by alipay orderNo result :=
  (fun h2 R (q : stmt R) => exists y, says alipay orderNo result y /\
     sync_allowed y (booked alipay (y_orderStatus y)) (booked alipay) (final alipay y) h2 q).

Lemma alipay_answer_ok order result error chain :
  In chain (onAlipayAnswered order result error) ->
  error = "" /\ safe once_rely (quiet_guarantee (written_by true (o_no order) result)) anything chain [].
Proof.
  unfold onAlipayAnswered. destruct (is_empty error) eqn:He; [|done]. apply is_empty_true in He. intros [<-|[]].
  split; [done|]. eapply (safe_mono once_rely (fun _ => True)); [done| |done|
    exact (sync_ok ignore ignore_only true true (o_no order) result [] (fun _ => eq_refl))].
  intros h [R e r] _. destruct e as [R e| | | |r' c|]; simpl; try done; [by destruct e|].
  intros [_ (st & Hst & _)]. discriminate Hst.
Qed.

Lemma refund_answer_ok refund result error chain :
  In chain (onRefundAnswered refund result error) ->
  error = "" /\ safe once_rely (quiet_guarantee (fun h2 R (q : stmt R) =>
    refund_sync_allowed (r_no refund) result (named_status result) (named_refund result) h2 q)) anything chain [].
Proof.
  unfold onRefundAnswered. destruct (is_empty error) eqn:He; [|done]. apply is_empty_true in He. intros [<-|[]].
  split; [done|]. eapply (safe_mono once_rely (fun _ => True)); [done| |done|
    exact (refund_sync_ok true (r_no refund) result ignoreRefund (fun _ => or_introl eq_refl))].
  intros h [R e r] _. destruct e as [R e| | | |r' c|]; simpl; try done; [by destruct e|].
  intros [_ (st & Hst & _)]. discriminate Hst.
Qed.

(** C20. What the sweeps do about the answer to a row, whatever the database answers:
    nothing for an error; else the row is synced by that answer, which proves every
    write - of the attempt, the order and the ledger, or of the refund, its order and
    the ledger - and nothing is answered to anyone.  Only WeChat orders are closed, and
    only if the answer says NOTPAY and the order's own deadline has passed. *)
Theorem sweep_answer_sound now result error chain o h :
  runs (logs once_rely) chain [] o h ->
  (forall order, In chain (onWechatAnswered order now result error) ->
     error = "" /\ answers_of h = [] /\
     (forall h1 channel op a h2, h = (h1 ++ Event (Call channel op) a :: h2)%list ->
        channel = "wechat" /\ op = ChCloseOrder (o_no order) /\
        get_string result "trade_state" = Some "NOTPAY" /\ exists t, o_expire order = Some t /\ t < now) /\
     (forall h1 R (q : stmt R) a h2, h = (h1 ++ stepped q a :: h2)%list -> written_by false (o_no order) result h2 R q)) /\
  (forall order, In chain (onAlipayAnswered order result error) ->
     error = "" /\ answers_of h = [] /\ calls_of h = [] /\
     (forall h1 R (q : stmt R) a h2, h = (h1 ++ stepped q a :: h2)%list -> written_by true (o_no order) result h2 R q)) /\
  (forall refund, In chain (onRefundAnswered refund result error) ->
     error = "" /\ answers_of h = [] /\ calls_of h = [] /\
     (forall h1 R (q : stmt R) a h2, h = (h1 ++ stepped q a :: h2)%list ->
        refund_sync_allowed (r_no refund) result (named_status result) (named_refund result) h2 q)).
Proof.
  intros Hr. split; [intros order Hin; by apply (wechat_answer_sound order now result error chain o h)|]. split.
  - intros order Hin. destruct (alipay_answer_ok _ _ _ _ Hin) as [He Hs]. split; [done|]. by apply (quiet_chain _ chain o h).
  - intros refund Hin. destruct (refund_answer_ok _ _ _ _ Hin) as [He Hs]. split; [done|]. by apply (quiet_chain _ chain o h).
Qed.

(** What reconcile reports: as many successes as sweeps were dispatched, at most
    three; the failures are the dispatched sweeps whose Mapper threw, none without a
    database. *)
Lemma reconcile_counts wechat alipay dbClient faults :
  let sweeps := dispatched wechat alipay in
  reconcile wechat alipay dbClient faults =
    (Z.of_nat (List.length sweeps),
     if dbClient then Z.of_nat (List.length (List.filter faults sweeps)) else 0) /\
  (List.length (List.filter faults sweeps) <= List.length sweeps <= 3)%nat.
Proof.
  unfold reconcile, dispatched, countFailure. destruct wechat, alipay, dbClient; simpl;
    repeat (destruct (faults _); simpl); split; done || lia.
Qed.

(** The options keep the timer's interval and the page size positive. *)
Definition options_positive (s : reconciler) : Prop := 0 < rc_intervalSeconds s /\ 0 < rc_batchSize s.

Lemma created_positive : options_positive created.
Proof. by split. Qed.

Lemma setReconcileOptions_positive interval batch s :
  options_positive s -> options_positive (setReconcileOptions interval batch s).
Proof.
  intros [Hi Hb]. unfold options_positive, setReconcileOptions. cbn [rc_intervalSeconds rc_batchSize].
  destruct (Z.ltb_spec 0 interval), (Z.ltb_spec 0 batch); by split.
Qed.
End Answers.

(** ** Witnesses *)

(** Three open orders, a page of two: the oldest is left out, and stays out. *)
Definition paying (id : Z) (no : string) : order_row := OrderRow id no 42 "12.50" "CNY" "PAYING" "wechat" "" 1 None.

Definition three_orders : list (dated order_row) := [(10, paying 1 "O1"); (30, paying 2 "O2"); (20, paying 3 "O3")].

Definition two_newest (order : order_row) : bool := negb (o_id order =? 1).

Lemma left_out_starves_witness :
  page 2 (openOrder "wechat" 100) three_orders = [(30, paying 2 "O2"); (20, paying 3 "O3")] /\
  ~ In (10, paying 1 "O1") (page 2 (openOrder "wechat" 100) (touch 40 two_newest three_orders)).
Proof.
  split; [by vm_compute |].
  apply (left_out_starves 2 (openOrder "wechat" 100) three_orders two_newest 40 (10, paying 1 "O1")).
  - unfold three_orders, paying. simpl. repeat (apply List.NoDup_cons; [simpl; intuition congruence|]). apply List.NoDup_nil.
  - simpl. intuition (subst; simpl; lia).
  - assert (E : page 2 (openOrder "wechat" 100) three_orders = [(30, paying 2 "O2"); (20, paying 3 "O3")]) by by vm_compute.
    rewrite E. unfold paying. intros r' [<-|[<-|[<-|[]]]]; vm_compute; naive_solver.
  - by left.
  - done.
  - assert (E : page 2 (openOrder "wechat" 100) three_orders = [(30, paying 2 "O2"); (20, paying 3 "O3")]) by by vm_compute.
    rewrite E. vm_compute. naive_solver.
Defined.

(** An unpaid order whose deadline was 50, asked about at 100. *)
Definition overdue : order_row := OrderRow 7 "O1" 42 "12.50" "CNY" "PAYING" "wechat" "" 1 (Some 50).

Definition not_paid : Tree.tree :=
  Tree.TObject [("trade_state", Tree.TString "NOTPAY"); ("transaction_id", Tree.TString "");
    ("amount", Tree.TObject [("total", Tree.TInt 1250)])].

Definition close_history : list (event (@svc lib0)) := [Event (Call "wechat" (@ChCloseOrder lib0 "O1")) (@ChannelThrew lib0)].

Lemma sweep_answer_sound_witness :
  nth_error (@onWechatAnswered lib0 overdue 100 not_paid "") 1 = Some (@closeChain lib0 "O1") /\
  @onWechatAnswered lib0 overdue 50 not_paid "" = [@Payments.syncOrderStatusFromWechat lib0 true "O1" not_paid ignore] /\
  @answers_of lib0 close_history = [].
Proof.
  split; [reflexivity |]. split; [reflexivity |].
  refine (proj1 (proj2 (proj1 (@sweep_answer_sound lib0 100 not_paid "" (@closeChain lib0 "O1") Effects.Returned close_history _) overdue _))).
  - eapply runs_vis; [by split | apply runs_done].
  - right. by left.
Defined.
