(* ===== verification/NotifyRoute.v ===== *)
(** * The WeChat notification route from end to end: barrier, endpoint,
    CallbackService. *)
From S2P Require Import Prelude Cxx Json Effects Store Callback Queued RefundCallback Auth Service PayHandlers Gateway.
From S2P Require Import RefDb Scenario PaymentAck RefundAck WechatNotify.

Section Route.
Context `{J : JsonLib} (md5 : string -> string).
Abbreviation trace := (list (event svc)).

(** ** Definitions *)

(** The program of CallbackService as one of the gateway's. *)
Fixpoint serviced (p : prog io) : prog svc :=
  match p with
  | Done => Done
  | Escape => Escape
  | Vis e k => Vis (Io e) (fun r => serviced (k r))
  end.

Context (service : bool) (wechat : option wechat_client) (redis : bool).

(** The handler of the route; [body] is the body of the request. *)
Definition wechatEndpoint (body : string) (req : http_request) : prog svc :=
  match notify md5 service wechat redis body (hr_header req "Wechatpay-Signature")
          (hr_header req "Wechatpay-Timestamp") (hr_header req "Wechatpay-Nonce") (hr_header req "Wechatpay-Serial") with
  | Refused status code message =>
      do _ <- Answer (of_object [("code", of_int code); ("message", of_string message)]) status; Done
  | Serve p => serviced p
  | Thrown => Escape
  end.

(** ** Database operations of a gateway history *)

Definition operation (ev : event svc) : option (event io) :=
  match ev with
  | Event e r =>
      match e in svc R return R -> option (event io) with
      | Io e => fun r => Some (Event e r)
      | _ => fun _ => None
      end r
  end.

Definition operations (h : trace) : list (event io) := omap operation h.

Definition lifted (ev : event io) : event svc := match ev with Event e r => Event (Io e) r end.

Lemma operations_lifted h : operations (map lifted h) = h.
Proof. induction h as [|[R e r] h IH]; [done|]. unfold operations. simpl. f_equal. exact IH. Qed.

(** Transactions behave as [txn_rely] says. *)
Definition lifted_rely (h : trace) (ev : event svc) : Prop :=
  match operation ev with Some q => txn_rely (operations h) q | None => True end.

(** The response of status 200. *)
Definition accepts (ev : event svc) : Prop :=
  match ev with
  | Event e _ =>
      match e with
      | Io (Respond r) => httpStatus r = 200
      | Answer _ status => status = 200
      | _ => False
      end
  end.

(** Given as [r], or not a database operation. *)
Definition carried (Guar : list (event io) -> event io -> Prop) (h : trace) (ev : event svc) : Prop :=
  exists q, ev = lifted q /\ Guar (operations h) q.

Lemma serviced_safe Guar Fin p h :
  safe txn_rely Guar Fin p h -> safe lifted_rely (carried Guar) (fun _ _ => True) (serviced p) (map lifted h).
Proof.
  revert h. induction p as [| |R e k IH]; intros h Hp; [done..|]. intros r Hr.
  unfold lifted_rely in Hr. simpl in Hr. rewrite operations_lifted in Hr. destruct (Hp r Hr) as [Hg Hs]. split.
  - exists (Event e r). split; [done|]. by rewrite operations_lifted.
  - exact (IH r (Event e r :: h) Hs).
Qed.

Abbreviation header req name := (hr_header req name).
Abbreviation accounted_for body req r h :=
  (accounted wechat redis body (header req "Wechatpay-Signature") (header req "Wechatpay-Timestamp")
     (header req "Wechatpay-Nonce") (header req "Wechatpay-Serial") r (operations h)).

Definition route_guarantee (body : string) (req : http_request) (h : trace) (ev : event svc) : Prop :=
  accepts ev -> exists r, ev = Event (Io (Respond r)) tt /\ accounted_for body req r h.

Lemma endpoint_ok body req :
  (forall wc cipher iv associated, wechat = Some wc -> wc_decrypt wc cipher iv associated <> inl "") ->
  safe lifted_rely (route_guarantee body req) (fun _ _ => True) (wechatEndpoint body req) [].
Proof.
  intros Hd. unfold wechatEndpoint. destruct (notify _ _ _ _ _ _ _ _ _) as [status code m|p|] eqn:En; [| |done].
  - intros u _. split; [|done]. intros Ha. by apply notify_refused in En.
  - pose proof (serviced_safe _ _ _ [] (served_ok _ _ _ _ _ _ _ _ _ _ Hd En)) as Hs.
    eapply (safe_mono _ (fun _ => True)); [done| |done|exact Hs].
    intros h ev _ (q & -> & Hq) Ha. destruct q as [R e r]. destruct e as [ | | | | | | | | | |rp]; try done.
    destruct r. exists rp. split; [done|]. by apply Hq.
Qed.

(** ** The route *)

(** C1. Whatever is posted to the notification URL of WeChat and whatever the database
    answers: at most one response is sent and no exception leaves the frame of the
    handler; and a response of status 200, after which WeChat does not deliver again, is
    the SUCCESS of a genuine payment or refund notification whose settlement is durable
    or known to have happened before, provided the client names a reason whenever it
    cannot decrypt. *)
Theorem notify_route_sound body req o h :
  (forall wc cipher iv associated, wechat = Some wc -> wc_decrypt wc cipher iv associated <> inl "") ->
  runs (logs lifted_rely) (guarded true false (wechatEndpoint body req)) [] o h ->
  (responses h <= 1)%nat /\ (o = Escaped -> waited h) /\
  forall h1 ev h2, h = (h1 ++ ev :: h2)%list -> accepts ev ->
    exists r, ev = Event (Io (Respond r)) tt /\ accounted_for body req r h2.
Proof.
  intros Hd Hr. pose proof (guarded_once _ _ _ _ Hr) as [H1 H2]. do 2 (split; [done|]).
  intros h1 ev h2 -> Ha.
  pose proof (guarded_first _ _ _ true _ [] eq_refl (endpoint_ok body req Hd)) as Hs.
  destruct (safe_sound _ _ _ _ _ _ Hs Hr) as [Hg _]. apply guaranteed_at in Hg.
  assert (Hresp : is_response ev = true) by (destruct ev as [R e r]; destruct e as [R e| | | | |]; try done; by destruct e).
  destruct (Hg Hresp) as [Hx| ->]; [by apply Hx | done].
Qed.
End Route.

(** ** Witness *)

Definition wechat_headers (name : string) : string :=
  if String.eqb name "Wechatpay-Signature" then "sig" else if String.eqb name "Wechatpay-Timestamp" then "1704067200"
  else if String.eqb name "Wechatpay-Nonce" then "nonce-1" else if String.eqb name "Wechatpay-Serial" then "serial" else "".

(** A notification posted to the route of a shop whose documents are [ds]. *)
Definition post_notice (ds : list (string * Tree.tree)) : prog (@svc (Tree.lib ds)) :=
  @guarded _ (@svc_guardable (Tree.lib ds)) true false
    (@wechatEndpoint (Tree.lib ds) shop_md5 true (Some shop_client) true "BODY"
       (@HttpRequest (Tree.lib ds) false None wechat_headers (fun _ => "") None)).

Definition noticed (ds : list (string * Tree.tree)) (w : world) :
    outcome * (list (event (@svc (Tree.lib ds))) * @deployment (Tree.lib ds)) :=
  run (recording (@handle_svc (Tree.lib ds) shop_sum shop_time)) (post_notice ds)
    ([], @Deployment (Tree.lib ds) w [] [] [] false).

Lemma noticed_runs ds w :
  guaranteed lifted_rely (fst (snd (noticed ds w))) ->
  runs (logs lifted_rely) (post_notice ds) [] (fst (noticed ds w)) (fst (snd (noticed ds w))).
Proof. apply recorded_runs. Qed.

Lemma newest_event {A} (h : list A) ev : hd_error h = Some ev -> h = ([] ++ ev :: tl h)%list.
Proof. destruct h; [done|]. by intros [= ->]. Qed.

(** The failing ledger entry of [refund_failure_answers_twice]: behind the route the
    second failure is not sent. *)
Example second_failure_is_dropped :
  let '(o, (h, s)) := noticed (refund_docs "SUCCESS" 1250) (paid_shop [false; false; false; false; false; false; true]) in
  (o, map rp_code (w_replies (dp_world s)), responses h) = (Effects.Returned, ["FAIL"], 1%nat).
Proof. by vm_compute. Qed.

Abbreviation paid_docs := (docs "SUCCESS" 1250).
Abbreviation paid_history := (fst (snd (noticed paid_docs (shop [])))).

Lemma notify_route_sound_witness :
  (responses paid_history <= 1)%nat /\
  exists r, @Event (@svc (Tree.lib paid_docs)) _ (Io (Respond success_reply)) tt = Event (Io (Respond r)) tt /\
    @accounted (Tree.lib paid_docs) (Some shop_client) true "BODY" "sig" "1704067200" "nonce-1" "serial" r
      (operations (tl paid_history)).
Proof.
  assert (Hg : guaranteed lifted_rely paid_history) by (vm_compute; tauto).
  destruct (@notify_route_sound (Tree.lib paid_docs) shop_md5 true (Some shop_client) true "BODY"
    (@HttpRequest (Tree.lib paid_docs) false None wechat_headers (fun _ => "") None)
    (fst (noticed paid_docs (shop []))) paid_history) as (H1 & _ & H3).
  - intros wc cipher iv associated [= <-]. discriminate.
  - exact (noticed_runs paid_docs (shop []) Hg).
  - split; [exact H1|].
    assert (E : hd_error paid_history = Some (@Event (@svc (Tree.lib paid_docs)) _ (Io (Respond success_reply)) tt))
      by (vm_compute; reflexivity).
    exact (H3 [] _ (tl paid_history) (newest_event _ _ E) eq_refl).
Defined.
