(* ===== verification/PayPlugin.v ===== *)
(** * The plugin (src/libs/drogon-pay/src/PayPlugin.cc and the factory map of
    ChannelRegistry.cc): assembly of the channels and services from the configuration,
    the worker loop with its timers, shutdown.

    drogon's clients, the file system and the channels of a host are arguments.  A
    computation of [setup] changes the plugin and ends with a value or an exception
    ([None]), which leaves the changes made before it. *)
From S2P Require Import Prelude Cxx Json Effects Registry Store Auth Service RefundService PaymentService PaymentCreate QrPayment.
From S2P Require Import PayHandlers Gateway Reconciliation WechatChannel AlipayChannel.

(** ** The plugin's state *)

(** A channel of the registry: a built-in client or one of the host. *)
Inductive channel (H : Type) :=
| WechatClient (c : wechat_config)
| AlipayClient (c : alipay_config)
| HostChannel (h : H).
Arguments WechatClient {H} c.
Arguments AlipayClient {H} c.
Arguments HostChannel {H} h.

(** What a service was constructed with; a null channel is [None]. *)
Record wiring (H : Type) := Wiring {
  wr_channels : list (string * option (channel H));
  wr_redis : bool;
  wr_ttl : Z                      (* of the shared IdempotencyService *)
}.
Arguments Wiring {H} _ _ _.
Arguments wr_channels {H} w.
Arguments wr_redis {H} w.
Arguments wr_ttl {H} w.

(** The tasks queued on the worker loop. *)
Inductive task := StartAll.

(** What happened to the channels, oldest first. *)
Inductive happened := ChannelStarted (name : string) | ChannelStopped (name : string) | Swept | Refreshed.

Record plugin (H : Type) := Plugin {
  pl_basePath : string;
  pl_db : bool;                                        (* dbClient_ *)
  pl_redis : bool;                                     (* redisClient_ *)
  pl_registry : registry (C := channel H);
  pl_idempotency : option Z;                           (* idempotencyService_, its ttl *)
  pl_payment : option (wiring H);
  pl_refund : option (wiring H);
  pl_callback : option (option (channel H));           (* callbackService_, its channel *)
  pl_reconciliation : option reconciler;
  pl_worker : option (list task);                      (* workerLoopThread_, its queue *)
  pl_certTimer : option Z;                             (* certRefreshTimerId_, its interval *)
  pl_routes : list route;
  pl_history : list happened
}.
Arguments Plugin {H}.
Arguments pl_basePath {H} p.
Arguments pl_db {H} p.
Arguments pl_redis {H} p.
Arguments pl_registry {H} p.
Arguments pl_idempotency {H} p.
Arguments pl_payment {H} p.
Arguments pl_refund {H} p.
Arguments pl_callback {H} p.
Arguments pl_reconciliation {H} p.
Arguments pl_worker {H} p.
Arguments pl_certTimer {H} p.
Arguments pl_routes {H} p.
Arguments pl_history {H} p.

Section States.
Context {H : Type}.
Implicit Types p : plugin H.

(** A plugin before [initAndStart]. *)
Definition fresh : plugin H :=
  Plugin "/api/pay" false false Registry.empty None None None None None None None [] [].

Definition withClients (basePath : string) (db redis : bool) p : plugin H :=
  Plugin basePath db redis (pl_registry p) (pl_idempotency p) (pl_payment p) (pl_refund p) (pl_callback p)
    (pl_reconciliation p) (pl_worker p) (pl_certTimer p) (pl_routes p) (pl_history p).

Definition withRegistry (r : registry) p : plugin H :=
  Plugin (pl_basePath p) (pl_db p) (pl_redis p) r (pl_idempotency p) (pl_payment p) (pl_refund p) (pl_callback p)
    (pl_reconciliation p) (pl_worker p) (pl_certTimer p) (pl_routes p) (pl_history p).

Definition withServices (ttl : Z) (payment refund : wiring H) (callback : option (option (channel H))) p : plugin H :=
  Plugin (pl_basePath p) (pl_db p) (pl_redis p) (pl_registry p) (Some ttl) (Some payment) (Some refund) callback
    (pl_reconciliation p) (pl_worker p) (pl_certTimer p) (pl_routes p) (pl_history p).

Definition withReconciliation (rc : option reconciler) p : plugin H :=
  Plugin (pl_basePath p) (pl_db p) (pl_redis p) (pl_registry p) (pl_idempotency p) (pl_payment p) (pl_refund p)
    (pl_callback p) rc (pl_worker p) (pl_certTimer p) (pl_routes p) (pl_history p).

Definition withWorker (worker : option (list task)) (certTimer : option Z) p : plugin H :=
  Plugin (pl_basePath p) (pl_db p) (pl_redis p) (pl_registry p) (pl_idempotency p) (pl_payment p) (pl_refund p)
    (pl_callback p) (pl_reconciliation p) worker certTimer (pl_routes p) (pl_history p).

Definition withRoutes (rts : list route) p : plugin H :=
  Plugin (pl_basePath p) (pl_db p) (pl_redis p) (pl_registry p) (pl_idempotency p) (pl_payment p) (pl_refund p)
    (pl_callback p) (pl_reconciliation p) (pl_worker p) (pl_certTimer p) rts (pl_history p).

Definition record (h : list happened) p : plugin H :=
  Plugin (pl_basePath p) (pl_db p) (pl_redis p) (pl_registry p) (pl_idempotency p) (pl_payment p) (pl_refund p)
    (pl_callback p) (pl_reconciliation p) (pl_worker p) (pl_certTimer p) (pl_routes p) (pl_history p ++ h).
End States.

(** ** Computations *)

Definition setup (H A : Type) : Type := plugin H -> option A * plugin H.

#[global] Instance setup_ret H : MRet (setup H) := fun A a p => (Some a, p).
#[global] Instance setup_bind H : MBind (setup H) := fun A B f m p =>
  match m p with
  | (Some a, p') => f a p'
  | (None, p') => (None, p')
  end.

Definition throws_at {H A} (o : option A) : setup H A := fun p => (o, p).
Definition update {H} (f : plugin H -> plugin H) : setup H unit := fun p => (Some tt, f p).
Definition read {H A} (f : plugin H -> A) : setup H A := fun p => (Some (f p), p).

(** ** Assembly *)

Definition kLegacyKeyMigration : list (string * string) :=
  [("alipay_sandbox", "channels.alipay"); ("wechat_pay", "channels.wechat")].

Module Assembly.
Section Assembly.
Context `{J : JsonLib} {H : Type}.
(** The files; which database and Redis clients drogon has. *)
Context (readFile : string -> option string) (getDbClient getRedisClient : string -> bool).

(** A factory of the host: [None] throws, [Some None] is a null channel. *)
Abbreviation factory := (json -> option (option H)).
Abbreviation act A := (setup H A).

(** The process-wide factory map. *)
Definition registerFactory (name : string) (f : factory) (factories : list (string * factory)) : list (string * factory) :=
  map_assign name f factories.

Context (factories : list (string * factory)).

(** [config.isMember(oldKey)] throws the migration error. *)
Fixpoint rejectLegacy (config : json) (keys : list (string * string)) : option unit :=
  match keys with
  | [] => Some tt
  | (oldKey, _) :: rest => there ← isMember config oldKey; if (there : bool) then None else rejectLegacy config rest
  end.

Definition text (config : json) (key fallback : string) : option string :=
  v ← get config key (of_string fallback); asString v.

(** The [enabled] block of a channel. *)
Definition channelBlock (channelsConfig : json) (name : string) : option (option json) :=
  cfg ← index channelsConfig name;
  if isObject cfg then enabled ← get_bool cfg "enabled" true; Some (if (enabled : bool) then Some cfg else None)
  else Some None.

Definition addChannel (name : string) (c : option (channel H)) : act unit :=
  update (fun p => withRegistry (Registry.add name c (pl_registry p)) p).

(** One built-in channel; a constructor that throws is caught. *)
Definition addBuiltin (channelsConfig : json) (name : string) (build : json -> option (channel H)) : act unit :=
  block ← throws_at (channelBlock channelsConfig name);
  match block ≫= build with
  | Some c => addChannel name (Some c)
  | None => mret tt
  end.

Definition registerBuiltinChannels (channelsConfig : json) : act unit :=
  addBuiltin channelsConfig "wechat" (fun cfg => WechatClient <$> WechatChannel.configure cfg);;
  addBuiltin channelsConfig "alipay" (fun cfg => AlipayClient <$> Alipay.configure readFile cfg).

Definition addCustom (channelsConfig : json) (name : string) (f : factory) : act unit :=
  block ← throws_at (channelBlock channelsConfig name);
  match block with
  | None => mret tt
  | Some cfg =>
      taken ← read (fun p => Registry.find name (pl_registry p));
      match taken with
      | Some _ => mret tt
      | None => match f cfg with Some made => addChannel name (HostChannel <$> made) | None => mret tt end
      end
  end.

Fixpoint addCustoms (channelsConfig : json) (fs : list (string * factory)) : act unit :=
  match fs with
  | [] => mret tt
  | (name, f) :: rest => addCustom channelsConfig name f;; addCustoms channelsConfig rest
  end.

Definition assembleChannels (config : json) : act unit :=
  channelsConfig ← throws_at (index config "channels");
  (if negb (isObject channelsConfig) then mret tt
   else registerBuiltinChannels channelsConfig;; addCustoms channelsConfig factories);;
  update (fun p => withRegistry (Registry.freeze (pl_registry p)) p).

(** *** Services *)

Definition channelMap (p : plugin H) : list (string * option (channel H)) :=
  map (fun name => (name, Registry.find name (pl_registry p))) (Registry.names (pl_registry p)).

Definition idempotencyTtl (config : json) : option Z :=
  named ← isMember config "idempotency_ttl_seconds";
  if (named : bool) then
    value ← index config "idempotency_ttl_seconds";
    if isInt64 value then asInt64 value else Some 604800
  else Some 604800.

Definition createServices (ttl : Z) (p : plugin H) : plugin H :=
  let w := Wiring (channelMap p) (pl_redis p) ttl in
  withServices ttl w w (Some <$> Registry.find "wechat" (pl_registry p)) p.

(** *** Timers *)

Definition startWorker : act unit := update (fun p => withWorker (Some []) (pl_certTimer p) p).

(** [runInLoop] from another thread: the task is queued. *)
Definition runInLoop (t : task) : act unit :=
  update (fun p => withWorker ((fun q => (q ++ [t])%list) <$> pl_worker p) (pl_certTimer p) p).

Definition createReconciliation (config : json) : act unit :=
  update (withReconciliation (Some Reconcile.created));;
  reconcileCfg ← throws_at (index config "reconcile");
  (if isObject reconcileCfg then
     interval ← throws_at (Alipay.get_int reconcileCfg "interval_seconds" 0);
     batch ← throws_at (Alipay.get_int reconcileCfg "batch_size" 0);
     update (fun p => withReconciliation (Reconcile.setReconcileOptions interval batch <$> pl_reconciliation p) p)
   else mret tt);;
  enabled ← throws_at (if isObject reconcileCfg then get_bool reconcileCfg "enabled" true else Some true);
  if (enabled : bool)
  then update (fun p => withReconciliation (Reconcile.startReconcileTimer <$> pl_reconciliation p) p)
  else mret tt.

Definition certRefreshSeconds (config : json) : option Z :=
  channelsCfg ← get config "channels" jnull;
  wechatCfg ← get channelsCfg "wechat" jnull;
  named ← isMember wechatCfg "cert_refresh_interval_seconds";
  if (named : bool) then
    configured ← Alipay.get_int wechatCfg "cert_refresh_interval_seconds" 43200;
    Some (if 300 <=? configured then configured else 43200)
  else Some 43200.

(** Only the built-in WeChat client is refreshed. *)
Definition startCertRefreshTimer (intervalSeconds : Z) : act unit :=
  update (fun p =>
    match Registry.find "wechat" (pl_registry p) with
    | Some (WechatClient _) => withWorker (pl_worker p) (Some intervalSeconds) p
    | _ => p
    end).

Definition registerHttpHandlers : act unit := update (fun p => withRoutes (routes (pl_basePath p)) p).

(** *** Start and stop *)

Definition startServices (config : json) : act unit :=
  assembleChannels config;;
  ttl ← throws_at (idempotencyTtl config);
  update (createServices ttl);;
  startWorker;;
  createReconciliation config;;
  runInLoop StartAll;;
  seconds ← throws_at (certRefreshSeconds config);
  startCertRefreshTimer seconds;;
  registerHttpHandlers.

Definition initAndStart (config : json) : act unit :=
  throws_at (rejectLegacy config kLegacyKeyMigration);;
  dbClientName ← throws_at (text config "db_client" "default");
  basePath ← throws_at (text config "base_path" "/api/pay");
  update (fun p => withClients basePath (getDbClient dbClientName) (pl_redis p) p);;
  if negb (getDbClient dbClientName) then mret tt
  else
    named ← throws_at (isMember config "redis_client");
    (if (named : bool) then
       redisName ← throws_at (v ← index config "redis_client"; asString v);
       update (withClients basePath true (getRedisClient redisName))
     else mret tt);;
    startServices config.

(** [channels]: the channels of a test, null where it gives none. *)
Definition setTestChannels (channels : list (string * option (channel H))) (db : bool) (p : plugin H) : plugin H :=
  let p := withClients (pl_basePath p) db (pl_redis p) p in
  let r := fold_left (fun r nc => Registry.add (fst nc) (snd nc) r) channels (pl_registry p) in
  let p := withRegistry (Registry.freeze r) p in
  let w := Wiring channels false 604800 in
  withServices 604800 w w (Some (default None (map_find "wechat" channels))) p.

(** The two clients as the channels of a test; null ones are left out. *)
Definition testClients (wechat : option wechat_config) (alipay : option alipay_config) : list (string * option (channel H)) :=
  match alipay with Some c => [("alipay", Some (AlipayClient c))] | None => [] end
  ++ match wechat with Some c => [("wechat", Some (WechatClient c))] | None => [] end.

Definition setTestClients (wechat : option wechat_config) (alipay : option alipay_config) (db : bool) (p : plugin H) : plugin H :=
  setTestChannels (testClients wechat alipay) db p.

(** The task at the head of the worker's queue. *)
Definition perform (t : task) (p : plugin H) : plugin H :=
  match t with StartAll => record (map ChannelStarted (Registry.names (pl_registry p))) p end.

Definition runTask (p : plugin H) : plugin H :=
  match pl_worker p with
  | Some (t :: rest) => perform t (withWorker (Some rest) (pl_certTimer p) p)
  | _ => p
  end.

(** The worker empties its queue. *)
Fixpoint drain (queue : list task) (p : plugin H) : plugin H :=
  match queue with
  | [] => p
  | t :: rest => drain rest (perform t p)
  end.

Definition reconcileTick (p : plugin H) : plugin H :=
  match pl_worker p, pl_reconciliation p with
  | Some _, Some rc => if rc_timer rc then record [Swept] p else p
  | _, _ => p
  end.

Definition certTick (p : plugin H) : plugin H :=
  match pl_worker p, pl_certTimer p with Some _, Some _ => record [Refreshed] p | _, _ => p end.

Definition stopAll (p : plugin H) : plugin H := record (map ChannelStopped (Registry.names (pl_registry p))) p.

Definition shutdown (p : plugin H) : plugin H :=
  let p := withReconciliation (Reconcile.stopReconcileTimer <$> pl_reconciliation p) p in
  match pl_worker p with
  | Some queue => withWorker None None (drain queue (stopAll p))
  | None => stopAll p
  end.

(** *** Accessors *)

Definition getChannel (name : string) (p : plugin H) : option (channel H) := Registry.find name (pl_registry p).

(** Null unless the channel is the built-in client. *)
Definition alipayClient (p : plugin H) : option alipay_config :=
  match Registry.find "alipay" (pl_registry p) with Some (AlipayClient c) => Some c | _ => None end.
End Assembly.
End Assembly.
Import Assembly.

(** ** What a computation ends with *)

Section Ends.
Context {H : Type}.

(** It ends with a value and a state in [Q], or throws in a state in [E]. *)
Definition ends {A} (m : setup H A) (Q : A -> plugin H -> Prop) (E : plugin H -> Prop) (p : plugin H) : Prop :=
  match m p with
  | (Some a, p') => Q a p'
  | (None, p') => E p'
  end.

Lemma ends_bind {A B} (m : setup H A) (f : A -> setup H B) Q E p :
  ends m (fun a p' => ends (f a) Q E p') E p -> ends (m ≫= f) Q E p.
Proof. unfold ends, mbind, setup_bind. by destruct (m p) as [[a|] p']. Qed.

Lemma ends_throws {A} (o : option A) (Q : A -> plugin H -> Prop) (E : plugin H -> Prop) p :
  E p -> (forall a, o = Some a -> Q a p) -> ends (throws_at o) Q E p.
Proof. intros HE HQ. destruct o as [a|]; [by apply HQ | done]. Qed.

Lemma ends_mono {A} (m : setup H A) (Q Q' : A -> plugin H -> Prop) (E E' : plugin H -> Prop) p :
  ends m Q E p -> (forall a p', Q a p' -> Q' a p') -> (forall p', E p' -> E' p') -> ends m Q' E' p.
Proof. unfold ends. destruct (m p) as [[a|] p']; auto. Qed.
End Ends.

(** ** The registry *)

Section Assembled.
Context `{J : JsonLib} {H : Type}.
Context (readFile : string -> option string) (getDbClient getRedisClient : string -> bool).
Context (factories : list (string * (json -> option (option H)))).

(** The channel that the configuration enables under a name: the built-in client, else
    the first channel that a factory of that name makes. *)
Definition builtin (cc : json) (name : string) : option (channel H) :=
  block ← channelBlock cc name;
  cfg ← block;
  if String.eqb name "wechat" then WechatClient <$> WechatChannel.configure cfg
  else if String.eqb name "alipay" then AlipayClient <$> Alipay.configure readFile cfg
  else None.

Definition made (cc : json) (name : string) (f : json -> option (option H)) : option (channel H) :=
  block ← channelBlock cc name; cfg ← block; c ← f cfg; HostChannel <$> c.

Fixpoint offered (cc : json) (fs : list (string * (json -> option (option H)))) (name : string) : option (channel H) :=
  match fs with
  | [] => None
  | (n, f) :: rest =>
      if String.eqb n name then match made cc n f with Some c => Some c | None => offered cc rest name end
      else offered cc rest name
  end.

Definition enabled_channel (cc : json) (name : string) : option (channel H) :=
  match builtin cc name with Some c => Some c | None => offered cc factories name end.

Definition configured_channel (config : json) (name : string) : option (channel H) :=
  cc ← index config "channels"; if isObject cc then enabled_channel cc name else None.

(** Only the registry was changed; it can still be, and answers [f]. *)
Definition registers (p : plugin H) (f : string -> option (channel H)) (p' : plugin H) : Prop :=
  exists r, p' = withRegistry r p /\ frozen_ r = false /\ Registry.sorted (channels_ r) /\
    forall name, Registry.find name r = f name.

Lemma registers_same p f : frozen_ (pl_registry p) = false -> Registry.sorted (channels_ (pl_registry p)) ->
  (forall name, Registry.find name (pl_registry p) = f name) -> registers p f p.
Proof. intros H1 H2 H3. exists (pl_registry p). by destruct p. Qed.

Lemma registers_mono p f g p' : (forall name, f name = g name) -> registers p f p' -> registers p g p'.
Proof. intros E (r & -> & H1 & H2 & H3). exists r. do 3 (split; [done|]). intros name. by rewrite H3. Qed.

Lemma withRegistry_same (p : plugin H) : withRegistry (pl_registry p) p = p.
Proof. by destruct p. Qed.

(** Another channel on top. *)
Lemma registers_add p f p' name c :
  registers p f p' ->
  registers p (fun n => if String.eqb name n then Some c else f n)
    (withRegistry (Registry.add name (Some c) (pl_registry p')) p').
Proof.
  intros (r & -> & Hf & Hs & Hr). exists (Registry.add name (Some c) r). unfold Registry.add. rewrite Hf.
  split; [by destruct p; simpl; rewrite Hf|]. split; [done|]. split; [by apply Registry.assign_sorted|].
  intros n. unfold Registry.find. simpl. rewrite Registry.find_assign by done. by rewrite <- Hr.
Qed.

Context (E : plugin H -> Prop).

Lemma addBuiltin_registers cc name build p f p' :
  (forall r, E (withRegistry r p)) -> registers p f p' -> f name = None ->
  ends (addBuiltin cc name build)
    (fun _ => registers p (fun n => if String.eqb name n then channelBlock cc name ≫= fun block => block ≫= build else f n)) E p'.
Proof.
  intros HE Hp Hn. apply ends_bind, ends_throws; [by destruct Hp as (r & -> & _)|]. intros block Hb. rewrite Hb. simpl.
  destruct (block ≫= build) as [c|]; [by apply registers_add|].
  eapply registers_mono; [|exact Hp]. intros n. destruct (String.eqb_spec name n) as [<-|]; done.
Qed.

Lemma addCustom_registers cc name g p f p' :
  (forall r, E (withRegistry r p)) -> registers p f p' ->
  ends (addCustom cc name g)
    (fun _ => registers p (fun n => match f n with Some c => Some c | None => if String.eqb name n then made cc name g else None end))
    E p'.
Proof.
  intros HE Hp. assert (HE' : E p') by (by destruct Hp as (r & -> & _)).
  apply ends_bind, ends_throws; [done|]. unfold made. intros block ->. cbn [mbind option_bind].
  assert (Hsame : registers p (fun n => match f n with Some c => Some c | None => if String.eqb name n then None else None end) p').
  { eapply registers_mono; [|exact Hp]. intros n. destruct (f n); [done|]. by destruct (String.eqb name n). }
  destruct block as [cfg|]; [|exact Hsame]. cbn [mbind option_bind].
  apply ends_bind. unfold ends, read.
  assert (Hf : Registry.find name (pl_registry p') = f name) by (by destruct Hp as (r & -> & _ & _ & Hr)).
  rewrite Hf. destruct (f name) as [c|] eqn:Hn.
  - eapply registers_mono; [|exact Hp]. intros n. destruct (String.eqb_spec name n) as [<-|]; [by rewrite Hn|]. by destruct (f n).
  - destruct (g cfg) as [[h|]|]; [|rewrite <- (withRegistry_same p') in Hsame; cbn; unfold Registry.add; by destruct (frozen_ (pl_registry p')) |exact Hsame].
    eapply registers_mono; [|exact (registers_add p f p' name (HostChannel h) Hp)]. intros n. simpl.
    destruct (String.eqb_spec name n) as [<-|]; [by rewrite Hn|]. by destruct (f n).
Qed.

Lemma addCustoms_registers cc fs p f p' :
  (forall r, E (withRegistry r p)) -> registers p f p' ->
  ends (addCustoms cc fs)
    (fun _ => registers p (fun n => match f n with Some c => Some c | None => offered cc fs n end)) E p'.
Proof.
  intros HE. revert f p'. induction fs as [|[name g] fs IH]; intros f p' Hp; simpl.
  - eapply registers_mono; [|exact Hp]. intros n. by destruct (f n).
  - apply ends_bind. eapply ends_mono; [by apply addCustom_registers| |done]. intros [] q Hq.
    eapply ends_mono; [exact (IH _ _ Hq)| |done]. intros [] q'. apply registers_mono. intros n. cbv beta.
    destruct (f n); [done|]. destruct (String.eqb name n); [|done]. by destruct (made cc name g).
Qed.

(** The frozen registry that the configuration describes, and nothing else changed. *)
Lemma assembleChannels_ok config p :
  (forall r, E (withRegistry r p)) -> pl_registry p = Registry.empty ->
  ends (assembleChannels readFile factories config)
    (fun _ q => exists r, q = withRegistry r p /\ frozen_ r = true /\ Registry.sorted (channels_ r) /\
       forall name, Registry.find name r = configured_channel config name) E p.
Proof.
  intros HE He. assert (HEp : E p) by (specialize (HE (pl_registry p)); by destruct p).
  apply ends_bind, ends_throws; [done|]. unfold configured_channel. intros cc ->. simpl.
  assert (H0 : registers p (fun _ => None) p) by (apply registers_same; rewrite He; done).
  apply ends_bind. destruct (isObject cc); simpl.
  2: { exists (Registry.freeze Registry.empty). by rewrite He. }
  apply ends_bind, ends_bind.
  eapply ends_mono; [by apply addBuiltin_registers with (p := p)| |done]. intros [] q Hq.
  eapply ends_mono; [by apply addBuiltin_registers with (p := p); [| exact Hq |]| |done]. intros [] q' Hq'.
  eapply ends_mono; [by apply addCustoms_registers with (p := p); [|exact Hq']| |done].
  intros [] p' (r & -> & Hf & Hs & Hr). exists (Registry.freeze r). split; [by destruct p|]. split; [done|]. split; [done|].
  intros name. unfold enabled_channel. unfold Registry.find in *. simpl. rewrite Hr. unfold builtin.
  destruct (String.eqb_spec "alipay" name) as [<-|Ha].
  - simpl. by destruct (channelBlock cc "alipay").
  - destruct (String.eqb_spec "wechat" name) as [<-|Hw]; [simpl; by destruct (channelBlock cc "wechat")|].
    rewrite (proj2 (String.eqb_neq name "wechat")), (proj2 (String.eqb_neq name "alipay")) by congruence.
    by destruct (channelBlock cc name) as [[]|].
Qed.

Lemma createReconciliation_ok config p :
  (forall rc, E (withReconciliation (Some rc) p)) ->
  ends (createReconciliation config)
    (fun _ q => exists rc, q = withReconciliation (Some rc) p /\ options_positive rc) E p.
Proof.
  intros HE. apply ends_bind. unfold ends at 1, update. apply ends_bind, ends_throws; [by apply HE|]. intros cfg _.
  apply ends_bind.
  apply ends_mono with (Q := fun _ q => exists rc, q = withReconciliation (Some rc) p /\ options_positive rc) (E := E);
    [| |done].
  - destruct (isObject cfg); [|by exists Reconcile.created].
    apply ends_bind, ends_throws; [by apply HE|]. intros interval _. apply ends_bind, ends_throws; [by apply HE|].
    intros batch _. exists (Reconcile.setReconcileOptions interval batch Reconcile.created). split; [by destruct p|].
    by apply setReconcileOptions_positive.
  - intros [] q (rc & -> & Hrc). apply ends_bind, ends_throws; [by apply HE|].
    intros [|] _; [exists (Reconcile.startReconcileTimer rc) | exists rc]; by destruct p.
Qed.

Lemma certRefreshSeconds_floor config seconds : certRefreshSeconds config = Some seconds -> 300 <= seconds.
Proof.
  unfold certRefreshSeconds. intros H0. do 2 apply bind_Some in H0 as (? & _ & H0).
  apply bind_Some in H0 as ([|] & _ & H0); [|injection H0 as <-; lia].
  apply bind_Some in H0 as (configured & _ & H0). destruct (Z.leb_spec 300 configured); injection H0 as <-; lia.
Qed.
End Assembled.

(** ** The start *)

Section Start.
Context `{J : JsonLib} {H : Type}.
Context (readFile : string -> option string) (getDbClient getRedisClient : string -> bool).
Context (factories : list (string * (json -> option (option H)))).

Abbreviation channel_of config name := (configured_channel readFile factories config name).

(** A plugin that serves: every service is wired to the channels of the configuration,
    the timers run at intervals within their bounds, the routes are registered. *)
Record serving (config : json) (p : plugin H) : Prop := {
  sv_db : pl_db p = true;
  sv_frozen : frozen_ (pl_registry p) = true;
  sv_sorted : Registry.sorted (channels_ (pl_registry p));
  sv_channels : forall name, Registry.find name (pl_registry p) = channel_of config name;
  sv_services : exists w, pl_payment p = Some w /\ pl_refund p = Some w /\ pl_idempotency p = Some (wr_ttl w) /\
    wr_channels w = channelMap p /\ wr_redis w = pl_redis p /\ idempotencyTtl config = Some (wr_ttl w);
  sv_callback : pl_callback p = (Some <$> channel_of config "wechat");
  sv_reconciliation : exists rc, pl_reconciliation p = Some rc /\ options_positive rc;
  sv_worker : pl_worker p = Some [StartAll];
  sv_cert : forall seconds, pl_certTimer p = Some seconds ->
    300 <= seconds /\ exists c, channel_of config "wechat" = Some (WechatClient c);
  sv_routes : pl_routes p = routes (pl_basePath p);
  sv_history : pl_history p = []
}.

(** Nothing is served and nothing runs. *)
Definition idle (p : plugin H) : Prop :=
  pl_payment p = None /\ pl_refund p = None /\ pl_callback p = None /\ pl_worker p = None /\ pl_routes p = [] /\
  channels_ (pl_registry p) = [].

Definition routeless (p : plugin H) : Prop := pl_routes p = [].

Lemma startServices_ok config p :
  pl_db p = true -> pl_registry p = Registry.empty -> pl_certTimer p = None -> pl_routes p = [] -> pl_history p = [] ->
  ends (startServices readFile factories config) (fun _ q => serving config q /\ pl_basePath q = pl_basePath p) routeless p.
Proof.
  intros Hdb Hreg Hcert Hrts Hhist. unfold startServices.
  apply ends_bind. eapply ends_mono; [by apply (assembleChannels_ok readFile factories routeless)| |done].
  intros [] q (r & -> & Hf & Hs & Hr). apply ends_bind, ends_throws; [done|]. intros ttl Ht.
  do 2 (apply ends_bind; unfold ends at 1, update).
  apply ends_bind. eapply ends_mono; [by apply (createReconciliation_ok routeless)| |done].
  intros [] q (rc & -> & Hrc). apply ends_bind. unfold ends at 1, runInLoop, update.
  apply ends_bind, ends_throws; [done|]. intros seconds Hsec. apply certRefreshSeconds_floor in Hsec.
  apply ends_bind. unfold ends at 1, startCertRefreshTimer, update. cbn.
  assert (Hw := Hr "wechat").
  destruct (Registry.find "wechat" r) as [[c|c|h]|] eqn:E; cbn;
    (split; [|done]; split; cbn; try done; [eexists; split_and!; (done || (by rewrite Hreg))|by rewrite E, <- Hw|by exists rc|]).
  all: rewrite ?Hcert; intros s Hs0; try done. injection Hs0 as <-. split; [done|]. by exists c.
Qed.

Lemma legacy_throws config oldKey newKey :
  In (oldKey, newKey) kLegacyKeyMigration -> isMember config oldKey = Some true ->
  rejectLegacy config kLegacyKeyMigration = None.
Proof.
  intros [[= <- <-]|[[= <- <-]|[]]] Hm; cbn; rewrite ?Hm; cbn; [done|].
  by destruct (isMember config "alipay_sandbox") as [[]|].
Qed.


End Start.

(** ** The life of a plugin *)

#[global] Instance happened_eq : EqDecision happened.
Proof. solve_decision. Defined.

(** What may happen while the gateway runs. *)
Inductive moment := TaskRuns | ReconcileFires | CertFires.

Section Life.
Context `{J : JsonLib} {H : Type}.
Implicit Types p : plugin H.

Definition pass p (m : moment) : plugin H :=
  match m with TaskRuns => runTask p | ReconcileFires => reconcileTick p | CertFires => certTick p end.

Definition live (ms : list moment) p : plugin H := fold_left pass ms p.

Definition times (what : happened) (h : list happened) : nat := count_occ happened_eq h what.

Lemma times_app what h1 h2 : times what (h1 ++ h2)%list = (times what h1 + times what h2)%nat.
Proof. apply count_occ_app. Qed.

Lemma times_started name names : times (ChannelStarted name) (map ChannelStarted names) = count_occ string_dec names name.
Proof. symmetry. apply (count_occ_map ChannelStarted). by intros ? ? [= ->]. Qed.

Lemma times_stopped name names : times (ChannelStopped name) (map ChannelStopped names) = count_occ string_dec names name.
Proof. symmetry. apply (count_occ_map ChannelStopped). by intros ? ? [= ->]. Qed.

Lemma times_other what names (f : string -> happened) :
  (forall name, f name <> what) -> times what (map f names) = 0%nat.
Proof. intros Hf. apply count_occ_not_In. intros Hi. apply in_map_iff in Hi as (name & E & _). by apply (Hf name). Qed.

(** A registry binds a name once. *)
Lemma names_count (r : registry (C := channel H)) name :
  Registry.sorted (channels_ r) ->
  count_occ string_dec (Registry.names r) name = match Registry.find name r with Some _ => 1%nat | None => 0%nat end.
Proof.
  unfold Registry.names, Registry.find. induction (channels_ r) as [|[k c] m IH]; [done|]. intros [Hk Hm].
  specialize (IH Hm). simpl. destruct (string_dec k name) as [->|Hne].
  - rewrite Registry.compare_refl, IH. pose proof (Registry.find_after name m Hk) as ->. done.
  - rewrite IH. destruct (String.compare name k) eqn:E; [by apply String.compare_eq_iff in E| |done].
    rewrite (Registry.find_after name m); [done|]. eapply Forall_impl; [exact Hk|]. intros kd. by apply Registry.before_trans.
Qed.

(** Between the start and [shutdown]: the channels are started once, now or later. *)
Record alive (p0 p : plugin H) : Prop := {
  al_registry : pl_registry p = pl_registry p0;
  al_worker : exists queue, pl_worker p = Some queue /\
    ((queue = [StartAll] /\ forall name, times (ChannelStarted name) (pl_history p) = 0%nat) \/
     (queue = [] /\ forall name, times (ChannelStarted name) (pl_history p) =
                            count_occ string_dec (Registry.names (pl_registry p0)) name));
  al_stopped : forall name, times (ChannelStopped name) (pl_history p) = 0%nat;
  al_reconciliation : pl_reconciliation p = pl_reconciliation p0
}.

Lemma record_alive p0 p what :
  what = Swept \/ what = Refreshed -> alive p0 p -> alive p0 (record [what] p).
Proof.
  intros Hw [Hr (queue & Hq & Hs) Hst Hrc].
  assert (Hsame : forall f, (f = ChannelStarted \/ f = ChannelStopped) -> forall name : string,
    times (f name) (pl_history (record [what] p)) = times (f name) (pl_history p)).
  { intros f Hf name. simpl. rewrite times_app. destruct Hw as [->| ->], Hf as [->| ->]; simpl; lia. }
  split; [done| |intros name; rewrite Hsame; auto|done].
  exists queue. split; [done|]. destruct Hs as [[-> Hs]|[-> Hs]]; [left|right]; split; try done;
    intros name; rewrite Hsame; auto.
Qed.

Lemma pass_alive p0 p m : alive p0 p -> alive p0 (pass p m).
Proof.
  intros Ha. destruct m; simpl.
  - destruct Ha as [Hr (queue & Hq & Hs) Hst Hrc]. unfold runTask. rewrite Hq. destruct Hs as [[-> Hs]|[-> Hs]].
    + split; simpl; try done.
      * exists []. split; [done|]. right. split; [done|]. intros name. by rewrite times_app, Hs, Hr, times_started.
      * intros name. rewrite times_app, Hst. by apply times_other.
    + split; try done. exists []. auto.
  - unfold reconcileTick. destruct (pl_worker p), (pl_reconciliation p) as [rc|]; try done.
    destruct (rc_timer rc); [|done]. apply record_alive; auto.
  - unfold certTick. destruct (pl_worker p), (pl_certTimer p); try done. apply record_alive; auto.
Qed.

Lemma live_alive p0 p ms : alive p0 p -> alive p0 (live ms p).
Proof. revert p. induction ms as [|m ms IH]; intros p Ha; [done|]. by apply IH, pass_alive. Qed.

(** Without a worker nothing happens. *)
Lemma live_stopped ms p : pl_worker p = None -> live ms p = p.
Proof.
  intros Hw. induction ms as [|m ms IH]; [done|]. simpl.
  assert (E : pass p m = p) by (destruct m; simpl; unfold runTask, reconcileTick, certTick; by rewrite Hw).
  by rewrite E.
Qed.

Context (readFile : string -> option string) (factories : list (string * (json -> option (option H)))).

(** C24. Whatever happens between the start and the shutdown of a plugin that serves:
    when [shutdown] returns, no timer and no task is left and nothing happens any more,
    and every channel of the registry was started once and stopped once, and no other
    channel was. *)
Theorem plugin_stops config p ms ms' :
  serving readFile factories config p ->
  let stopped := shutdown (live ms p) in
  live ms' stopped = stopped /\ pl_worker stopped = None /\ pl_certTimer stopped = None /\
  (exists rc, pl_reconciliation stopped = Some rc /\ rc_timer rc = false) /\
  forall name, let registered := match configured_channel readFile factories config name with Some _ => 1%nat | None => 0%nat end in
    times (ChannelStarted name) (pl_history stopped) = registered /\
    times (ChannelStopped name) (pl_history stopped) = registered.
Proof.
  intros Hs. assert (Ha : alive p (live ms p)).
  { apply live_alive. split; try done; rewrite (sv_history _ _ _ _ Hs); try done.
    exists [StartAll]. split; [apply (sv_worker _ _ _ _ Hs)|]. by left. }
  destruct Ha as [Hr (queue & Hq & Hh) Hst Hrc]. destruct (sv_reconciliation _ _ _ _ Hs) as (rc & Erc & _). simpl.
  assert (Hw : pl_worker (shutdown (live ms p)) = None) by (unfold shutdown; simpl; by rewrite Hq).
  split; [by apply live_stopped|]. split; [done|].
  unfold shutdown. simpl. rewrite Hq, Hrc, Erc. simpl. split; [done|].
  pose proof (sv_sorted _ _ _ _ Hs) as Hsorted.
  assert (Hcount : forall name, count_occ string_dec (Registry.names (pl_registry p)) name =
    match configured_channel readFile factories config name with Some _ => 1%nat | None => 0%nat end).
  { intros name. rewrite names_count by done. by rewrite (sv_channels _ _ _ _ Hs). }
  destruct Hh as [[-> Hh]|[-> Hh]]; simpl; (split; [by eexists|]); intros name;
    rewrite !times_app, ?Hst, ?Hh, ?Hr, ?times_started, ?times_stopped, ?Hcount, ?times_other by done; lia.
Qed.
End Life.

(** ** Witnesses *)

Definition tree1 : JsonLib := Tree.lib [].

(** The factories of a host; the second one competes with a built-in client. *)
Definition host_factories : list (string * (@json tree1 -> option (option string))) :=
  registerFactory "wechat" (fun _ => Some (Some "imitation")) (registerFactory "cash" (fun _ => Some (Some "till")) []).

Definition shop_config : Tree.tree :=
  Tree.TObject [("channels", Tree.TObject [("wechat", Tree.TObject [("app_id", Tree.TString "A1");
      ("cert_refresh_interval_seconds", Tree.TInt 60)]); ("cash", Tree.TObject [])]);
    ("reconcile", Tree.TObject [("interval_seconds", Tree.TInt (-5)); ("batch_size", Tree.TInt 10)])].

Abbreviation start_with config :=
  (@initAndStart tree1 string (fun _ => None) (fun _ => true) (fun _ => true) host_factories config fresh).

(** The names under which the services know a channel, whether WeChat is the built-in
    client, the certificate timer, the reconciler. *)
Definition summary (p : plugin string) : option (list string) * bool * option Z * option reconciler :=
  ((fun w => map fst (wr_channels w)) <$> pl_payment p,
   match getChannel "wechat" p with Some (WechatClient _) => true | _ => false end, pl_certTimer p, pl_reconciliation p).

Example shop_starts :
  let '(r, p) := start_with shop_config in
  (r, summary p) = (Some tt, (Some ["cash"; "wechat"], true, Some 43200, Some (Reconciler true 300 10))).
Proof. by vm_compute. Qed.

(** The channels member is a text: the start, which only logs that no channel will be
    available, throws after the timers were started. *)
Example text_channels_throw :
  let '(r, p) := start_with (Tree.TObject [("channels", Tree.TString "none")]) in
  (r, pl_worker p, rc_timer <$> pl_reconciliation p, pl_routes p) = (None, Some [StartAll], Some true, []).
Proof. by vm_compute. Qed.

(** A shutdown before the worker ran its first task stops the channels and then starts
    them. *)
Example stopped_before_started :
  pl_history (shutdown (snd (start_with shop_config))) =
  [ChannelStopped "cash"; ChannelStopped "wechat"; ChannelStarted "cash"; ChannelStarted "wechat"].
Proof. by vm_compute. Qed.

Definition connected : plugin string := withClients "/api/pay" true false fresh.

Definition shop_start : option unit * plugin string :=
  @startServices tree1 string (fun _ => None) host_factories shop_config connected.

Lemma plugin_stops_witness :
  pl_history (shutdown (live [TaskRuns; ReconcileFires; CertFires] (snd shop_start))) =
    [ChannelStarted "cash"; ChannelStarted "wechat"; Swept; Refreshed; ChannelStopped "cash"; ChannelStopped "wechat"] /\
  live [ReconcileFires] (shutdown (live [TaskRuns; ReconcileFires; CertFires] (snd shop_start))) =
    shutdown (live [TaskRuns; ReconcileFires; CertFires] (snd shop_start)).
Proof.
  split; [by vm_compute |].
  assert (Hs : serving (fun _ => None) host_factories shop_config (snd shop_start)).
  { pose proof (@startServices_ok tree1 string (fun _ => None) host_factories shop_config connected
      eq_refl eq_refl eq_refl eq_refl eq_refl) as H.
    assert (E : fst shop_start = Some tt) by by vm_compute.
    unfold ends in H. change (startServices _ _ _ _) with shop_start in H.
    destruct shop_start as [r p]. simpl in E. rewrite E in H. exact (proj1 H). }
  exact (proj1 (@plugin_stops tree1 string (fun _ => None) host_factories shop_config (snd shop_start)
    [TaskRuns; ReconcileFires; CertFires] [ReconcileFires] Hs)).
Defined.

