(* ===== verification/Orm.v ===== *)
(** * The model classes that drogon's ORM works on
    (src/libs/drogon-pay/src/models).

    The six classes are unrolled over the columns of their tables; here their methods
    are written once, over a table, and [PayOrder.v], [PayPayment.v], [PayRefund.v],
    [PayLedger.v], [PayCallback.v] and [PayIdempotency.v] have the tables with each
    class's methods.  drogon's result rows, [strptime], [mktime], the printing of
    dates and [std::wstring_convert] are parameters. *)
From S2P Require Import Prelude Cxx Json.

(** ** Tables *)

Inductive col_type := TInt64 | TString | TBool | TDate.

(** [MetaData], and whether the database has a default for the column, which
    [sqlForInserting] knows. *)
Record column := Column {
  c_name : string;
  c_type : col_type;
  c_length : Z;
  c_auto : bool;
  c_pk : bool;
  c_notNull : bool;
  c_default : bool
}.

(** A value behind a [shared_ptr]; a date in microseconds since the epoch. *)
Inductive value := VInt (z : Z) | VText (s : string) | VBool (b : bool) | VDate (t : Z).

#[global] Instance value_eq : EqDecision value.
Proof. solve_decision. Defined.

(** The members of a class in the order of its columns, and [dirtyFlag_]. *)
Record model := Model { m_fields : list (option value); m_dirty : list bool }.

Definition quotedName (name : string) : string := String "034"%char (name +:+ String "034"%char "").

(** ** Members *)

(** A default constructed object. *)
Definition blank (cs : list column) : model := Model (map (fun _ => None) cs) (map (fun _ => false) cs).

(** [*x_] if it is set. *)
Definition field (i : nat) (m : model) : option value := default None (m_fields m !! i).

Definition is_dirty (i : nat) (m : model) : bool := default false (m_dirty m !! i).

Definition store (i : nat) (v : option value) (m : model) : model := Model (<[i := v]> (m_fields m)) (m_dirty m).

Definition mark (i : nat) (m : model) : model := Model (m_fields m) (<[i := true]> (m_dirty m)).

(** A setter. *)
Definition setField (i : nat) (v : option value) (m : model) : model := mark i (store i v m).

(** [getValueOf..]: the value, or the default of its type. *)
Definition intValue (v : option value) : Z := match v with Some (VInt z) => z | _ => 0 end.
Definition textValue (v : option value) : string := match v with Some (VText s) => s | _ => "" end.
Definition boolValue (v : option value) : bool := match v with Some (VBool b) => b | _ => false end.
Definition dateValue (v : option value) : Z := match v with Some (VDate t) => t | _ => 0 end.

(** ** Statements *)

(** The columns with their places. *)
Definition places (cs : list column) : list (nat * column) := imap pair cs.

(** The columns an INSERT names. *)
Definition insertNamed (m : model) (ic : nat * column) : bool :=
  c_auto (snd ic) || c_default (snd ic) || is_dirty (fst ic) m.

(** The columns whose values are bound. *)
Definition bound (m : model) (ic : nat * column) : bool := negb (c_auto (snd ic)) && is_dirty (fst ic) m.

Definition insertColumns (cs : list column) : list string :=
  map c_name (List.filter (fun c => negb (c_auto c)) cs).

(** What is bound with [binder <<]; [None] is [nullptr]. *)
Definition outputArgs (cs : list column) (m : model) : list (option value) :=
  map (fun ic => field (fst ic) m) (List.filter (bound m) (places cs)).

Definition updateColumns (cs : list column) (m : model) : list string :=
  map (fun ic => c_name (snd ic)) (List.filter (bound m) (places cs)).

Definition updateArgs (cs : list column) (m : model) : list (option value) :=
  map (fun ic => field (fst ic) m) (List.filter (bound m) (places cs)).

(** [sql += "name,"] for the named columns. *)
Fixpoint columnList (m : model) (ics : list (nat * column)) : string :=
  match ics with
  | [] => ""
  | ic :: ics' => (if insertNamed m ic then c_name (snd ic) +:+ "," else "") +:+ columnList m ics'
  end.

(** [default,] or the next placeholder. *)
Fixpoint valueList (m : model) (placeholder : Z) (ics : list (nat * column)) : string :=
  match ics with
  | [] => ""
  | ic :: ics' =>
      if c_auto (snd ic) then "default," +:+ valueList m placeholder ics'
      else if is_dirty (fst ic) m then "$" +:+ to_string placeholder +:+ "," +:+ valueList m (placeholder + 1) ics'
      else if c_default (snd ic) then "default," +:+ valueList m placeholder ics'
      else valueList m placeholder ics'
  end.

(** [sql.resize(sql.length() - 1)] *)
Fixpoint dropLast (s : string) : string :=
  match s with
  | EmptyString => ""
  | String c "" => ""
  | String c s' => String c (dropLast s')
  end.

(** The statement and [needSelection]. *)
Definition sqlForInserting (tableName : string) (cs : list column) (m : model) : string * bool :=
  let ics := places cs in
  let parametersCount := List.length (List.filter (insertNamed m) ics) in
  let needSelection := existsb (fun ic => c_auto (snd ic) || (c_default (snd ic) && negb (is_dirty (fst ic) m))) ics in
  let sql := "insert into " +:+ tableName +:+ " (" +:+ columnList m ics in
  let sql := if (0 <? parametersCount)%nat then (dropLast sql +:+ ")") +:+ " values (" else sql +:+ ") values (" in
  let sql := sql +:+ valueList m 1 ics in
  let sql := if (0 <? parametersCount)%nat then dropLast sql else sql in
  (if needSelection then sql +:+ ") returning *" else sql +:+ ")", needSelection).

Definition sqlForFindingByPrimaryKey (tableName key : string) : string :=
  "select * from " +:+ tableName +:+ " where " +:+ key +:+ " = $1".

Definition sqlForDeletingByPrimaryKey (tableName key : string) : string :=
  "delete from " +:+ tableName +:+ " where " +:+ key +:+ " = $1".

(** ** Result rows *)

(** drogon's [Row]: its columns by name and by place, [None] for NULL. *)
Record sql_row := SqlRow {
  row_named : string -> option string;
  row_at : nat -> option string;
  row_size : nat
}.

(** The loop [while (decimals.length() < 6)]. *)
Definition padded (decimals : string) : string :=
  decimals +:+ String.substring 0 (6 - String.length decimals) "000000".

(** [atol]: white space, a sign, digits. *)
Definition atol (s : string) : Z :=
  match skip_spaces s with
  | String "-" s' => - digits_value 0 (take_digits s')
  | String "+" s' => digits_value 0 (take_digits s')
  | s' => digits_value 0 (take_digits s')
  end.

Section Methods.
(** [strptime] with "%Y-%m-%d %H:%M:%S" and [mktime]: the seconds and what [p] points
    to, [None] for a null [p]; [toDbStringLocal]; drogon's [Field::as]. *)
Context (strptime : string -> option (Z * string)) (toDbStringLocal : Z -> string).
Context (as_int64 : string -> Z) (as_bool : string -> bool).

(** The date of a text; without one the member stays unset. *)
Definition parseDate (timeStr : string) : option Z :=
  match strptime timeStr with
  | None => None
  | Some (t, rest) =>
      let decimalNum := match rest with String "." decimals => atol (padded decimals) | _ => 0 end in
      Some (wrap64 (t * 1000000 + decimalNum))
  end.

Definition rowValue (c : column) (text : string) : option value :=
  match c_type c with
  | TInt64 => Some (VInt (as_int64 text))
  | TString => Some (VText text)
  | TBool => Some (VBool (as_bool text))
  | TDate => VDate <$> parseDate text
  end.

(** The constructor from a row: by name for a negative offset, else by place. *)
Definition fromRow (cs : list column) (r : sql_row) (indexOffset : Z) : model :=
  if indexOffset <? 0
  then Model (map (fun c => text ← row_named r (c_name c); rowValue c text) cs) (map (fun _ => false) cs)
  else
    let offset := Z.to_nat indexOffset in
    if (row_size r <? offset + List.length cs)%nat then blank cs
    else Model (map (fun ic => text ← row_at r (offset + fst ic); rowValue (snd ic) text) (places cs))
           (map (fun _ => false) cs).

(** ** JSON *)

Section WithJson.
Context `{J : JsonLib}.

(** What a member of the object is read as; [None]: the accessor throws. *)
Definition jsonValue (c : column) (v : json) : option (option value) :=
  match c_type c with
  | TInt64 => z ← asInt64 v; Some (Some (VInt z))
  | TString => s ← asString v; Some (Some (VText s))
  | TBool => b ← asBool v; Some (Some (VBool b))
  | TDate => s ← asString v; Some (VDate <$> parseDate s)
  end.

(** One column: [key] is the member it is read from; [marks], whether it becomes dirty. *)
Definition readMember (j : json) (key : string) (marks : bool) (ic : nat * column) (m : model) : option model :=
  there ← isMember j key;
  if (there : bool) then
    let m := if marks then mark (fst ic) m else m in
    v ← index j key;
    if isNull v then Some m
    else
      x ← jsonValue (snd ic) v;
      Some (match x with Some _ => store (fst ic) x m | None => m end)
  else Some m.

Fixpoint readMembers (j : json) (key : nat * column -> option string) (marks : column -> bool)
    (ics : list (nat * column)) (m : model) : option model :=
  match ics with
  | [] => Some m
  | ic :: ics' =>
      m ← match key ic with Some k => readMember j k (marks (snd ic)) ic m | None => Some m end;
      readMembers j key marks ics' m
  end.

(** The member of a column: its name, or its alias unless that is empty. *)
Definition byName (ic : nat * column) : option string := Some (c_name (snd ic)).

Definition byAlias (pMasqueradingVector : list string) (ic : nat * column) : option string :=
  alias ← pMasqueradingVector !! fst ic; if is_empty alias then None else Some alias.

(** Creation marks every member that is there, an update not the primary key. *)
Definition always (c : column) : bool := true.
Definition notKey (c : column) : bool := negb (c_pk c).

Definition fromJson (cs : list column) (j : json) : option model := readMembers j byName always (places cs) (blank cs).

Definition fromMasqueradedJson (cs : list column) (j : json) (vector : list string) : option model :=
  if negb (List.length vector =? List.length cs)%nat then Some (blank cs)
  else readMembers j (byAlias vector) always (places cs) (blank cs).

Definition updateByJson (cs : list column) (j : json) (m : model) : option model :=
  readMembers j byName notKey (places cs) m.

Definition updateByMasqueradedJson (cs : list column) (j : json) (vector : list string) (m : model) : option model :=
  if negb (List.length vector =? List.length cs)%nat then Some m
  else readMembers j (byAlias vector) notKey (places cs) m.

Definition valueJson (v : value) : json :=
  match v with
  | VInt z => of_int z
  | VText s => of_string s
  | VBool b => of_bool b
  | VDate t => of_string (toDbStringLocal t)
  end.

Definition memberJson (v : option value) : json := match v with Some v => valueJson v | None => jnull end.

(** [ret[key] = ..] for every column with a member. *)
Fixpoint writeMembers (key : nat * column -> option string) (ics : list (nat * column)) (m : model) (ret : json) :
    option json :=
  match ics with
  | [] => Some ret
  | ic :: ics' =>
      ret ← match key ic with Some k => jset ret k (memberJson (field (fst ic) m)) | None => Some ret end;
      writeMembers key ics' m ret
  end.

Definition toJson (cs : list column) (m : model) : option json := writeMembers byName (places cs) m jnull.

Definition toString (cs : list column) (m : model) : option string := toStyledString <$> toJson cs m.

Definition toMasqueradedJson (cs : list column) (m : model) (vector : list string) : option json :=
  if (List.length vector =? List.length cs)%nat then writeMembers (byAlias vector) (places cs) m jnull
  else toJson cs m.

(** ** Validation *)

(** The size of [from_bytes] of a text; [None]: it throws [std::range_error]. *)
Context (wideLength : string -> option Z).

(** [true]; [false] with an error text; an exception. *)
Inductive validity := Valid | Invalid (err : string) | LogicError | RangeError.

Definition andThen (a b : validity) : validity := match a with Valid => b | _ => a end.

(** An accessor that may throw [Json::LogicError]. *)
Definition accessing {A} (o : option A) (k : A -> validity) : validity :=
  match o with Some a => k a | None => LogicError end.

Definition hasJsonType (t : col_type) (v : json) : bool :=
  match t with TInt64 => isInt64 v | TBool => isBool v | TString | TDate => isString v end.

(** The text up to its first NUL ([asCString]). *)
Fixpoint cString (s : string) : string :=
  match s with
  | EmptyString => ""
  | String c s' => if Ascii.eqb c "000" then "" else String c (cString s')
  end.

Definition validLength (c : column) (fieldName : string) (v : json) : validity :=
  match c_type c with
  | TString =>
      if c_length c =? 0 then Valid
      else
        accessing (asString v) (fun s =>
        match wideLength (cString s) with
        | None => RangeError
        | Some n =>
            if c_length c <? n
            then Invalid ("String length exceeds limit for the " +:+ fieldName +:+ " field (the maximum value is "
                            +:+ to_string (c_length c) +:+ ")")
            else Valid
        end)
  | _ => Valid
  end.

Definition validJsonOfField (cs : list column) (index : nat) (fieldName : string) (v : json) (isForCreation : bool) :
    validity :=
  match cs !! index with
  | None => Invalid "Internal error in the server"
  | Some c =>
      if isNull v then if c_notNull c then Invalid ("The " +:+ fieldName +:+ " column cannot be null") else Valid
      else if c_auto c && isForCreation then Invalid "The automatic primary key cannot be set"
      else if negb (hasJsonType (c_type c) v) then Invalid ("Type error in the " +:+ fieldName +:+ " field")
      else validLength c fieldName v
  end.

(** [absent] is the error of a column without its member. *)
Fixpoint validateMembers (cs : list column) (j : json) (isForCreation : bool) (key : nat * column -> option string)
    (absent : column -> option string -> option string) (ics : list (nat * column)) : validity :=
  match ics with
  | [] => Valid
  | ic :: ics' =>
      let rest := validateMembers cs j isForCreation key absent ics' in
      let missing := match absent (snd ic) (key ic) with Some err => Invalid err | None => rest end in
      match key ic with
      | None => missing
      | Some k =>
          accessing (isMember j k) (fun there =>
          if (there : bool) then accessing (index j k) (fun v => andThen (validJsonOfField cs (fst ic) k v isForCreation) rest)
          else missing)
      end
  end.

(** A column that a creation has to name. *)
Definition required (c : column) : bool := c_notNull c && negb (c_auto c) && negb (c_default c).

(** A creation skips a column without a name; an update needs the primary key. *)
Definition absentAtCreation (c : column) (key : option string) : option string :=
  k ← key; if required c then Some ("The " +:+ k +:+ " column cannot be null") else None.

Definition absentAtUpdate (c : column) (key : option string) : option string :=
  if c_pk c then Some "The value of primary key must be set in the json object for update" else None.

Definition validateJsonForCreation (cs : list column) (j : json) : validity :=
  validateMembers cs j true byName absentAtCreation (places cs).

Definition validateJsonForUpdate (cs : list column) (j : json) : validity :=
  validateMembers cs j false byName absentAtUpdate (places cs).

(** [catch (const Json::LogicError &e) { err = e.what(); return false; }] *)
Definition caught (what : string) (v : validity) : validity := match v with LogicError => Invalid what | _ => v end.

Definition validateMasqueraded (cs : list column) (what : string) (vector : list string) (v : validity) : validity :=
  if negb (List.length vector =? List.length cs)%nat then Invalid "Bad masquerading vector" else caught what v.

Definition validateMasqueradedJsonForCreation (cs : list column) (what : string) (j : json) (vector : list string) :
    validity :=
  validateMasqueraded cs what vector (validateMembers cs j true (byAlias vector) absentAtCreation (places cs)).

Definition validateMasqueradedJsonForUpdate (cs : list column) (what : string) (j : json) (vector : list string) :
    validity :=
  validateMasqueraded cs what vector (validateMembers cs j false (byAlias vector) absentAtUpdate (places cs)).
End WithJson.
End Methods.

(** ** Relations *)

(** The model of a query's one row, or the text of the exception. *)
Definition oneRow {A} (read : sql_row -> A) (rows : list sql_row) : string + A :=
  match rows with
  | [] => inl "0 rows found"
  | [r] => inr (read r)
  | _ => inl "Found more than one row"
  end.
