(* ===== verification/PayOrder.v ===== *)
(** * PayOrder ([models/PayOrder.cc]): its columns and its methods. *)
From S2P Require Import Prelude Cxx Json Orm.

Definition metaData_ : list column :=
  [ Column "id" TInt64 8 true true true false;
    Column "order_no" TString 64 false false true false;
    Column "user_id" TInt64 8 false false true false;
    Column "amount" TString 32 false false true false;
    Column "currency" TString 8 false false true true;
    Column "status" TString 32 false false true true;
    Column "channel" TString 32 false false true true;
    Column "title" TString 512 false false false false;
    Column "expire_at" TDate 0 false false false false;
    Column "created_at" TDate 0 false false true true;
    Column "updated_at" TDate 0 false false true true ].

Definition tableName : string := quotedName "pay_order".

Definition primaryKeyName : string := "id".

(** [None]: the assertion fails. *)
Definition getColumnName (index : nat) : option string := c_name <$> metaData_ !! index.

Definition getColumnNumber : nat := 11.

(** ** Members *)

Definition getValueOfId (m : model) : Z := intValue (field 0 m).
Definition getId (m : model) : option value := field 0 m.
Definition setId (pId : Z) (m : model) : model := setField 0 (Some (VInt pId)) m.

Definition getValueOfOrderNo (m : model) : string := textValue (field 1 m).
Definition getOrderNo (m : model) : option value := field 1 m.
Definition setOrderNo (pOrderNo : string) (m : model) : model := setField 1 (Some (VText pOrderNo)) m.

Definition getValueOfUserId (m : model) : Z := intValue (field 2 m).
Definition getUserId (m : model) : option value := field 2 m.
Definition setUserId (pUserId : Z) (m : model) : model := setField 2 (Some (VInt pUserId)) m.

Definition getValueOfAmount (m : model) : string := textValue (field 3 m).
Definition getAmount (m : model) : option value := field 3 m.
Definition setAmount (pAmount : string) (m : model) : model := setField 3 (Some (VText pAmount)) m.

Definition getValueOfCurrency (m : model) : string := textValue (field 4 m).
Definition getCurrency (m : model) : option value := field 4 m.
Definition setCurrency (pCurrency : string) (m : model) : model := setField 4 (Some (VText pCurrency)) m.

Definition getValueOfStatus (m : model) : string := textValue (field 5 m).
Definition getStatus (m : model) : option value := field 5 m.
Definition setStatus (pStatus : string) (m : model) : model := setField 5 (Some (VText pStatus)) m.

Definition getValueOfChannel (m : model) : string := textValue (field 6 m).
Definition getChannel (m : model) : option value := field 6 m.
Definition setChannel (pChannel : string) (m : model) : model := setField 6 (Some (VText pChannel)) m.

Definition getValueOfTitle (m : model) : string := textValue (field 7 m).
Definition getTitle (m : model) : option value := field 7 m.
Definition setTitle (pTitle : string) (m : model) : model := setField 7 (Some (VText pTitle)) m.
Definition setTitleToNull (m : model) : model := setField 7 None m.

Definition getValueOfExpireAt (m : model) : Z := dateValue (field 8 m).
Definition getExpireAt (m : model) : option value := field 8 m.
Definition setExpireAt (pExpireAt : Z) (m : model) : model := setField 8 (Some (VDate pExpireAt)) m.
Definition setExpireAtToNull (m : model) : model := setField 8 None m.

Definition getValueOfCreatedAt (m : model) : Z := dateValue (field 9 m).
Definition getCreatedAt (m : model) : option value := field 9 m.
Definition setCreatedAt (pCreatedAt : Z) (m : model) : model := setField 9 (Some (VDate pCreatedAt)) m.

Definition getValueOfUpdatedAt (m : model) : Z := dateValue (field 10 m).
Definition getUpdatedAt (m : model) : option value := field 10 m.
Definition setUpdatedAt (pUpdatedAt : Z) (m : model) : model := setField 10 (Some (VDate pUpdatedAt)) m.

(** [None]: the assertion fails. *)
Definition getPrimaryKey (m : model) : option value := field 0 m.

(** ** Statements *)

Definition insertColumns : list string := Orm.insertColumns metaData_.
Definition outputArgs (m : model) : list (option value) := Orm.outputArgs metaData_ m.
Definition updateColumns (m : model) : list string := Orm.updateColumns metaData_ m.
Definition updateArgs (m : model) : list (option value) := Orm.updateArgs metaData_ m.
Definition sqlForInserting (m : model) : string * bool := Orm.sqlForInserting tableName metaData_ m.
Definition sqlForFindingByPrimaryKey : string := Orm.sqlForFindingByPrimaryKey tableName "id".
Definition sqlForDeletingByPrimaryKey : string := Orm.sqlForDeletingByPrimaryKey tableName "id".

(** ** Rows, JSON and validation *)

Section Methods.
Context (strptime : string -> option (Z * string)) (toDbStringLocal : Z -> string).
Context (as_int64 : string -> Z) (as_bool : string -> bool) (wideLength : string -> option Z).

Definition fromRow (r : sql_row) (indexOffset : Z) : model :=
  Orm.fromRow strptime as_int64 as_bool metaData_ r indexOffset.

Section WithJson.
Context `{J : JsonLib}.

Definition fromJson (pJson : json) : option model :=
  Orm.fromJson strptime metaData_ pJson.

Definition fromMasqueradedJson (pJson : json) (pMasqueradingVector : list string) : option model :=
  Orm.fromMasqueradedJson strptime metaData_ pJson pMasqueradingVector.

Definition updateByJson (pJson : json) (m : model) : option model :=
  Orm.updateByJson strptime metaData_ pJson m.

Definition updateByMasqueradedJson (pJson : json) (pMasqueradingVector : list string) (m : model) : option model :=
  Orm.updateByMasqueradedJson strptime metaData_ pJson pMasqueradingVector m.

Definition toJson (m : model) : option json :=
  Orm.toJson toDbStringLocal metaData_ m.

Definition toString (m : model) : option string :=
  Orm.toString toDbStringLocal metaData_ m.

Definition toMasqueradedJson (m : model) (pMasqueradingVector : list string) : option json :=
  Orm.toMasqueradedJson toDbStringLocal metaData_ m pMasqueradingVector.

Definition validJsonOfField (index : nat) (fieldName : string) (pJson : json) (isForCreation : bool) : validity :=
  Orm.validJsonOfField wideLength metaData_ index fieldName pJson isForCreation.

Definition validateJsonForCreation (pJson : json) : validity :=
  Orm.validateJsonForCreation wideLength metaData_ pJson.

Definition validateJsonForUpdate (pJson : json) : validity :=
  Orm.validateJsonForUpdate wideLength metaData_ pJson.

Definition validateMasqueradedJsonForCreation (what : string) (pJson : json) (pMasqueradingVector : list string) : validity :=
  Orm.validateMasqueradedJsonForCreation wideLength metaData_ what pJson pMasqueradingVector.

Definition validateMasqueradedJsonForUpdate (what : string) (pJson : json) (pMasqueradingVector : list string) : validity :=
  Orm.validateMasqueradedJsonForUpdate wideLength metaData_ what pJson pMasqueradingVector.

End WithJson.
End Methods.
