(* ===== verification/PayRefund.v ===== *)
(** * PayRefund ([models/PayRefund.cc]): its columns and its methods. *)
From S2P Require Import Prelude Cxx Json Orm PayOrder PayPayment.

Definition metaData_ : list column :=
  [ Column "id" TInt64 8 true true true false;
    Column "refund_no" TString 64 false false true false;
    Column "order_no" TString 64 false false true false;
    Column "payment_no" TString 64 false false true false;
    Column "status" TString 32 false false true true;
    Column "amount" TString 32 false false true false;
    Column "channel_refund_no" TString 64 false false false false;
    Column "request_payload" TString 0 false false false false;
    Column "response_payload" TString 0 false false false false;
    Column "created_at" TDate 0 false false true true;
    Column "updated_at" TDate 0 false false true true ].

Definition tableName : string := quotedName "pay_refund".

Definition primaryKeyName : string := "id".

(** [None]: the assertion fails. *)
Definition getColumnName (index : nat) : option string := c_name <$> metaData_ !! index.

Definition getColumnNumber : nat := 11.

(** ** Members *)

Definition getValueOfId (m : model) : Z := intValue (field 0 m).
Definition getId (m : model) : option value := field 0 m.
Definition setId (pId : Z) (m : model) : model := setField 0 (Some (VInt pId)) m.

Definition getValueOfRefundNo (m : model) : string := textValue (field 1 m).
Definition getRefundNo (m : model) : option value := field 1 m.
Definition setRefundNo (pRefundNo : string) (m : model) : model := setField 1 (Some (VText pRefundNo)) m.

Definition getValueOfOrderNo (m : model) : string := textValue (field 2 m).
Definition getOrderNo (m : model) : option value := field 2 m.
Definition setOrderNo (pOrderNo : string) (m : model) : model := setField 2 (Some (VText pOrderNo)) m.

Definition getValueOfPaymentNo (m : model) : string := textValue (field 3 m).
Definition getPaymentNo (m : model) : option value := field 3 m.
Definition setPaymentNo (pPaymentNo : string) (m : model) : model := setField 3 (Some (VText pPaymentNo)) m.

Definition getValueOfStatus (m : model) : string := textValue (field 4 m).
Definition getStatus (m : model) : option value := field 4 m.
Definition setStatus (pStatus : string) (m : model) : model := setField 4 (Some (VText pStatus)) m.

Definition getValueOfAmount (m : model) : string := textValue (field 5 m).
Definition getAmount (m : model) : option value := field 5 m.
Definition setAmount (pAmount : string) (m : model) : model := setField 5 (Some (VText pAmount)) m.

Definition getValueOfChannelRefundNo (m : model) : string := textValue (field 6 m).
Definition getChannelRefundNo (m : model) : option value := field 6 m.
Definition setChannelRefundNo (pChannelRefundNo : string) (m : model) : model := setField 6 (Some (VText pChannelRefundNo)) m.
Definition setChannelRefundNoToNull (m : model) : model := setField 6 None m.

Definition getValueOfRequestPayload (m : model) : string := textValue (field 7 m).
Definition getRequestPayload (m : model) : option value := field 7 m.
Definition setRequestPayload (pRequestPayload : string) (m : model) : model := setField 7 (Some (VText pRequestPayload)) m.
Definition setRequestPayloadToNull (m : model) : model := setField 7 None m.

Definition getValueOfResponsePayload (m : model) : string := textValue (field 8 m).
Definition getResponsePayload (m : model) : option value := field 8 m.
Definition setResponsePayload (pResponsePayload : string) (m : model) : model := setField 8 (Some (VText pResponsePayload)) m.
Definition setResponsePayloadToNull (m : model) : model := setField 8 None m.

Definition getValueOfCreatedAt (m : model) : Z := dateValue (field 9 m).
Definition getCreatedAt (m : model) : option value := field 9 m.
Definition setCreatedAt (pCreatedAt : Z) (m : model) : model := setField 9 (Some (VDate pCreatedAt)) m.

Definition getValueOfUpdatedAt (m : model) : Z := dateValue (field 10 m).
Definition getUpdatedAt (m : model) : option value := field 10 m.
Definition setUpdatedAt (pUpdatedAt : Z) (m : model) : model := setField 10 (Some (VDate pUpdatedAt)) m.

(** [None]: the assertion fails. *)
Definition getPrimaryKey (m : model) : option value := field 0 m.

(** ** Statements *)

Definition insertColumns : list string := Orm.insertColumns metaData_.
Definition outputArgs (m : model) : list (option value) := Orm.outputArgs metaData_ m.
Definition updateColumns (m : model) : list string := Orm.updateColumns metaData_ m.
Definition updateArgs (m : model) : list (option value) := Orm.updateArgs metaData_ m.
Definition sqlForInserting (m : model) : string * bool := Orm.sqlForInserting tableName metaData_ m.
Definition sqlForFindingByPrimaryKey : string := Orm.sqlForFindingByPrimaryKey tableName "id".
Definition sqlForDeletingByPrimaryKey : string := Orm.sqlForDeletingByPrimaryKey tableName "id".

(** ** Rows, JSON and validation *)

Section Methods.
Context (strptime : string -> option (Z * string)) (toDbStringLocal : Z -> string).
Context (as_int64 : string -> Z) (as_bool : string -> bool) (wideLength : string -> option Z).

Definition fromRow (r : sql_row) (indexOffset : Z) : model :=
  Orm.fromRow strptime as_int64 as_bool metaData_ r indexOffset.

(** [query] runs a statement with its arguments; [inl]: the text of an exception;
    [None]: a null pointer is read. *)
Definition getPayOrder (query : string -> list value -> string + list sql_row) (m : model) : option (string + model) :=
  orderNo ← getOrderNo m;
  Some match query "select * from pay_order where order_no = $1" [orderNo] with
       | inl err => inl err
       | inr r => oneRow (fun row => PayOrder.fromRow strptime as_int64 as_bool row 0) r
       end.

Definition getPayPayment (query : string -> list value -> string + list sql_row) (m : model) : option (string + model) :=
  paymentNo ← getPaymentNo m;
  Some match query "select * from pay_payment where payment_no = $1" [paymentNo] with
       | inl err => inl err
       | inr r => oneRow (fun row => PayPayment.fromRow strptime as_int64 as_bool row 0) r
       end.

Section WithJson.
Context `{J : JsonLib}.

Definition fromJson (pJson : json) : option model :=
  Orm.fromJson strptime metaData_ pJson.

Definition fromMasqueradedJson (pJson : json) (pMasqueradingVector : list string) : option model :=
  Orm.fromMasqueradedJson strptime metaData_ pJson pMasqueradingVector.

Definition updateByJson (pJson : json) (m : model) : option model :=
  Orm.updateByJson strptime metaData_ pJson m.

Definition updateByMasqueradedJson (pJson : json) (pMasqueradingVector : list string) (m : model) : option model :=
  Orm.updateByMasqueradedJson strptime metaData_ pJson pMasqueradingVector m.

Definition toJson (m : model) : option json :=
  Orm.toJson toDbStringLocal metaData_ m.

Definition toString (m : model) : option string :=
  Orm.toString toDbStringLocal metaData_ m.

Definition toMasqueradedJson (m : model) (pMasqueradingVector : list string) : option json :=
  Orm.toMasqueradedJson toDbStringLocal metaData_ m pMasqueradingVector.

Definition validJsonOfField (index : nat) (fieldName : string) (pJson : json) (isForCreation : bool) : validity :=
  Orm.validJsonOfField wideLength metaData_ index fieldName pJson isForCreation.

Definition validateJsonForCreation (pJson : json) : validity :=
  Orm.validateJsonForCreation wideLength metaData_ pJson.

Definition validateJsonForUpdate (pJson : json) : validity :=
  Orm.validateJsonForUpdate wideLength metaData_ pJson.

Definition validateMasqueradedJsonForCreation (what : string) (pJson : json) (pMasqueradingVector : list string) : validity :=
  Orm.validateMasqueradedJsonForCreation wideLength metaData_ what pJson pMasqueradingVector.

Definition validateMasqueradedJsonForUpdate (what : string) (pJson : json) (pMasqueradingVector : list string) : validity :=
  Orm.validateMasqueradedJsonForUpdate wideLength metaData_ what pJson pMasqueradingVector.

End WithJson.
End Methods.
