(* ===== verification/PayIdempotency.v ===== *)
(** * PayIdempotency ([models/PayIdempotency.cc]): its columns and its methods. *)
From S2P Require Import Prelude Cxx Json Orm.

Definition metaData_ : list column :=
  [ Column "idempotency_key" TString 128 false true true false;
    Column "request_hash" TString 64 false false true false;
    Column "response_snapshot" TString 0 false false false false;
    Column "expire_at" TDate 0 false false false false;
    Column "created_at" TDate 0 false false true true;
    Column "updated_at" TDate 0 false false true true;
    Column "owner_token" TString 64 false false false false ].

Definition tableName : string := quotedName "pay_idempotency".

Definition primaryKeyName : string := "idempotency_key".

(** [None]: the assertion fails. *)
Definition getColumnName (index : nat) : option string := c_name <$> metaData_ !! index.

Definition getColumnNumber : nat := 7.

(** ** Members *)

Definition getValueOfIdempotencyKey (m : model) : string := textValue (field 0 m).
Definition getIdempotencyKey (m : model) : option value := field 0 m.
Definition setIdempotencyKey (pIdempotencyKey : string) (m : model) : model := setField 0 (Some (VText pIdempotencyKey)) m.

Definition getValueOfRequestHash (m : model) : string := textValue (field 1 m).
Definition getRequestHash (m : model) : option value := field 1 m.
Definition setRequestHash (pRequestHash : string) (m : model) : model := setField 1 (Some (VText pRequestHash)) m.

Definition getValueOfResponseSnapshot (m : model) : string := textValue (field 2 m).
Definition getResponseSnapshot (m : model) : option value := field 2 m.
Definition setResponseSnapshot (pResponseSnapshot : string) (m : model) : model := setField 2 (Some (VText pResponseSnapshot)) m.
Definition setResponseSnapshotToNull (m : model) : model := setField 2 None m.

Definition getValueOfExpireAt (m : model) : Z := dateValue (field 3 m).
Definition getExpireAt (m : model) : option value := field 3 m.
Definition setExpireAt (pExpireAt : Z) (m : model) : model := setField 3 (Some (VDate pExpireAt)) m.
Definition setExpireAtToNull (m : model) : model := setField 3 None m.

Definition getValueOfCreatedAt (m : model) : Z := dateValue (field 4 m).
Definition getCreatedAt (m : model) : option value := field 4 m.
Definition setCreatedAt (pCreatedAt : Z) (m : model) : model := setField 4 (Some (VDate pCreatedAt)) m.

Definition getValueOfUpdatedAt (m : model) : Z := dateValue (field 5 m).
Definition getUpdatedAt (m : model) : option value := field 5 m.
Definition setUpdatedAt (pUpdatedAt : Z) (m : model) : model := setField 5 (Some (VDate pUpdatedAt)) m.

Definition getValueOfOwnerToken (m : model) : string := textValue (field 6 m).
Definition getOwnerToken (m : model) : option value := field 6 m.
Definition setOwnerToken (pOwnerToken : string) (m : model) : model := setField 6 (Some (VText pOwnerToken)) m.
Definition setOwnerTokenToNull (m : model) : model := setField 6 None m.

(** [None]: the assertion fails. *)
Definition getPrimaryKey (m : model) : option value := field 0 m.

(** ** Statements *)

Definition insertColumns : list string := Orm.insertColumns metaData_.
Definition outputArgs (m : model) : list (option value) := Orm.outputArgs metaData_ m.
Definition updateColumns (m : model) : list string := Orm.updateColumns metaData_ m.
Definition updateArgs (m : model) : list (option value) := Orm.updateArgs metaData_ m.
Definition sqlForInserting (m : model) : string * bool := Orm.sqlForInserting tableName metaData_ m.
Definition sqlForFindingByPrimaryKey : string := Orm.sqlForFindingByPrimaryKey tableName "idempotency_key".
Definition sqlForDeletingByPrimaryKey : string := Orm.sqlForDeletingByPrimaryKey tableName "idempotency_key".

(** ** Rows, JSON and validation *)

Section Methods.
Context (strptime : string -> option (Z * string)) (toDbStringLocal : Z -> string).
Context (as_int64 : string -> Z) (as_bool : string -> bool) (wideLength : string -> option Z).

Definition fromRow (r : sql_row) (indexOffset : Z) : model :=
  Orm.fromRow strptime as_int64 as_bool metaData_ r indexOffset.

Section WithJson.
Context `{J : JsonLib}.

Definition fromJson (pJson : json) : option model :=
  Orm.fromJson strptime metaData_ pJson.

Definition fromMasqueradedJson (pJson : json) (pMasqueradingVector : list string) : option model :=
  Orm.fromMasqueradedJson strptime metaData_ pJson pMasqueradingVector.

Definition updateByJson (pJson : json) (m : model) : option model :=
  Orm.updateByJson strptime metaData_ pJson m.

Definition updateByMasqueradedJson (pJson : json) (pMasqueradingVector : list string) (m : model) : option model :=
  Orm.updateByMasqueradedJson strptime metaData_ pJson pMasqueradingVector m.

Definition toJson (m : model) : option json :=
  Orm.toJson toDbStringLocal metaData_ m.

Definition toString (m : model) : option string :=
  Orm.toString toDbStringLocal metaData_ m.

Definition toMasqueradedJson (m : model) (pMasqueradingVector : list string) : option json :=
  Orm.toMasqueradedJson toDbStringLocal metaData_ m pMasqueradingVector.

Definition validJsonOfField (index : nat) (fieldName : string) (pJson : json) (isForCreation : bool) : validity :=
  Orm.validJsonOfField wideLength metaData_ index fieldName pJson isForCreation.

Definition validateJsonForCreation (pJson : json) : validity :=
  Orm.validateJsonForCreation wideLength metaData_ pJson.

Definition validateJsonForUpdate (pJson : json) : validity :=
  Orm.validateJsonForUpdate wideLength metaData_ pJson.

Definition validateMasqueradedJsonForCreation (what : string) (pJson : json) (pMasqueradingVector : list string) : validity :=
  Orm.validateMasqueradedJsonForCreation wideLength metaData_ what pJson pMasqueradingVector.

Definition validateMasqueradedJsonForUpdate (what : string) (pJson : json) (pMasqueradingVector : list string) : validity :=
  Orm.validateMasqueradedJsonForUpdate wideLength metaData_ what pJson pMasqueradingVector.

End WithJson.
End Methods.
