(* ===== verification/OrmStatements.v ===== *)
(** * The statements of a model: what an INSERT and an UPDATE write. *)
From S2P Require Import Prelude Cxx Orm.
From S2P Require PayOrder.

(** ** Definitions *)

(** What an INSERT gives a named column. *)
Inductive slot := Default | Bound (v : option value).

Definition slot_of (m : model) (ic : nat * column) : option slot :=
  if c_auto (snd ic) then Some Default
  else if is_dirty (fst ic) m then Some (Bound (field (fst ic) m))
  else if c_default (snd ic) then Some Default
  else None.

Definition columnName (ic : nat * column) : string := c_name (snd ic).

Definition named_slot (m : model) (ic : nat * column) : option (string * slot) := pair (columnName ic) <$> slot_of m ic.

Definition insertion (cs : list column) (m : model) : list (string * slot) := omap (named_slot m) (places cs).

(** A slot as text; the bound ones are numbered. *)
Fixpoint slotTexts (placeholder : Z) (ss : list slot) : list string :=
  match ss with
  | [] => []
  | Default :: ss' => "default" :: slotTexts placeholder ss'
  | Bound _ :: ss' => ("$" +:+ to_string placeholder) :: slotTexts (placeholder + 1) ss'
  end.

Definition insertText (tableName : string) (items : list (string * slot)) (returning : bool) : string :=
  "insert into " +:+ tableName +:+ " (" +:+ String.concat "," (map fst items) +:+ ") values ("
    +:+ String.concat "," (slotTexts 1 (map snd items)) +:+ ")" +:+ (if returning then " returning *" else "").

Definition boundValues (ss : list slot) : list (option value) :=
  omap (fun s => match s with Bound v => Some v | Default => None end) ss.

Definition isDefault (s : slot) : bool := match s with Default => true | Bound _ => false end.

(** The value of a column in the row an INSERT makes: [server] has the defaults; a
    column that is not named has none and becomes NULL. *)
Definition inserted (server : string -> option value) (items : list (string * slot)) (name : string) : option value :=
  match List.find (fun item => String.eqb (fst item) name) items with
  | Some (_, Bound v) => v
  | Some (_, Default) => server name
  | None => None
  end.

(** The value of a column after UPDATE .. SET. *)
Definition updated (now : string -> option value) (columns : list string) (args : list (option value)) (name : string) :
    option value :=
  match List.find (fun item => String.eqb (fst item) name) (combine columns args) with
  | Some (_, v) => v
  | None => now name
  end.

(** Setters called one after the other. *)
Definition setAll (sets : list (nat * option value)) (m : model) : model :=
  fold_left (fun m iv => setField (fst iv) (snd iv) m) sets m.

(** The last value that was set. *)
Fixpoint lastSet (i : nat) (sets : list (nat * option value)) : option (option value) :=
  match sets with
  | [] => None
  | (i', v) :: sets' => match lastSet i sets' with Some v' => Some v' | None => if (i =? i')%nat then Some v else None end
  end.

(** Every member and flag has its place. *)
Definition sized (cs : list column) (m : model) : Prop :=
  List.length (m_fields m) = List.length cs /\ List.length (m_dirty m) = List.length cs.

Definition clean (m : model) : Prop := forall i, is_dirty i m = false.

(** ** Texts *)

(** Each part followed by a comma. *)
Definition commas (parts : list string) : string := fold_right (fun s rest => s +:+ "," +:+ rest) "" parts.

Lemma dropLast_cons c s : s <> "" -> dropLast (String c s) = String c (dropLast s).
Proof. by destruct s. Qed.

Lemma dropLast_app a b : b <> "" -> dropLast (a +:+ b) = a +:+ dropLast b.
Proof.
  intros Hb. induction a as [|c a IH]; [done |]. change (String c a +:+ b) with (String c (a +:+ b)).
  rewrite dropLast_cons, IH; [done |]. by destruct a.
Qed.

Lemma commas_cons s parts : commas (s :: parts) = s +:+ "," +:+ commas parts.
Proof. done. Qed.

Lemma commas_nonempty parts : parts <> [] -> commas parts <> "".
Proof. destruct parts as [|[|] parts]; by intros. Qed.

Lemma dropLast_commas parts : parts <> [] -> dropLast (commas parts) = String.concat "," parts.
Proof.
  intros H. induction parts as [|s parts IH]; [done |]. rewrite commas_cons, dropLast_app by done.
  destruct parts as [|s' parts]; [apply sapp_nil_r |].
  rewrite dropLast_app by (by apply commas_nonempty). by rewrite IH.
Qed.

Lemma dropLast_parts a parts : parts <> [] -> dropLast (a +:+ commas parts) = a +:+ String.concat "," parts.
Proof. intros H. by rewrite dropLast_app, dropLast_commas; [|done|by apply commas_nonempty]. Qed.

Lemma columnList_commas m ics : columnList m ics = commas (map fst (omap (named_slot m) ics)).
Proof.
  induction ics as [|ic ics IH]; [done |]. simpl. rewrite IH. unfold insertNamed, named_slot, slot_of.
  destruct (c_auto (snd ic)), (is_dirty (fst ic) m), (c_default (snd ic)); simpl; by rewrite ?sapp_assoc.
Qed.

Lemma valueList_commas m k ics : valueList m k ics = commas (slotTexts k (map snd (omap (named_slot m) ics))).
Proof.
  revert k. induction ics as [|ic ics IH]; intros k; [done |]. simpl. unfold named_slot, slot_of.
  destruct (c_auto (snd ic)), (is_dirty (fst ic) m), (c_default (snd ic)); simpl; rewrite ?IH; by rewrite ?sapp_assoc.
Qed.

Lemma named_count m ics :
  List.length (List.filter (insertNamed m) ics) = List.length (omap (named_slot m) ics).
Proof.
  induction ics as [|ic ics IH]; [done |]. simpl. unfold insertNamed at 1, named_slot at 1, slot_of.
  destruct (c_auto (snd ic)), (is_dirty (fst ic) m), (c_default (snd ic)); simpl; by rewrite ?IH.
Qed.

Lemma slotTexts_length k ss : List.length (slotTexts k ss) = List.length ss.
Proof. revert k. induction ss as [|[|v] ss IH]; intros k; simpl; [done | by rewrite IH..]. Qed.

Lemma bound_args m ics :
  map (fun ic => field (fst ic) m) (List.filter (bound m) ics) = boundValues (map snd (omap (named_slot m) ics)).
Proof.
  unfold boundValues. induction ics as [|ic ics IH]; [done |]. simpl. unfold bound at 1, named_slot at 1, slot_of.
  destruct (c_auto (snd ic)), (is_dirty (fst ic) m), (c_default (snd ic)); simpl; by rewrite ?IH.
Qed.

Lemma selection_default m ics :
  existsb (fun ic => c_auto (snd ic) || (c_default (snd ic) && negb (is_dirty (fst ic) m))) ics
    = existsb isDefault (map snd (omap (named_slot m) ics)).
Proof.
  induction ics as [|ic ics IH]; [done |]. simpl. unfold named_slot, slot_of.
  destruct (c_auto (snd ic)), (is_dirty (fst ic) m), (c_default (snd ic)); simpl; by rewrite ?IH.
Qed.

Lemma insert_text tableName cs m :
  sqlForInserting tableName cs m =
    (insertText tableName (insertion cs m) (existsb isDefault (map snd (insertion cs m))),
     existsb isDefault (map snd (insertion cs m))).
Proof.
  unfold sqlForInserting, insertText, insertion. rewrite selection_default, named_count, columnList_commas, valueList_commas.
  set (items := omap (named_slot m) (places cs)). set (sel := existsb isDefault (map snd items)).
  assert (Hl : forall k, List.length (slotTexts k (map snd items)) = List.length items)
    by (intros k; by rewrite slotTexts_length, length_map).
  destruct items as [|item items'] eqn:E; [subst sel; simpl; by rewrite ?sapp_assoc |]. rewrite <- E in *. cbv zeta.
  assert (Hc : (0 <? List.length items)%nat = true) by (rewrite E; done). rewrite Hc.
  assert (H1 : map fst items <> []) by (by rewrite E). assert (H2 : slotTexts 1 (map snd items) <> []).
  { intros H. specialize (Hl 1). rewrite H, E in Hl. done. }
  replace ("insert into " +:+ tableName +:+ " (" +:+ commas (map fst items))
    with (("insert into " +:+ tableName +:+ " (") +:+ commas (map fst items)) by (by rewrite !sapp_assoc).
  rewrite !dropLast_parts by done. f_equal.
  destruct sel; by rewrite !sapp_assoc.
Qed.

(** ** Columns by name *)

Lemma places_at cs i c : cs !! i = Some c -> In (i, c) (places cs).
Proof.
  intros H. apply list_elem_of_In, list_elem_of_lookup. exists i. unfold places. by rewrite list_lookup_imap, H.
Qed.

Lemma places_in cs i c : In (i, c) (places cs) -> cs !! i = Some c.
Proof.
  intros H. apply list_elem_of_In, list_elem_of_lookup in H as [k H]. unfold places in H.
  rewrite list_lookup_imap in H. destruct (cs !! k) as [c'|] eqn:E; [|done]. by injection H as -> ->.
Qed.

Lemma places_names cs : map columnName (places cs) = map c_name cs.
Proof.
  apply list_eq. intros i. unfold places. change (@map) with (@fmap list list_fmap).
  rewrite !list_lookup_fmap, list_lookup_imap. by destruct (cs !! i).
Qed.

(** Among distinct names a column finds what was recorded for it. *)
Lemma find_column {B} (f : nat * column -> option B) ics ic :
  NoDup (map columnName ics) -> In ic ics ->
  List.find (fun item => String.eqb (fst item) (columnName ic)) (omap (fun ic => pair (columnName ic) <$> f ic) ics)
    = pair (columnName ic) <$> f ic.
Proof.
  induction ics as [|ic' ics IH]; [done |]. intros Hd Hin. simpl in Hd. apply NoDup_cons in Hd as [Hn Hd]. simpl.
  assert (Hother : forall ic0, In ic0 ics -> columnName ic' <> columnName ic0).
  { intros ic0 H0 He. apply Hn. rewrite He. apply list_elem_of_In, in_map, H0. }
  destruct Hin as [->|Hin].
  - destruct (f ic); simpl; [by rewrite String.eqb_refl |].
    match goal with |- List.find ?p ?l = None => destruct (List.find p l) as [[n b]|] eqn:E end; [|done].
    apply find_some in E as [Hi He]. simpl in He. apply String.eqb_eq in He as ->.
    apply list_elem_of_In, list_elem_of_omap in Hi as (ic0 & H0 & Hf).
    destruct (f ic0); [|done]. injection Hf as He _. apply list_elem_of_In in H0. by apply Hother in H0.
  - destruct (f ic'); simpl; [|by apply IH]. rewrite (proj2 (String.eqb_neq _ _)); [by apply IH | by apply Hother].
Qed.

Lemma bound_pairs m ics :
  combine (map (fun ic => c_name (snd ic)) (List.filter (bound m) ics)) (map (fun ic => field (fst ic) m) (List.filter (bound m) ics))
    = omap (fun ic => pair (columnName ic) <$> (if bound m ic then Some (field (fst ic) m) else None)) ics.
Proof. induction ics as [|ic ics IH]; [done |]. simpl. by destruct (bound m ic); simpl; rewrite IH. Qed.

Lemma insertion_names m ics : sublist (map fst (omap (named_slot m) ics)) (map columnName ics).
Proof.
  induction ics as [|ic ics IH]; simpl; [constructor |]. unfold named_slot at 1.
  destruct (slot_of m ic); simpl; by constructor.
Qed.

(** ** Setters *)

Lemma setField_sized cs i v m : sized cs m -> sized cs (setField i v m).
Proof. intros [H1 H2]. split; simpl; by rewrite length_insert. Qed.

Lemma setAll_sized cs sets m : sized cs m -> sized cs (setAll sets m).
Proof. revert m. induction sets as [|[i v] sets IH]; intros m H; [done |]. by apply IH, setField_sized. Qed.

Lemma setField_same cs i v m :
  sized cs m -> (i < List.length cs)%nat -> is_dirty i (setField i v m) = true /\ field i (setField i v m) = v.
Proof.
  intros [H1 H2] Hi. unfold is_dirty, field. simpl. rewrite !list_lookup_insert_eq by lia. by split.
Qed.

Lemma setField_other i j v m :
  i <> j -> is_dirty j (setField i v m) = is_dirty j m /\ field j (setField i v m) = field j m.
Proof. intros Hne. unfold is_dirty, field. simpl. by rewrite !list_lookup_insert_ne. Qed.

Lemma setAll_last cs sets m i :
  sized cs m -> (i < List.length cs)%nat ->
  is_dirty i (setAll sets m) = (match lastSet i sets with Some _ => true | None => is_dirty i m end) /\
  field i (setAll sets m) = default (field i m) (lastSet i sets).
Proof.
  intros Hs Hi. revert m Hs. induction sets as [|[i' v] sets IH]; intros m Hs; [done |].
  destruct (IH (setField i' v m) (setField_sized _ _ _ _ Hs)) as [Hd Hf]. simpl.
  change (setAll ((i', v) :: sets) m) with (setAll sets (setField i' v m)). rewrite Hd, Hf.
  destruct (lastSet i sets); [done |]. destruct (Nat.eqb_spec i i') as [<-|Hne].
  - by apply (setField_same cs).
  - destruct (setField_other i' i v m) as [-> ->]; done.
Qed.

Lemma setAll_other sets m i : lastSet i sets = None -> field i (setAll sets m) = field i m.
Proof.
  revert m. induction sets as [|[i' v] sets IH]; intros m H; [done |]. simpl in H. destruct (lastSet i sets) eqn:E; [done |].
  destruct (Nat.eqb_spec i i'); [done |]. change (field i (setAll sets (setField i' v m)) = field i m).
  rewrite IH by done. by apply setField_other.
Qed.

Lemma blank_sized cs : sized cs (blank cs).
Proof. by split; simpl; rewrite length_map. Qed.

Lemma blank_clean cs i : is_dirty i (blank cs) = false.
Proof. unfold is_dirty. simpl. change (@map) with (@fmap list list_fmap). rewrite list_lookup_fmap. by destruct (cs !! i). Qed.

(** A model from a result row has nothing to write. *)
Lemma fromRow_sized strptime as_int64 as_bool cs r offset : sized cs (fromRow strptime as_int64 as_bool cs r offset).
Proof.
  unfold fromRow, places. destruct (offset <? 0); [split; simpl; by rewrite length_map |].
  destruct (_ <? _)%nat; [apply blank_sized |]. split; simpl; by rewrite ?length_map, ?length_imap.
Qed.

Lemma fromRow_clean strptime as_int64 as_bool cs r offset : clean (fromRow strptime as_int64 as_bool cs r offset).
Proof.
  intros i. rewrite <- (blank_clean cs i). unfold fromRow. destruct (offset <? 0); [done |]. by destruct (_ <? _)%nat.
Qed.

(** ** Updates *)

(** What was set is written, and nothing else: whatever the row holds by then, its other
    columns keep their values, the automatic key among them. *)
Lemma update_at cs m sets now ic :
  NoDup (map c_name cs) -> sized cs m -> clean m -> In ic (places cs) ->
  updated now (updateColumns cs (setAll sets m)) (updateArgs cs (setAll sets m)) (columnName ic) =
    match lastSet (fst ic) sets with
    | Some v => if c_auto (snd ic) then now (columnName ic) else v
    | None => now (columnName ic)
    end.
Proof.
  intros Hd Hs Hc Hin. unfold updated, updateColumns, updateArgs. rewrite bound_pairs. rewrite <- places_names in Hd.
  rewrite (find_column _ _ _ Hd Hin). unfold bound. destruct ic as [i c]. simpl.
  destruct (setAll_last cs sets m i Hs (lookup_lt_Some _ _ _ (places_in _ _ _ Hin))) as [-> ->]. rewrite Hc.
  destruct (lastSet i sets); [|by rewrite andb_false_r]. by destruct (c_auto c).
Qed.

(** The same for a name, whether it is a column's or not. *)
Lemma update_by_name cs m sets now name :
  NoDup (map c_name cs) -> sized cs m -> clean m ->
  updated now (updateColumns cs (setAll sets m)) (updateArgs cs (setAll sets m)) name =
    match List.find (fun ic => String.eqb (columnName ic) name) (places cs) with
    | Some ic => match lastSet (fst ic) sets with
                 | Some v => if c_auto (snd ic) then now name else v
                 | None => now name
                 end
    | None => now name
    end.
Proof.
  intros Hd Hs Hc. destruct (List.find _ _) as [ic|] eqn:E.
  - apply find_some in E as [Hin He]. apply String.eqb_eq in He as <-. by apply update_at.
  - unfold updated, updateColumns, updateArgs. rewrite bound_pairs.
    match goal with |- context [List.find ?p ?l] => destruct (List.find p l) as [[n b]|] eqn:F end; [|done].
    apply find_some in F as [Hi He]. simpl in He. apply String.eqb_eq in He as ->.
    apply list_elem_of_In, list_elem_of_omap in Hi as (ic & Hic & Hf). apply list_elem_of_In in Hic.
    pose proof (find_none _ _ E _ Hic) as Hne. simpl in Hne. apply String.eqb_neq in Hne.
    destruct (bound _ ic); [|done]. by injection Hf as ? _.
Qed.

(** ** Theorems *)

(** C27. The INSERT of a model is consistent, for every table with distinct column names
    and every model: the text names each column of the insertion once, numbers the
    bound ones from $1 on without a gap, and the arguments are bound in that order;
    the row it makes has every marked column as the model holds it (also NULL), and
    every other one as the server's default or NULL; and it asks for the row back if
    and only if the server chooses something. *)
Theorem insert_consistent tableName cs m :
  NoDup (map c_name cs) ->
  exists items,
    sqlForInserting tableName cs m =
      (insertText tableName items (existsb isDefault (map snd items)), existsb isDefault (map snd items)) /\
    outputArgs cs m = boundValues (map snd items) /\
    sublist (map fst items) (map c_name cs) /\
    forall i c server, cs !! i = Some c ->
      inserted server items (c_name c) =
        if c_auto c then server (c_name c)
        else if is_dirty i m then field i m
        else if c_default c then server (c_name c)
        else None.
Proof.
  intros Hd. exists (insertion cs m). split; [apply insert_text |]. split; [apply bound_args |].
  rewrite <- places_names in *. split; [apply insertion_names |].
  intros i c server Hi. unfold inserted, insertion, named_slot.
  change (c_name c) with (columnName (i, c)). rewrite (find_column (slot_of m) _ _ Hd (places_at _ _ _ Hi)). unfold slot_of. simpl.
  by destruct (c_auto c), (is_dirty i m), (c_default c).
Qed.

(** ** Examples *)

Definition sample_order : model :=
  PayOrder.setTitle "Tea" (PayOrder.setAmount "9.99" (PayOrder.setUserId 7 (PayOrder.setOrderNo "ORD1" (blank PayOrder.metaData_)))).

Lemma distinct_names cs : bool_decide (NoDup (map c_name cs)) = true -> NoDup (map c_name cs).
Proof. apply bool_decide_eq_true_1. Qed.

Lemma insert_consistent_witness :
  PayOrder.sqlForInserting sample_order =
    ("insert into " +:+ PayOrder.tableName +:+ " (id,order_no,user_id,amount,currency,status,channel,title,created_at,updated_at)"
       +:+ " values (default,$1,$2,$3,default,default,default,$4,default,default) returning *", true) /\
  exists items,
    sqlForInserting PayOrder.tableName PayOrder.metaData_ sample_order =
      (insertText PayOrder.tableName items (existsb isDefault (map snd items)), existsb isDefault (map snd items)) /\
    outputArgs PayOrder.metaData_ sample_order = boundValues (map snd items).
Proof.
  split; [reflexivity |].
  destruct (insert_consistent PayOrder.tableName PayOrder.metaData_ sample_order) as (items & H & Ho & _).
  { by apply distinct_names. }
  by exists items.
Defined.
