(* ===== verification/OrmJson.v ===== *)
(** * Models and JSON: what is written reads back, and what is valid can be read. *)
From S2P Require Import Prelude Cxx Json Orm OrmStatements.
From S2P Require PayOrder PayPayment.

(** ** Definitions *)

Definition isOfType (t : col_type) (v : value) : Prop :=
  match t, v with
  | TInt64, VInt _ | TString, VText _ | TBool, VBool _ | TDate, VDate _ => True
  | _, _ => False
  end.

(** Every member holds a value of its column's type. *)
Definition typed (cs : list column) (m : model) : Prop :=
  forall i c v, cs !! i = Some c -> field i m = Some v -> isOfType (c_type c) v.

Section Json.
Context `{J : JsonLib} {JL : JsonLaws J} {JT : JsonTyped J} {JV : JsonTests J}.
Context (strptime : string -> option (Z * string)) (toDbStringLocal : Z -> string).

Abbreviation read := (readMember strptime).
Abbreviation readAll := (readMembers strptime).

(** ** Reading member by member *)

Lemma readMember_found j key marks ic m r :
  jfind j key = Some r ->
  read j key marks ic m =
    match r with
    | None => Some m
    | Some v =>
        let m := if marks then mark (fst ic) m else m in
        if isNull v then Some m
        else x ← jsonValue strptime (snd ic) v; Some (match x with Some _ => store (fst ic) x m | None => m end)
    end.
Proof. intros H. unfold readMember, isMember, index, get. rewrite H. by destruct r. Qed.

Lemma readMember_sized cs j key marks ic m m' : read j key marks ic m = Some m' -> sized cs m -> sized cs m'.
Proof.
  unfold readMember. intros H Hs.
  assert (Hm : forall b : bool, sized cs (if b then mark (fst ic) m else m)).
  { intros []; [|done]. destruct Hs as [H1 H2]. split; simpl; by rewrite ?length_insert. }
  apply bind_Some in H as ([] & _ & H); [|by injection H as <-].
  apply bind_Some in H as (v & _ & H). destruct (isNull v); [by injection H as <- |].
  apply bind_Some in H as ([x|] & _ & H); injection H as <-; [|done].
  destruct (Hm marks) as [H1 H2]. split; simpl; by rewrite ?length_insert.
Qed.

Lemma readMember_other j key marks ic m m' i :
  read j key marks ic m = Some m' -> i <> fst ic -> field i m' = field i m /\ is_dirty i m' = is_dirty i m.
Proof.
  unfold readMember. intros H Hi.
  assert (Hm : forall b : bool, field i (if b then mark (fst ic) m else m) = field i m /\
                                is_dirty i (if b then mark (fst ic) m else m) = is_dirty i m).
  { intros []; [|done]. unfold field, is_dirty. simpl. by rewrite list_lookup_insert_ne. }
  apply bind_Some in H as ([] & _ & H); [|by injection H as <-].
  apply bind_Some in H as (v & _ & H). destruct (isNull v); [by injection H as <- |].
  apply bind_Some in H as ([x|] & _ & H); injection H as <-; [|done].
  destruct (Hm marks) as [<- <-]. unfold field, is_dirty. simpl. by rewrite list_lookup_insert_ne.
Qed.

Lemma readMembers_total j marks ics m :
  (forall ic m, In ic ics -> exists m', read j (columnName ic) (marks (snd ic)) ic m = Some m') ->
  exists m', readAll j byName marks ics m = Some m'.
Proof.
  revert m. induction ics as [|ic ics IH]; intros m H; [by exists m |]. simpl.
  destruct (H ic m (or_introl eq_refl)) as [m1 H1]. unfold columnName in H1. rewrite H1. simpl.
  apply IH. intros ic' m' Hin. apply H. by right.
Qed.

(** Each place is read once. *)
Lemma readMembers_at cs j marks ics m m' ic :
  NoDup (map fst ics) -> sized cs m -> readAll j byName marks ics m = Some m' -> In ic ics ->
  exists m1 m2, read j (columnName ic) (marks (snd ic)) ic m1 = Some m2 /\ sized cs m1 /\
    field (fst ic) m1 = field (fst ic) m /\ is_dirty (fst ic) m1 = is_dirty (fst ic) m /\
    field (fst ic) m' = field (fst ic) m2 /\ is_dirty (fst ic) m' = is_dirty (fst ic) m2.
Proof.
  assert (Hrest : forall ics m m' i, readAll j byName marks ics m = Some m' -> ~ In i (map fst ics) ->
    field i m' = field i m /\ is_dirty i m' = is_dirty i m).
  { clear. induction ics as [|ic ics IH]; intros m m' i H Hi; [by injection H as -> |]. simpl in H, Hi.
    apply bind_Some in H as (m1 & H1 & H). destruct (IH _ _ i H) as [-> ->]; [tauto |].
    eapply readMember_other; [exact H1 | intros ->; tauto]. }
  revert m. induction ics as [|ic' ics IH]; [done |]. intros m Hd Hs H Hin. simpl in Hd, H.
  apply NoDup_cons in Hd as [Hn Hd]. apply bind_Some in H as (m1 & H1 & H).
  pose proof (readMember_sized _ _ _ _ _ _ _ H1 Hs) as Hs1. destruct Hin as [->|Hin].
  - exists m, m1. do 4 (split; [done |]). apply (Hrest ics); [done |]. intros Hi. by apply Hn, list_elem_of_In.
  - destruct (IH m1 Hd Hs1 H Hin) as (a & b & Hr & Hsa & Hf & Hdd & Hrest').
    destruct (readMember_other _ _ _ _ _ _ (fst ic) H1) as [Ef Ed].
    { intros E. apply Hn, list_elem_of_In. rewrite <- E. by apply in_map. }
    exists a, b. rewrite Hf, Hdd, Ef, Ed. repeat split; try tauto; apply Hsa.
Qed.

Lemma readMembers_sized cs j key marks ics m m' :
  readAll j key marks ics m = Some m' -> sized cs m -> sized cs m'.
Proof.
  revert m. induction ics as [|ic ics IH]; intros m H Hs; [by injection H as -> |]. simpl in H.
  apply bind_Some in H as (m1 & H1 & H). apply (IH _ H). destruct (key ic); [|by injection H1 as <-].
  eapply readMember_sized; [exact H1 | done].
Qed.

Lemma places_distinct cs : NoDup (map fst (places cs)).
Proof.
  assert (H : map fst (places cs) = seq 0 (List.length cs)); [|rewrite H; apply NoDup_seq].
  apply list_eq. intros i. change (@map) with (@fmap list list_fmap). unfold places.
  rewrite list_lookup_fmap, list_lookup_imap. destruct (cs !! i) eqn:E; simpl.
  - apply lookup_lt_Some in E. by rewrite lookup_seq_lt.
  - apply lookup_ge_None in E. by rewrite lookup_seq_ge.
Qed.

Lemma blank_field cs i : field i (blank cs) = None.
Proof. unfold field. simpl. change (@map) with (@fmap list list_fmap). rewrite list_lookup_fmap. by destruct (cs !! i). Qed.

(** A model is its members and its flags. *)
Lemma model_eq cs m fs :
  sized cs m -> List.length fs = List.length cs ->
  (forall i, (i < List.length cs)%nat -> field i m = default None (fs !! i) /\ is_dirty i m = true) ->
  m = Model fs (map (fun _ => true) cs).
Proof.
  intros [H1 H2] Hl H. destruct m as [fields dirty]. simpl in *. f_equal.
  - apply list_eq. intros i. destruct (decide (i < List.length cs)%nat) as [Hi|Hi].
    + destruct (H i Hi) as [Hf _]. unfold field in Hf. simpl in Hf.
      destruct (lookup_lt_is_Some_2 fields i ltac:(lia)) as [x Hx], (lookup_lt_is_Some_2 fs i ltac:(lia)) as [y Hy].
      rewrite Hx, Hy in *. simpl in Hf. by subst.
    + by rewrite !lookup_ge_None_2 by lia.
  - apply list_eq. intros i. change (@map) with (@fmap list list_fmap). rewrite list_lookup_fmap.
    destruct (cs !! i) eqn:E; simpl.
    + apply lookup_lt_Some in E. destruct (H i E) as [_ Hd]. unfold is_dirty in Hd. simpl in Hd.
      destruct (dirty !! i) as [[]|] eqn:Ed; done.
    + apply lookup_ge_None in E. apply lookup_ge_None. lia.
Qed.

(** ** Writing *)

Lemma writeMembers_total ics m ret :
  ret = jnull \/ isObject ret = true -> exists j, writeMembers toDbStringLocal byName ics m ret = Some j.
Proof.
  revert ret. induction ics as [|ic ics IH]; intros ret H; [by exists ret |]. simpl.
  destruct (jset_total ret (c_name (snd ic)) (memberJson toDbStringLocal (field (fst ic) m)) H) as (ret' & -> & Ho).
  apply IH. by right.
Qed.

Lemma writeMembers_other ics m ret j key :
  writeMembers toDbStringLocal byName ics m ret = Some j -> ~ In key (map columnName ics) -> jfind j key = jfind ret key.
Proof.
  revert ret. induction ics as [|ic ics IH]; intros ret H Hn; [by injection H as -> |]. simpl in H, Hn.
  apply bind_Some in H as (ret' & Hs & H). rewrite (IH _ H), (jfind_jset _ _ _ _ Hs); [|tauto].
  destruct (String.eqb_spec (c_name (snd ic)) key); [tauto | done].
Qed.

Lemma writeMembers_at ics m ret j ic :
  NoDup (map columnName ics) -> writeMembers toDbStringLocal byName ics m ret = Some j -> In ic ics ->
  jfind j (columnName ic) = Some (Some (memberJson toDbStringLocal (field (fst ic) m))).
Proof.
  revert ret. induction ics as [|ic' ics IH]; [done |]. intros ret Hd H Hin. simpl in Hd, H.
  apply NoDup_cons in Hd as [Hn Hd]. apply bind_Some in H as (ret' & Hs & H). destruct Hin as [->|Hin]; [|by eapply IH].
  rewrite (writeMembers_other _ _ _ _ _ H), (jfind_jset _ _ _ _ Hs).
  - unfold columnName. by rewrite String.eqb_refl.
  - intros Hi. by apply Hn, list_elem_of_In.
Qed.

(** What a member is after [toJson] and the constructor: a date is read from the text
    it is printed as. *)
Definition reread (v : option value) : option value :=
  match v with
  | Some (VDate t) => VDate <$> parseDate strptime (toDbStringLocal t)
  | _ => v
  end.

Lemma value_back c v :
  isOfType (c_type c) v ->
  isNull (valueJson toDbStringLocal v) = false /\
  jsonValue strptime c (valueJson toDbStringLocal v) = Some (reread (Some v)).
Proof.
  intros Ht. unfold jsonValue. destruct (c_type c), v; try done; simpl;
    by rewrite ?isNull_of_int, ?isNull_of_string, ?isNull_of_bool, ?asInt64_of_int, ?asString_of_string, ?asBool_of_bool.
Qed.

(** Reading the members [toJson] wrote. *)
Lemma read_written cs m j ic m0 :
  NoDup (map columnName (places cs)) -> typed cs m ->
  writeMembers toDbStringLocal byName (places cs) m jnull = Some j -> In ic (places cs) ->
  read j (columnName ic) true ic m0 = Some (match reread (field (fst ic) m) with
    | Some v => store (fst ic) (Some v) (mark (fst ic) m0) | None => mark (fst ic) m0 end).
Proof.
  intros Hn Ht Hj Hin. destruct ic as [i c].
  rewrite (readMember_found _ _ _ _ _ _ (writeMembers_at _ _ _ _ _ Hn Hj Hin)). simpl.
  destruct (field i m) as [v|] eqn:Hf; simpl; [|by rewrite isNull_jnull].
  destruct (value_back c v) as [Hnull Hv]; [by apply (Ht i c v); [apply places_in |] |].
  rewrite Hnull, Hv. simpl. by destruct v; [..|destruct (parseDate _ _)].
Qed.

(** The fraction that follows the seconds, with up to six digits. *)
Lemma atol_padded ds :
  all_digits ds = true -> slen ds <= 6 -> atol (padded ds) = digits_value 0 ds * 10 ^ (6 - slen ds).
Proof.
  intros Hd Hl.
  assert (Hall : forall s, all_digits s = true -> atol s = digits_value 0 s).
  { intros s Hs. unfold atol. destruct s as [|c s]; [done |].
    pose proof Hs as Hs'. simpl in Hs. apply andb_true_iff in Hs as [Hc _]. cbn [skip_spaces].
    rewrite (isdigit_not_space c Hc).
    destruct c as [[] [] [] [] [] [] [] []]; try done; by rewrite take_digits_all. }
  assert (Hz : forall k x, (k <= 6)%nat -> all_digits (String.substring 0 k "000000") = true /\
    digits_value x (String.substring 0 k "000000") = x * 10 ^ Z.of_nat k).
  { intros k x Hk. do 7 (destruct k as [|k]; [cbn -[Z.mul Z.add Z.pow]; change (digit "0") with 0; split; [done | lia] |]). lia. }
  unfold slen in *. destruct (Hz (6 - String.length ds)%nat (digits_value 0 ds) ltac:(lia)) as [Hz1 Hz2].
  unfold padded. rewrite Hall, digits_value_app, Hz2; [by rewrite Nat2Z.inj_sub by lia |].
  by rewrite all_char_app, Hd, Hz1.
Qed.

(** C28. A model and its JSON.  For every table with distinct column names and every
    model whose members have the types of their columns: [toJson] does not throw, and
    the constructor makes of its result a model with the same members, set or not, all
    of them marked for the next statement, except that a date is what its printed text
    reads as.  Of a date whose text [strptime] does not read (trantor prints midnight
    without its time) nothing is left; one whose text reads as [secs] seconds comes back
    as these and the fraction that follows, in microseconds for up to six digits,
    at 64 bits. *)
Theorem json_roundtrip cs m :
  NoDup (map c_name cs) -> sized cs m -> typed cs m ->
  (exists j, toJson toDbStringLocal cs m = Some j /\
     fromJson strptime cs j = Some (Model (map reread (m_fields m)) (map (fun _ => true) cs))) /\
  (forall v, (forall t, v <> Some (VDate t)) -> reread v = v) /\
  (forall t, strptime (toDbStringLocal t) = None -> reread (Some (VDate t)) = None) /\
  (forall t secs, strptime (toDbStringLocal t) = Some (secs, "") ->
     reread (Some (VDate t)) = Some (VDate (wrap64 (secs * 1000000)))) /\
  (forall t secs ds, strptime (toDbStringLocal t) = Some (secs, String "." ds) ->
     all_digits ds = true -> slen ds <= 6 ->
     reread (Some (VDate t)) = Some (VDate (wrap64 (secs * 1000000 + digits_value 0 ds * 10 ^ (6 - slen ds))))).
Proof.
  intros Hn Hs Ht. split; [|split; [|split; [|split]]].
  - destruct (writeMembers_total (places cs) m jnull (or_introl eq_refl)) as [j Hj].
    exists j. split; [exact Hj |]. rewrite <- places_names in Hn.
    pose proof (fun ic m0 => read_written cs m j ic m0 Hn Ht Hj) as Hr.
    destruct (readMembers_total j always (places cs) (blank cs)) as [m' Hm']; [intros; by eexists; apply Hr |].
    unfold fromJson. rewrite Hm'. f_equal.
    apply (model_eq cs); [by eapply readMembers_sized, blank_sized | rewrite length_map; apply Hs |].
    intros i Hi. destruct (lookup_lt_is_Some_2 cs i Hi) as [c Hc]. pose proof (places_at _ _ _ Hc) as Hin.
    destruct (readMembers_at cs j always _ _ _ (i, c) (places_distinct cs) (blank_sized cs) Hm' Hin)
      as (m1 & m2 & H12 & [Hl1 Hl2] & Hf1 & _ & Hf & Hdirty). simpl in *.
    change (always c) with true in H12. rewrite (Hr (i, c) m1 Hin) in H12. injection H12 as <-. rewrite Hf, Hdirty. clear Hf Hdirty Hm'.
    assert (Hat : default None (map reread (m_fields m) !! i) = reread (field i m)).
    { change (@map) with (@fmap list list_fmap). rewrite list_lookup_fmap. unfold field. by destruct (m_fields m !! i). }
    simpl. rewrite Hat. destruct (reread (field i m)) as [v|].
    + destruct (setField_same cs i (Some v) m1 (conj Hl1 Hl2) Hi) as [H1 H2]. by split.
    + split; [change (field i m1 = None); by rewrite Hf1, blank_field |].
      unfold is_dirty. simpl. by rewrite list_lookup_insert_eq by lia.
  - intros [[]|] H; try done. by destruct (H t).
  - intros t H. simpl. unfold parseDate. by rewrite H.
  - intros t secs H. simpl. unfold parseDate. rewrite H. simpl. by rewrite Z.add_0_r.
  - intros t secs ds H Hd Hl. simpl. unfold parseDate. rewrite H. simpl. by rewrite atol_padded.
Qed.

(** ** Validating *)

Context (wideLength : string -> option Z).

Lemma andThen_valid a b : andThen a b = Valid -> a = Valid /\ b = Valid.
Proof. by destruct a. Qed.

Lemma validateMembers_at cs j creation absent ics ic :
  validateMembers wideLength cs j creation byName absent ics = Valid -> In ic ics ->
  exists r, jfind j (columnName ic) = Some r /\
    match r with
    | Some v => validJsonOfField wideLength cs (fst ic) (columnName ic) v creation = Valid
    | None => absent (snd ic) (byName ic) = None
    end.
Proof.
  induction ics as [|ic' ics IH]; [done |]. simpl. unfold accessing, isMember, index, get. intros H Hin.
  destruct (jfind j (c_name (snd ic'))) as [r|] eqn:Hr; [|done]. cbn in H.
  destruct r as [v|]; cbn in H.
  - apply andThen_valid in H as [Hv H]. destruct Hin as [<-|Hin]; [|by apply IH]. by exists (Some v).
  - destruct (absent (snd ic') (byName ic')) eqn:Ha; [done |]. destruct Hin as [<-|Hin]; [|by apply IH]. by exists None.
Qed.

(** What a valid member is. *)
Lemma valid_field cs i c name v :
  cs !! i = Some c -> validJsonOfField wideLength cs i name v true = Valid ->
  (isNull v = true /\ c_notNull c = false) \/
  (isNull v = false /\ c_auto c = false /\ exists x, jsonValue strptime c v = Some x /\
     (c_type c <> TDate -> x <> None) /\ (forall y, x = Some y -> isOfType (c_type c) y) /\
     forall s, x = Some (VText s) -> c_length c <> 0 -> exists n, wideLength (cString s) = Some n /\ n <= c_length c).
Proof.
  unfold validJsonOfField, validLength, accessing, jsonValue. intros ->. destruct (isNull v).
  { destruct (c_notNull c); [done |]. by left. }
  destruct (c_auto c); [done |]. simpl. intros H. right. do 2 (split; [done |]). revert H.
  destruct (c_type c) eqn:Et; simpl.
  - destruct (isInt64 v) eqn:Hi; [|done]. intros _. destruct (int64_value v Hi) as [z ->]. eexists.
    split; [done |]. split; [done |]. by split; intros ? [= <-].
  - destruct (isString v) eqn:Hi; [|done]. destruct (string_text v Hi) as [s ->]. simpl. intros H. eexists.
    split; [done |]. split; [done |]. split; [by intros ? [= <-] |]. intros s' [= <-] Hl. revert H.
    destruct (Z.eqb_spec (c_length c) 0); [done |]. destruct (wideLength (cString s)) as [len|]; [|done].
    destruct (Z.ltb_spec (c_length c) len); [done |]. intros _. exists len. split; [done | lia].
  - destruct (isBool v) eqn:Hi; [|done]. intros _. destruct (bool_value v Hi) as [b ->]. eexists.
    split; [done |]. split; [done |]. by split; intros ? [= <-].
  - destruct (isString v) eqn:Hi; [|done]. intros _. destruct (string_text v Hi) as [s ->]. simpl. eexists.
    split; [done |]. split; [done |]. split; [by intros y; destruct (parseDate strptime s); intros [= <-] |].
    intros s'. by destruct (parseDate strptime s).
Qed.

(** What reading makes of the member of a column that is valid. *)
Lemma valid_column cs j m i c :
  validateJsonForCreation wideLength cs j = Valid -> readAll j byName always (places cs) (blank cs) = Some m ->
  cs !! i = Some c ->
  (required c = false /\ is_dirty i m = false /\ field i m = None) \/
  (is_dirty i m = true /\
     ((c_notNull c = false /\ field i m = None) \/
      (c_auto c = false /\ (c_type c <> TDate -> field i m <> None) /\
       (forall y, field i m = Some y -> isOfType (c_type c) y) /\
       forall s, field i m = Some (VText s) -> c_length c <> 0 -> exists n, wideLength (cString s) = Some n /\ n <= c_length c))).
Proof.
  intros Hv Hr Hc. pose proof (places_at _ _ _ Hc) as Hin. pose proof (lookup_lt_Some _ _ _ Hc) as Hi.
  destruct (validateMembers_at _ _ _ _ _ _ Hv Hin) as (r & Hf & Hval).
  destruct (readMembers_at cs j always _ _ _ (i, c) (places_distinct cs) (blank_sized cs) Hr Hin)
    as (m1 & m2 & H12 & Hs1 & Hf1 & Hd1 & Hf2 & Hd2). simpl in *. rewrite Hf2, Hd2. clear Hf2 Hd2.
  rewrite blank_field in Hf1. rewrite blank_clean in Hd1. rewrite (readMember_found _ _ _ _ _ _ Hf) in H12.
  destruct (setField_same cs i None m1 Hs1 Hi) as [Hmark _]. change (is_dirty i (mark i m1) = true) in Hmark.
  destruct r as [v|]; [right | left].
  2: { injection H12 as <-. unfold absentAtCreation in Hval. simpl in Hval. by destruct (required c). }
  change (always c) with true in H12. cbv beta iota zeta in H12.
  destruct (valid_field _ _ _ _ _ Hc Hval) as [[Hnull Hnn]|(Hnull & Ha & x & Hx & H1 & H2 & H3)]; rewrite Hnull in H12.
  - injection H12 as <-. split; [done |]. by left.
  - simpl in H12. rewrite Hx in H12. injection H12 as <-. destruct x as [y|].
    + destruct (setField_same cs i (Some y) m1 Hs1 Hi) as [Hd Hfy]. split; [exact Hd |]. right.
      change (field i (store i (Some y) (mark i m1))) with (field i (setField i (Some y) m1)). by rewrite Hfy.
    + split; [done |]. right. change (field i (mark i m1)) with (field i m1). by rewrite Hf1.
Qed.

(** What is valid is read without an exception. *)
Lemma valid_readable cs j :
  validateJsonForCreation wideLength cs j = Valid -> exists m, readAll j byName always (places cs) (blank cs) = Some m.
Proof.
  intros Hv. apply readMembers_total. intros [i c] m Hin. destruct (validateMembers_at _ _ _ _ _ _ Hv Hin) as (r & Hr & Hval).
  rewrite (readMember_found _ _ _ _ _ _ Hr). destruct r as [v|]; [|by eexists]. simpl in *.
  destruct (valid_field _ _ _ _ _ (places_in _ _ _ Hin) Hval) as [[-> _]|(-> & _ & x & -> & _)]; by eexists.
Qed.

(** C29. What validateJsonForCreation accepts can be read: the constructor throws
    nothing, and makes a model whose members have the types of their columns, whose
    texts keep the lengths of theirs, in which every column the database has no value
    for is set (dates apart) and marked, and which does not name an automatic key. *)
Theorem valid_json_makes_model cs j :
  validateJsonForCreation wideLength cs j = Valid ->
  exists m, fromJson strptime cs j = Some m /\ sized cs m /\ typed cs m /\
    forall i c, cs !! i = Some c ->
      (c_notNull c = true -> c_auto c = false -> c_default c = false ->
         is_dirty i m = true /\ (c_type c <> TDate -> field i m <> None)) /\
      (c_auto c = true -> c_notNull c = true -> is_dirty i m = false) /\
      (forall s, field i m = Some (VText s) -> c_length c <> 0 ->
         exists n, wideLength (cString s) = Some n /\ n <= c_length c).
Proof.
  intros Hv. destruct (valid_readable cs j Hv) as [m Hr]. exists m. split; [exact Hr |].
  split; [by eapply readMembers_sized, blank_sized |]. split.
  - intros i c y Hc Hf. destruct (valid_column _ _ _ _ _ Hv Hr Hc) as [(_ & _ & ?)|[_ [[_ ?]|(_ & _ & H & _)]]];
      [congruence.. | by apply H].
  - intros i c Hc. destruct (valid_column _ _ _ _ _ Hv Hr Hc) as [(Hq & Hd & Hf)|[Hd [[Hnn Hf]|(Ha & H1 & _ & H3)]]].
    + unfold required in Hq. rewrite Hf. split; [|done]. intros H1 H2 H3. by rewrite H1, H2, H3 in Hq.
    + rewrite Hnn, Hf. by repeat split.
    + rewrite Ha. by repeat split.
Qed.
End Json.

(** ** Examples *)

Definition sample_strptime (s : string) : option (Z * string) := Some (1704067200, ".25").
Definition sample_toDbStringLocal (t : Z) : string := "2024-01-01 00:00:00.250000".
Definition sample_wideLength (s : string) : option Z := Some (Z.of_nat (String.length s)).

Definition dated_order : model := PayOrder.setCreatedAt 1704067200250000 sample_order.

Lemma json_roundtrip_witness :
  exists j, PayOrder.toJson (J := Tree.lib []) sample_toDbStringLocal dated_order = Some j /\
    PayOrder.fromJson (J := Tree.lib []) sample_strptime j =
      Some (Model (m_fields dated_order) (map (fun _ => true) PayOrder.metaData_)).
Proof.
  refine (proj1 (json_roundtrip (J := Tree.lib []) sample_strptime sample_toDbStringLocal PayOrder.metaData_ dated_order _ _ _)).
  - by apply distinct_names.
  - by split.
  - intros i c v Hc Hf. do 11 (destruct i as [|i]; [by injection Hc as <-; first [injection Hf as <- | discriminate Hf] |]). done.
Defined.

(** At midnight the printed text has no time, and [strptime] reads no date in it. *)
Example midnight_is_lost :
  match PayOrder.toJson (J := Tree.lib []) (fun _ => "2024-01-01") dated_order with
  | Some j => PayOrder.fromJson (J := Tree.lib []) (fun _ => None) j =
      Some (Model (map (fun v => match v with Some (VDate _) => None | _ => v end) (m_fields dated_order))
             (map (fun _ => true) PayOrder.metaData_))
  | None => False
  end.
Proof. by vm_compute. Qed.

Definition sample_payment : Tree.tree :=
  Tree.TObject [("payment_no", Tree.TString "P1"); ("order_no", Tree.TString "ORD1"); ("amount", Tree.TString "9.99");
                ("channel_trade_no", Tree.TNull)].

Lemma valid_json_makes_model_witness :
  PayPayment.validateJsonForCreation (J := Tree.lib []) sample_wideLength sample_payment = Valid /\
  exists m, PayPayment.fromJson (J := Tree.lib []) sample_strptime sample_payment = Some m /\ sized PayPayment.metaData_ m.
Proof.
  split; [reflexivity |].
  destruct (valid_json_makes_model (J := Tree.lib []) sample_strptime sample_wideLength PayPayment.metaData_ sample_payment)
    as (m & Hm & Hs & _); [reflexivity |].
  by exists m.
Defined.

(** A null member marks its column and leaves the value: the next UPDATE writes the
    old value, not NULL. *)
Example null_member_keeps_value :
  match PayOrder.updateByJson (J := Tree.lib []) sample_strptime (Tree.TObject [("title", Tree.TNull)]) sample_order with
  | Some m => PayOrder.getValueOfTitle m = "Tea" /\ In "title" (PayOrder.updateColumns m) /\
              In (Some (VText "Tea")) (PayOrder.updateArgs m)
  | None => False
  end.
Proof. by vm_compute; repeat split; auto 10. Qed.

(** A text that is no date is valid for a column that is NOT NULL; NULL is bound for it. *)
Example unreadable_date_is_valid :
  let j := Tree.TObject [("payment_no", Tree.TString "P1"); ("order_no", Tree.TString "ORD1"); ("amount", Tree.TString "1");
                         ("created_at", Tree.TString "tomorrow")] in
  PayPayment.validateJsonForCreation (J := Tree.lib []) sample_wideLength j = Valid /\
  match PayPayment.fromJson (J := Tree.lib []) (fun _ => None) j with
  | Some m => PayPayment.outputArgs m = [Some (VText "P1"); Some (VText "ORD1"); Some (VText "1"); None]
  | None => False
  end.
Proof. by vm_compute. Qed.
