(* ===== verification/OrmRows.v ===== *)
(** * The rows the services write through the model classes.

    The services build models with setters and give them to drogon's [Mapper]; the
    services' files have a statement of [Store] with the row instead.  Here are the
    models as the services build them, and the theorems that the INSERT and the UPDATE
    of each write what [RefDb] writes for its statement. *)
From S2P Require Import Prelude Cxx Json Effects Store Amount Rfc3339 RefDb Callback Service RefundService PaymentService.
From S2P Require Import PaymentCreate QrPayment RefundCallback Orm OrmStatements.
From S2P Require PayOrder PayPayment PayRefund PayCallback PayLedger.
Import PaymentCreate.Creates.

(** ** The models *)

Section Models.
Context `{J : JsonLib}.

Definition newOrder (request : create_request) (createdAt : Z) : model :=
  let order := blank PayOrder.metaData_ in
  let order := PayOrder.setOrderNo (cr_orderNo request) order in
  let order := PayOrder.setUserId (cr_userId request) order in
  let order := PayOrder.setAmount (cr_amount request) order in
  let order := PayOrder.setCurrency (cr_currency request) order in
  let order := PayOrder.setStatus "CREATED" order in
  let order := PayOrder.setChannel (cr_channel request) order in
  let order := PayOrder.setTitle (cr_description request) order in
  let order := PayOrder.setCreatedAt createdAt order in
  match expireAt (cr_timeExpire request) with
  | Some date => PayOrder.setExpireAt date order
  | None => order
  end.

Definition newQrOrder (q : qr_request) (currency : string) : model :=
  let newOrder := blank PayOrder.metaData_ in
  let newOrder := PayOrder.setOrderNo (q_orderNo q) newOrder in
  let newOrder := PayOrder.setAmount (q_amount q) newOrder in
  let newOrder := PayOrder.setCurrency currency newOrder in
  let newOrder := PayOrder.setStatus "CREATED" newOrder in
  let newOrder := PayOrder.setChannel (q_channel q) newOrder in
  let newOrder := PayOrder.setTitle (q_subject q) newOrder in
  let newOrder := PayOrder.setUserId (q_userId q) newOrder in
  match expireAt (q_timeExpire q) with
  | Some date => PayOrder.setExpireAt date newOrder
  | None => newOrder
  end.

(** Of a creation and of a QR payment. *)
Definition newPayment (orderNo paymentNo amount requestPayload : string) (createdAt : Z) : model :=
  let payment := blank PayPayment.metaData_ in
  let payment := PayPayment.setOrderNo orderNo payment in
  let payment := PayPayment.setPaymentNo paymentNo payment in
  let payment := PayPayment.setStatus "INIT" payment in
  let payment := PayPayment.setAmount amount payment in
  let payment := PayPayment.setRequestPayload requestPayload payment in
  PayPayment.setCreatedAt createdAt payment.

Definition newRefund (refundNo orderNo paymentNo amount : string) (createdAt : Z) : model :=
  let refund := blank PayRefund.metaData_ in
  let refund := PayRefund.setRefundNo refundNo refund in
  let refund := PayRefund.setOrderNo orderNo refund in
  let refund := PayRefund.setPaymentNo paymentNo refund in
  let refund := PayRefund.setStatus "REFUND_INIT" refund in
  let refund := PayRefund.setAmount amount refund in
  PayRefund.setCreatedAt createdAt refund.

Definition newCallback (paymentNo body signature serialNo : string) (receivedAt : Z) : model :=
  let callbackRow := blank PayCallback.metaData_ in
  let callbackRow := PayCallback.setPaymentNo paymentNo callbackRow in
  let callbackRow := PayCallback.setRawBody body callbackRow in
  let callbackRow := PayCallback.setSignature signature callbackRow in
  let callbackRow := PayCallback.setSerialNo serialNo callbackRow in
  let callbackRow := PayCallback.setVerified true callbackRow in
  let callbackRow := PayCallback.setProcessed true callbackRow in
  PayCallback.setReceivedAt receivedAt callbackRow.

(** Of the payment and the refund service: without a payment number the column is NULL. *)
Definition newLedger (userId : Z) (orderNo paymentNo entryType amount : string) (createdAt : Z) : model :=
  let ledger := blank PayLedger.metaData_ in
  let ledger := PayLedger.setUserId userId ledger in
  let ledger := PayLedger.setOrderNo orderNo ledger in
  let ledger := if is_empty paymentNo then PayLedger.setPaymentNoToNull ledger
                else PayLedger.setPaymentNo paymentNo ledger in
  let ledger := PayLedger.setEntryType entryType ledger in
  let ledger := PayLedger.setAmount amount ledger in
  PayLedger.setCreatedAt createdAt ledger.

(** Of the notification service. *)
Definition newIncome (userId : Z) (orderNo paymentNo entryType amount : string) (createdAt : Z) : model :=
  let ledger := blank PayLedger.metaData_ in
  let ledger := PayLedger.setUserId userId ledger in
  let ledger := PayLedger.setOrderNo orderNo ledger in
  let ledger := PayLedger.setPaymentNo paymentNo ledger in
  let ledger := PayLedger.setEntryType entryType ledger in
  let ledger := PayLedger.setAmount amount ledger in
  PayLedger.setCreatedAt createdAt ledger.

Definition failedPayment (errPayload : string) (payment : model) : model :=
  PayPayment.setResponsePayload errPayload (PayPayment.setStatus "FAIL" payment).

Definition refundOutcome (refundStatus refundId : string) (refund : model) : model :=
  PayRefund.setChannelRefundNo refundId (PayRefund.setStatus refundStatus refund).
End Models.

(** ** Tables and their rows *)

Inductive table := Orders | Payments | Refunds | Callbacks | Ledgers.

Definition columnsOf (t : table) : list column :=
  match t with
  | Orders => PayOrder.metaData_
  | Payments => PayPayment.metaData_
  | Refunds => PayRefund.metaData_
  | Callbacks => PayCallback.metaData_
  | Ledgers => PayLedger.metaData_
  end.

(** A row as the value of each column. *)
Abbreviation values := (string -> option value).

Definition optionalText (v : option value) : option string := match v with Some (VText s) => Some s | _ => None end.
Definition optionalDate (v : option value) : option Z := match v with Some (VDate t) => Some t | _ => None end.

Definition order_of (r : values) : order_row :=
  OrderRow (intValue (r "id")) (textValue (r "order_no")) (intValue (r "user_id")) (textValue (r "amount"))
    (textValue (r "currency")) (textValue (r "status")) (textValue (r "channel")) (textValue (r "title"))
    (dateValue (r "created_at")) (optionalDate (r "expire_at")).

Definition payment_of (r : values) : payment_row :=
  PaymentRow (textValue (r "payment_no")) (textValue (r "order_no")) (textValue (r "status")) (textValue (r "amount"))
    (optionalText (r "response_payload")) (optionalText (r "channel_trade_no")) (dateValue (r "created_at"))
    (optionalText (r "request_payload")).

Definition refund_of_values (r : values) : refund_row :=
  RefundRow (intValue (r "id")) (textValue (r "refund_no")) (textValue (r "order_no")) (textValue (r "payment_no"))
    (textValue (r "status")) (textValue (r "amount")) (optionalText (r "channel_refund_no"))
    (optionalText (r "response_payload")) (dateValue (r "updated_at")).

Definition callback_of (r : values) : callback_row :=
  CallbackRow (textValue (r "payment_no")) (textValue (r "raw_body")) (textValue (r "signature"))
    (textValue (r "serial_no")) (boolValue (r "verified")) (boolValue (r "processed")) (dateValue (r "received_at")).

Definition ledger_of (r : values) : ledger_row :=
  LedgerRow (intValue (r "user_id")) (textValue (r "order_no")) (textValue (r "payment_no"))
    (textValue (r "entry_type")) (textValue (r "amount")) (dateValue (r "created_at")).

(** The defaults of [001_init_pay_tables.sql]. *)
Definition server (now : Z) (d : db) (t : table) : values := fun name =>
  match t with
  | Orders =>
      if String.eqb name "id" then Some (VInt (1 + fold_right Z.max 0 (map o_id (d_orders d))))
      else if String.eqb name "currency" then Some (VText "CNY")
      else if String.eqb name "status" then Some (VText "CREATED")
      else if String.eqb name "channel" then Some (VText "alipay")
      else if String.eqb name "created_at" || String.eqb name "updated_at" then Some (VDate now) else None
  | Payments =>
      if String.eqb name "status" then Some (VText "INIT")
      else if String.eqb name "created_at" || String.eqb name "updated_at" then Some (VDate now) else None
  | Refunds =>
      if String.eqb name "id" then Some (VInt (fresh_id (d_refunds d)))
      else if String.eqb name "status" then Some (VText "REFUND_INIT")
      else if String.eqb name "created_at" || String.eqb name "updated_at" then Some (VDate now) else None
  | Callbacks =>
      if String.eqb name "verified" || String.eqb name "processed" then Some (VBool false)
      else if String.eqb name "received_at" then Some (VDate now) else None
  | Ledgers => if String.eqb name "created_at" then Some (VDate now) else None
  end.

Definition add (t : table) (r : values) (d : db) : db :=
  match t with
  | Orders => with_orders (fun rs => rs ++ [order_of r])%list d
  | Payments => with_payments (fun rs => rs ++ [payment_of r])%list d
  | Refunds => with_refunds (fun rs => rs ++ [refund_of_values r])%list d
  | Callbacks => with_callbacks (fun rs => rs ++ [callback_of r])%list d
  | Ledgers => with_ledgers (fun rs => rs ++ [ledger_of r])%list d
  end.

(** A statement adds the row of a model, or nothing when it fails. *)
Definition writes (sum_text : list string -> string) (now : Z) (t : table) (m : model) (q : stmt unit) (d : db) : Prop :=
  match exec sum_text now q d with
  | (Ok _, f) => f d = add t (inserted (server now d t) (insertion (columnsOf t) m)) d
  | (_, f) => f d = d
  end.

(** C18. Every INSERT of the services refines its statement: whatever the request and
    the tables, the row that the model's INSERT makes, with the values its setters
    stored, NULL where a setter said so and the server's defaults elsewhere, is the row
    that the statement adds; a duplicate adds nothing.  This holds for the orders of
    both routes, the attempts, the refunds, the notifications and the ledger entries of
    all three services. *)
Theorem inserts_refine `{J : JsonLib} sum_text now d :
  (forall request createdAt,
     writes sum_text now Orders (newOrder request createdAt)
       (InsertOrder (cr_orderNo request) (cr_userId request) (cr_amount request) (cr_currency request) "CREATED"
          (cr_channel request) (cr_description request) (Some createdAt) (expireAt (cr_timeExpire request))) d) /\
  (forall q currency,
     writes sum_text now Orders (newQrOrder q currency)
       (InsertOrder (q_orderNo q) (q_userId q) (q_amount q) currency "CREATED" (q_channel q) (q_subject q) None
          (expireAt (q_timeExpire q))) d) /\
  (forall orderNo paymentNo amount payload createdAt,
     writes sum_text now Payments (newPayment orderNo paymentNo amount payload createdAt)
       (InsertPayment paymentNo orderNo "INIT" amount payload createdAt) d) /\
  (forall refundNo orderNo paymentNo amount createdAt,
     writes sum_text now Refunds (newRefund refundNo orderNo paymentNo amount createdAt)
       (InsertRefund refundNo orderNo paymentNo "REFUND_INIT" amount) d) /\
  (forall paymentNo body signature serialNo receivedAt,
     writes sum_text now Callbacks (newCallback paymentNo body signature serialNo receivedAt)
       (InsertCallback (CallbackRow paymentNo body signature serialNo true true receivedAt)) d) /\
  (forall userId orderNo paymentNo entryType amount createdAt,
     writes sum_text now Ledgers (newLedger userId orderNo paymentNo entryType amount createdAt)
       (InsertLedger (LedgerRow userId orderNo paymentNo entryType amount createdAt)) d) /\
  (forall userId orderNo paymentNo entryType amount createdAt,
     writes sum_text now Ledgers (newIncome userId orderNo paymentNo entryType amount createdAt)
       (InsertLedger (LedgerRow userId orderNo paymentNo entryType amount createdAt)) d).
Proof.
  unfold writes. simpl exec. repeat split; intros.
  - destruct (existsb _ _); [done |]. unfold newOrder. by destruct (expireAt _).
  - destruct (existsb _ _); [done |]. unfold newQrOrder. by destruct (expireAt _).
  - by destruct (existsb _ _).
  - by destruct (existsb _ _).
  - simpl. destruct (_ && _); [done |]. unfold newLedger. by destruct paymentNo.
  - simpl. by destruct (_ && _).
Qed.

(** ** Updates *)

Definition text_or_null (s : option string) : option value := VText <$> s.

Definition order_values (r : order_row) : values := fun name =>
  if String.eqb name "id" then Some (VInt (o_id r))
  else if String.eqb name "order_no" then Some (VText (o_no r))
  else if String.eqb name "user_id" then Some (VInt (o_user r))
  else if String.eqb name "amount" then Some (VText (o_amount r))
  else if String.eqb name "currency" then Some (VText (o_currency r))
  else if String.eqb name "status" then Some (VText (o_status r))
  else if String.eqb name "channel" then Some (VText (o_channel r))
  else if String.eqb name "title" then Some (VText (o_title r))
  else if String.eqb name "created_at" then Some (VDate (o_created r))
  else if String.eqb name "expire_at" then VDate <$> o_expire r
  else None.

Definition payment_values (r : payment_row) : values := fun name =>
  if String.eqb name "payment_no" then Some (VText (p_no r))
  else if String.eqb name "order_no" then Some (VText (p_order r))
  else if String.eqb name "status" then Some (VText (p_status r))
  else if String.eqb name "amount" then Some (VText (p_amount r))
  else if String.eqb name "request_payload" then text_or_null (p_request r)
  else if String.eqb name "response_payload" then text_or_null (p_response r)
  else if String.eqb name "channel_trade_no" then text_or_null (p_trade_no r)
  else if String.eqb name "created_at" then Some (VDate (p_created r))
  else None.

Definition refund_values (r : refund_row) : values := fun name =>
  if String.eqb name "id" then Some (VInt (r_id r))
  else if String.eqb name "refund_no" then Some (VText (r_no r))
  else if String.eqb name "order_no" then Some (VText (r_order r))
  else if String.eqb name "payment_no" then Some (VText (r_payment r))
  else if String.eqb name "status" then Some (VText (r_status r))
  else if String.eqb name "amount" then Some (VText (r_amount r))
  else if String.eqb name "channel_refund_no" then text_or_null (r_channel_no r)
  else if String.eqb name "response_payload" then text_or_null (r_response r)
  else if String.eqb name "updated_at" then Some (VDate (r_updated r))
  else None.

(** The trigger of [001_init_pay_tables.sql]. *)
Definition touched (now : Z) (r : values) : values := fun name =>
  if String.eqb name "updated_at" then Some (VDate now) else r name.

Lemma order_values_back r : order_of (order_values r) = r.
Proof. destruct r as [? ? ? ? ? ? ? ? ? []]; reflexivity. Qed.

Lemma payment_values_back r : payment_of (payment_values r) = r.
Proof. destruct r as [? ? ? ? [] [] ? []]; reflexivity. Qed.

Lemma refund_values_back r : refund_of_values (refund_values r) = r.
Proof. destruct r as [? ? ? ? ? ? [] [] ?]; reflexivity. Qed.

(** Rows are equal when their columns are. *)
#[global] Instance order_of_proper : Proper (pointwise_relation string eq ==> eq) order_of.
Proof. intros r r' H. unfold order_of. by rewrite !H. Qed.

#[global] Instance payment_of_proper : Proper (pointwise_relation string eq ==> eq) payment_of.
Proof. intros r r' H. unfold payment_of. by rewrite !H. Qed.

#[global] Instance refund_of_proper : Proper (pointwise_relation string eq ==> eq) refund_of_values.
Proof. intros r r' H. unfold refund_of_values. by rewrite !H. Qed.

#[global] Instance touched_proper now : Proper (pointwise_relation string eq ==> pointwise_relation string eq) (touched now).
Proof. intros r r' H name. unfold touched. by rewrite H. Qed.

(** A row after an update of what was set. *)
Definition over (cs : list column) (sets : list (nat * option value)) (r : values) : values := fun name =>
  match List.find (fun ic => String.eqb (columnName ic) name) (places cs) with
  | Some ic => match lastSet (fst ic) sets with
               | Some v => if c_auto (snd ic) then r name else v
               | None => r name
               end
  | None => r name
  end.

Lemma update_over cs sets m r :
  bool_decide (NoDup (map c_name cs)) = true -> sized cs m -> clean m ->
  pointwise_relation string eq
    (updated r (updateColumns cs (setAll sets m)) (updateArgs cs (setAll sets m))) (over cs sets r).
Proof. intros Hd Hs Hc name. apply update_by_name; [by eapply bool_decide_eq_true_1 | done..]. Qed.

(** The update of a model [m'] that was read and then changed by [sets]. *)
Ltac update_read m' sets m back :=
  change m' with (setAll sets m); split; [|by apply setAll_other];
  cbv delta [m PayOrder.updateColumns PayOrder.updateArgs PayPayment.updateColumns PayPayment.updateArgs
             PayRefund.updateColumns PayRefund.updateArgs] beta;
  rewrite update_over by (reflexivity || apply fromRow_sized || apply fromRow_clean);
  rewrite <- back at 2; reflexivity.

Section Updates.
Context (strptime : string -> option (Z * string)) (as_int64 : string -> Z) (as_bool : string -> bool).

(** C19. Every UPDATE of the services through a [Mapper] refines its statement: for a
    model read from any result row, and whatever its row holds by the time of the
    UPDATE, writing the columns and arguments of the changed model changes the row as
    the statement of [RefDb] does and keeps every other column; and the row that is
    addressed is the one that was read.  The triggers set [updated_at]. *)
Theorem updates_refine now (row : sql_row) offset :
  (forall status r (order := PayOrder.fromRow strptime as_int64 as_bool row offset)
          (order' := PayOrder.setStatus status order),
     order_of (touched now (updated (order_values r) (PayOrder.updateColumns order') (PayOrder.updateArgs order')))
       = set_order_status status r /\
     PayOrder.getPrimaryKey order' = PayOrder.getPrimaryKey order) /\
  (forall errPayload r (payment := PayPayment.fromRow strptime as_int64 as_bool row offset)
          (payment' := failedPayment errPayload payment),
     payment_of (touched now (updated (payment_values r) (PayPayment.updateColumns payment') (PayPayment.updateArgs payment')))
       = close_payment_row "FAIL" errPayload r /\
     PayPayment.getPrimaryKey payment' = PayPayment.getPrimaryKey payment) /\
  (forall refundStatus refundId r (refund := PayRefund.fromRow strptime as_int64 as_bool row offset)
          (refund' := refundOutcome refundStatus refundId refund),
     refund_of_values (touched now (updated (refund_values r) (PayRefund.updateColumns refund') (PayRefund.updateArgs refund')))
       = settle_refund_row now refundStatus refundId r /\
     PayRefund.getPrimaryKey refund' = PayRefund.getPrimaryKey refund).
Proof.
  split; [|split]; intros.
  - update_read order' [(5%nat, Some (VText status))] order (order_values_back r).
  - update_read payment' [(3%nat, Some (VText "FAIL")); (6%nat, Some (VText errPayload))] payment (payment_values_back r).
  - update_read refund' [(4%nat, Some (VText refundStatus)); (6%nat, Some (VText refundId))] refund (refund_values_back r).
Qed.

(** The order of a payment is what [GetPayOrder] stands for: one row, or the exception
    that says how many there were. *)
Lemma getPayOrder_exactly_one query m no rows :
  PayPayment.getOrderNo m = Some no -> query "select * from pay_order where order_no = $1" [no] = inr rows ->
  PayPayment.getPayOrder strptime as_int64 as_bool query m =
    Some (match exactly_one rows with
          | Ok r => inr (PayOrder.fromRow strptime as_int64 as_bool r 0)
          | Exc e => inl (what e)
          | Threw w => inl (default "" w)
          end).
Proof. intros Hm Hq. unfold PayPayment.getPayOrder. rewrite Hm. simpl. rewrite Hq. by destruct rows as [|r [|]]. Qed.
End Updates.
